(* ===== verification/_CoqProject ===== *)
-Q . S2P
Prelude.v
Sha256.v
GoFloat.v
Collections.v
StateDB.v
Validators.v
Types.v
P2P.v
Network.v
Consensus.v
Round.v
TxWire.v
Staking.v
Econo.v
TaskRegistry.v
RateLimit.v
Scheduler.v
Governance.v
OraclePre.v
Badges.v
Registries.v
Ledger.v
Sway.v
Faucet.v
StabilityPool.v
TwoWay.v
StateRent.v
TemplateRegistry.v
TrustlessLock.v
SwapRoute.v
WayStablecoin.v
AccountManager.v
Privacy.v
CrossChain.v
MineralRights.v
Machine.v
Frames.v
Vm.v
Chain.v
Genesis.v
Store.v
Rpc.v
Keys.v
Subscriptions.v
Server.v
Daemon.v
OracleClient.v
