(* ===== verification/Prelude.v ===== *)
(** * WayChain consensus node: a verification development

    The repository is a Go implementation of a blockchain node: validators
    registered with stakes, a round-based consensus over TCP, an execution layer
    whose system contracts ("precompiles" at the addresses 0x0C to 0x27) are Go
    functions, a bridge to revm for bytecode, and a bbolt database.  This library
    translates the node's deterministic logic from the sources under src/ and
    proves what makes it correct.  Definitions keep the names of the Go functions
    they translate; a definition with no Go counterpart of its own is a named part
    of one (a guard, a record layout, a storage key), so that lemmas can speak of
    it.

    ** The program and the files

    Foundations.
    - [Prelude]: bytes, machine integers, big-endian encodings, big.Int helpers,
      Go slices, and the state-and-error monad [M] of all handlers with its
      inversion tactics ([inv_go], [zbool]) and hint databases.
    - [Sha256], [GoFloat]: crypto/sha256 and float64, executable.
    - [Collections]: the interfaces [SortSlice] (sort.Slice need not be stable) and
      [MapRange] (a range over a map comes in any order).
    - [StateDB]: evm/state.go, the [World] (accounts, logs and the package-level
      variables of package evm), storage slots, and the frame reasoning
      ([respects], [frame_auto], [inv_run], [collision_free]).
    - [Ledger], [Frames]: what all handlers share, conservation of sums over
      accounts and the invariance of nonces and code.

    Consensus side (package main).
    - [Validators] validators.go and types.go; [Types] types.go; [Consensus]
      consensus.go; [Round] consensus_round.go; [TxWire] serialize.go;
      [RateLimit] rate_limit.go; [Staking] progressive_staking.go and
      evm/inflation.go; [Chain] chain.go; [Genesis] genesis.go; [Store]
      store/store.go with the persistence methods of chain.go; [Keys] crypto.go.
    - [P2P], the node of p2p.go as its clients see it, with the broadcasts of
      p2p_daemon.go; [Network], the rest of p2p.go: peers, connections, read loops
      and heartbeats, as atomic actions on a network of nodes.

    The process and its clients.
    - [Rpc]: the method table of rpc.go, with the JSON shapes of serialize.go and
      the views of evm/stats_read.go; [Subscriptions]: rpc_ws.go; [Server]: the
      HTTP and WebSocket front of rpc.go behind the limiter; [Daemon]: the node
      process of cli.go (start-up, block loop, shutdown) and the peer list of
      node.go; [OracleClient]: oracle/client.go.

    Execution side (package evm).
    - [Vm]: dispatch, creation and the revm bridge (interpreter.go, precompiles.go,
      keccak_precompile.go, deploy.go, revm_bridge.go); [Machine]: opcodes.go and
      the stack and memory of interpreter.go.
    - One file per precompile or family: [OraclePre] 0x0C and 0x0E-0x12,
      [Scheduler] 0x0D, [Badges] 0x13-0x14, [Registries] 0x15-0x17, [TwoWay] 0x18,
      [StabilityPool] 0x19, [TrustlessLock] 0x1A, [AccountManager] 0x1B, [Privacy]
      0x1C, [Governance] 0x1D, [StateRent] 0x1E, [CrossChain] 0x1F, [MineralRights]
      0x20, 0x21 in [Vm], [WayStablecoin] 0x22, [TaskRegistry] 0x23, [Sway] 0x24,
      [SwapRoute] 0x25, [TemplateRegistry] 0x26, [Faucet] 0x27 with
      genesis_seed.go.  [Econo] is econo_loop.go, which several of them feed.

    They interact as in the code: [Chain.ProduceBlock] takes transactions from the
    pool, [Vm.Execute] routes each to a precompile, to revm or to a transfer; the
    handlers change the [World]; the scheduled tasks, the economic loop and the
    rewards of [Staking] follow; [Store] writes the result and reads it back.  A
    precompile that calls another (the swap route the SWAY mint and the trustless
    lock, the vault the stability pool, rent, mineral rights and tasks the economic
    loop) calls its definition.  [Genesis] and [Faucet] build the first state.
    [Daemon.boot] opens the database or starts from genesis; [Daemon.tick] produces
    a block, notifies the subscribers, stores the block and announces it to the
    peers; between ticks, [Server.serve] and [Server.handleWS] serve requests on the
    same chain, and a submitted transaction waits in the pool for a tick.

    ** State and errors

    A handler is a function of calldata, caller and block number in the monad
    [M World]: it returns a value, a Go error or a panic, with the state it leaves
    (an error keeps the writes made before it, as in Go).  A panic ends the run.
    An account pointer is an alias of its map entry, so accounts are read and
    written through the map.  Machine integers are [Z] with the wrap-around
    written out ([u8], [u16], [u64], signed [int64] where the code has it);
    big.Int values are unbounded, and the two ways to store one differ as in the
    code ([writeBigInt] fails above 32 bytes, [fill_bytes] panics).  Calldata is a
    slice whose capacity is its length.  Error texts are kept as the format string.
    The error messages and the handlers' event logs are part of the state, the
    Go locks are not: a method that takes its lock is one step.

    Library code is an interface: ed25519 (a parameter [verify], and the class
    [Ed25519] where keys and signatures are made), keccak (a
    parameter), revm (class [Revm]), bbolt and gob (classes [Bolt] and [Codec]),
    sort.Slice and map iteration (classes above), the clock and the addresses
    printed for pointers (record [BlockEnv]).  Theorems hold for every instance;
    each class has a concrete instance, which the witnesses run.  SHA-256 is
    computed; a theorem that needs two storage keys to differ says so
    ([collision_free]) and its witness evaluates the keys.

    ** The theorems

    - Consensus: the registry stays well formed; the active set of an epoch is free
      of duplicates and of the capped size; the finalized height refines a monotone
      log; a block is finalized only with the votes the node counted and the code's
      threshold, which is two thirds rounded down and not the 2/3+ of its comments
      ([Round.threshold_below_two_thirds]).
    - Wire format and store: serialisation and parsing are inverse, and parsing
      gives typed transactions or errors, never a panic; a restarted node has the
      height and the accounts it stored; a stored transaction is found again.
    - Service: the server accepts a transaction exactly when block production would
      execute it, finds it again by its hash, changes nothing on queries, and
      answers the log query with the logs its filter describes; signatures made by
      crypto.go are accepted at both ends; the subscription manager refines a table
      of live subscriptions, and a session leaves none of its own and ends another's
      only by naming it; a node receives only what some node broadcast; the block
      loop makes progress and announces every block.
    - Money: each validator's share of a block, and what is left of the emission,
      are exact, and the payouts of an epoch are capped; the bracket sum equals the
      reference integral; what quest verifications take from the treasury is counted
      and stays under its cap; the SWAY ledger counts what was minted and burned; the
      accumulators of the economic window are the sums of what was accrued.
    - Blocks: no replay, linked blocks, the effect of a transaction on every
      branch, the transfer, and the liveness of the public lane.
    - System contracts: a vault keeps its ratio and nobody is on both sides of the
      stability pool; a time lock holds; account stages (the waiting period apart) and
      mineral claims refine abstract state machines; attestations are capped and single; a stablecoin
      vault obeys its owner only; templates, commitments, switches and rent records
      mean what their queries say; badges, recovery, oracles and proposals answer
      to their rules.

    Every file also records, as proved examples at its end, where the code does
    something its comments or tests do not say.

    ** Fuel and bounds

    Recursion is structural, and the loops of the code are folds over the lists
    they range over.  Hexadecimal printing takes the digit count of its number as
    fuel ([hex_digits_fuel]; [Vm.parseHexBig_fmt_0x] shows it is enough), the
    weight of a validator is ten Newton steps as in the code, and the due-task
    loop of [Scheduler] is bounded by theorem.  The loop over the peer list takes
    more than the length of the text ([Daemon.peer_list_split] shows it is
    enough).  Arithmetic bounds are explicit
    hypotheses ([is_u64], slot contents of 32 bytes) that hold of every Go value
    of the type.

    ** Not modelled

    - main.go and oracle_demo.go (programs that print runs of operations modelled
      here), the flags, paths, environment variables and log lines of cli.go and
      node.go, the report loop of node.go, and revm-ffi (Rust, behind a class).
    - Sockets, HTTP headers beyond those read, the encodings gob and JSON as text,
      and real time: a schedule of [Network.act], a list of ticks, or the times of
      requests stand for them.  A request handler and a tick run alone; the locks
      of the code do not force that, which is recorded as a finding.
    - I/O failures other than those the store's transactions report, goroutine
      interleavings inside one locked method, and the print callbacks.
    - The range call of the privacy precompile writes its bounds into the
      calldata it was given; [Privacy.range_input_after] is that write, and the
      transaction of [Chain] keeps its data. *)

From Stdlib Require Import ZArith Lia Decimal DecimalN Ascii.
From stdpp Require Export strings numbers option base gmap.
From stdpp Require Export list.

Import ListNotations.
#[global] Set Default Goal Selector "1".
Open Scope Z_scope.

(** ** Bytes

    A Go [byte] is a [Z] in [0, 256); a Go [string] and a Go [[]byte] are both
    byte sequences, and the conversions between them are identities. *)

Abbreviation bytes := (list Z).

Definition is_byte (b : Z) : Prop := 0 <= b < 256.
Abbreviation wf_bytes := (Forall is_byte).

(** String literals of the source. *)
Fixpoint lit (s : string) : bytes :=
  match s with
  | EmptyString => []
  | String a s => Z.of_N (N_of_ascii a) :: lit s
  end.

(** ** Machine integers *)

Definition u64 (z : Z) : Z := z mod 2 ^ 64.
Definition u32 (z : Z) : Z := z mod 2 ^ 32.
Definition u16 (z : Z) : Z := z mod 2 ^ 16.
Definition u8 (z : Z) : Z := z mod 2 ^ 8.
Definition is_u64 (z : Z) : Prop := 0 <= z < 2 ^ 64.

(** Two's complement reading of a 64-bit word (Go's [int64] and [int]). *)
Definition i64 (z : Z) : Z := (z + 2 ^ 63) mod 2 ^ 64 - 2 ^ 63.

(** ** Big-endian encodings *)

(** [big.Int.SetBytes] and [binary.BigEndian.Uint64]: the value of a
    big-endian byte string. *)
Fixpoint be_acc (acc : Z) (b : bytes) : Z :=
  match b with
  | [] => acc
  | x :: b => be_acc (acc * 256 + x) b
  end.
Definition be_dec (b : bytes) : Z := be_acc 0 b.

(** The low [n] bytes of [z], most significant first. *)
Fixpoint be_enc (n : nat) (z : Z) : bytes :=
  match n with
  | O => []
  | S n => (z / 256 ^ Z.of_nat n) mod 256 :: be_enc n z
  end.

(** Number of bytes of the magnitude of a [big.Int]. *)
Definition nbytes (z : Z) : nat :=
  if z =? 0 then 0%nat else Z.to_nat (Z.log2 (Z.abs z) / 8 + 1).

(** [big.Int.Bytes]: the minimal big-endian magnitude (the sign is dropped). *)
Definition big_bytes (z : Z) : bytes := be_enc (nbytes z) (Z.abs z).

(** [big.Int.Uint64]: the low 64 bits of the magnitude. *)
Definition big_u64 (z : Z) : Z := u64 (Z.abs z).

Definition zeros (n : nat) : bytes := replicate n 0.
Abbreviation zero32 := (zeros 32).

(** ** Slices and in-place copies *)

Fixpoint chunks {A} (k n : nat) (l : list A) : list (list A) :=
  match k with
  | O => []
  | S k => take n l :: chunks k n (drop n l)
  end.

(** [copy(dst[off:], src)]: as many bytes as fit. *)
Definition copy_at (off : nat) (src dst : bytes) : bytes :=
  take off dst ++ take (length dst - off) src ++ drop (off + length src) dst.

(** ** Results of Go code

    A call returns, returns a non-nil [error] (the model keeps the format
    string), or panics. *)
Inductive outcome (A : Type) : Type :=
| Ok (a : A)
| Err (msg : string)
| Panic.
Arguments Ok {A} a.
Arguments Err {A} msg.
Arguments Panic {A}.

Definition is_ok {A} (o : outcome A) : bool :=
  match o with Ok _ => true | _ => false end.

(** Stateful Go code: the state survives an error, because nothing in the
    program rolls it back. *)
Definition M (S A : Type) : Type := S -> outcome A * S.

#[export] Instance M_ret {S} : MRet (M S) := fun A a s => (Ok a, s).
#[export] Instance M_bind {S} : MBind (M S) := fun A B f m s =>
  match m s with
  | (Ok a, s') => f a s'
  | (Err e, s') => (Err e, s')
  | (Panic, s') => (Panic, s')
  end.

Definition fail {S A} (e : string) : M S A := fun s => (Err e, s).
Definition panic {S A} : M S A := fun s => (Panic, s).
Definition gets {S A} (f : S -> A) : M S A := fun s => (Ok (f s), s).
Definition modify {S} (f : S -> S) : M S unit := fun s => (Ok tt, f s).

(** [if cond { return nil, fmt.Errorf(msg) }]. *)
Definition guard_err {S} (c : bool) (e : string) : M S unit :=
  if c then fail e else mret tt.

(** An operation that panics on [None]. *)
Definition must {S A} (o : option A) : M S A :=
  match o with Some a => mret a | None => panic end.

(** Sequencing for handlers. *)
Declare Scope go_scope.
Delimit Scope go_scope with go.
Notation "'let*' x := m 'in' k" := (mbind (M := M _) (fun x => k) m)
  (at level 10, x pattern, m at level 200, k at level 200,
   format "'[hv' 'let*'  x  :=  m  'in'  '//' k ']'") : go_scope.
Notation "m ;;; k" := (mbind (M := M _) (fun _ => k) m)
  (at level 199, k at level 200, right associativity,
   format "'[v' m  ;;; '//' k ']'") : go_scope.

(** [b[i:j]] on a slice whose capacity is its length. *)
Definition slice (b : bytes) (i j : Z) : option bytes :=
  if (0 <=? i) && (i <=? j) && (j <=? Z.of_nat (length b))
  then Some (take (Z.to_nat (j - i)) (drop (Z.to_nat i) b))
  else None.

(** [b[i]]. *)
Definition index (b : bytes) (i : Z) : option Z :=
  if 0 <=? i then b !! Z.to_nat i else None.

(** Total byte read, for offsets the code has already checked. *)
Definition byte_at (b : bytes) (i : nat) : Z := nth i b 0.

(** [big.Int.FillBytes] on an [n]-byte buffer: panics when the magnitude does
    not fit. *)
Definition fill_bytes (n : nat) (z : Z) : option bytes :=
  if Z.abs z <? 256 ^ Z.of_nat n then Some (be_enc n (Z.abs z)) else None.

Definition bool_byte (b : bool) : Z := if b then 1 else 0.

(** ** fmt verbs *)

Fixpoint uint_bytes (d : Decimal.uint) : bytes :=
  match d with
  | Decimal.Nil => []
  | Decimal.D0 d => 48 :: uint_bytes d
  | Decimal.D1 d => 49 :: uint_bytes d
  | Decimal.D2 d => 50 :: uint_bytes d
  | Decimal.D3 d => 51 :: uint_bytes d
  | Decimal.D4 d => 52 :: uint_bytes d
  | Decimal.D5 d => 53 :: uint_bytes d
  | Decimal.D6 d => 54 :: uint_bytes d
  | Decimal.D7 d => 55 :: uint_bytes d
  | Decimal.D8 d => 56 :: uint_bytes d
  | Decimal.D9 d => 57 :: uint_bytes d
  end.

(** [%d] of an unsigned integer. *)
Definition fmt_d (z : Z) : bytes := uint_bytes (N.to_uint (Z.to_N z)).

(** [%d] of a signed integer, and [big.Int.String]. *)
Definition fmt_int (z : Z) : bytes :=
  if z <? 0 then 45 :: fmt_d (- z) else fmt_d z.

Definition hex_digit (d : Z) : Z := if d <? 10 then 48 + d else 87 + d.
Definition hex_byte (b : Z) : bytes := [hex_digit (b / 16); hex_digit (b mod 16)].

(** [%x] of a byte sequence, and [hex.EncodeToString]. *)
Definition fmt_x (b : bytes) : bytes := b ≫= hex_byte.

(** [%x] of an unsigned integer: no leading zero. *)
Fixpoint hex_digits_fuel (n : nat) (z : Z) (acc : bytes) : bytes :=
  match n with
  | O => acc
  | S n => if z <? 16 then hex_digit z :: acc
           else hex_digits_fuel n (z / 16) (hex_digit (z mod 16) :: acc)
  end.

Definition hex_val (c : Z) : option Z :=
  if (48 <=? c) && (c <=? 57) then Some (c - 48)
  else if (97 <=? c) && (c <=? 102) then Some (c - 87)
  else if (65 <=? c) && (c <=? 70) then Some (c - 55)
  else None.

(** [hex.DecodeString]: fails on an odd length or a character that is not a
    hexadecimal digit. *)
Fixpoint hex_decode (s : bytes) : option bytes :=
  match s with
  | [] => Some []
  | a :: b :: s =>
      match hex_val a, hex_val b, hex_decode s with
      | Some x, Some y, Some r => Some (x * 16 + y :: r)
      | _, _, _ => None
      end
  | _ => None
  end.

(** [strings.ToLower] on the ASCII range. *)
Definition to_lower (s : bytes) : bytes :=
  map (fun c => if (65 <=? c) && (c <=? 90) then c + 32 else c) s.

(** [strings.TrimPrefix(s, "0x")]. *)
Definition trim_0x (s : bytes) : bytes :=
  match s with
  | 48 :: 120 :: s => s
  | _ => s
  end.

(** ** Lemmas: bytes and big-endian encodings *)

Lemma be_acc_app acc a b : be_acc acc (a ++ b) = be_acc (be_acc acc a) b.
Proof. revert acc; induction a as [|x a IH]; intros acc; simpl; auto. Qed.

Lemma be_acc_shift acc b :
  be_acc acc b = acc * 256 ^ Z.of_nat (length b) + be_dec b.
Proof.
  unfold be_dec. revert acc. induction b as [|x b IH]; intros acc.
  - simpl. lia.
  - cbn [be_acc length]. rewrite (IH (acc * 256 + x)), (IH (0 * 256 + x)).
    rewrite Nat2Z.inj_succ, Z.pow_succ_r by lia. ring.
Qed.

Lemma be_dec_cons x b :
  be_dec (x :: b) = x * 256 ^ Z.of_nat (length b) + be_dec b.
Proof. unfold be_dec at 1. cbn [be_acc]. apply (be_acc_shift (0 * 256 + x)). Qed.

Lemma be_dec_app a b :
  be_dec (a ++ b) = be_dec a * 256 ^ Z.of_nat (length b) + be_dec b.
Proof. unfold be_dec at 1. rewrite be_acc_app. apply be_acc_shift. Qed.

Lemma be_enc_length n z : length (be_enc n z) = n.
Proof. induction n; simpl; auto. Qed.

Lemma be_enc_wf n z : wf_bytes (be_enc n z).
Proof.
  induction n; simpl; constructor; auto.
  apply Z.mod_pos_bound; lia.
Qed.

Lemma be_dec_bound b : wf_bytes b -> 0 <= be_dec b < 256 ^ Z.of_nat (length b).
Proof.
  induction 1 as [|x b Hx Hb IH]; [cbn; lia|].
  rewrite be_dec_cons. cbn [length]. rewrite Nat2Z.inj_succ, Z.pow_succ_r by lia.
  unfold is_byte in Hx. nia.
Qed.

Lemma be_dec_enc n z : be_dec (be_enc n z) = z mod 256 ^ Z.of_nat n.
Proof.
  induction n as [|n IH].
  - cbn. now rewrite Z.mod_1_r.
  - cbn [be_enc]. rewrite be_dec_cons, be_enc_length, IH.
    rewrite Nat2Z.inj_succ, Z.pow_succ_r by lia.
    rewrite (Z.mul_comm 256), Z.rem_mul_r by lia. ring.
Qed.

Lemma be_dec_enc_small n z :
  0 <= z < 256 ^ Z.of_nat n -> be_dec (be_enc n z) = z.
Proof. intros. rewrite be_dec_enc. now apply Z.mod_small. Qed.

Lemma be_enc_dec b : wf_bytes b -> be_enc (length b) (be_dec b) = b.
Proof.
  assert (Hshift : forall n x y, be_enc n (x * 256 ^ Z.of_nat n + y) = be_enc n y).
  { induction n as [|n IH]; intros x y; [done|]. cbn [be_enc].
    rewrite Nat2Z.inj_succ, Z.pow_succ_r by lia.
    replace (x * (256 * 256 ^ Z.of_nat n) + y)
      with (y + (x * 256) * 256 ^ Z.of_nat n) by ring.
    rewrite Z.div_add by lia. rewrite Z.mod_add by lia. f_equal.
    rewrite Z.add_comm. apply IH. }
  induction 1 as [|x b Hx Hb IH]; [done|].
  rewrite be_dec_cons. cbn [length be_enc]. rewrite Hshift, IH. f_equal.
  pose proof (be_dec_bound b Hb).
  rewrite Z.div_add_l by lia. rewrite (Z.div_small (be_dec b)) by lia.
  rewrite Z.add_0_r. apply Z.mod_small. exact Hx.
Qed.

Lemma be_dec_inj a b :
  wf_bytes a -> wf_bytes b -> length a = length b -> be_dec a = be_dec b -> a = b.
Proof.
  intros Ha Hb Hl He. rewrite <- (be_enc_dec a Ha), <- (be_enc_dec b Hb).
  now rewrite Hl, He.
Qed.

Lemma be_dec_zeros n : be_dec (zeros n) = 0.
Proof.
  unfold zeros. induction n as [|n IH]; [done|]. cbn [replicate].
  rewrite be_dec_cons, IH. lia.
Qed.

Lemma be_enc_0 n : be_enc n 0 = zeros n.
Proof.
  unfold zeros. induction n as [|n IH]; [done|]. cbn [be_enc replicate].
  rewrite IH. rewrite Z.div_0_l by lia. done.
Qed.

Lemma zeros_wf n : wf_bytes (zeros n).
Proof. apply Forall_replicate. unfold is_byte; lia. Qed.

Lemma pow256 n : 256 ^ Z.of_nat n = 2 ^ (8 * Z.of_nat n).
Proof. rewrite Z.pow_mul_r by lia. done. Qed.

Lemma nbytes_spec z (n : nat) :
  0 <= z -> (nbytes z <= n)%nat <-> z < 256 ^ Z.of_nat n.
Proof.
  intros Hz. unfold nbytes. destruct (Z.eqb_spec z 0) as [->|Hne].
  { split; intros; [apply Z.pow_pos_nonneg; lia | lia]. }
  rewrite Z.abs_eq, pow256 by lia.
  pose proof (Z.log2_nonneg z) as Hl.
  assert (0 <= Z.log2 z / 8) by (apply Z.div_pos; lia).
  split; intros H0.
  - apply Z.log2_lt_pow2; [lia|].
    pose proof (Z.div_mod (Z.log2 z) 8). pose proof (Z.mod_pos_bound (Z.log2 z) 8).
    lia.
  - apply Z.log2_lt_pow2 in H0; [|lia].
    assert (Z.log2 z / 8 < Z.of_nat n) by (apply Z.div_lt_upper_bound; lia).
    lia.
Qed.

Lemma nbytes_bound z : 0 <= z -> z < 256 ^ Z.of_nat (nbytes z).
Proof. intros. now apply nbytes_spec. Qed.

Lemma big_bytes_dec z : 0 <= z -> be_dec (big_bytes z) = z.
Proof.
  intros. unfold big_bytes. rewrite Z.abs_eq by lia.
  apply be_dec_enc_small. split; [lia|]. now apply nbytes_bound.
Qed.

Lemma big_bytes_length z : length (big_bytes z) = nbytes z.
Proof. apply be_enc_length. Qed.

Lemma big_bytes_inj a b : 0 <= a -> 0 <= b -> big_bytes a = big_bytes b -> a = b.
Proof.
  intros Ha Hb H. rewrite <- (big_bytes_dec a), <- (big_bytes_dec b) by done.
  now rewrite H.
Qed.

Lemma fill_bytes_ok n z :
  0 <= z < 256 ^ Z.of_nat n -> fill_bytes n z = Some (be_enc n z).
Proof.
  intros. unfold fill_bytes. rewrite Z.abs_eq by lia.
  destruct (Z.ltb_spec z (256 ^ Z.of_nat n)); [done|lia].
Qed.

Lemma be_enc_pad k n z :
  0 <= z < 256 ^ Z.of_nat n -> be_enc (k + n) z = zeros k ++ be_enc n z.
Proof.
  intros Hz. unfold zeros. induction k as [|k IH]; [done|].
  cbn [Nat.add be_enc replicate app]. rewrite <- IH. f_equal.
  rewrite Z.div_small; [done|].
  assert (256 ^ Z.of_nat n <= 256 ^ Z.of_nat (k + n)) by
    (apply Z.pow_le_mono_r; lia). lia.
Qed.

Lemma be_enc_inj n a b :
  0 <= a < 256 ^ Z.of_nat n -> 0 <= b < 256 ^ Z.of_nat n ->
  be_enc n a = be_enc n b -> a = b.
Proof.
  intros Ha Hb H. rewrite <- (be_dec_enc_small n a), <- (be_dec_enc_small n b) by done.
  now rewrite H.
Qed.

Lemma u64_small z : is_u64 z -> u64 z = z.
Proof. apply Z.mod_small. Qed.
Lemma u64_range z : is_u64 (u64 z).
Proof. unfold is_u64, u64. apply Z.mod_pos_bound. lia. Qed.
Lemma u64_add_l a b : u64 (u64 a + b) = u64 (a + b).
Proof. unfold u64. by rewrite Zplus_mod_idemp_l. Qed.
Lemma u64_add_r a b : u64 (a + u64 b) = u64 (a + b).
Proof. unfold u64. by rewrite Zplus_mod_idemp_r. Qed.
Lemma u64_u64 a : u64 (u64 a) = u64 a.
Proof. apply Z.mod_mod. lia. Qed.

(** Equality modulo 2^64, a congruence for the ring operations. *)
Definition eq64 (a b : Z) : Prop := exists k, a = b + k * 2 ^ 64.

#[export] Instance eq64_equiv : Equivalence eq64.
Proof.
  split.
  - intros x. exists 0. lia.
  - intros x y [k ->]. exists (- k). lia.
  - intros x y z [k ->] [j ->]. exists (k + j). lia.
Qed.
#[export] Instance eq64_add : Proper (eq64 ==> eq64 ==> eq64) Z.add.
Proof. intros a b [k ->] c d [j ->]. exists (k + j). lia. Qed.
#[export] Instance eq64_sub : Proper (eq64 ==> eq64 ==> eq64) Z.sub.
Proof. intros a b [k ->] c d [j ->]. exists (k - j). lia. Qed.
#[export] Instance eq64_mul : Proper (eq64 ==> eq64 ==> eq64) Z.mul.
Proof. intros a b [k ->] c d [j ->]. exists (k * d + b * j + k * j * 2 ^ 64). lia. Qed.
#[export] Instance eq64_u64 : Proper (eq64 ==> eq) u64.
Proof. intros a b [k ->]. unfold u64. by rewrite Z.mod_add. Qed.
Lemma u64_eq64 a : eq64 (u64 a) a.
Proof.
  exists (- (a / 2 ^ 64)). unfold u64. pose proof (Z.div_mod a (2 ^ 64)). lia.
Qed.

Lemma eq64_elim a b : eq64 a b -> u64 a = u64 b.
Proof. by intros ->. Qed.
Lemma eq64_of_eq a b : a = b -> eq64 a b.
Proof. by intros ->. Qed.

(** [u64_sum]: equality of two wrapped expressions. *)
Ltac u64_sum :=
  apply eq64_elim; rewrite ?u64_eq64; apply eq64_of_eq; lia.
Lemma big_u64_small z : is_u64 z -> big_u64 z = z.
Proof. intros H. unfold big_u64. unfold is_u64 in H. rewrite Z.abs_eq by lia. now apply u64_small. Qed.

Lemma fmt_x_length b : length (fmt_x b) = (2 * length b)%nat.
Proof.
  induction b as [|x b IH]; [done|].
  change (fmt_x (x :: b)) with (hex_byte x ++ fmt_x b).
  rewrite length_app, IH. cbn [hex_byte length]. lia.
Qed.

(** ** Lemmas: slices and copies *)

Lemma slice_some b i j :
  0 <= i <= j -> j <= Z.of_nat (length b) ->
  slice b i j = Some (take (Z.to_nat (j - i)) (drop (Z.to_nat i) b)).
Proof.
  intros. unfold slice.
  destruct (Z.leb_spec 0 i); [|lia]. destruct (Z.leb_spec i j); [|lia].
  destruct (Z.leb_spec j (Z.of_nat (length b))); [done|lia].
Qed.

Lemma slice_inv b i j x :
  slice b i j = Some x ->
  0 <= i <= j /\ j <= Z.of_nat (length b) /\
  x = take (Z.to_nat (j - i)) (drop (Z.to_nat i) b).
Proof.
  unfold slice. destruct (Z.leb_spec 0 i), (Z.leb_spec i j),
    (Z.leb_spec j (Z.of_nat (length b))); cbn; intros [= <-]; lia || done.
Qed.

Lemma copy_at_length off src dst :
  (off <= length dst)%nat -> length (copy_at off src dst) = length dst.
Proof.
  intros. unfold copy_at. rewrite !length_app, !length_take, length_drop. lia.
Qed.

Lemma copy_at_read off src dst :
  (off + length src <= length dst)%nat ->
  take (length src) (drop off (copy_at off src dst)) = src.
Proof.
  intros. unfold copy_at.
  rewrite drop_app_length' by (rewrite length_take; lia).
  rewrite (take_ge src) by lia. now rewrite take_app_length.
Qed.

Lemma copy_at_before off src dst i :
  (i < off)%nat -> (off <= length dst)%nat ->
  copy_at off src dst !! i = dst !! i.
Proof.
  intros. unfold copy_at.
  rewrite lookup_app_l by (rewrite length_take; lia).
  now rewrite lookup_take_lt.
Qed.

Lemma copy_at_wf off src dst : wf_bytes src -> wf_bytes dst -> wf_bytes (copy_at off src dst).
Proof.
  intros Hs Hd. unfold copy_at. rewrite !Forall_app.
  split_and!; [by apply Forall_take|by apply Forall_take|by apply Forall_drop].
Qed.

Lemma byte_at_wf s i : wf_bytes s -> is_byte (byte_at s i).
Proof.
  intros H. unfold byte_at. destruct (Nat.lt_ge_cases i (length s)) as [Hl|Hl].
  - rewrite Forall_forall in H. apply H. apply list_elem_of_In. by apply nth_In.
  - rewrite nth_overflow by done. unfold is_byte; lia.
Qed.

(** ** Lemmas: the handler monad *)

(** A run known to succeed. *)
Lemma ok_run {A S} (r : outcome A * S) a : r.1 = Ok a -> r = (Ok a, r.2).
Proof. destruct r. cbn. by intros ->. Qed.

Lemma bind_ok {S A B} (m : M S A) (k : A -> M S B) s a s' :
  m s = (Ok a, s') -> (mbind (M := M S) k m) s = k a s'.
Proof. intros H. unfold mbind, M_bind. now rewrite H. Qed.

Lemma bind_inv {S A B} (m : M S A) (k : A -> M S B) s b s2 :
  (mbind (M := M S) k m) s = (Ok b, s2) ->
  exists a s1, m s = (Ok a, s1) /\ k a s1 = (Ok b, s2).
Proof.
  unfold mbind, M_bind. destruct (m s) as [[a|e|] s1]; intros H; eauto; discriminate.
Qed.

Lemma guard_err_inv {S} c e (s s' : S) u :
  guard_err c e s = (Ok u, s') -> c = false /\ s' = s.
Proof. unfold guard_err, fail, mret, M_ret. destruct c; intros [=]; auto. Qed.

Lemma must_inv {S A} (o : option A) (s s' : S) a :
  must o s = (Ok a, s') -> o = Some a /\ s' = s.
Proof. destruct o; unfold must, panic, mret, M_ret; intros [=]; subst; auto. Qed.

(** [inv_go]: invert a successful run of a handler, one bind at a time. *)
Ltac inv_go H :=
  repeat lazymatch type of H with
  | mbind _ _ _ = (Ok _, _) =>
      let a := fresh "a" in let s := fresh "s" in let H1 := fresh "Hm" in
      apply bind_inv in H as (a & s & H1 & H);
      first [ apply guard_err_inv in H1 as [H1 ->]
            | apply must_inv in H1 as [H1 ->]
            | (cbv [gets modify mret M_ret] in H1; injection H1 as <- <-)
            | idtac ]
  | mret _ _ = (Ok _, _) => cbv [mret M_ret] in H; injection H as <- <-
  | fail _ _ = (Ok _, _) => discriminate H
  | panic _ = (Ok _, _) => discriminate H
  end.

(** [case_if H]: split on the conditional that blocks [H] or the goal. *)
Tactic Notation "case_if" "in" hyp(H) :=
  match type of H with
  | context [if ?b then _ else _] => let E := fresh "Hc" in destruct b eqn:E
  end.

(** Boolean comparisons to propositions. *)
Ltac zbool :=
  repeat match goal with
  | H : andb _ _ = true |- _ => apply andb_true_iff in H as [? ?]
  | H : orb _ _ = false |- _ => apply orb_false_iff in H as [? ?]
  | H : negb _ = true |- _ => apply negb_true_iff in H
  | H : negb _ = false |- _ => apply negb_false_iff in H
  | H : (_ <? _) = true |- _ => apply Z.ltb_lt in H
  | H : (_ <? _) = false |- _ => apply Z.ltb_ge in H
  | H : (_ <=? _) = true |- _ => apply Z.leb_le in H
  | H : (_ <=? _) = false |- _ => apply Z.leb_gt in H
  | H : (_ =? _) = true |- _ => apply Z.eqb_eq in H
  | H : (_ =? _) = false |- _ => apply Z.eqb_neq in H
  end.

(** Facts about encodings that close most side conditions. *)
Create HintDb go.
#[export] Hint Resolve be_enc_length be_enc_wf zeros_wf u64_range : go.
Create Rewrite HintDb gorw.
#[export] Hint Rewrite @be_enc_length @be_dec_zeros @be_enc_0 : gorw.
