(* ===== verification/Sha256.v ===== *)
(** SHA-256 (Go's crypto/sha256), executable.

    Storage keys, proposal identifiers, transaction hashes and the proposer
    lottery of the program are all SHA-256 digests, so the development computes
    the real function: witnesses evaluate the storage keys of the program and
    need no assumption about the hash.  Words are 32-bit integers kept as [Z]
    with the wrap-around written out. *)

From Stdlib Require Import ZArith Lia List.
From stdpp Require Import list.
From S2P Require Import Prelude.
Import ListNotations.
Local Open Scope Z_scope.

Module Sha256.

Definition w32 (z : Z) : Z := Z.land z 4294967295.

Definition rotr (n x : Z) : Z :=
  w32 (Z.lor (Z.shiftr x n) (Z.shiftl x (32 - n))).

Definition ch (x y z : Z) : Z :=
  Z.lxor (Z.land x y) (Z.land (Z.lxor x 4294967295) z).
Definition maj (x y z : Z) : Z :=
  Z.lxor (Z.lxor (Z.land x y) (Z.land x z)) (Z.land y z).
Definition bsig0 (x : Z) : Z := Z.lxor (Z.lxor (rotr 2 x) (rotr 13 x)) (rotr 22 x).
Definition bsig1 (x : Z) : Z := Z.lxor (Z.lxor (rotr 6 x) (rotr 11 x)) (rotr 25 x).
Definition ssig0 (x : Z) : Z := Z.lxor (Z.lxor (rotr 7 x) (rotr 18 x)) (Z.shiftr x 3).
Definition ssig1 (x : Z) : Z := Z.lxor (Z.lxor (rotr 17 x) (rotr 19 x)) (Z.shiftr x 10).

(** The constants of FIPS 180-4 from their definition: the first 32 bits of
    the fractional parts of the cube roots of the first 64 primes, and of the
    square roots of the first 8. *)
Definition is_prime (n : Z) : bool :=
  forallb (fun d => negb (n mod (Z.of_nat d) =? 0)) (seq 2 (Z.to_nat (Z.sqrt n) - 1)).
Definition primes (count bound : nat) : list Z :=
  take count (List.filter is_prime (map Z.of_nat (seq 2 bound))).

(** The integer cube root, bit by bit from bit [k - 1]. *)
Fixpoint cbrt_from (k : nat) (r n : Z) : Z :=
  match k with
  | O => r
  | S k => let r' := r + 2 ^ Z.of_nat k in
           cbrt_from k (if r' * r' * r' <=? n then r' else r) n
  end.

Definition round_constants : list Z :=
  Eval vm_compute in
    map (fun p => w32 (cbrt_from 36 0 (p * 2 ^ 96))) (primes 64 320).

Definition initial_state : list Z :=
  Eval vm_compute in map (fun p => w32 (Z.sqrt (p * 2 ^ 64))) (primes 8 20).

(** The message schedule, newest word first: sixteen words are extended to
    sixty-four. *)
Fixpoint extend (n : nat) (ws : list Z) : list Z :=
  match n with
  | O => ws
  | S n =>
      let w := w32 (ssig1 (nth 1 ws 0) + nth 6 ws 0 +
                    ssig0 (nth 14 ws 0) + nth 15 ws 0) in
      extend n (w :: ws)
  end.

Definition step (st : list Z) (kw : Z * Z) : list Z :=
  match st with
  | [a; b; c; d; e; f; g; h] =>
      let t1 := h + bsig1 e + ch e f g + fst kw + snd kw in
      let t2 := bsig0 a + maj a b c in
      [w32 (t1 + t2); a; b; c; w32 (d + t1); e; f; g]
  | _ => st
  end.

Definition compress (st : list Z) (block : bytes) : list Z :=
  let words := map be_dec (chunks 16 4 block) in
  let sched := rev (extend 48 (rev words)) in
  let st' := fold_left step (combine round_constants sched) st in
  map (fun p => w32 (fst p + snd p)) (combine st st').

Definition pad (msg : bytes) : bytes :=
  let len := Z.of_nat (length msg) in
  let zeros := Z.to_nat ((55 - len) mod 64) in
  msg ++ [128] ++ repeat 0 zeros ++ be_enc 8 (8 * len).

Definition blocks (msg : bytes) : list bytes :=
  let p := pad msg in chunks (length p / 64) 64 p.

(** [sha256.Sum256]: the 32 bytes of the eight words of the final state. *)
Definition sum256 (msg : bytes) : bytes :=
  let digest := flat_map (be_enc 4) (fold_left compress (blocks msg) initial_state) in
  map (byte_at digest) (seq 0 32).

End Sha256.

Lemma sum256_length msg : length (Sha256.sum256 msg) = 32%nat.
Proof. unfold Sha256.sum256. by rewrite length_map, length_seq. Qed.

Lemma sum256_wf msg : wf_bytes (Sha256.sum256 msg).
Proof.
  unfold Sha256.sum256. cbv zeta. apply Forall_map, Forall_forall. intros i _. apply byte_at_wf.
  induction (fold_left _ _ _) as [|x l IH]; [constructor|]. cbn [flat_map]. apply Forall_app_2; [apply be_enc_wf|exact IH].
Qed.

(** FIPS 180-4 test vectors. *)
Example sum256_abc :
  fmt_x (Sha256.sum256 (lit "abc")) =
  lit "ba7816bf8f01cfea414140de5dae2223b00361a396177a9cb410ff61f20015ad".
Proof. vm_compute. reflexivity. Qed.

Example sum256_two_blocks :
  fmt_x (Sha256.sum256 (lit "abcdbcdecdefdefgefghfghighijhijkijkljklmklmnlmnomnopnopq")) =
  lit "248d6a61d20638b8e5c026930c3e6039a33ce45964ff2167f6ecedd419db06c1".
Proof. vm_compute. reflexivity. Qed.

#[export] Hint Resolve sum256_length sum256_wf : go.
#[global] Opaque Sha256.sum256.
