(* ===== verification/GoFloat.v ===== *)
(** Go's [float64] (IEEE 754 binary64), executable.

    The arithmetic is Rocq's [SpecFloat] at precision 53 and exponent bound
    1024, with rounding to nearest even; no axiom is involved.  A literal such
    as [0.15] is the correctly rounded quotient of two exact integers, which is
    what the Go compiler produces.  Products and sums are rounded separately, as
    on amd64 (the language lets other targets fuse them). *)

From Stdlib Require Import ZArith Lia SpecFloat.
From S2P Require Import Prelude.
Local Open Scope Z_scope.

Module F64.

Definition prec : Z := 53.
Definition emax : Z := 1024.

Abbreviation t := spec_float.

Definition add : t -> t -> t := SFadd prec emax.
Definition sub : t -> t -> t := SFsub prec emax.
Definition mul : t -> t -> t := SFmul prec emax.
Definition div : t -> t -> t := SFdiv prec emax.
Definition sqrt : t -> t := SFsqrt prec emax.
Definition ltb : t -> t -> bool := SFltb.
Definition leb : t -> t -> bool := SFleb.

(** [float64(n)] for an integer [n]. *)
Definition of_Z (n : Z) : t := binary_normalize prec emax n 0 false.

(** The literal with exact value [p/q]. *)
Definition lit (p q : Z) : t := div (of_Z p) (of_Z q).

(** Truncation towards zero; [0] for NaN and infinities, whose conversion the
    language leaves unspecified. *)
Definition trunc (x : t) : Z :=
  match x with
  | S754_finite s m e =>
      let mag := if 0 <=? e then Z.pos m * 2 ^ e else Z.pos m / 2 ^ (- e) in
      if s then - mag else mag
  | _ => 0
  end.

(** [uint64(x)] for [x] in range. *)
Definition to_u64 (x : t) : Z := u64 (trunc x).

(** [math.Min] away from NaN and signed zeros. *)
Definition min (x y : t) : t := if ltb y x then y else x.

(** [math.Floor] on a non-negative argument. *)
Definition floor (x : t) : t := of_Z (trunc x).

Definition zero : t := S754_zero false.
(** [math.MaxFloat64]. *)
Definition max_float : t := S754_finite false (2 ^ 53 - 1)%positive 971.

(** Comparisons of a number (not NaN) are total. *)
Lemma compare_antisym x y :
  SFcompare x y = CompOpp <$> SFcompare y x.
Proof.
  destruct x as [sx|sx| |sx mx ex], y as [sy|sy| |sy my ey]; try done;
    try (by destruct sx, sy); try (by destruct sx); try (by destruct sy).
  simpl. destruct sx, sy; try done; rewrite (Z.compare_antisym ey ex);
    destruct (ey ?= ex) eqn:E; simpl; try done;
    rewrite ?(Pos.compare_cont_antisym my mx Eq); simpl;
    rewrite ?(Pos.compare_cont_antisym mx my Eq); done.
Qed.

Lemma compare_none x y : SFcompare x y = None -> x = S754_nan \/ y = S754_nan.
Proof. destruct x, y; try (by left); try (by right); simpl; repeat case_match; done. Qed.

Lemma ltb_leb_false x y : ltb x y = true -> leb y x = false.
Proof.
  unfold ltb, leb, SFltb, SFleb. rewrite (compare_antisym x y).
  by destruct (SFcompare y x) as [[]|].
Qed.

Lemma ltb_false_leb x y :
  x <> S754_nan -> y <> S754_nan -> ltb x y = false -> leb y x = true.
Proof.
  intros Hx Hy. unfold ltb, leb, SFltb, SFleb. rewrite (compare_antisym x y).
  destruct (SFcompare y x) as [[]|] eqn:E; try done.
  by apply compare_none in E as [].
Qed.

End F64.
