(* ===== verification/Collections.v ===== *)
(** Interfaces for the standard-library behaviour the program relies on but
    does not pin down: [sort.Slice] (not stable) and [range] over a map
    (unspecified order).  The theorems are proved against the interfaces, hence
    for every algorithm and every iteration order the Go runtime may choose;
    the instances give executable models. *)

From Stdlib Require Import ZArith Lia Permutation.
From stdpp Require Import gmap list sorting.
From S2P Require Import Prelude.
Local Open Scope Z_scope.

(** ** Orders *)

(** A strict weak order, as [sort.Slice] requires of its [less]. *)
Class StrictWeak {A} (less : A -> A -> bool) : Prop := {
  sw_irrefl x : less x x = false;
  sw_trans x y z : less x y = true -> less y z = true -> less x z = true;
  sw_cotrans x y z : less x z = true -> less x y = true \/ less y z = true;
}.

(** No later element is less than an earlier one. *)
Definition sorted_by {A} (less : A -> A -> bool) : list A -> Prop :=
  StronglySorted (fun x y => less y x = false).

(** ** sort.Slice *)

Class SortSlice := {
  sort_slice {A} : (A -> A -> bool) -> list A -> list A;
  sort_slice_perm {A} (less : A -> A -> bool) l : Permutation (sort_slice less l) l;
  sort_slice_sorted {A} (less : A -> A -> bool) l :
    StrictWeak less -> sorted_by less (sort_slice less l);
}.

(** Insertion sort: what [sort.Slice] runs on at most twelve elements. *)
Fixpoint insert_by {A} (less : A -> A -> bool) (x : A) (l : list A) : list A :=
  match l with
  | [] => [x]
  | y :: l => if less x y then x :: y :: l else y :: insert_by less x l
  end.
Definition insertion_sort {A} (less : A -> A -> bool) (l : list A) : list A :=
  fold_left (fun acc x => insert_by less x acc) l [].

Lemma insert_by_perm {A} (less : A -> A -> bool) x l :
  Permutation (insert_by less x l) (x :: l).
Proof.
  induction l as [|y l IH]; simpl; [done|]. destruct (less x y); [done|].
  rewrite IH. apply Permutation_swap.
Qed.

Lemma insert_by_sorted {A} (less : A -> A -> bool) `{!StrictWeak less} x l :
  sorted_by less l -> sorted_by less (insert_by less x l).
Proof.
  unfold sorted_by. induction 1 as [|y l Hs IH Hall]; simpl.
  { constructor; constructor. }
  assert (Hasym : forall a b, less a b = true -> less b a = false).
  { intros a b H1. destruct (less b a) eqn:H2; [|done].
    pose proof (sw_trans a b a H1 H2). pose proof (sw_irrefl (less := less) a). congruence. }
  destruct (less x y) eqn:E.
  - constructor; [by constructor|]. constructor; [by apply Hasym|].
    rewrite Forall_forall in Hall |- *. intros z Hz.
    destruct (less z x) eqn:Hzx; [|done].
    pose proof (sw_trans z x y Hzx E). specialize (Hall z Hz). simpl in Hall. congruence.
  - constructor; [done|]. rewrite insert_by_perm. by constructor.
Qed.

Lemma insertion_sort_perm {A} (less : A -> A -> bool) l :
  Permutation (insertion_sort less l) l.
Proof.
  unfold insertion_sort.
  enough (forall acc, Permutation
    (fold_left (fun acc x => insert_by less x acc) l acc) (l ++ acc)) as H.
  { rewrite (H []). by rewrite app_nil_r. }
  induction l as [|x l IH]; intros acc; simpl; [done|].
  rewrite IH, insert_by_perm. symmetry. apply Permutation_middle.
Qed.

Lemma insertion_sort_sorted {A} (less : A -> A -> bool) l :
  StrictWeak less -> sorted_by less (insertion_sort less l).
Proof.
  intros Hsw. unfold insertion_sort.
  enough (forall acc, sorted_by less acc ->
    sorted_by less (fold_left (fun acc x => insert_by less x acc) l acc)) as H.
  { apply H. constructor. }
  induction l as [|x l IH]; intros acc Hacc; simpl; [done|].
  apply IH. by apply insert_by_sorted.
Qed.

#[export] Instance insertion_SortSlice : SortSlice := {|
  sort_slice A := @insertion_sort A;
  sort_slice_perm A := @insertion_sort_perm A;
  sort_slice_sorted A := @insertion_sort_sorted A;
|}.

(** On distinct keys the result does not depend on the algorithm. *)
Lemma sorted_by_unique {A} (less : A -> A -> bool) l1 l2 :
  (forall x y, less x y = false -> less y x = false -> x = y) ->
  sorted_by less l1 -> sorted_by less l2 -> Permutation l1 l2 -> l1 = l2.
Proof.
  intros Hanti. revert l2. induction l1 as [|x l1 IH]; intros l2 H1 H2 Hp.
  { symmetry. by apply Permutation_nil_l in Hp. }
  destruct l2 as [|y l2]; [by apply Permutation_nil_r in Hp|].
  inversion H1 as [|? ? Hs1 Hf1]; inversion H2 as [|? ? Hs2 Hf2]; subst.
  assert (x = y) as ->.
  { assert (Hx : x ∈ y :: l2) by (rewrite <- Hp; left).
    assert (Hy : y ∈ x :: l1) by (rewrite Hp; left).
    apply elem_of_cons in Hx as [?|Hx]; [done|].
    apply elem_of_cons in Hy as [?|Hy]; [done|].
    rewrite Forall_forall in Hf1, Hf2.
    pose proof (Hf2 _ Hx). pose proof (Hf1 _ Hy). by apply Hanti. }
  f_equal. apply IH; [exact Hs1|exact Hs2|]. by apply Permutation_cons_inv in Hp.
Qed.

(** ** Lexicographic order on byte strings: Go's [<] on strings *)

Fixpoint bytes_ltb (a b : bytes) : bool :=
  match a, b with
  | [], [] => false
  | [], _ :: _ => true
  | _ :: _, [] => false
  | x :: a, y :: b => if x <? y then true else if x =? y then bytes_ltb a b else false
  end.

Lemma bytes_ltb_cons x y a b :
  bytes_ltb (x :: a) (y :: b) = true <-> x < y \/ x = y /\ bytes_ltb a b = true.
Proof.
  simpl. destruct (Z.ltb_spec x y); [naive_solver|].
  destruct (Z.eqb_spec x y); naive_solver lia.
Qed.

#[export] Instance bytes_ltb_strict : StrictWeak bytes_ltb.
Proof.
  split.
  - induction x as [|a x IH]; simpl; [done|]. by rewrite Z.ltb_irrefl, Z.eqb_refl.
  - induction x as [|a x IH]; intros [|b y] [|c z]; try done.
    rewrite !bytes_ltb_cons.
    intros [?|[-> ?]] [?|[-> ?]]; [left; lia|left; lia|left; lia|right; eauto].
  - induction x as [|a x IH]; intros [|b y] [|c z]; try done; auto.
    all: try (by left). all: try (by right).
    rewrite !bytes_ltb_cons.
    intros Hxz. destruct (Z.lt_trichotomy a b) as [?|[->|?]].
    + left. by left.
    + destruct Hxz as [?|[-> Hxz]]; [right; by left|].
      destruct (IH y z Hxz); [left|right]; by right.
    + right. left. destruct Hxz as [?|[-> ?]]; lia.
Qed.

Lemma bytes_ltb_total x y :
  bytes_ltb x y = false -> bytes_ltb y x = false -> x = y.
Proof.
  revert y. induction x as [|a x IH]; intros [|b y] H1 H2; try done.
  apply not_true_iff_false in H1, H2. rewrite bytes_ltb_cons in H1, H2.
  assert (a = b) as -> by (destruct (Z.lt_trichotomy a b) as [?|[?|?]]; naive_solver lia).
  f_equal. apply IH; apply not_true_iff_false; naive_solver.
Qed.

(** ** range over a map *)

Class MapRange := {
  map_range {A} : gmap bytes A -> list (bytes * A);
  map_range_perm {A} (m : gmap bytes A) : Permutation (map_range m) (map_to_list m);
}.

#[export] Instance canonical_MapRange : MapRange := {|
  map_range A := map_to_list;
  map_range_perm A m := Permutation_refl _;
|}.

Lemma map_range_elem `{MapRange} {A} (m : gmap bytes A) k v :
  (k, v) ∈ map_range m <-> m !! k = Some v.
Proof. rewrite map_range_perm. apply elem_of_map_to_list. Qed.

(** ** Sums *)

Definition sumZ (l : list Z) : Z := foldr Z.add 0 l.

Lemma sumZ_app a b : sumZ (a ++ b) = sumZ a + sumZ b.
Proof. induction a as [|x a IH]; simpl; [done|]. unfold sumZ in *. lia. Qed.

Lemma sumZ_perm a b : Permutation a b -> sumZ a = sumZ b.
Proof. induction 1; simpl in *; lia. Qed.

Lemma sumZ_nonneg l : Forall (fun x => 0 <= x) l -> 0 <= sumZ l.
Proof. induction 1; simpl in *; lia. Qed.

Lemma sumZ_map_le {A} (f g : A -> Z) l :
  (forall x, x ∈ l -> f x <= g x) -> sumZ (map f l) <= sumZ (map g l).
Proof.
  induction l as [|x l IH]; intros H; simpl; [done|].
  pose proof (H x ltac:(left)).
  assert (sumZ (map f l) <= sumZ (map g l)) by (apply IH; intros; apply H; by right).
  unfold sumZ in *. lia.
Qed.

(** A wrapping accumulator agrees with the exact sum modulo 2^64. *)
Lemma u64_fold l acc :
  u64 (fold_left (fun a x => u64 (a + x)) l acc) = u64 (acc + sumZ l).
Proof.
  revert acc. induction l as [|x l IH]; intros acc; simpl.
  { by rewrite Z.add_0_r. }
  rewrite IH. unfold u64, sumZ. rewrite Zplus_mod_idemp_l. f_equal. simpl. lia.
Qed.

(** A wrapping sum in a loop. *)
Lemma u64_sum_loop {A} (f : A -> Z) l :
  fold_left (fun t x => u64 (t + f x)) l 0 = u64 (sumZ (map f l)).
Proof.
  induction l as [|x l IH] using rev_ind; [done|].
  rewrite fold_left_app, map_app, sumZ_app. cbn [fold_left map sumZ foldr].
  rewrite IH. unfold u64. rewrite Zplus_mod_idemp_l. f_equal. lia.
Qed.

(** Sum of [f] over the values of a map. *)
Definition map_sum {A} (f : A -> Z) (m : gmap bytes A) : Z :=
  sumZ (map (fun e => f e.2) (map_to_list m)).

Lemma map_sum_empty {A} (f : A -> Z) : map_sum f ∅ = 0.
Proof. unfold map_sum. by rewrite map_to_list_empty. Qed.

Lemma map_sum_insert {A} (f : A -> Z) m k v :
  m !! k = None -> map_sum f (<[k := v]> m) = f v + map_sum f m.
Proof.
  intros Hk. unfold map_sum. rewrite (sumZ_perm _ (map (fun e => f e.2) ((k, v) :: map_to_list m))).
  - done.
  - apply Permutation_map. by apply map_to_list_insert.
Qed.

Lemma map_sum_delete {A} (f : A -> Z) m k v :
  m !! k = Some v -> map_sum f m = f v + map_sum f (delete k m).
Proof.
  intros Hk. rewrite <- (insert_delete_id m k v Hk) at 1.
  apply map_sum_insert. apply lookup_delete_eq.
Qed.

Lemma map_sum_replace {A} (f : A -> Z) m k v v' :
  m !! k = Some v -> map_sum f (<[k := v']> m) = map_sum f m - f v + f v'.
Proof.
  intros Hk. rewrite (map_sum_delete f m k v Hk).
  rewrite <- insert_delete_eq, map_sum_insert by apply lookup_delete_eq. lia.
Qed.

Lemma map_sum_range `{MapRange} {A} (f : A -> Z) m :
  sumZ (map (fun e => f e.2) (map_range m)) = map_sum f m.
Proof. apply sumZ_perm, Permutation_map, map_range_perm. Qed.

Lemma map_sum_nonneg {A} (f : A -> Z) m :
  (forall k v, m !! k = Some v -> 0 <= f v) -> 0 <= map_sum f m.
Proof.
  intros Hf. apply sumZ_nonneg, Forall_forall. intros x Hx.
  apply list_elem_of_fmap in Hx as ([k v] & -> & Hkv).
  apply elem_of_map_to_list in Hkv. by eapply Hf.
Qed.

Lemma map_sum_fmap {A B} (g : A -> B) (f : B -> Z) m :
  map_sum f (g <$> m) = map_sum (fun a => f (g a)) m.
Proof.
  unfold map_sum. rewrite map_to_list_fmap. f_equal.
  rewrite map_map. by apply map_ext; intros [].
Qed.

Lemma map_range_nodup `{MapRange} {A} (m : gmap bytes A) : NoDup (map_range m).*1.
Proof. rewrite map_range_perm. apply NoDup_fst_map_to_list. Qed.

(** Changing one summand. *)
Lemma sumZ_update `{EqDecision A} (f g : A -> Z) (c : A) (a : Z) l :
  NoDup l -> c ∈ l -> (forall x, g x = if decide (x = c) then f x + a else f x) ->
  sumZ (map g l) = sumZ (map f l) + a.
Proof.
  intros Hnd Hc Hg. induction l as [|x l IH]; [by apply elem_of_nil in Hc|].
  apply NoDup_cons in Hnd as [Hx Hnd]. cbn [map]. unfold sumZ in *. cbn [foldr].
  rewrite (Hg x). case_decide as E.
  - subst x. assert (Hm : map g l = map f l).
    { apply map_ext_in. intros y Hy. rewrite (Hg y), decide_False; [done|]. intros ->.
      by apply Hx, list_elem_of_In. }
    rewrite Hm. lia.
  - rewrite IH; [lia|done|]. apply elem_of_cons in Hc as [Hc|Hc]; [by subst|done].
Qed.

Lemma sumZ_elem {A} (f : A -> Z) l x :
  (forall y, y ∈ l -> 0 <= f y) -> x ∈ l -> f x <= sumZ (map f l).
Proof.
  induction l as [|y l IH]; intros Hf Hx; [by apply elem_of_nil in Hx|].
  cbn [map]. unfold sumZ in *. cbn [foldr]. pose proof (Hf y ltac:(left)).
  assert (0 <= foldr Z.add 0 (map f l)).
  { apply sumZ_nonneg, Forall_forall. intros z Hz. apply list_elem_of_fmap in Hz as (u & -> & Hu).
    apply Hf. by right. }
  apply elem_of_cons in Hx as [->|Hx]; [lia|]. specialize (IH ltac:(intros; apply Hf; by right) Hx). lia.
Qed.

(** A summing loop over a map, in whatever order it is ranged over. *)
Lemma fold_sum {A} (f : A -> Z) l acc :
  fold_left (fun t e => t + f e) l acc = acc + sumZ (map f l).
Proof.
  revert acc. induction l as [|x l IH]; intros acc; [cbn; lia|]. cbn [fold_left map].
  rewrite IH. unfold sumZ. cbn [foldr]. lia.
Qed.

Lemma fold_sum_range `{MapRange} {A} (f : A -> Z) (m : gmap bytes A) :
  fold_left (fun t e => t + f e.2) (map_range m) 0 = map_sum f m.
Proof. rewrite (fold_sum (fun e => f e.2)). cbn. apply map_sum_range. Qed.
