(* ===== verification/StateDB.v ===== *)
(** The execution layer's state (evm/state.go) and the storage helpers every
    precompile shares (evm/precompiles.go, evm/two_way.go,
    evm/account_manager.go, evm/privacy.go).

    A [*Account] obtained from [GetOrCreateAccount] is an alias of the entry in
    the [Accounts] map, so the model reads and writes accounts through the map.
    The package-level variables of package evm (the inflation rate and the
    economic accumulators) are fields of the same [World], since handlers read
    and write them like the rest of the state. *)

From Stdlib Require Import ZArith Lia.
From stdpp Require Import gmap list.
From S2P Require Import Prelude Sha256 GoFloat.
Local Open Scope Z_scope.

(** ** Data *)

(** [LaneType]. *)
Inductive LaneType := ConsensusLane | OracleLane | PrivateLane | OtherLane (b : Z).

Definition lane_byte (l : LaneType) : Z :=
  match l with
  | ConsensusLane => 0 | OracleLane => 1 | PrivateLane => 2 | OtherLane b => b
  end.
Definition lane_of_byte (b : Z) : LaneType :=
  if b =? 0 then ConsensusLane else if b =? 1 then OracleLane
  else if b =? 2 then PrivateLane else OtherLane b.

(** [ContractClass]; [ClassOther] is any byte outside the declared constants. *)
Inductive ContractClass := ClassNone | ClassA | ClassB | ClassC | ClassD | ClassOther (b : Z).

Record Account := mkAccount {
  Nonce : Z;
  Balance : Z;
  CodeHash : bytes;
  Code : bytes;
  Storage : gmap bytes bytes;
  Class : ContractClass;
  DoxDevLevel : Z;
  StateRentPaid : Z;
  LastRentPayment : Z;
}.

Record LogEntry := mkLog {
  log_address : bytes;
  log_topics : list bytes;
  log_data : bytes;
  log_block : Z;
}.

(** [EconoSnapshot] and [EconoPolicy] of evm/econo_loop.go. *)
Record EconoSnapshot := mkEcono {
  GBP : Z; Tasks : Z; ProPaid : Z; ProTasks : Z; MicroPaid : Z; MicroTasks : Z;
  MRTPaid : Z; MRTClaims : Z; RentPaid : Z; StorageStaked : Z;
  WindowStart : Z; Phase : Z;
}.

Record EconoPolicy := mkPolicy { pol_Phase : Z; BurnBps : Z; GrantBps : Z }.

(** [StateDB] together with the package-level state. *)
Record World := mkWorld {
  accounts : gmap bytes Account;
  logs : list LogEntry;
  refunds : Z;
  inflation : F64.t;
  econo : EconoSnapshot;
  policy : EconoPolicy;
}.

(** [NewAccount]. *)
Definition NewAccount : Account :=
  mkAccount 0 0 zero32 [] ∅ ClassNone 0 0 0.

Definition econo_fresh (start : Z) : EconoSnapshot :=
  mkEcono 0 0 0 0 0 0 0 0 0 0 start 0.

(** [NewStateDB], with the initial values of the package variables. *)
Definition NewStateDB : World :=
  mkWorld ∅ [] 0 (F64.of_Z 7) (econo_fresh 0) (mkPolicy 0 0 0).

(** ** Field updates *)

Definition with_nonce n a := mkAccount n (Balance a) (CodeHash a) (Code a)
  (Storage a) (Class a) (DoxDevLevel a) (StateRentPaid a) (LastRentPayment a).
Definition with_balance z a := mkAccount (Nonce a) z (CodeHash a) (Code a)
  (Storage a) (Class a) (DoxDevLevel a) (StateRentPaid a) (LastRentPayment a).
Definition with_storage st a := mkAccount (Nonce a) (Balance a) (CodeHash a) (Code a)
  st (Class a) (DoxDevLevel a) (StateRentPaid a) (LastRentPayment a).
Definition with_level l a := mkAccount (Nonce a) (Balance a) (CodeHash a) (Code a)
  (Storage a) (Class a) l (StateRentPaid a) (LastRentPayment a).
Definition with_class c a := mkAccount (Nonce a) (Balance a) (CodeHash a) (Code a)
  (Storage a) c (DoxDevLevel a) (StateRentPaid a) (LastRentPayment a).

Definition with_accounts m w :=
  mkWorld m (logs w) (refunds w) (inflation w) (econo w) (policy w).
Definition with_logs l w :=
  mkWorld (accounts w) l (refunds w) (inflation w) (econo w) (policy w).
Definition with_inflation f w :=
  mkWorld (accounts w) (logs w) (refunds w) f (econo w) (policy w).
Definition with_econo e w :=
  mkWorld (accounts w) (logs w) (refunds w) (inflation w) e (policy w).
Definition with_policy p w :=
  mkWorld (accounts w) (logs w) (refunds w) (inflation w) (econo w) p.

(** ** Accounts *)

(** The account an alias from [GetOrCreateAccount(a)] points to. *)
Definition acct (w : World) (a : bytes) : Account :=
  default NewAccount (accounts w !! a).

(** The effect of [GetOrCreateAccount] on the map. *)
Definition GetOrCreateAccount (a : bytes) (w : World) : World :=
  match accounts w !! a with
  | Some _ => w
  | None => with_accounts (<[a := NewAccount]> (accounts w)) w
  end.

Definition GetAccount (w : World) (a : bytes) : option Account := accounts w !! a.
Definition Exist (w : World) (a : bytes) : bool :=
  match accounts w !! a with Some _ => true | None => false end.

Definition upd_acct (a : bytes) (f : Account -> Account) (w : World) : World :=
  with_accounts (<[a := f (acct w a)]> (accounts w)) w.

(** [CreateAccount]: replaces whatever the address held. *)
Definition CreateAccount (a code : bytes) (w : World) : World :=
  with_accounts (<[a := mkAccount 0 0 (Sha256.sum256 code) code ∅ ClassNone 0 0 0]>
                   (accounts w)) w.

(** [Clone]: every field of every account is copied. *)
Definition CloneAccount (acc : Account) : Account :=
  mkAccount (Nonce acc) (Balance acc) (CodeHash acc) (Code acc) (Storage acc)
    (Class acc) (DoxDevLevel acc) (StateRentPaid acc) (LastRentPayment acc).
Definition Clone (w : World) : World :=
  mkWorld (CloneAccount <$> accounts w) (logs w) (refunds w)
    (inflation w) (econo w) (policy w).

Definition AddLog (a : bytes) (topics : list bytes) (data : bytes) (block : Z)
    (w : World) : World :=
  with_logs (logs w ++ [mkLog a topics data block]) w.

Definition slot (w : World) (a k : bytes) : bytes :=
  default zero32 (Storage (acct w a) !! k).
Definition set_slot (a k v : bytes) (w : World) : World :=
  upd_acct a (fun acc => with_storage (<[k := v]> (Storage acc)) acc) w.
Definition bal (w : World) (a : bytes) : Z := Balance (acct w a).
Definition set_bal (a : bytes) (z : Z) (w : World) : World :=
  upd_acct a (with_balance z) w.
Definition add_bal (a : bytes) (z : Z) (w : World) : World :=
  set_bal a (bal w a + z) w.

(** [EnforceContractClass]: [None] is permission, [Some e] the error. *)
Definition EnforceContractClass (lvl : Z) (class : ContractClass) : option string :=
  match class with
  | ClassA => None
  | ClassB => if lvl <? 2 then Some "Class B requires Dox_Dev Level 2+"%string else None
  | ClassC => if lvl <? 3 then Some "Class C requires Dox_Dev Level 3+"%string else None
  | ClassD => Some "Class D requires governance approval"%string
  | _ => None
  end.

(** [CanDeployContract]. *)
Definition CanDeployContract (lvl : Z) : option string :=
  if lvl <? 2 then Some "contract deployment requires Dox_Dev Level 2+"%string else None.

(** ** Storage helpers *)

(** [PrecompileAddrHex]: thirty-eight zeros and the byte in hexadecimal. *)
Definition PrecompileAddrHex (b : Z) : bytes := replicate 38 48 ++ hex_byte b.

Definition storageKey (data : bytes) : bytes := Sha256.sum256 data.

Definition readUint64 (s : bytes) : Z := big_u64 (be_dec s).
Definition readBigInt (s : bytes) : Z := be_dec s.
Definition writeUint64 (v : Z) : bytes :=
  zeros (32 - length (big_bytes v)) ++ big_bytes v.
(** [writeBigInt] and [writeSlot]: [copy(slot[32-len(b):], b)] panics on a
    magnitude of more than 32 bytes. *)
Definition writeBigInt (v : Z) : option bytes :=
  let b := big_bytes v in
  if (length b <=? 32)%nat then Some (zeros (32 - length b) ++ b) else None.
Definition writeSlot (v : Z) : option bytes := writeBigInt v.

(** [readSlot(input, offset)]. *)
Definition readSlot (input : bytes) (off : nat) : bytes :=
  if (off + 32 <=? length input)%nat then take 32 (drop off input) else zero32.

Definition addressKey (addr : bytes) (prefix : Z) : bytes := storageKey (prefix :: addr).
Definition uint64Key (id prefix : Z) : bytes := storageKey (prefix :: big_bytes id).

Definition selectorBytes (input : bytes) : Z :=
  if (length input <? 4)%nat then 0 else be_dec (take 4 input).
Definition readAddress (input : bytes) (off : nat) : bytes :=
  if (length input <? off + 20)%nat then zeros 20 else take 20 (drop off input).
Definition readUint256 (input : bytes) (off : nat) : Z :=
  if (length input <? off + 32)%nat then 0 else be_dec (take 32 (drop off input)).
Definition readUint64FromInput (input : bytes) (off : nat) : Z :=
  if (length input <? off + 8)%nat then 0
  else big_u64 (be_dec (take 8 (drop off input))).
Definition readByte (input : bytes) (off : nat) : Z :=
  if (length input <=? off)%nat then 0 else byte_at input off.

Definition boolResult (v : bool) : bytes := zeros 31 ++ [bool_byte v].
Definition boolToBytes (v : bool) : bytes := [bool_byte v].
Definition callerHash (caller : bytes) : bytes := Sha256.sum256 caller.
Definition stringToHash (s : bytes) : bytes := Sha256.sum256 s.

(** ** Monadic access, for handlers *)

Abbreviation HM := (M World).
Abbreviation Handler := (bytes -> bytes -> Z -> M World bytes).

Definition touch (a : bytes) : HM unit := modify (GetOrCreateAccount a).
Definition sload (a k : bytes) : HM bytes := gets (fun w => slot w a k).
(** [readBigInt(acc.Storage[k])]. *)
Definition sread (a k : bytes) : HM Z := gets (fun w => readBigInt (slot w a k)).
Definition sstore (a k v : bytes) : HM unit := modify (set_slot a k v).
(** [acc.Storage[k] = writeSlot(v)]. *)
Definition sstore_big (a k : bytes) (v : Z) : HM unit :=
  mbind (sstore a k) (must (writeSlot v)).
(** [v.FillBytes(slot[:]); acc.Storage[k] = slot]: panics above 256 bits. *)
Definition sstore_fill (a k : bytes) (v : Z) : HM unit :=
  mbind (sstore a k) (must (fill_bytes 32 v)).
Definition addlog a t d b : HM unit := modify (AddLog a t d b).

(** ** Lemmas: accounts and slots *)

Create Rewrite HintDb world.

Lemma acct_upd w a f b :
  acct (upd_acct a f w) b = if decide (a = b) then f (acct w a) else acct w b.
Proof.
  unfold acct at 1, upd_acct. simpl. rewrite lookup_insert.
  case_decide; [by subst|done].
Qed.

Lemma acct_touch w a b : acct (GetOrCreateAccount a w) b = acct w b.
Proof.
  unfold acct, GetOrCreateAccount. destruct (accounts w !! a) eqn:E; [done|].
  simpl. rewrite lookup_insert. case_decide; [subst; by rewrite E|done].
Qed.

Lemma touch_touch a w : GetOrCreateAccount a (GetOrCreateAccount a w) = GetOrCreateAccount a w.
Proof.
  unfold GetOrCreateAccount at 2. destruct (accounts w !! a) eqn:E.
  - unfold GetOrCreateAccount. by rewrite E.
  - unfold GetOrCreateAccount. rewrite E. cbn. by rewrite lookup_insert_eq.
Qed.

Lemma acct_log w a t d n b : acct (AddLog a t d n w) b = acct w b.
Proof. done. Qed.
Lemma acct_econo w e b : acct (with_econo e w) b = acct w b.
Proof. done. Qed.
Lemma acct_policy w e b : acct (with_policy e w) b = acct w b.
Proof. done. Qed.
Lemma acct_inflation w e b : acct (with_inflation e w) b = acct w b.
Proof. done. Qed.

Lemma slot_set w a k v b k' :
  slot (set_slot a k v w) b k' =
  if decide (a = b /\ k = k') then v else slot w b k'.
Proof.
  unfold slot, set_slot. rewrite acct_upd.
  destruct (decide (a = b)) as [->|Hab].
  - simpl. rewrite lookup_insert. case_decide as H1.
    + subst. by rewrite decide_True.
    + rewrite decide_False by naive_solver. done.
  - rewrite decide_False by naive_solver. done.
Qed.

Lemma slot_set_eq w a k v : slot (set_slot a k v w) a k = v.
Proof. rewrite slot_set. by rewrite decide_True. Qed.
Lemma slot_set_ne w a k v b k' :
  a <> b \/ k <> k' -> slot (set_slot a k v w) b k' = slot w b k'.
Proof. intros. rewrite slot_set. rewrite decide_False; naive_solver. Qed.

Lemma slot_touch w a b k : slot (GetOrCreateAccount a w) b k = slot w b k.
Proof. unfold slot. by rewrite acct_touch. Qed.
Lemma slot_log w a t d n b k : slot (AddLog a t d n w) b k = slot w b k.
Proof. done. Qed.
Lemma slot_econo w e b k : slot (with_econo e w) b k = slot w b k.
Proof. done. Qed.
Lemma slot_policy w e b k : slot (with_policy e w) b k = slot w b k.
Proof. done. Qed.
Lemma slot_inflation w e b k : slot (with_inflation e w) b k = slot w b k.
Proof. done. Qed.
Lemma slot_set_bal w a z b k : slot (set_bal a z w) b k = slot w b k.
Proof. unfold slot, set_bal. rewrite acct_upd. case_decide; [by subst|done]. Qed.

Lemma bal_set_bal w a z b :
  bal (set_bal a z w) b = if decide (a = b) then z else bal w b.
Proof. unfold bal, set_bal. rewrite acct_upd. by case_decide. Qed.
Lemma bal_set_slot w a k v b : bal (set_slot a k v w) b = bal w b.
Proof. unfold bal, set_slot. rewrite acct_upd. case_decide; [by subst|done]. Qed.
Lemma bal_touch w a b : bal (GetOrCreateAccount a w) b = bal w b.
Proof. unfold bal. by rewrite acct_touch. Qed.
Lemma bal_log w a t d n b : bal (AddLog a t d n w) b = bal w b.
Proof. done. Qed.
Lemma bal_econo w e b : bal (with_econo e w) b = bal w b.
Proof. done. Qed.
Lemma bal_policy w e b : bal (with_policy e w) b = bal w b.
Proof. done. Qed.
Lemma bal_inflation w e b : bal (with_inflation e w) b = bal w b.
Proof. done. Qed.

Lemma inflation_touch w a : inflation (GetOrCreateAccount a w) = inflation w.
Proof. unfold GetOrCreateAccount. by destruct (accounts w !! a). Qed.
Lemma econo_touch w a : econo (GetOrCreateAccount a w) = econo w.
Proof. unfold GetOrCreateAccount. by destruct (accounts w !! a). Qed.
Lemma policy_touch w a : policy (GetOrCreateAccount a w) = policy w.
Proof. unfold GetOrCreateAccount. by destruct (accounts w !! a). Qed.

#[export] Hint Rewrite inflation_touch econo_touch policy_touch slot_set_eq slot_touch slot_log slot_econo slot_policy
  slot_inflation slot_set_bal bal_set_slot bal_touch bal_log bal_econo
  bal_policy bal_inflation acct_touch acct_log acct_econo acct_policy
  acct_inflation : world.

(** [world_simpl]: read through the writes of a handler; a read of another slot
    or account needs its inequality in the context. *)
Ltac world_simpl :=
  repeat (autorewrite with world in *;
          try (rewrite !slot_set_ne in * by (first [left; congruence | right; congruence])));
  cbn [logs accounts econo policy inflation with_econo with_policy
       with_inflation with_accounts with_logs AddLog] in *.

(** ** Lemmas: storage helpers *)

Lemma readBigInt_writeBigInt v s :
  0 <= v -> writeBigInt v = Some s ->
  readBigInt s = v /\ length s = 32%nat /\ wf_bytes s.
Proof.
  unfold writeBigInt, readBigInt. intros Hv.
  destruct (Nat.leb_spec (length (big_bytes v)) 32) as [Hl|]; intros [= <-].
  rewrite be_dec_app, be_dec_zeros, big_bytes_dec by done.
  split_and!.
  - lia.
  - rewrite length_app. unfold zeros. rewrite length_replicate. lia.
  - apply Forall_app; split; [apply zeros_wf | apply be_enc_wf].
Qed.

Lemma writeBigInt_some v :
  0 <= v < 2 ^ 256 -> exists s, writeBigInt v = Some s.
Proof.
  intros Hv. unfold writeBigInt. rewrite big_bytes_length.
  assert (nbytes v <= 32)%nat as Hn by (apply nbytes_spec; [lia|]; exact (proj2 Hv)).
  destruct (Nat.leb_spec (nbytes v) 32); [eauto|lia].
Qed.

(** [writeSlot] panics exactly when the value needs more than 256 bits. *)
Lemma writeBigInt_none v :
  0 <= v -> writeBigInt v = None <-> 2 ^ 256 <= v.
Proof.
  intros Hv. split.
  - intros H. destruct (Z.lt_ge_cases v (2 ^ 256)); [|done].
    destruct (writeBigInt_some v) as [s Hs]; [lia|congruence].
  - intros H. unfold writeBigInt. rewrite big_bytes_length.
    destruct (Nat.leb_spec (nbytes v) 32) as [Hn|]; [|done].
    apply nbytes_spec in Hn; [|lia].
    change (256 ^ Z.of_nat 32) with (2 ^ 256) in Hn. lia.
Qed.

Lemma readUint64_writeUint64 v : is_u64 v -> readUint64 (writeUint64 v) = v.
Proof.
  intros Hv. unfold readUint64, writeUint64.
  rewrite be_dec_app, be_dec_zeros, big_bytes_dec by (unfold is_u64 in Hv; lia).
  rewrite Z.mul_0_l, Z.add_0_l. by apply big_u64_small.
Qed.

Lemma readUint64_range s : is_u64 (readUint64 s).
Proof. apply u64_range. Qed.

Lemma readBigInt_nonneg s : wf_bytes s -> 0 <= readBigInt s.
Proof. intros H. by apply be_dec_bound. Qed.

Lemma readAddress_length input off : length (readAddress input off) = 20%nat.
Proof.
  unfold readAddress. destruct (Nat.ltb_spec (length input) (off + 20)); [done|].
  rewrite length_take, length_drop. lia.
Qed.

(** The class-to-level table of the deploy gate. *)
Lemma EnforceContractClass_mono l1 l2 c :
  l1 <= l2 -> EnforceContractClass l1 c = None -> EnforceContractClass l2 c = None.
Proof.
  intros Hl. destruct c; simpl; try done;
    destruct (Z.ltb_spec l1 2), (Z.ltb_spec l2 2), (Z.ltb_spec l1 3), (Z.ltb_spec l2 3);
    try done; lia.
Qed.

Lemma CloneAccount_id a : CloneAccount a = a.
Proof. by destruct a. Qed.

Lemma Clone_id w : Clone w = w.
Proof.
  destruct w as [m l r i e p]. unfold Clone. simpl. f_equal.
  apply map_eq. intros k. rewrite lookup_fmap. destruct (m !! k); simpl; [|done].
  by rewrite CloneAccount_id.
Qed.

(** ** Frames: what a handler leaves alone

    [respects R m]: every run of [m], whatever its outcome, relates the state
    before and after by the preorder [R]. *)

Definition respects {A} (R : World -> World -> Prop) (m : HM A) : Prop :=
  forall w, R w (m w).2.

Section Respects.
Context (R : World -> World -> Prop) `{!PreOrder R}.

Lemma respects_ret {A} (a : A) : respects R (mret a).
Proof. by intros w. Qed.
Lemma respects_fail {A} e : respects R (fail (A := A) e).
Proof. by intros w. Qed.
Lemma respects_panic {A} : respects R (panic (A := A)).
Proof. by intros w. Qed.
Lemma respects_gets {A} (f : World -> A) : respects R (gets f).
Proof. by intros w. Qed.
Lemma respects_guard c e : respects R (guard_err c e).
Proof. intros w. by destruct c. Qed.
Lemma respects_must {A} (o : option A) : respects R (must o).
Proof. intros w. by destruct o. Qed.
Lemma respects_bind {A B} (m : HM A) (k : A -> HM B) :
  respects R m -> (forall a, respects R (k a)) -> respects R (mbind (M := M World) k m).
Proof.
  intros Hm Hk w. unfold mbind, M_bind. specialize (Hm w).
  destruct (m w) as [[a|e|] w1]; try done. cbn [snd] in Hm. etrans; [exact Hm|apply Hk].
Qed.
Lemma respects_bind_must {A B} (o : option A) (k : A -> HM B) :
  (forall a, o = Some a -> respects R (k a)) ->
  respects R (mbind (M := M World) k (must o)).
Proof. intros Hk w. destruct o as [a|]; [by apply (Hk a)|done]. Qed.
Lemma respects_bind_guard {B} c e (k : unit -> HM B) :
  (c = false -> respects R (k tt)) ->
  respects R (mbind (M := M World) k (guard_err c e)).
Proof. intros Hk w. destruct c; [done|by apply Hk]. Qed.
Lemma respects_if {A} (b : bool) (m n : HM A) :
  respects R m -> respects R n -> respects R (if b then m else n).
Proof. by destruct b. Qed.
Lemma respects_modify f : (forall w, R w (f w)) -> respects R (modify f).
Proof. intros Hf w. apply Hf. Qed.
Lemma respects_read {A} (f : World -> outcome A) : respects R (fun w => (f w, w)).
Proof. by intros w. Qed.
End Respects.

Lemma respects_run {A} R (m : HM A) w r w' : respects R m -> m w = (r, w') -> R w w'.
Proof. intros H E. specialize (H w). by rewrite E in H. Qed.

Lemma respects_weaken {A} (R R' : World -> World -> Prop) (m : HM A) :
  (forall w w', R w w' -> R' w w') -> respects R m -> respects R' m.
Proof. intros H Hm w. apply H, Hm. Qed.

(** The slots [ks] of account [a] are left alone. *)
Definition same_slots (a : bytes) (ks : list bytes) (w w' : World) : Prop :=
  forall k, k ∈ ks -> slot w' a k = slot w a k.

#[export] Instance same_slots_preorder a ks : PreOrder (same_slots a ks).
Proof. split; [by intros w k _|]. intros x y z H1 H2 k Hk. by rewrite H2, H1. Qed.

Lemma frame_touch a ks b : respects (same_slots a ks) (touch b).
Proof. intros w k _. unfold touch, modify. cbn. by world_simpl. Qed.
Lemma frame_addlog a ks b t d n : respects (same_slots a ks) (addlog b t d n).
Proof. by intros w k _. Qed.
Lemma frame_sstore a ks b k v :
  a <> b \/ k ∉ ks -> respects (same_slots a ks) (sstore b k v).
Proof.
  intros H w k' Hk'. unfold sstore, modify. cbn. rewrite slot_set_ne; [done|].
  destruct H as [H|H]; [by left|right]. intros ->. done.
Qed.
Lemma frame_add_bal a ks b z : respects (same_slots a ks) (modify (add_bal b z)).
Proof. intros w k _. unfold modify, add_bal. cbn. by world_simpl. Qed.

(** [frame_auto]: frame goals for handlers; leaves the key inequalities of the
    stores. *)
Ltac frame_step :=
  lazymatch goal with
  | |- respects _ (mbind _ (must _)) => apply respects_bind_must; [apply _|intros ? ?]
  | |- respects _ (mbind _ _) => apply respects_bind; [apply _| |intros ?]
  | |- respects _ (if _ then _ else _) => apply respects_if; [| ]
  | |- respects _ (mret _) => apply respects_ret; apply _
  | |- respects _ (fail _) => apply respects_fail; apply _
  | |- respects _ panic => apply respects_panic; apply _
  | |- respects _ (gets _) => apply respects_gets; apply _
  | |- respects _ (sload _ _) => apply respects_gets; apply _
  | |- respects _ (sread _ _) => apply respects_gets; apply _
  | |- respects _ (guard_err _ _) => apply respects_guard; apply _
  | |- respects _ (must _) => apply respects_must; apply _
  | |- respects (same_slots _ _) (touch _) => apply frame_touch
  | |- respects (same_slots _ _) (addlog _ _ _ _) => apply frame_addlog
  | |- respects (same_slots _ _) (modify (add_bal _ _)) => apply frame_add_bal
  | |- respects _ (let '_ := _ in _) => case_match
  end.
Ltac frame_auto := repeat frame_step.

(** [run_go]: execute the monadic prefix of a handler on a symbolic state. *)
Ltac run_go :=
  cbv beta iota zeta delta [mbind M_bind mret M_ret gets modify sload sread sstore touch addlog
    guard_err fail].

(** [inv_run H]: invert a successful run of a handler down to its reads and
    writes. *)
Ltac inv_run H :=
  inv_go H; unfold touch, sload, sread, sstore, addlog in *;
  repeat match goal with
  | E : gets _ _ = _ |- _ => cbv [gets] in E; injection E as <- <-
  | E : modify _ _ = _ |- _ => cbv [modify] in E; injection E as <- <-
  end.

Lemma sstore_big_run a k v w :
  0 <= v < 2 ^ 256 ->
  exists s, readBigInt s = v /\ sstore_big a k v w = (Ok tt, set_slot a k s w).
Proof.
  intros Hv. destruct (writeBigInt_some v Hv) as [s Hs].
  destruct (readBigInt_writeBigInt v s (proj1 Hv) Hs) as [Hr _].
  exists s. split; [done|]. unfold sstore_big, writeSlot. by rewrite Hs.
Qed.

Lemma writeBigInt_read v s :
  writeBigInt v = Some s -> readBigInt s = Z.abs v /\ length s = 32%nat /\ wf_bytes s.
Proof.
  intros H. assert (Ha : writeBigInt (Z.abs v) = Some s).
  { rewrite <- H. unfold writeBigInt, big_bytes, nbytes. rewrite Z.abs_idemp.
    replace (Z.abs v =? 0) with (v =? 0); [done|].
    destruct (Z.eqb_spec v 0), (Z.eqb_spec (Z.abs v) 0); lia. }
  apply (readBigInt_writeBigInt (Z.abs v)); [lia|done].
Qed.

(** A write of a number stores its magnitude or panics. *)
Lemma sstore_big_cases a k v w :
  (exists s, readBigInt s = Z.abs v /\ length s = 32%nat /\ wf_bytes s /\
     sstore_big a k v w = (Ok tt, set_slot a k s w)) \/
  sstore_big a k v w = (Panic, w).
Proof.
  unfold sstore_big, writeSlot. destruct (writeBigInt v) as [s|] eqn:E; [left|by right].
  apply writeBigInt_read in E as (R & L & W). by exists s.
Qed.

Lemma sstore_big_inv a k v w u w' :
  sstore_big a k v w = (Ok u, w') ->
  exists s, w' = set_slot a k s w /\ readBigInt s = Z.abs v /\ length s = 32%nat /\ wf_bytes s.
Proof.
  destruct (sstore_big_cases a k v w) as [(s & R & L & W & E)| E]; rewrite E; [|done].
  intros [= _ <-]. by exists s.
Qed.

(** What Go's [[32]byte] gives: every key and value has 32 bytes. *)
Definition slots_typed (a : bytes) (w : World) : Prop :=
  forall k v, Storage (acct w a) !! k = Some v -> length k = 32%nat /\ length v = 32%nat /\ wf_bytes v.

Definition slot_entry_ok (e : bytes * bytes) : bool :=
  (length e.1 =? 32)%nat && (length e.2 =? 32)%nat && forallb (fun b => (0 <=? b) && (b <? 256)) e.2.
Lemma slots_typed_check a w :
  forallb slot_entry_ok (map_to_list (Storage (acct w a))) = true -> slots_typed a w.
Proof.
  rewrite forallb_forall. intros H k v Hk. apply elem_of_map_to_list, list_elem_of_In, H in Hk.
  unfold slot_entry_ok in Hk. cbn [fst snd] in Hk. zbool.
  match goal with E : forallb _ _ = true |- _ => rewrite forallb_forall in E; rename E into Hb end.
  split_and!; [by apply Nat.eqb_eq|by apply Nat.eqb_eq|]. rewrite Forall_forall. intros b Hin.
  apply list_elem_of_In, Hb in Hin. zbool. unfold is_byte. lia.
Qed.

Lemma slot_wf a w k : slots_typed a w -> wf_bytes (slot w a k).
Proof.
  intros H. unfold slot. destruct (Storage (acct w a) !! k) as [v|] eqn:E; [|apply zeros_wf].
  by apply (H k v).
Qed.
Lemma slot_nonneg a w k : slots_typed a w -> 0 <= readBigInt (slot w a k).
Proof. intros H. by apply readBigInt_nonneg, slot_wf. Qed.

Lemma readSlot_whole s : length s = 32%nat -> readSlot s 0 = s.
Proof. intros L. unfold readSlot. rewrite L. cbn [Nat.leb Nat.add drop]. by rewrite <- L, firstn_all. Qed.

Lemma slot_length a w k : slots_typed a w -> length (slot w a k) = 32%nat.
Proof.
  intros H. unfold slot. destruct (Storage (acct w a) !! k) as [v|] eqn:E; [|done]. by apply (H k v).
Qed.

Lemma slots_typed_set a k v w b :
  length k = 32%nat -> length v = 32%nat -> wf_bytes v -> slots_typed b w -> slots_typed b (set_slot a k v w).
Proof.
  intros Hk Hv Hw Ht k' v'. unfold set_slot. rewrite acct_upd. case_decide as E; [subst b|apply Ht].
  cbn [Storage with_storage]. destruct (decide (k = k')) as [->|Hne].
  - rewrite lookup_insert_eq. by intros [= <-].
  - rewrite lookup_insert_ne by done. apply Ht.
Qed.

(** The storage of account [a] is left alone. *)
Definition same_storage (a : bytes) (w w' : World) : Prop := Storage (acct w' a) = Storage (acct w a).
#[export] Instance same_storage_preorder a : PreOrder (same_storage a).
Proof. split; [done|]. intros x y z H1 H2. unfold same_storage in *. congruence. Qed.

Lemma same_storage_touch a b : respects (same_storage a) (touch b).
Proof. intros w. unfold same_storage, touch, modify. cbn [snd]. by rewrite acct_touch. Qed.
Lemma same_storage_sstore a b k v : b <> a -> respects (same_storage a) (sstore b k v).
Proof.
  intros H w. unfold same_storage, sstore, modify, set_slot. cbn [snd]. rewrite acct_upd. by rewrite decide_False.
Qed.
Lemma same_storage_addlog a b t d n : respects (same_storage a) (addlog b t d n).
Proof. done. Qed.
Lemma same_storage_typed a w w' : same_storage a w w' -> slots_typed a w -> slots_typed a w'.
Proof. unfold same_storage, slots_typed. by intros ->. Qed.
Lemma same_storage_slot a w w' k : same_storage a w w' -> slot w' a k = slot w a k.
Proof. unfold same_storage, slot. by intros ->. Qed.

Lemma readSlot_nonneg input off : wf_bytes input -> 0 <= readBigInt (readSlot input off).
Proof.
  intros H. apply readBigInt_nonneg. unfold readSlot. case_match; [|apply zeros_wf].
  by apply Forall_take, Forall_drop.
Qed.

(** ** Hash preimages

    SHA-256 is not injective; a theorem that tells two storage keys apart assumes
    that the preimages the call uses do not collide. *)
Definition collision_free (pre : list bytes) : Prop :=
  Forall (fun a => Forall (fun b => Sha256.sum256 a = Sha256.sum256 b -> a = b) pre) pre.

Lemma collision_free_ne pre a b :
  collision_free pre -> a ∈ pre -> b ∈ pre -> a <> b -> storageKey a <> storageKey b.
Proof.
  intros H Ha Hb Hne Heq. unfold collision_free in H.
  rewrite Forall_forall in H. specialize (H a Ha). rewrite Forall_forall in H.
  by apply Hne, H.
Qed.

(** [pre_mem]: membership in a literal list of preimages; [key_ne H]: two keys
    differ because their preimages, both listed in [H], do. *)
Ltac pre_mem := solve [repeat first [apply list_elem_of_here | apply list_elem_of_further]].
Ltac key_ne H := apply (collision_free_ne _ _ _ H); [pre_mem|pre_mem|done].

Lemma collision_free_nodup pre :
  bool_decide (NoDup (Sha256.sum256 <$> pre)) = true -> collision_free pre.
Proof.
  intros H%bool_decide_eq_true. unfold collision_free.
  rewrite Forall_forall. intros a Ha. rewrite Forall_forall. intros b Hb Heq.
  apply list_elem_of_lookup in Ha as [i Hi], Hb as [j Hj].
  assert (i = j) as ->; [|congruence].
  eapply NoDup_lookup; [exact H| |]; rewrite list_lookup_fmap;
    [by rewrite Hi|rewrite Hj; simpl; by rewrite Heq].
Qed.

Lemma collision_free_check pre :
  forallb (fun a => forallb (fun b => negb (bool_decide (Sha256.sum256 a = Sha256.sum256 b)) || bool_decide (a = b))
    pre) pre = true -> collision_free pre.
Proof.
  intros H. unfold collision_free. rewrite Forall_forall. intros a Ha. rewrite Forall_forall. intros b Hb Heq.
  rewrite forallb_forall in H. specialize (H a (proj1 (list_elem_of_In _ _) Ha)).
  rewrite forallb_forall in H. specialize (H b (proj1 (list_elem_of_In _ _) Hb)).
  rewrite bool_decide_eq_true_2 in H by done. by apply bool_decide_eq_true in H.
Qed.
