(* ===== verification/Validators.v ===== *)
(** The validator registry (types.go, validators.go): [ValidatorSet] with
    registration, removal, jailing and the square-root-weighted lottery. *)

From Stdlib Require Import ZArith Lia.
From S2P Require Import Prelude GoFloat Collections.
From stdpp Require Import gmap list.
Local Open Scope Z_scope.

(** ** Data *)

(** [ValidatorID] is a [20]byte. *)
Abbreviation ValidatorID := (list Z).

(** [ValidatorID.String]: the last byte only, in hexadecimal. *)
Definition ValidatorID_String (id : ValidatorID) : bytes := hex_byte (byte_at id 19).

(** [NewValidatorID]. *)
Definition NewValidatorID (b : Z) : ValidatorID := zeros 19 ++ [b].

Definition MaxValidators : Z := 200.
Definition MinStake : Z := 100.
Definition JailThreshold : Z := 50.

Record ValidatorSet := mkVS {
  IDs : list ValidatorID;
  Stakes : gmap bytes Z;
  Missed : gmap bytes Z;
  Jailed : list ValidatorID;
  seed : Z;
}.

Definition NewValidatorSet : ValidatorSet := mkVS [] ∅ ∅ [] 0.

(** A map read: the zero value when the key is absent. *)
Definition stake_of (vs : ValidatorSet) (id : ValidatorID) : Z := default 0 (Stakes vs !! id).
Definition missed_of (vs : ValidatorSet) (id : ValidatorID) : Z := default 0 (Missed vs !! id).

(** ** Operations *)

Section Operations.
Context `{SortSlice}.

(** [ValidatorSet.Add]. *)
Definition Add (id : ValidatorID) (stake : Z) (vs : ValidatorSet) : outcome unit * ValidatorSet :=
  match Stakes vs !! id with
  | Some _ => (Err "%s already registered", vs)
  | None =>
      if stake <? MinStake then (Err "stake %d < minimum %d", vs)
      else if MaxValidators <=? Z.of_nat (length (IDs vs))
      then (Err "max %d validators reached", vs)
      else (Ok tt, mkVS (sort_slice bytes_ltb (IDs vs ++ [id]))
                     (<[id := stake]> (Stakes vs)) (<[id := 0]> (Missed vs))
                     (Jailed vs) (seed vs))
  end.

(** [ValidatorSet.AddMultiple]: stops at the first error. *)
Fixpoint AddMultiple (ids : list ValidatorID) (stakes : list Z) (vs : ValidatorSet)
    : outcome unit * ValidatorSet :=
  match ids, stakes with
  | id :: ids, stake :: stakes =>
      match Add id stake vs with
      | (Ok _, vs) => AddMultiple ids stakes vs
      | r => r
      end
  | _, _ => (Ok tt, vs)
  end.

(** The loop of [Remove]: cut out the first occurrence. *)
Fixpoint remove_first (id : ValidatorID) (l : list ValidatorID) : list ValidatorID :=
  match l with
  | [] => []
  | x :: l => if decide (x = id) then l else x :: remove_first id l
  end.

(** [ValidatorSet.Remove]. *)
Definition Remove (id : ValidatorID) (vs : ValidatorSet) : ValidatorSet :=
  mkVS (remove_first id (IDs vs)) (delete id (Stakes vs)) (delete id (Missed vs))
    (Jailed vs) (seed vs).

(** [ValidatorSet.Jail]. *)
Definition Jail (id : ValidatorID) (vs : ValidatorSet) : ValidatorSet :=
  let vs := Remove id vs in
  mkVS (IDs vs) (Stakes vs) (Missed vs) (Jailed vs ++ [id]) (seed vs).

(** [ValidatorSet.MarkMissed]: the result says whether the validator was jailed. *)
Definition MarkMissed (id : ValidatorID) (vs : ValidatorSet) : bool * ValidatorSet :=
  let vs := mkVS (IDs vs) (Stakes vs) (<[id := missed_of vs id + 1]> (Missed vs))
              (Jailed vs) (seed vs) in
  if JailThreshold <=? missed_of vs id then (true, Jail id vs) else (false, vs).

(** [ValidatorSet.TotalStake]: a uint64 accumulator. *)
Definition TotalStake (vs : ValidatorSet) : Z :=
  fold_left (fun total id => u64 (total + stake_of vs id)) (IDs vs) 0.

Definition Count (vs : ValidatorSet) : Z := Z.of_nat (length (IDs vs)).

Definition SqrtWeight (vs : ValidatorSet) (id : ValidatorID) : F64.t :=
  F64.sqrt (F64.of_Z (stake_of vs id)).

Definition TotalSqrtWeight (vs : ValidatorSet) : F64.t :=
  fold_left (fun total id => F64.add total (SqrtWeight vs id)) (IDs vs) F64.zero.

(** The cumulative scan of [SelectProposer]. *)
Fixpoint pick_from (vs : ValidatorSet) (pick cumulative : F64.t) (l : list ValidatorID)
    : option ValidatorID :=
  match l with
  | [] => None
  | id :: l =>
      let cumulative := F64.add cumulative (SqrtWeight vs id) in
      if F64.leb pick cumulative then Some id else pick_from vs pick cumulative l
  end.

(** [ValidatorSet.SelectProposer].  [rand_float64 seed] is the first [Float64]
    of [rand.New(rand.NewSource(seed))].  Indexing an empty set panics. *)
Definition SelectProposer (rand_float64 : Z -> F64.t) (height : Z) (vs : ValidatorSet)
    : outcome ValidatorID * ValidatorSet :=
  let total := TotalSqrtWeight vs in
  if F64.leb total F64.zero then
    match IDs vs with
    | [] => (Panic, vs)
    | id :: _ => (Ok id, vs)
    end
  else
    let s := i64 (u64 (u64 (height * 2654435761) + u64 (Count vs * 3141592653))) in
    let vs := mkVS (IDs vs) (Stakes vs) (Missed vs) (Jailed vs) s in
    let pick := F64.mul (rand_float64 s) total in
    match pick_from vs pick F64.zero (IDs vs) with
    | Some id => (Ok id, vs)
    | None => match last (IDs vs) with
              | Some id => (Ok id, vs)
              | None => (Panic, vs)
              end
    end.

(** ** Reachable registries *)

Inductive vs_step : ValidatorSet -> ValidatorSet -> Prop :=
| step_add id stake vs : vs_step vs (Add id stake vs).2
| step_add_multiple ids stakes vs : vs_step vs (AddMultiple ids stakes vs).2
| step_remove id vs : vs_step vs (Remove id vs)
| step_jail id vs : vs_step vs (Jail id vs)
| step_missed id vs : vs_step vs (MarkMissed id vs).2
| step_select rnd h vs : vs_step vs (SelectProposer rnd h vs).2.

Inductive vs_reachable : ValidatorSet -> Prop :=
| reach_new : vs_reachable NewValidatorSet
| reach_step vs vs' : vs_reachable vs -> vs_step vs vs' -> vs_reachable vs'.

(** The registry invariant: the active list is duplicate free, in strictly
    increasing byte order, at most [MaxValidators] long, holds exactly the
    registered validators, and each has the minimum stake and a miss counter
    below the jail threshold. *)
Record vs_wf (vs : ValidatorSet) : Prop := {
  wf_nodup : NoDup (IDs vs);
  wf_sorted : sorted_by bytes_ltb (IDs vs);
  wf_len : Z.of_nat (length (IDs vs)) <= MaxValidators;
  wf_dom id : id ∈ IDs vs <-> is_Some (Stakes vs !! id);
  wf_stake id s : Stakes vs !! id = Some s -> MinStake <= s;
  wf_missed id : id ∈ IDs vs ->
    exists m, Missed vs !! id = Some m /\ 0 <= m < JailThreshold;
}.

(** ** Lemmas *)

Lemma remove_first_elem id x l :
  NoDup l -> x ∈ remove_first id l <-> x ∈ l /\ x <> id.
Proof.
  induction 1 as [|y l Hy Hnd IH]; simpl.
  - rewrite elem_of_nil. naive_solver.
  - case_decide; [subst; rewrite elem_of_cons; naive_solver|].
    rewrite !elem_of_cons. naive_solver.
Qed.

Lemma remove_first_sublist id l : sublist (remove_first id l) l.
Proof.
  induction l as [|x l IH]; simpl; [constructor|].
  case_decide; by constructor.
Qed.

Lemma sorted_by_sublist {A} (less : A -> A -> bool) l1 l2 :
  sublist l1 l2 -> sorted_by less l2 -> sorted_by less l1.
Proof.
  unfold sorted_by. induction 1 as [|x l1 l2 Hs IH|x l1 l2 Hs IH]; intros H1; [done| |];
    inversion H1; subst; auto.
  constructor; auto. rewrite Forall_forall in *. intros y Hy.
  match goal with Hf : forall _, _ -> _ |- _ => apply Hf end.
  by eapply (sublist_subseteq l1 l2).
Qed.

Lemma NewValidatorSet_wf : vs_wf NewValidatorSet.
Proof.
  split; simpl; try done.
  - constructor.
  - constructor.
  - intros id. rewrite lookup_empty, elem_of_nil. split; [done|intros [? ?]; done].
  - by intros id; rewrite elem_of_nil.
Qed.

Lemma Remove_wf id vs : vs_wf vs -> vs_wf (Remove id vs).
Proof.
  intros [Hnd Hs Hl Hd Hst Hm]. pose proof (remove_first_sublist id (IDs vs)) as Hsub.
  split; simpl.
  - by eapply sublist_NoDup.
  - by eapply sorted_by_sublist.
  - apply sublist_length in Hsub. lia.
  - intros x. rewrite remove_first_elem by done. rewrite Hd, lookup_delete_is_Some. naive_solver.
  - intros x s. rewrite lookup_delete. case_decide; [done|eauto].
  - intros x. rewrite remove_first_elem by done. intros [Hx Hne].
    rewrite lookup_delete_ne by done. auto.
Qed.

Lemma Jail_wf id vs : vs_wf vs -> vs_wf (Jail id vs).
Proof. intros H0. destruct (Remove_wf id vs H0). by split. Qed.

Lemma Add_wf id stake vs : vs_wf vs -> vs_wf (Add id stake vs).2.
Proof.
  intros Hwf. unfold Add. destruct (Stakes vs !! id) eqn:Hid; [done|].
  destruct (Z.ltb_spec stake MinStake); [done|].
  destruct (Z.leb_spec MaxValidators (Z.of_nat (length (IDs vs)))); [done|].
  destruct Hwf as [Hnd Hs Hl Hd Hst Hm]. simpl.
  assert (Hp : Permutation (sort_slice bytes_ltb (IDs vs ++ [id])) (id :: IDs vs)).
  { rewrite sort_slice_perm. symmetry. apply Permutation_cons_append. }
  assert (Hni : id ∉ IDs vs) by (rewrite Hd, Hid; apply is_Some_None).
  split; simpl.
  - rewrite Hp. by constructor.
  - apply sort_slice_sorted, bytes_ltb_strict.
  - rewrite Hp. simpl. lia.
  - intros x. rewrite Hp, elem_of_cons, lookup_insert_is_Some, Hd.
    destruct (decide (x = id)); naive_solver.
  - intros x s. rewrite lookup_insert. case_decide; [naive_solver lia|eauto].
  - intros x. rewrite Hp, elem_of_cons. destruct (decide (x = id)) as [->|Hne].
    + intros _. exists 0. rewrite lookup_insert_eq. done.
    + rewrite lookup_insert_ne by done. naive_solver.
Qed.

Lemma AddMultiple_wf ids stakes vs : vs_wf vs -> vs_wf (AddMultiple ids stakes vs).2.
Proof.
  revert stakes vs. induction ids as [|id ids IH]; intros [|s stakes] vs Hwf; simpl; try done.
  pose proof (Add_wf id s vs Hwf). destruct (Add id s vs) as [[[]|e|] vs']; simpl in *; auto.
Qed.

Lemma MarkMissed_wf id vs : vs_wf vs -> vs_wf (MarkMissed id vs).2.
Proof.
  intros Hwf. unfold MarkMissed, missed_of at 1. simpl. rewrite lookup_insert_eq. simpl.
  destruct (Z.leb_spec JailThreshold (missed_of vs id + 1)); simpl.
  - assert (Jail id (mkVS (IDs vs) (Stakes vs) (<[id:=missed_of vs id + 1]> (Missed vs))
      (Jailed vs) (seed vs)) = Jail id vs) as ->.
    { unfold Jail, Remove. simpl. by rewrite delete_insert_eq. }
    by apply Jail_wf.
  - destruct Hwf as [Hnd Hs Hl Hd Hst Hm]. split; simpl; try done.
    intros x Hx. destruct (decide (x = id)) as [->|Hne].
    + rewrite lookup_insert_eq. destruct (Hm id Hx) as (m & Hmm & ?).
      eexists. split; [done|]. unfold missed_of in *. rewrite Hmm in *. simpl in *. lia.
    + rewrite lookup_insert_ne by done. auto.
Qed.

Lemma SelectProposer_fields rnd h vs :
  let vs' := (SelectProposer rnd h vs).2 in
  IDs vs' = IDs vs /\ Stakes vs' = Stakes vs /\ Missed vs' = Missed vs /\ Jailed vs' = Jailed vs.
Proof.
  unfold SelectProposer. cbv zeta. repeat case_match; done.
Qed.

Lemma SelectProposer_wf rnd h vs : vs_wf vs -> vs_wf (SelectProposer rnd h vs).2.
Proof.
  intros [Hnd Hs Hl Hd Hst Hm]. destruct (SelectProposer_fields rnd h vs) as (E1 & E2 & E3 & _).
  split; rewrite ?E1, ?E2, ?E3; auto.
Qed.

Lemma pick_from_elem vs pick c l id : pick_from vs pick c l = Some id -> id ∈ l.
Proof.
  revert c. induction l as [|x l IH]; intros c; simpl; [done|].
  destruct (F64.leb _ _); [intros [= ->]; by left|]. intros. right. eauto.
Qed.

End Operations.

(** ** Properties *)

Section Properties.
Context `{SortSlice}.

(** C27 (registry invariant).  Every registry reachable from an empty one through
    registration, batch registration, removal, jailing, miss reports and
    proposer selection, in any order, is well formed: the active list is
    duplicate free and sorted, never longer than [MaxValidators], holds exactly
    the registered validators, every stake is at least [MinStake] and every
    active miss counter is below [JailThreshold].  It holds whatever algorithm
    [sort.Slice] uses. *)
Theorem reachable_registry_wf vs : vs_reachable vs -> vs_wf vs.
Proof.
  induction 1 as [|vs vs' _ IH Hstep]; [apply NewValidatorSet_wf|].
  destruct Hstep; auto using Add_wf, AddMultiple_wf, Remove_wf, Jail_wf,
    MarkMissed_wf, SelectProposer_wf.
Qed.

(** Lottery.  Proposer selection returns an active validator whenever there
    is one, for every pseudo-random value, every height and every stake
    distribution, rounding included; on an empty registry it panics. *)
Theorem SelectProposer_spec rnd h vs :
  match (SelectProposer rnd h vs).1 with
  | Ok id => id ∈ IDs vs
  | Err _ => False
  | Panic => IDs vs = []
  end.
Proof.
  unfold SelectProposer. cbv zeta. destruct (F64.leb _ _).
  { destruct (IDs vs); [done|by left]. }
  simpl. destruct (pick_from _ _ _ _) eqn:E; simpl.
  { by eapply pick_from_elem. }
  destruct (last (IDs vs)) eqn:El; simpl; [by apply last_Some_elem_of|by apply last_None].
Qed.

Lemma MarkMissed_below id vs m :
  Missed vs !! id = Some m -> m + 1 < JailThreshold ->
  (MarkMissed id vs).1 = false /\
  Missed (MarkMissed id vs).2 !! id = Some (m + 1) /\
  IDs (MarkMissed id vs).2 = IDs vs.
Proof.
  intros Hm Hlt. unfold MarkMissed, missed_of. simpl.
  rewrite Hm, lookup_insert_eq. simpl.
  destruct (Z.leb_spec JailThreshold (m + 1)); [lia|]. simpl.
  by rewrite lookup_insert_eq.
Qed.

Lemma MarkMissed_at id vs m :
  Missed vs !! id = Some m -> JailThreshold <= m + 1 -> MarkMissed id vs = (true, Jail id vs).
Proof.
  intros Hm Hle. unfold MarkMissed, missed_of. cbn [Missed]. rewrite Hm, lookup_insert_eq.
  simpl. destruct (Z.leb_spec JailThreshold (m + 1)); [|lia].
  unfold Jail, Remove. simpl. by rewrite delete_insert_eq.
Qed.

Lemma MarkMissed_jails id vs m :
  NoDup (IDs vs) -> Missed vs !! id = Some m -> JailThreshold <= m + 1 ->
  (MarkMissed id vs).1 = true /\
  (let vs' := (MarkMissed id vs).2 in
   (id ∉ IDs vs') /\ Stakes vs' !! id = None /\ Missed vs' !! id = None /\ (id ∈ Jailed vs')).
Proof.
  intros Hnd Hm Hle. rewrite (MarkMissed_at id vs m Hm Hle). simpl.
  rewrite remove_first_elem by done. rewrite !lookup_delete_eq, elem_of_app.
  split_and!; [done|by intros [_ ?]|done|done|right; by left].
Qed.

(** [k] successive calls of [MarkMissed]. *)
Fixpoint report (id : ValidatorID) (k : nat) (vs : ValidatorSet) : ValidatorSet :=
  match k with
  | O => vs
  | S k => (MarkMissed id (report id k vs)).2
  end.
#[local] Arguments report : simpl never.

Lemma report_below id vs m k :
  Missed vs !! id = Some m -> m + Z.of_nat k < JailThreshold ->
  Missed (report id k vs) !! id = Some (m + Z.of_nat k) /\ IDs (report id k vs) = IDs vs.
Proof.
  intros Hm. induction k as [|k IH]; intros Hk.
  - rewrite Z.add_0_r. by split.
  - change (report id (S k) vs) with (MarkMissed id (report id k vs)).2. destruct IH as [H1 H2]; [lia|].
    destruct (MarkMissed_below id _ _ H1) as (_ & H3 & H4); [lia|].
    rewrite H3, H4, H2. split; [f_equal; lia|done].
Qed.

(** Jailing.  A freshly registered validator survives 49 reported misses
    with its counter counting them, and the 50th report removes it from the
    active set, the stake table and the counters, and records it as jailed. *)
Theorem jailed_at_threshold id stake vs vs1 :
  vs_wf vs -> Add id stake vs = (Ok tt, vs1) ->
  (forall k, (k < 50)%nat ->
     (id ∈ IDs (report id k vs1)) /\ missed_of (report id k vs1) id = Z.of_nat k) /\
  (MarkMissed id (report id 49 vs1)).1 = true /\
  (let vs' := (MarkMissed id (report id 49 vs1)).2 in
   (id ∉ IDs vs') /\ Stakes vs' !! id = None /\ Missed vs' !! id = None /\ (id ∈ Jailed vs')).
Proof.
  intros Hwf Hadd. pose proof (Add_wf id stake vs Hwf) as Hwf1. rewrite Hadd in Hwf1.
  simpl in Hwf1.
  assert (Hz : Missed vs1 !! id = Some 0 /\ id ∈ IDs vs1).
  { unfold Add in Hadd. repeat case_match; try done. injection Hadd as <-. simpl.
    rewrite lookup_insert_eq, sort_slice_perm, elem_of_app, list_elem_of_singleton.
    split; auto. }
  destruct Hz as [Hz Hin]. split.
  - intros k Hk. destruct (report_below id vs1 0 k Hz) as [H1 H2]; [unfold JailThreshold; lia|].
    rewrite H2. unfold missed_of. rewrite H1. done.
  - destruct (report_below id vs1 0 49 Hz) as [H1 H2]; [unfold JailThreshold; lia|].
    eapply MarkMissed_jails; [rewrite H2; apply Hwf1|exact H1|done].
Qed.

End Properties.

(** ** Witnesses *)

Definition demo_id (b : Z) : ValidatorID := NewValidatorID b.
Definition demo_set : ValidatorSet :=
  (AddMultiple [demo_id 3; demo_id 1; demo_id 2] [100; 5000; 250] NewValidatorSet).2.

Lemma reachable_registry_wf_witness : vs_reachable demo_set /\ vs_wf demo_set.
Proof.
  assert (H : vs_reachable demo_set) by (eapply reach_step; [constructor|constructor]).
  split; [exact H|]. exact (reachable_registry_wf demo_set H).
Defined.

Example demo_set_sorted : IDs demo_set = [demo_id 1; demo_id 2; demo_id 3].
Proof. vm_compute. reflexivity. Qed.

Lemma jailed_at_threshold_witness :
  missed_of (report (demo_id 7) 49 (Add (demo_id 7) 400 demo_set).2) (demo_id 7) = 49 /\
  (MarkMissed (demo_id 7) (report (demo_id 7) 49 (Add (demo_id 7) 400 demo_set).2)).1 = true.
Proof.
  destruct (jailed_at_threshold (demo_id 7) 400 demo_set (Add (demo_id 7) 400 demo_set).2)
    as (H1 & H2 & _).
  - apply AddMultiple_wf, NewValidatorSet_wf.
  - vm_compute. reflexivity.
  - split; [exact (proj2 (H1 49%nat ltac:(lia)))|exact H2].
Defined.
