(* ===== verification/Types.v ===== *)
(** The node's data: transactions, blocks, headers and votes, with their hashes
    (types.go, and the types of chain.go). *)

From Stdlib Require Import ZArith Lia.
From S2P Require Import Prelude Sha256 GoFloat Collections StateDB Validators.
From stdpp Require Import gmap list.
Local Open Scope Z_scope.

(** [Transaction]. *)
Record Transaction := mkTx {
  tx_Nonce : Z;
  tx_From : bytes;
  tx_To : bytes;
  tx_Value : Z;
  tx_GasLimit : Z;
  tx_GasPrice : Z;
  tx_GasUsed : Z;
  tx_Data : bytes;
  tx_Hash : bytes;
  tx_Signature : bytes;
  tx_Lane : LaneType;
  tx_EncryptedData : bytes;
  tx_Logs : list LogEntry;
}.

(** [BlockWithTx]. *)
Record BlockWithTx := mkBlock {
  blk_Height : Z;
  blk_Proposer : ValidatorID;
  blk_Timestamp : Z;
  blk_PrevHash : bytes;
  blk_Transactions : list Transaction;
  blk_StateRoot : bytes;
  blk_Hash : bytes;
  blk_Logs : list LogEntry;
}.

(** [BlockHeader]. *)
Record BlockHeader := mkHeader {
  bh_Height : Z;
  bh_Round : Z;
  bh_Proposer : ValidatorID;
  bh_Timestamp : Z;
  bh_PrevHash : bytes;
  bh_TxsRoot : bytes;
}.

(** [Vote]; [VoteType] is 1 for a prevote and 2 for a precommit. *)
Record Vote := mkVote {
  v_Height : Z;
  v_Round : Z;
  v_BlockHash : bytes;
  v_Validator : ValidatorID;
  v_VoteType : Z;
}.

Definition colon : bytes := [58].

(** The string hashed by [BlockHeader.Hash]: [%v] of a [ValidatorID] calls its
    [String] method. *)
Definition header_preimage (bh : BlockHeader) : bytes :=
  fmt_d (bh_Height bh) ++ colon ++ fmt_d (bh_Round bh) ++ colon ++
  ValidatorID_String (bh_Proposer bh) ++ colon ++ fmt_int (bh_Timestamp bh) ++ colon ++
  fmt_x (bh_PrevHash bh) ++ colon ++ fmt_x (bh_TxsRoot bh).
Definition BlockHeader_Hash (bh : BlockHeader) : bytes :=
  Sha256.sum256 (header_preimage bh).

(** [BlockWithTx.ComputeHash]. *)
Definition block_preimage (b : BlockWithTx) : bytes :=
  fmt_d (blk_Height b) ++ colon ++ ValidatorID_String (blk_Proposer b) ++ colon ++
  fmt_int (blk_Timestamp b) ++ colon ++ fmt_x (blk_PrevHash b) ++ colon ++
  fmt_d (Z.of_nat (length (blk_Transactions b))) ++ colon ++ fmt_x (blk_StateRoot b).
Definition ComputeHash (b : BlockWithTx) : bytes := Sha256.sum256 (block_preimage b).

(** The string hashed by [TxHash], [NewTransaction] and [DeserializeTx]. *)
Definition tx_preimage (nonce : Z) (from to : bytes) (value gasLimit : Z)
    (lane : LaneType) (data enc : bytes) : bytes :=
  fmt_d nonce ++ colon ++ from ++ colon ++ to ++ colon ++ fmt_int value ++ colon ++
  fmt_d gasLimit ++ colon ++ fmt_d (lane_byte lane) ++ colon ++
  fmt_d (Z.of_nat (length data)) ++ colon ++ fmt_x data ++ colon ++ fmt_x enc.

(** [Transaction.TxHash], the hash a signature covers. *)
Definition TxHash (tx : Transaction) : bytes :=
  Sha256.sum256 (tx_preimage (tx_Nonce tx) (tx_From tx) (tx_To tx) (tx_Value tx)
    (tx_GasLimit tx) (tx_Lane tx) (tx_Data tx) (tx_EncryptedData tx)).

(** [NewTransaction]. *)
Definition NewTransaction (nonce : Z) (from to : bytes) (value gasLimit : Z)
    (data : bytes) : Transaction :=
  mkTx nonce from to value gasLimit 0 0 data
    (Sha256.sum256 (tx_preimage nonce from to value gasLimit ConsensusLane data []))
    [] ConsensusLane [] [].

(** ** Lemmas *)

(** A new transaction carries its own signing hash. *)
Lemma NewTransaction_hash nonce from to value gasLimit data :
  let tx := NewTransaction nonce from to value gasLimit data in tx_Hash tx = TxHash tx.
Proof. done. Qed.

Lemma ComputeHash_length b : length (ComputeHash b) = 32%nat.
Proof. apply sum256_length. Qed.

(** The signing hash does not cover the gas price. *)
Lemma TxHash_gas_price tx p :
  TxHash (mkTx (tx_Nonce tx) (tx_From tx) (tx_To tx) (tx_Value tx) (tx_GasLimit tx) p
    (tx_GasUsed tx) (tx_Data tx) (tx_Hash tx) (tx_Signature tx) (tx_Lane tx)
    (tx_EncryptedData tx) (tx_Logs tx)) = TxHash tx.
Proof. done. Qed.

(** Two validators that share their last byte are the same proposer for a block
    hash. *)
Lemma ComputeHash_last_byte b p :
  byte_at p 19 = byte_at (blk_Proposer b) 19 ->
  ComputeHash (mkBlock (blk_Height b) p (blk_Timestamp b) (blk_PrevHash b)
    (blk_Transactions b) (blk_StateRoot b) (blk_Hash b) (blk_Logs b)) = ComputeHash b.
Proof.
  intros H. unfold ComputeHash, block_preimage, ValidatorID_String. simpl. by rewrite H.
Qed.
