(* ===== verification/P2P.v ===== *)
(** The peer-to-peer node as its clients see it (p2p.go, and the broadcasts of
    p2p_daemon.go): it numbers the messages it is given and emits them.  Network.v
    is the network those messages travel. *)

From Stdlib Require Import ZArith Lia.
From S2P Require Import Prelude Sha256 GoFloat Collections StateDB Validators Types.
From stdpp Require Import gmap list.
Local Open Scope Z_scope.

(** ** Messages *)

Inductive P2PMessageType := MsgTx | MsgBlock | MsgVote | MsgPeerList | MsgStateReq | MsgStateResp.
#[export] Instance P2PMessageType_eq_dec : EqDecision P2PMessageType.
Proof. solve_decision. Defined.

Record P2PMessage := mkMsg {
  msg_Type : P2PMessageType; msg_Payload : bytes; msg_From : bytes; msg_Seq : Z }.
#[export] Instance P2PMessage_eq_dec : EqDecision P2PMessage.
Proof. solve_decision. Defined.

(** ** The node as its clients see it *)

Record P2PNode := mkP2P { p2p_ID : bytes; p2p_seq : Z; p2p_outbox : list P2PMessage }.

(** [nextSeq], and a message to [Broadcast]. *)
Definition nextSeq (n : P2PNode) : Z := u64 (p2p_seq n + 1).
Definition node_send (ty : P2PMessageType) (payload : bytes) (n : P2PNode) : P2PNode :=
  mkP2P (p2p_ID n) (nextSeq n) (p2p_outbox n ++ [mkMsg ty payload (p2p_ID n) (nextSeq n)]).

Definition BroadcastBlock (node : option P2PNode) (block : BlockWithTx) : option P2PNode :=
  node_send MsgBlock (lit "block:#" ++ fmt_d (blk_Height block) ++ lit ":hash:" ++ fmt_x (take 4 (blk_Hash block)) ++
    lit ":txs:" ++ fmt_d (Z.of_nat (length (blk_Transactions block)))) <$> node.
Definition BroadcastTransaction (node : option P2PNode) (tx : Transaction) : option P2PNode :=
  node_send MsgTx (lit "tx:" ++ fmt_x (take 4 (tx_Hash tx))) <$> node.
