(* ===== verification/Network.v ===== *)
(** The peer-to-peer network (p2p.go): nodes with their peer tables and bounded
    queues, connections, and the goroutines that write and read them.

    An action is one atomic step: a call of a node's method, one write of the
    goroutines a broadcast starts, one message of a read loop, the end of a read
    loop, a pass of the heartbeat.  A connection carries what is written at one end
    to the other in order, until it is cut or closed; the writes of a node reach a
    connection in any order.  The encoding of a message (gob) is the message. *)

From Stdlib Require Import ZArith Lia.
From S2P Require Import Prelude Sha256 GoFloat Collections StateDB Validators Types P2P.
From stdpp Require Import gmap list.
Local Open Scope Z_scope.

(** ** Nodes *)

(** One end of a connection: its number, and whether it is the end that dialled. *)
Definition end_of : Type := nat * bool.

Record Peer := mkPeer { peer_ID : bytes; peer_Addr : bytes; peer_Conn : end_of; peer_Height : Z }.

(** [nd_node] is the part the clients of the node see; its outbox is the history
    of the broadcasts. *)
Record NetNode := mkNode {
  nd_node : P2PNode;
  nd_ListenAddr : bytes;
  nd_Peers : gmap bytes Peer;
  nd_Incoming : list P2PMessage;
  nd_stopped : bool;
}.

Definition NewP2PNode (id listenAddr : bytes) : NetNode := mkNode (mkP2P id 0 []) listenAddr ∅ [] false.
Definition incoming_cap : nat := 256.

Definition with_Peers (p : gmap bytes Peer) (n : NetNode) : NetNode :=
  mkNode (nd_node n) (nd_ListenAddr n) p (nd_Incoming n) (nd_stopped n).
Definition with_Incoming (q : list P2PMessage) (n : NetNode) : NetNode :=
  mkNode (nd_node n) (nd_ListenAddr n) (nd_Peers n) q (nd_stopped n).

Definition handshake (n : NetNode) : P2PMessage :=
  mkMsg MsgPeerList (p2p_ID (nd_node n) ++ lit "|" ++ nd_ListenAddr n) (p2p_ID (nd_node n)) 0.
Definition outbound_id (addr : bytes) : bytes := lit "peer@" ++ addr.
Definition inbound_id (remote : bytes) : bytes := lit "inbound@" ++ remote.

(** The table entry [Connect] and [acceptLoop] make. *)
Definition add_peer (id addr : bytes) (e : end_of) (n : NetNode) : NetNode :=
  with_Peers (<[id := mkPeer id addr e 0]> (nd_Peers n)) n.

(** The connections a broadcast writes to. *)
Definition targets (n : NetNode) : list end_of := map (fun p => peer_Conn p.2) (map_to_list (nd_Peers n)).

(** The body of [readLoop], for one message. *)
Definition read_msg (peerID : bytes) (msg : P2PMessage) (n : NetNode) : NetNode :=
  let msg := mkMsg (msg_Type msg) (msg_Payload msg) peerID (msg_Seq msg) in
  match msg_Type msg with
  | MsgPeerList =>
      match nd_Peers n !! peerID with
      | Some p => with_Peers (<[peerID := mkPeer (peer_ID p) (peer_Addr p) (peer_Conn p) (msg_Seq msg)]> (nd_Peers n)) n
      | None => n
      end
  | _ => if (length (nd_Incoming n) <? incoming_cap)%nat then with_Incoming (nd_Incoming n ++ [msg]) n else n
  end.
(** Its deferred calls, but for the close. *)
Definition read_exit (peerID : bytes) (n : NetNode) : NetNode := with_Peers (delete peerID (nd_Peers n)) n.

(** A pass of [heartbeatLoop]: the peers whose connection refuses a write go. *)
Definition heartbeat (dead : list end_of) (n : NetNode) : NetNode :=
  with_Peers (filter (fun p => peer_Conn p.2 ∉ dead) (nd_Peers n)) n.
Definition Stop (n : NetNode) : NetNode := mkNode (nd_node n) (nd_ListenAddr n) ∅ (nd_Incoming n) true.

(** ** The network *)

Record Conn := mkConn { cn_open : bool; cn_to_dialer : list P2PMessage; cn_to_listener : list P2PMessage }.
Definition close_conn (c : Conn) : Conn := mkConn false (cn_to_dialer c) (cn_to_listener c).
(** A write at one end; a closed connection refuses it. *)
Definition conn_write (dialer : bool) (m : P2PMessage) (c : Conn) : Conn :=
  if negb (cn_open c) then c
  else if dialer then mkConn true (cn_to_dialer c) (cn_to_listener c ++ [m])
  else mkConn true (cn_to_dialer c ++ [m]) (cn_to_listener c).
(** What is there to read at one end. *)
Definition conn_read (dialer : bool) (c : Conn) : option (P2PMessage * Conn) :=
  if dialer then
    match cn_to_dialer c with m :: q => Some (m, mkConn (cn_open c) q (cn_to_listener c)) | [] => None end
  else
    match cn_to_listener c with m :: q => Some (m, mkConn (cn_open c) (cn_to_dialer c) q) | [] => None end.

Record Net := mkNet {
  nt_nodes : gmap nat NetNode;
  nt_conns : list Conn;
  nt_backlog : list (nat * nat);               (* connections waiting for a node's accept *)
  nt_sending : list (end_of * P2PMessage);     (* goroutines that have yet to write *)
  nt_readers : list (end_of * (nat * bytes));  (* read loops: their node and peer *)
}.

Definition start (nodes : gmap nat NetNode) : Net := mkNet nodes [] [] [] [].

Definition set_node (i : nat) (n : NetNode) (net : Net) : Net :=
  mkNet (<[i := n]> (nt_nodes net)) (nt_conns net) (nt_backlog net) (nt_sending net) (nt_readers net).
Definition set_conns (l : list Conn) (net : Net) : Net :=
  mkNet (nt_nodes net) l (nt_backlog net) (nt_sending net) (nt_readers net).

Inductive action :=
| ADial (i j : nat) (addr : bytes)             (* [Connect] of a node that answers at [addr] *)
| AAccept (k : nat) (remote : bytes)           (* the [k]-th waiting connection *)
| ABroadcast (i : nat) (ty : P2PMessageType) (payload : bytes)
| AWrite (k : nat)                             (* the [k]-th waiting goroutine *)
| ARead (k : nat)                              (* the [k]-th read loop *)
| AExit (k : nat)                              (* its connection fails *)
| AHeartbeat (i : nat) (dead : list end_of)   (* a pass, with the connections that fail it *)
| AStop (i : nat)
| ACut (c : nat)                               (* the network loses a connection *)
| AConsume (i : nat).                          (* a client takes a message *)

(** [sendMsg], which nothing calls. *)
Definition sendMsg (i : nat) (peerID : bytes) (m : P2PMessage) (net : Net) : Net :=
  match nt_nodes net !! i ≫= fun n => nd_Peers n !! peerID with
  | Some p => set_conns (alter (conn_write (peer_Conn p).2 m) (peer_Conn p).1 (nt_conns net)) net
  | None => net
  end.
Definition close_all (l : list end_of) (conns : list Conn) : list Conn :=
  foldr (fun e conns => alter close_conn e.1 conns) conns l.

(** One action; [None] when it cannot happen. *)
Definition act (a : action) (net : Net) : option Net :=
  match a with
  | ADial i j addr =>
      n ← nt_nodes net !! i;
      let c := length (nt_conns net) in
      Some (mkNet (<[i := add_peer (outbound_id addr) addr (c, true) n]> (nt_nodes net))
              (nt_conns net ++ [mkConn true [] [handshake n]]) (nt_backlog net ++ [(c, j)]) (nt_sending net)
              (nt_readers net ++ [((c, true), (i, outbound_id addr))]))
  | AAccept k remote =>
      '(c, j) ← nt_backlog net !! k;
      n ← nt_nodes net !! j;
      if nd_stopped n then None else
      Some (mkNet (<[j := add_peer (inbound_id remote) remote (c, false) n]> (nt_nodes net))
              (nt_conns net) (delete k (nt_backlog net)) (nt_sending net)
              (nt_readers net ++ [((c, false), (j, inbound_id remote))]))
  | ABroadcast i ty payload =>
      n ← nt_nodes net !! i;
      let node := node_send ty payload (nd_node n) in
      let m := mkMsg ty payload (p2p_ID (nd_node n)) (nextSeq (nd_node n)) in
      Some (mkNet (<[i := mkNode node (nd_ListenAddr n) (nd_Peers n) (nd_Incoming n) (nd_stopped n)]> (nt_nodes net))
              (nt_conns net) (nt_backlog net) (nt_sending net ++ map (fun e => (e, m)) (targets n)) (nt_readers net))
  | AWrite k =>
      '(e, m) ← nt_sending net !! k;
      Some (mkNet (nt_nodes net) (alter (conn_write e.2 m) e.1 (nt_conns net)) (nt_backlog net)
              (delete k (nt_sending net)) (nt_readers net))
  | ARead k =>
      '(e, (i, peerID)) ← nt_readers net !! k;
      c ← nt_conns net !! e.1;
      '(m, c') ← conn_read e.2 c;
      n ← nt_nodes net !! i;
      Some (set_node i (read_msg peerID m n) (set_conns (<[e.1 := c']> (nt_conns net)) net))
  | AExit k =>
      '(e, (i, peerID)) ← nt_readers net !! k;
      n ← nt_nodes net !! i;
      Some (mkNet (<[i := read_exit peerID n]> (nt_nodes net)) (alter close_conn e.1 (nt_conns net)) (nt_backlog net)
              (nt_sending net) (delete k (nt_readers net)))
  | AHeartbeat i dead =>
      n ← nt_nodes net !! i;
      Some (set_node i (heartbeat dead n) (set_conns (close_all (filter (.∈ dead) (targets n)) (nt_conns net)) net))
  | AStop i =>
      n ← nt_nodes net !! i;
      if nd_stopped n then None
      else Some (set_node i (Stop n) (set_conns (close_all (targets n) (nt_conns net)) net))
  | ACut c => Some (set_conns (alter close_conn c (nt_conns net)) net)
  | AConsume i =>
      n ← nt_nodes net !! i;
      match nd_Incoming n with [] => None | _ :: q => Some (set_node i (with_Incoming q n) net) end
  end.
Definition acts (l : list action) (net : Net) : option Net := foldl (fun o a => o ≫= act a) (Some net) l.

(** ** Invariant *)

(** A message of the history of a node, with its number. *)
Definition was_sent (nodes : gmap nat NetNode) (m : P2PMessage) : Prop :=
  exists i n k, nodes !! i = Some n /\ p2p_outbox (nd_node n) !! k = Some m /\ msg_Seq m = u64 (Z.of_nat k + 1).
Definition travels (nodes : gmap nat NetNode) (m : P2PMessage) : Prop := msg_Type m = MsgPeerList \/ was_sent nodes m.
(** [m] as a read loop hands it on. *)
Definition arrived (nodes : gmap nat NetNode) (m : P2PMessage) : Prop :=
  msg_Type m <> MsgPeerList /\
  exists m0, was_sent nodes m0 /\ msg_Type m = msg_Type m0 /\ msg_Payload m = msg_Payload m0 /\ msg_Seq m = msg_Seq m0.

Record node_ok (nodes : gmap nat NetNode) (n : NetNode) : Prop := {
  no_seq : p2p_seq (nd_node n) = u64 (Z.of_nat (length (p2p_outbox (nd_node n))));
  no_cap : (length (nd_Incoming n) <= incoming_cap)%nat;
  no_arrived : Forall (arrived nodes) (nd_Incoming n);
}.
Record net_ok (net : Net) : Prop := {
  nk_nodes : map_Forall (fun _ => node_ok (nt_nodes net)) (nt_nodes net);
  nk_conns : Forall (fun c => Forall (travels (nt_nodes net)) (cn_to_dialer c) /\
                              Forall (travels (nt_nodes net)) (cn_to_listener c)) (nt_conns net);
  nk_sending : Forall (fun s => travels (nt_nodes net) s.2) (nt_sending net);
}.

(** The histories only grow. *)
Definition grows (nodes nodes' : gmap nat NetNode) : Prop :=
  forall i n, nodes !! i = Some n -> exists n', nodes' !! i = Some n' /\
    p2p_outbox (nd_node n) `prefix_of` p2p_outbox (nd_node n').

Lemma was_sent_grows nodes nodes' m : grows nodes nodes' -> was_sent nodes m -> was_sent nodes' m.
Proof.
  intros Hg (i & n & k & Hn & Hk & Hs). destruct (Hg _ _ Hn) as (n' & Hn' & Hp). exists i, n', k.
  split_and!; [done|by eapply prefix_lookup_Some|done].
Qed.
Lemma travels_grows nodes nodes' m : grows nodes nodes' -> travels nodes m -> travels nodes' m.
Proof. intros Hg [?|?]; [by left|right; by eapply was_sent_grows]. Qed.
Lemma arrived_grows nodes nodes' m : grows nodes nodes' -> arrived nodes m -> arrived nodes' m.
Proof. intros Hg (? & m0 & Hs & ?). split; [done|]. exists m0. split; [by eapply was_sent_grows|done]. Qed.
Lemma node_grows nodes nodes' n : grows nodes nodes' -> node_ok nodes n -> node_ok nodes' n.
Proof. intros Hg []. split; try done. eapply Forall_impl; [done|]. intros. by eapply arrived_grows. Qed.

Lemma grows_insert nodes i n n' :
  nodes !! i = Some n -> p2p_outbox (nd_node n) `prefix_of` p2p_outbox (nd_node n') -> grows nodes (<[i := n']> nodes).
Proof.
  intros Hn Hp j m Hj. destruct (decide (i = j)) as [->|Hne].
  - rewrite lookup_insert_eq. exists n'. split; [done|]. congruence.
  - rewrite lookup_insert_ne by done. by exists m.
Qed.

(** One node changes and the histories grow: what is left to show. *)
Lemma net_ok_update net i n n' conns backlog sending readers :
  net_ok net -> nt_nodes net !! i = Some n -> p2p_outbox (nd_node n) `prefix_of` p2p_outbox (nd_node n') ->
  let nodes := <[i := n']> (nt_nodes net) in
  node_ok nodes n' ->
  (forall c, c ∈ conns -> c ∈ nt_conns net \/
     Forall (travels nodes) (cn_to_dialer c) /\ Forall (travels nodes) (cn_to_listener c)) ->
  (forall s, s ∈ sending -> s ∈ nt_sending net \/ travels nodes s.2) ->
  net_ok (mkNet nodes conns backlog sending readers).
Proof.
  intros [H1 H2 H3] Hn Hp nodes Hok Hc Hs. pose proof (grows_insert _ _ _ _ Hn Hp) as Hg. split; cbn.
  - apply map_Forall_insert_2; [done|]. intros j m Hj. apply (node_grows (nt_nodes net)); [done|]. by eapply H1.
  - apply Forall_forall. intros c [Hc'|?]%Hc; [|done]. rewrite Forall_forall in H2. destruct (H2 _ Hc') as [G1 G2].
    split; (eapply Forall_impl; [done|]); intros; by eapply travels_grows.
  - apply Forall_forall. intros s [Hs'|?]%Hs; [|done]. rewrite Forall_forall in H3. by apply (travels_grows (nt_nodes net)), H3.
Qed.

Lemma node_ok_peers nodes p n : node_ok nodes n -> node_ok nodes (with_Peers p n).
Proof. by intros []. Qed.

(** The connections after a write, a read or a close hold what they held. *)
Definition part_of (c c' : Conn) : Prop := cn_to_dialer c' ⊆ cn_to_dialer c /\ cn_to_listener c' ⊆ cn_to_listener c.

Lemma Forall_part nodes (l l' : list P2PMessage) : l' ⊆ l -> Forall (travels nodes) l -> Forall (travels nodes) l'.
Proof. rewrite !Forall_forall. intros Hl H m Hm. apply H, Hl, Hm. Qed.

Lemma elem_alter {A} (f : A -> A) k (l : list A) x : x ∈ alter f k l -> x ∈ l \/ exists y, y ∈ l /\ x = f y.
Proof.
  intros (i & Hi)%list_elem_of_lookup. destruct (decide (i = k)) as [->|Hne].
  - rewrite list_lookup_alter_eq in Hi. apply fmap_Some in Hi as (y & Hy & ->). right. exists y. split; [|done].
    by eapply list_elem_of_lookup_2.
  - rewrite list_lookup_alter_ne in Hi by done. left. by eapply list_elem_of_lookup_2.
Qed.

Lemma elem_close_all l conns c : c ∈ close_all l conns -> exists c0, c0 ∈ conns /\ part_of c0 c.
Proof.
  revert c. induction l as [|e l IH]; cbn; intros c Hc; [by exists c|].
  apply elem_alter in Hc as [Hc|(y & Hy & ->)]; [by apply IH|]. destruct (IH _ Hy) as (c0 & H0 & H1 & H2). by exists c0.
Qed.

Section Step.
Context (net : Net) (Hok : net_ok net).

Lemma conn_old c c' nodes : c ∈ nt_conns net -> part_of c c' -> grows (nt_nodes net) nodes ->
  Forall (travels nodes) (cn_to_dialer c') /\ Forall (travels nodes) (cn_to_listener c').
Proof.
  intros Hc [P1 P2] Hg. destruct Hok as [_ H2 _]. rewrite Forall_forall in H2. destruct (H2 _ Hc) as [G1 G2].
  split; (eapply Forall_part; [done|]; eapply Forall_impl; [done|]); intros; by eapply travels_grows.
Qed.

Lemma node_old i n : nt_nodes net !! i = Some n -> node_ok (nt_nodes net) n.
Proof. destruct Hok as [H _ _]. apply H. Qed.

Lemma peers_step i n n' conns backlog sending readers :
  nt_nodes net !! i = Some n -> nd_node n' = nd_node n -> nd_Incoming n' = nd_Incoming n ->
  (forall c, c ∈ conns -> (exists c0, c0 ∈ nt_conns net /\ part_of c0 c) \/
     Forall (travels (<[i := n']> (nt_nodes net))) (cn_to_dialer c) /\
     Forall (travels (<[i := n']> (nt_nodes net))) (cn_to_listener c)) ->
  (forall s, s ∈ sending -> s ∈ nt_sending net) ->
  net_ok (mkNet (<[i := n']> (nt_nodes net)) conns backlog sending readers).
Proof.
  intros Hn En Ei Hc Hs. assert (Hp : p2p_outbox (nd_node n) `prefix_of` p2p_outbox (nd_node n')) by by rewrite En.
  apply (net_ok_update net i n n'); [done..| | |].
  - apply (node_grows (nt_nodes net)); [by eapply grows_insert|]. destruct (node_old i n Hn) as [N1 N2 N3].
    split; [by rewrite En|by rewrite Ei|by rewrite Ei].
  - intros c [(c0 & H0 & H1)|?]%Hc; [|by right]. right. eapply conn_old; [done|done|by eapply grows_insert].
  - intros s Hs'%Hs. by left.
Qed.

Lemma conns_step conns backlog sending readers :
  (forall c, c ∈ conns -> (exists c0, c0 ∈ nt_conns net /\ part_of c0 c) \/
     Forall (travels (nt_nodes net)) (cn_to_dialer c) /\ Forall (travels (nt_nodes net)) (cn_to_listener c)) ->
  (forall s, s ∈ sending -> s ∈ nt_sending net) ->
  net_ok (mkNet (nt_nodes net) conns backlog sending readers).
Proof.
  intros Hc Hs. pose proof Hok as [H1 _ H3]. split; cbn; [done| |].
  - apply Forall_forall. intros c [(c0 & G1 & G2)|?]%Hc; [|done]. apply (conn_old c0); [done..|]. by intros j m; exists m.
  - rewrite Forall_forall in H3 |- *. intros s Hs'. by apply H3, Hs.
Qed.

Lemma read_msg_outbox pid m n : nd_node (read_msg pid m n) = nd_node n.
Proof. unfold read_msg. by repeat case_match. Qed.

(** What a read loop adds arrived. *)
Lemma read_msg_ok nodes pid m n : node_ok nodes n -> travels nodes m -> node_ok nodes (read_msg pid m n).
Proof.
  intros Hn Hm. unfold read_msg. cbv zeta. cbn [msg_Type msg_Seq].
  destruct (decide (msg_Type m = MsgPeerList)) as [E|E]; [rewrite E; case_match; [by apply node_ok_peers|done]|].
  assert (Hfwd : node_ok nodes (if (length (nd_Incoming n) <? incoming_cap)%nat
    then with_Incoming (nd_Incoming n ++ [mkMsg (msg_Type m) (msg_Payload m) pid (msg_Seq m)]) n else n)).
  { destruct (Nat.ltb_spec (length (nd_Incoming n)) incoming_cap); [|done]. destruct Hn as [N1 N2 N3]. split; cbn; [done| |].
    - rewrite length_app. cbn. lia.
    - apply Forall_app. split; [done|]. constructor; [|constructor]. split; [done|].
      destruct Hm as [?|Hm]; [done|]. by exists m. }
  by destruct (msg_Type m).
Qed.

Lemma act_ok a net' : act a net = Some net' -> net_ok net'.
Proof.
  destruct a as [i j addr|k remote|i ty payload|k|k|k|i dead|i|c|i]; cbn [act]; intros H.
  - apply bind_Some in H as (n & Hn & [= <-]). apply (peers_step i n); try done.
    intros c [Hc|Hc%list_elem_of_singleton]%elem_of_app; [left; exists c; split; [done|by split]|].
    right. subst c. cbn. split; [constructor|]. constructor; [by left|constructor].
  - apply bind_Some in H as ([c j] & Hb & H). apply bind_Some in H as (n & Hn & H).
    destruct (nd_stopped n); [discriminate|]. injection H as <-. apply (peers_step j n); try done.
    intros c' Hc. left. exists c'. split; [done|by split].
  - apply bind_Some in H as (n & Hn & [= <-]). destruct (node_old i n Hn) as [N1 N2 N3].
    set (n' := mkNode _ _ _ _ _). set (m := mkMsg ty payload _ _).
    assert (Hp : p2p_outbox (nd_node n) `prefix_of` p2p_outbox (nd_node n')) by by eexists.
    assert (Hm : was_sent (<[i := n']> (nt_nodes net)) m).
    { exists i, n', (length (p2p_outbox (nd_node n))). rewrite lookup_insert_eq. split_and!; [done| |].
      - cbn. by apply list_lookup_middle.
      - cbn. unfold nextSeq. by rewrite N1, u64_add_l. }
    apply (net_ok_update net i n n'); [done..| | |].
    + apply (node_grows (nt_nodes net)); [by eapply grows_insert|]. split; [|done|done].
      cbn. unfold nextSeq. rewrite N1, u64_add_l, length_app. f_equal. cbn. lia.
    + intros c Hc. by left.
    + intros s [Hs|Hs]%elem_of_app; [by left|]. right. apply list_elem_of_fmap in Hs as (e & -> & _). by right.
  - apply bind_Some in H as ([e m] & Hb & [= <-]). apply conns_step; [|intros s Hs; by apply (list_subseteq_delete k (nt_sending net))].
    intros c [Hc|(y & Hy & ->)]%elem_alter; [left; exists c; by split|].
    assert (Hm : travels (nt_nodes net) m).
    { destruct Hok as [_ _ H3]. rewrite Forall_forall in H3. apply (H3 (e, m)). by eapply list_elem_of_lookup_2. }
    right. destruct (conn_old y y (nt_nodes net)) as [G1 G2]; [done|by split|by intros j x; exists x|].
    unfold conn_write. cbn. destruct (cn_open y); cbn; [|done]. destruct e.2; cbn; by rewrite Forall_app, Forall_singleton.
  - apply bind_Some in H as ([e [i pid]] & Hb & H). apply bind_Some in H as (c & Hc & H).
    apply bind_Some in H as ([m c'] & Hr & H). apply bind_Some in H as (n & Hn & [= <-]).
    apply list_elem_of_lookup_2 in Hc as Hin.
    assert (Hpart : part_of c c' /\ travels (nt_nodes net) m).
    { destruct (conn_old c c (nt_nodes net)) as [G1 G2]; [done|by split|by intros j x; exists x|].
      unfold conn_read in Hr. destruct e.2; [destruct (cn_to_dialer c) eqn:Eq|destruct (cn_to_listener c) eqn:Eq];
        [discriminate| |discriminate|]; injection Hr as -> <-; unfold part_of; cbn; rewrite Eq;
        (split; [split; set_solver|]); [by apply Forall_cons in G1 as [? _]|].
      by apply Forall_cons in G2 as [? _]. }
    destruct Hpart as [Hpart Hm]. pose proof (read_msg_outbox pid m n) as Eo.
    assert (Hg : grows (nt_nodes net) (<[i := read_msg pid m n]> (nt_nodes net))) by (eapply grows_insert; [done|by rewrite Eo]).
    apply (net_ok_update net i n); [done|done|by rewrite Eo| | |intros s Hs; by left].
    + apply read_msg_ok; [|by eapply travels_grows]. eapply node_grows; [done|]. by eapply node_old.
    + intros x Hx. apply list_elem_of_lookup in Hx as (k' & Hx). cbn [set_conns nt_conns] in Hx.
      destruct (decide (k' = e.1)) as [->|Hne].
      * rewrite list_lookup_insert_eq in Hx by (by eapply lookup_lt_Some). injection Hx as <-. right.
        by eapply conn_old.
      * rewrite list_lookup_insert_ne in Hx by done. left. by eapply list_elem_of_lookup_2.
  - apply bind_Some in H as ([e [i pid]] & Hb & H). apply bind_Some in H as (n & Hn & [= <-]). apply (peers_step i n); try done.
    intros c [Hc|(y & Hy & ->)]%elem_alter; left; [exists c|exists y]; by split.
  - apply bind_Some in H as (n & Hn & [= <-]). apply (peers_step i n); try done.
    intros c Hc%elem_close_all. by left.
  - apply bind_Some in H as (n & Hn & H). destruct (nd_stopped n); [discriminate|]. injection H as <-.
    apply (peers_step i n); try done. intros c Hc%elem_close_all. by left.
  - injection H as <-. apply conns_step; [|done].
    intros x [Hx|(y & Hy & ->)]%elem_alter; left; [exists x|exists y]; by split.
  - apply bind_Some in H as (n & Hn & H). destruct (nd_Incoming n) as [|m q] eqn:Eq; [discriminate|]. injection H as <-.
    assert (Hg : grows (nt_nodes net) (<[i := with_Incoming q n]> (nt_nodes net))) by by eapply grows_insert.
    apply (net_ok_update net i n); [done..| |intros c Hc; by left|intros s Hs; by left].
    apply (node_grows (nt_nodes net)); [done|]. destruct (node_old i n Hn) as [N1 N2 N3]. rewrite Eq in N2, N3.
    split; cbn in *; [done|lia|by apply Forall_cons in N3 as [_ N3]].
Qed.
End Step.

Lemma acts_ok l net net' : net_ok net -> acts l net = Some net' -> net_ok net'.
Proof.
  unfold acts. revert net. induction l as [|a l IH]; intros net Hok H; cbn in H; [by injection H as <-|].
  destruct (act a net) as [net1|] eqn:E.
  - eapply IH; [by eapply act_ok|exact H].
  - exfalso. clear -H. induction l; [discriminate|by apply IHl].
Qed.

Lemma start_ok nodes :
  map_Forall (fun _ n => exists id addr, n = NewP2PNode id addr) nodes -> net_ok (start nodes).
Proof.
  intros H. split; cbn; [|constructor..]. intros i n Hn. destruct (H _ _ Hn) as (id & addr & ->).
  split; cbn; [done|lia|constructor].
Qed.

(** ** Properties *)

(** C12.  Whatever the schedule and whatever connections fail, a client of a node
    receives only messages that some node broadcast, with their kind, payload and
    number, which is their position in that node's history; never a handshake; and
    no more than 256 wait. *)
Theorem incoming_was_broadcast nodes l net j n :
  map_Forall (fun _ n => exists id addr, n = NewP2PNode id addr) nodes ->
  acts l (start nodes) = Some net -> nt_nodes net !! j = Some n ->
  (length (nd_Incoming n) <= 256)%nat /\
  forall m, m ∈ nd_Incoming n -> msg_Type m <> MsgPeerList /\
    exists i n' k m0, nt_nodes net !! i = Some n' /\ p2p_outbox (nd_node n') !! k = Some m0 /\
      msg_Seq m = u64 (Z.of_nat k + 1) /\ msg_Seq m0 = msg_Seq m /\
      msg_Type m0 = msg_Type m /\ msg_Payload m0 = msg_Payload m.
Proof.
  intros Hs Hl Hn. pose proof (acts_ok _ _ _ (start_ok _ Hs) Hl) as [Hnodes _ _].
  destruct (Hnodes _ _ Hn) as [_ Hcap Harr]. split; [done|]. intros m Hm. rewrite Forall_forall in Harr.
  destruct (Harr m Hm) as (Ht & m0 & (i & n' & k & Hn' & Hk & Hq) & E1 & E2 & E3). split; [done|].
  exists i, n', k, m0. split_and!; congruence.
Qed.

(** ** What the code does that its comments do not say *)

(** The sender of a message is overwritten with the name of the connection. *)
Lemma sender_is_renamed pid m n :
  msg_Type m <> MsgPeerList -> (length (nd_Incoming n) < 256)%nat ->
  last (nd_Incoming (read_msg pid m n)) = Some (mkMsg (msg_Type m) (msg_Payload m) pid (msg_Seq m)).
Proof.
  intros Ht Hl. unfold read_msg, incoming_cap. cbv zeta. cbn [msg_Type].
  destruct (msg_Type m); try done; rewrite (proj2 (Nat.ltb_lt _ _) Hl); cbn; by rewrite last_snoc.
Qed.

(** A queue that nobody reads takes no more messages. *)
Lemma full_queue_drops pid m n : length (nd_Incoming n) = 256%nat -> nd_Incoming (read_msg pid m n) = nd_Incoming n.
Proof.
  intros Hl. unfold read_msg, incoming_cap. cbv zeta. cbn [msg_Type].
  destruct (msg_Type m); try (by case_match); by rewrite Hl.
Qed.

(** Two nodes, the first of which dials twice; when the first connection ends, its
    read loop takes the second one out of the table, which stays open. *)
Definition two_nodes : gmap nat NetNode :=
  <[0%nat := NewP2PNode (lit "val-1") (lit ":9001")]> (<[1%nat := NewP2PNode (lit "val-2") (lit ":9002")]> ∅).
Definition dials : list action := [ADial 0 1 (lit ":9002"); AAccept 0 (lit "r1"); ADial 0 1 (lit ":9002"); AAccept 0 (lit "r2")].
Lemma reconnect_forgets_peer :
  let peers l := match acts l (start two_nodes) with
                 | Some net => match nt_nodes net !! 0%nat with Some n => size (nd_Peers n) | None => 0%nat end
                 | None => 0%nat
                 end in
  peers dials = 1%nat /\ peers (dials ++ [ACut 0; AExit 0]) = 0%nat /\
  match acts (dials ++ [ACut 0; AExit 0]) (start two_nodes) with
  | Some net => map cn_open (nt_conns net) = [false; true]
  | None => False
  end.
Proof. vm_compute. done. Qed.

(** ** Witnesses *)

(** The demonstration of the code: three nodes in a mesh, the first broadcasts,
    the two others receive. *)
Definition mesh : gmap nat NetNode := <[2%nat := NewP2PNode (lit "val-3") (lit ":9003")]> two_nodes.
Definition mesh_run : list action :=
  [ADial 0 1 (lit ":9002"); AAccept 0 (lit "a"); ADial 0 2 (lit ":9003"); AAccept 0 (lit "b"); ADial 1 2 (lit ":9003");
   AAccept 0 (lit "c"); ARead 1; ARead 3; ABroadcast 0 MsgTx (lit "tx:"); AWrite 1; AWrite 0; ARead 3; ARead 1].
Definition mesh_end : Net := default (start ∅) (acts mesh_run (start mesh)).
Definition waiting (net : Net) (i : nat) : list P2PMessage := match nt_nodes net !! i with Some n => nd_Incoming n | None => [] end.
Lemma mesh_delivers :
  map (waiting mesh_end) [0; 1; 2]%nat =
  [[]; [mkMsg MsgTx (lit "tx:") (lit "inbound@a") 1]; [mkMsg MsgTx (lit "tx:") (lit "inbound@b") 1]].
Proof. vm_compute. reflexivity. Qed.

Lemma incoming_was_broadcast_witness :
  exists n, nt_nodes mesh_end !! 2%nat = Some n /\ (length (nd_Incoming n) <= 256)%nat /\
  forall m, m ∈ nd_Incoming n -> msg_Type m <> MsgPeerList.
Proof.
  assert (En : nt_nodes mesh_end !! 2%nat = Some (default (NewP2PNode [] []) (nt_nodes mesh_end !! 2%nat)))
    by (vm_compute; reflexivity).
  revert En. generalize (default (NewP2PNode [] []) (nt_nodes mesh_end !! 2%nat)). intros n En.
  exists n. split; [exact En|].
  destruct (incoming_was_broadcast mesh mesh_run mesh_end 2 n) as [H1 H2].
  - intros i x Hx. unfold mesh, two_nodes in Hx. repeat (apply lookup_insert_Some in Hx as [[_ <-]|[_ Hx]]; [by eexists _, _|]).
    by rewrite lookup_empty in Hx.
  - vm_compute. reflexivity.
  - exact En.
  - split; [exact H1|]. intros m Hm. exact (proj1 (H2 m Hm)).
Defined.
