(* ===== verification/Consensus.v ===== *)
(** The consensus engine (consensus.go): epoch selection, the deterministic
    proposer lottery, and the record of finalized blocks. *)

From Stdlib Require Import ZArith Lia.
From S2P Require Import Prelude Sha256 GoFloat Collections StateDB Validators Types.
From stdpp Require Import gmap list.
Local Open Scope Z_scope.

(** ** Data *)

(** [ConsensusPhase]. *)
Inductive ConsensusPhase :=
  PhasePropose | PhasePrevote | PhasePrecommit | PhaseCommit | PhaseTimeout.

Definition EpochLength : Z := 10000.
(** [InstantFinalityThreshold]: the constant expression [2.0 / 3.0]. *)
Definition InstantFinalityThreshold : F64.t := F64.lit 2 3.

(** [ConsensusEngine].  The lock is not modelled: every method that takes it is
    one step here. *)
Record ConsensusEngine := mkEngine {
  CurrentHeight : Z;
  CurrentRoundNo : Z;
  EngValidators : ValidatorSet;
  ActiveSet : list ValidatorID;
  VotingPower : gmap bytes Z;
  TotalPower : Z;
  Blocks : gmap Z BlockWithTx;
  RandomSeed : bytes;
}.

(** ** Operations *)

(** [sqrtWeighted]: ten Newton iterations starting from [x]. *)
Definition newton_step (x z : F64.t) : F64.t :=
  F64.div (F64.add z (F64.div x z)) (F64.of_Z 2).
Definition sqrtWeighted (x : F64.t) : F64.t :=
  if F64.leb x F64.zero then F64.zero else Nat.iter 10 (newton_step x) x.

Record weightedVal := mkWV { wv_id : ValidatorID; wv_weight : F64.t }.

Section Engine.
Context `{SortSlice}.

Definition weighted_of (vs : ValidatorSet) : list weightedVal :=
  map (fun id => mkWV id (sqrtWeighted (F64.of_Z (stake_of vs id)))) (IDs vs).

(** [selectNewEpoch]. *)
Definition selectNewEpoch (ce : ConsensusEngine) : ConsensusEngine :=
  let vs := EngValidators ce in
  match IDs vs with
  | [] => mkEngine (CurrentHeight ce) (CurrentRoundNo ce) vs [] (VotingPower ce) 0
            (Blocks ce) (RandomSeed ce)
  | _ =>
      let weighted :=
        sort_slice (fun a b => F64.ltb (wv_weight b) (wv_weight a)) (weighted_of vs) in
      let n := Nat.min (Z.to_nat MaxValidators) (length weighted) in
      let active := map wv_id (take n weighted) in
      mkEngine (CurrentHeight ce) (CurrentRoundNo ce) vs active
        (fold_left (fun m id => <[ValidatorID_String id := 1]> m) active ∅)
        (Z.of_nat n) (Blocks ce)
        (Sha256.sum256 (lit "epoch:" ++ fmt_d (CurrentHeight ce)))
  end.

(** [NewConsensusEngine]. *)
Definition NewConsensusEngine (vs : ValidatorSet) : ConsensusEngine :=
  selectNewEpoch (mkEngine 0 0 vs [] ∅ 0 ∅ zero32).

(** The index of [SelectProposer]: the low 64 bits of the digest, reduced by
    the number of active validators. *)
Definition proposer_index (ce : ConsensusEngine) (height : Z) : Z :=
  big_u64 (be_dec (Sha256.sum256 (RandomSeed ce ++ colon ++ fmt_d height)))
    mod Z.of_nat (length (ActiveSet ce)).

(** [ConsensusEngine.SelectProposer]; [None] is the nil pointer. *)
Definition EngineSelectProposer (ce : ConsensusEngine) (height : Z) : option ValidatorID :=
  match ActiveSet ce with
  | [] => None
  | _ => ActiveSet ce !! Z.to_nat (proposer_index ce height)
  end.

(** [GetQuorumHeight]: the largest finalized height, by a scan of the map. *)
Definition GetQuorumHeight (ce : ConsensusEngine) : Z :=
  fold_left (fun mx h => if mx <? h then h else mx) (map fst (map_to_list (Blocks ce))) 0.

(** [IsValidatorActive]. *)
Definition IsValidatorActive (ce : ConsensusEngine) (id : ValidatorID) : bool :=
  existsb (fun v => bool_decide (v = id)) (ActiveSet ce).

(** [FinalizeBlock]. *)
Definition FinalizeBlock (b : BlockWithTx) (ce : ConsensusEngine) : ConsensusEngine :=
  mkEngine (if CurrentHeight ce <? blk_Height b then blk_Height b else CurrentHeight ce)
    (CurrentRoundNo ce) (EngValidators ce) (ActiveSet ce) (VotingPower ce) (TotalPower ce)
    (<[blk_Height b := b]> (Blocks ce)) (RandomSeed ce).

(** The engine keeps [CurrentHeight] at the largest finalized height. *)
Definition height_ok (ce : ConsensusEngine) : Prop :=
  0 <= CurrentHeight ce /\
  (forall h b, Blocks ce !! h = Some b -> h <= CurrentHeight ce) /\
  (CurrentHeight ce = 0 \/ is_Some (Blocks ce !! CurrentHeight ce)).

(** Finalizing a list of blocks in order. *)
Definition finalize_all (bs : list BlockWithTx) (ce : ConsensusEngine) : ConsensusEngine :=
  fold_left (fun ce b => FinalizeBlock b ce) bs ce.

(** ** Lemmas *)

Lemma max_scan_ge l acc :
  acc <= fold_left (fun mx h => if mx <? h then h else mx) l acc /\
  (forall h, h ∈ l -> h <= fold_left (fun mx h => if mx <? h then h else mx) l acc) /\
  (fold_left (fun mx h => if mx <? h then h else mx) l acc = acc \/
   fold_left (fun mx h => if mx <? h then h else mx) l acc ∈ l).
Proof.
  revert acc. induction l as [|x l IH]; intros acc; simpl.
  { split_and!; [lia| |by left]. intros h Hh. by apply elem_of_nil in Hh. }
  destruct (IH (if acc <? x then x else acc)) as (H1 & H2 & H3).
  destruct (Z.ltb_spec acc x); split_and!; try lia.
  - intros h [->|Hh]%elem_of_cons; [lia|auto].
  - right. rewrite elem_of_cons. destruct H3; auto.
  - intros h [->|Hh]%elem_of_cons; [lia|auto].
  - rewrite elem_of_cons. destruct H3; auto.
Qed.

Lemma FinalizeBlock_height_ok b ce :
  0 <= blk_Height b -> height_ok ce -> height_ok (FinalizeBlock b ce).
Proof.
  intros Hb (H1 & H2 & H3). unfold height_ok, FinalizeBlock. simpl. split_and!.
  - destruct (Z.ltb_spec (CurrentHeight ce) (blk_Height b)); lia.
  - intros h x. rewrite lookup_insert.
    case_decide; [|intros Hx; apply H2 in Hx];
      destruct (Z.ltb_spec (CurrentHeight ce) (blk_Height b)); lia.
  - destruct (Z.ltb_spec (CurrentHeight ce) (blk_Height b)).
    + right. rewrite lookup_insert_eq. eauto.
    + destruct H3 as [|[x Hx]]; [by left|right]. rewrite lookup_insert.
      case_decide; eauto.
Qed.

Lemma finalize_all_height_ok bs ce :
  Forall (fun b => 0 <= blk_Height b) bs -> height_ok ce -> height_ok (finalize_all bs ce).
Proof.
  unfold finalize_all. intros Hbs. revert ce.
  induction Hbs as [|b bs Hb _ IH]; intros ce Hce; [done|].
  simpl. apply IH. by apply FinalizeBlock_height_ok.
Qed.

Lemma GetQuorumHeight_current ce : height_ok ce -> GetQuorumHeight ce = CurrentHeight ce.
Proof.
  intros (H1 & H2 & H3). unfold GetQuorumHeight.
  destruct (max_scan_ge (map fst (map_to_list (Blocks ce))) 0) as (G1 & G2 & G3).
  set (m := fold_left _ _ 0) in *.
  assert (m <= CurrentHeight ce).
  { destruct G3 as [->|Hin]; [done|]. apply list_elem_of_fmap in Hin as ([h x] & -> & Hx).
    apply elem_of_map_to_list in Hx. eauto. }
  destruct H3 as [|[x Hx]]; [lia|].
  assert (CurrentHeight ce <= m); [|lia].
  apply G2. apply list_elem_of_fmap. exists (CurrentHeight ce, x). split; [done|].
  by apply elem_of_map_to_list.
Qed.

Lemma selectNewEpoch_active ce :
  TotalPower (selectNewEpoch ce) = Z.of_nat (length (ActiveSet (selectNewEpoch ce))) /\
  TotalPower (selectNewEpoch ce) <= MaxValidators.
Proof.
  unfold selectNewEpoch. destruct (IDs (EngValidators ce)) eqn:E; [done|].
  cbn [TotalPower ActiveSet]. rewrite length_map, length_take. unfold MaxValidators. lia.
Qed.

End Engine.

(** ** Properties *)

Section Properties.
Context `{SortSlice}.

(** C7 (epoch selection).  A fresh engine's active set is duplicate free, drawn
    from the registered validators, of size the smaller of [MaxValidators] and
    the number registered, and its total power is that size; with at most
    [MaxValidators] registered, everyone is active.  This holds for every
    sorting algorithm and every rounding of the weights. *)
Theorem selectNewEpoch_spec vs :
  NoDup (IDs vs) ->
  let ce := NewConsensusEngine vs in
  NoDup (ActiveSet ce) /\
  (forall id, id ∈ ActiveSet ce -> id ∈ IDs vs) /\
  Z.of_nat (length (ActiveSet ce)) = Z.min MaxValidators (Z.of_nat (length (IDs vs))) /\
  TotalPower ce = Z.of_nat (length (ActiveSet ce)) /\
  (Z.of_nat (length (IDs vs)) <= MaxValidators ->
   forall id, IsValidatorActive ce id = true <-> id ∈ IDs vs).
Proof.
  intros Hnd ce. subst ce. unfold NewConsensusEngine, selectNewEpoch. simpl EngValidators.
  destruct (IDs vs) as [|v l] eqn:E.
  { simpl. split_and!; try done. intros _ id.
    unfold IsValidatorActive. simpl. rewrite elem_of_nil. done. }
  rewrite <- E in *.
  set (ws := sort_slice _ (weighted_of vs)).
  assert (Hp : Permutation (map wv_id ws) (IDs vs)).
  { subst ws. rewrite sort_slice_perm. unfold weighted_of. rewrite map_map. simpl.
    by rewrite map_id. }
  assert (Hl : length ws = length (IDs vs)).
  { rewrite <- (Permutation_length Hp). by rewrite length_map. }
  set (n := Nat.min (Z.to_nat MaxValidators) (length ws)).
  assert (Hsub : sublist (map wv_id (take n ws)) (map wv_id ws)).
  { rewrite <- firstn_map. apply sublist_take. }
  cbn [ActiveSet TotalPower].
  assert (Hlen : length (map wv_id (take n ws)) = n).
  { rewrite length_map, length_take. lia. }
  split_and!.
  - eapply sublist_NoDup; [|exact Hsub]. by rewrite Hp.
  - intros id Hid. rewrite <- Hp. by eapply elem_of_sublist.
  - rewrite Hlen. unfold n, MaxValidators. lia.
  - by rewrite Hlen.
  - intros Hle id. unfold IsValidatorActive. rewrite existsb_exists. cbn [ActiveSet].
    assert (take n ws = ws) as -> by (apply take_ge; unfold n, MaxValidators in *; lia).
    rewrite <- Hp. split.
    + intros (x & Hx & Hb). apply bool_decide_eq_true in Hb as ->. by apply list_elem_of_In.
    + intros Hid. exists id. rewrite <- list_elem_of_In. split; [done|].
      by apply bool_decide_eq_true.
Qed.

(** Proposer.  The engine names a proposer exactly when the active set is
    not empty, and then always an active validator: the 64-bit index reduced
    modulo the set size is never out of range. *)
Theorem EngineSelectProposer_spec ce height :
  match EngineSelectProposer ce height with
  | Some id => IsValidatorActive ce id = true
  | None => ActiveSet ce = []
  end.
Proof.
  unfold EngineSelectProposer. destruct (ActiveSet ce) as [|v l] eqn:E; [done|].
  rewrite <- E.
  assert (Hr : 0 <= proposer_index ce height < Z.of_nat (length (ActiveSet ce))).
  { unfold proposer_index. apply Z.mod_pos_bound. rewrite E. simpl. lia. }
  destruct (lookup_lt_is_Some_2 (ActiveSet ce) (Z.to_nat (proposer_index ce height)))
    as [id Hid]; [lia|].
  rewrite Hid. unfold IsValidatorActive. apply existsb_exists. exists id.
  split; [|by apply bool_decide_eq_true].
  apply list_elem_of_In. by eapply list_elem_of_lookup_2.
Qed.

(** C17 (finality height).  After any sequence of finalized blocks the scan of
    [GetQuorumHeight] agrees with the cached [CurrentHeight], which is at least
    every finalized height. *)
Theorem quorum_height_refines vs bs :
  Forall (fun b => 0 <= blk_Height b) bs ->
  let ce := finalize_all bs (NewConsensusEngine vs) in
  GetQuorumHeight ce = CurrentHeight ce /\
  (forall h b, Blocks ce !! h = Some b -> h <= CurrentHeight ce).
Proof.
  intros Hbs ce.
  assert (Hok : height_ok ce).
  { apply finalize_all_height_ok; [done|].
    unfold NewConsensusEngine, selectNewEpoch, height_ok. simpl.
    destruct (IDs vs); simpl; split_and!; try done; by left. }
  split; [by apply GetQuorumHeight_current|apply Hok].
Qed.

End Properties.

(** ** What the code does that its comments do not say *)

(** "[sqrtWeighted] returns the square root of x": ten Newton steps from [x]
    have not converged for a stake of 10^12, whose weight is 976562841 where the
    square root is 1000000. *)
Lemma sqrtWeighted_not_converged :
  F64.trunc (sqrtWeighted (F64.of_Z (10 ^ 12))) = 976562841.
Proof. vm_compute. reflexivity. Qed.

(** Two active validators whose identifiers share the last byte have one entry
    in [VotingPower] while [TotalPower] counts two. *)
Definition twin_set : ValidatorSet :=
  (AddMultiple [7 :: zeros 18 ++ [1]; 9 :: zeros 18 ++ [1]] [100; 100] NewValidatorSet).2.

Lemma voting_power_collapses :
  TotalPower (NewConsensusEngine twin_set) = 2 /\
  size (VotingPower (NewConsensusEngine twin_set)) = 1%nat.
Proof. vm_compute. split; reflexivity. Qed.

(** ** Witnesses *)

Lemma selectNewEpoch_spec_witness :
  length (ActiveSet (NewConsensusEngine demo_set)) = 3%nat /\
  IsValidatorActive (NewConsensusEngine demo_set) (demo_id 2) = true.
Proof.
  destruct (selectNewEpoch_spec demo_set) as (_ & _ & H3 & _ & H5).
  - apply (wf_nodup _ (AddMultiple_wf _ _ _ NewValidatorSet_wf)).
  - split; [vm_compute; reflexivity|].
    apply H5; [vm_compute; discriminate|]. vm_compute. right. left.
Defined.

Definition demo_block (h : Z) : BlockWithTx :=
  mkBlock h (demo_id 1) 0 zero32 [] zero32 zero32 [].

Lemma quorum_height_refines_witness :
  GetQuorumHeight (finalize_all [demo_block 3; demo_block 5; demo_block 4]
                     (NewConsensusEngine demo_set)) = 5.
Proof.
  rewrite (proj1 (quorum_height_refines demo_set [demo_block 3; demo_block 5; demo_block 4]
    ltac:(repeat constructor; simpl; lia))).
  vm_compute. reflexivity.
Defined.
