(* ===== verification/Round.v ===== *)
(** The round manager (consensus_round.go): proposal, votes, the commit check
    and the round timeout, with the messages it hands to the peer-to-peer node
    (the [nextSeq] and [Broadcast] of p2p.go).

    A broadcast appends to an outbox; delivery is the network's.  Each method
    that takes [consensusMu] is one step of the state machine. *)

From Stdlib Require Import ZArith Lia.
From S2P Require Import Prelude Sha256 GoFloat Collections StateDB Validators Types P2P Consensus.
From stdpp Require Import gmap list.
Local Open Scope Z_scope.

(** ** Interface: what the manager needs of a chain *)

(** The law is what a client of [Chain.ProduceBlock] relies on: the new block
    sits one above the chain and names the proposer. *)
Class BlockProducer (C : Type) := {
  chain_height : C -> Z;
  produce_block : ValidatorID -> C -> BlockWithTx * C;
  produce_block_law p c :
    blk_Height (produce_block p c).1 = chain_height (produce_block p c).2 /\
    chain_height (produce_block p c).2 = u64 (chain_height c + 1) /\
    blk_Proposer (produce_block p c).1 = p;
}.

(** ** Data *)

(** [RoundState]; [TimeoutArmed] says whether the round's timer is running. *)
Record RoundState := mkRound {
  rs_Height : Z;
  rs_Round : Z;
  rs_Phase : ConsensusPhase;
  rs_Proposer : ValidatorID;
  rs_Proposal : option BlockWithTx;
  rs_Prevotes : gmap bytes Vote;
  rs_Precommits : gmap bytes Vote;
  rs_PrevotePower : Z;
  rs_PrecommitPower : Z;
  rs_TimeoutArmed : bool;
}.

Section Manager.
Context {C : Type} `{!BlockProducer C}.

Record ConsensusManager := mkCM {
  Engine : ConsensusEngine;
  P2P : option P2PNode;
  ChainState : C;
  CurrentRound : option RoundState;
}.

Definition NewConsensusManager (e : ConsensusEngine) (p : option P2PNode) (c : C) :=
  mkCM e p c None.

Definition with_round (r : option RoundState) (cm : ConsensusManager) :=
  mkCM (Engine cm) (P2P cm) (ChainState cm) r.
Definition with_engine (e : ConsensusEngine) (cm : ConsensusManager) :=
  mkCM e (P2P cm) (ChainState cm) (CurrentRound cm).
Definition with_chain (c : C) (cm : ConsensusManager) :=
  mkCM (Engine cm) (P2P cm) c (CurrentRound cm).

Definition with_phase (ph : ConsensusPhase) (armed : bool) (r : RoundState) :=
  mkRound (rs_Height r) (rs_Round r) ph (rs_Proposer r) (rs_Proposal r) (rs_Prevotes r)
    (rs_Precommits r) (rs_PrevotePower r) (rs_PrecommitPower r) armed.

(** Recording a vote: the map entry is replaced, the power is incremented. *)
Definition add_prevote (key : bytes) (v : Vote) (r : RoundState) :=
  mkRound (rs_Height r) (rs_Round r) (rs_Phase r) (rs_Proposer r) (rs_Proposal r)
    (<[key := v]> (rs_Prevotes r)) (rs_Precommits r)
    (u64 (rs_PrevotePower r + 1)) (rs_PrecommitPower r) (rs_TimeoutArmed r).
Definition add_precommit (key : bytes) (v : Vote) (r : RoundState) :=
  mkRound (rs_Height r) (rs_Round r) (rs_Phase r) (rs_Proposer r) (rs_Proposal r)
    (rs_Prevotes r) (<[key := v]> (rs_Precommits r))
    (rs_PrevotePower r) (u64 (rs_PrecommitPower r + 1)) (rs_TimeoutArmed r).

(** ** Messages *)

(** [nextSeq] and [Broadcast]. *)
Definition send (ty : P2PMessageType) (payload : bytes) (cm : ConsensusManager) :=
  match P2P cm with
  | None => cm
  | Some n => mkCM (Engine cm) (Some (node_send ty payload n)) (ChainState cm) (CurrentRound cm)
  end.

(** [serializeBlock] and [serializeVote]. *)
Definition serializeBlock (b : option BlockWithTx) : bytes :=
  match b with
  | None => lit "nil"
  | Some b => lit "block:" ++ fmt_d (blk_Height b) ++ colon ++ fmt_x (take 4 (blk_Hash b)) ++
              colon ++ fmt_d (Z.of_nat (length (blk_Transactions b)))
  end.
Definition serializeVote (v : Vote) : bytes :=
  lit "vote:" ++ fmt_d (v_Height v) ++ colon ++ fmt_d (v_Round v) ++ colon ++
  fmt_x (take 4 (v_BlockHash v)) ++ colon ++ fmt_x (take 4 (v_Validator v)).

Definition broadcastVote (v : Vote) (cm : ConsensusManager) : ConsensusManager :=
  send MsgVote (serializeVote v) cm.
Definition broadcastProposal (r : RoundState) (cm : ConsensusManager) : ConsensusManager :=
  match rs_Proposal r with
  | None => cm
  | Some b => send MsgBlock (serializeBlock (Some b)) cm
  end.

(** ** The commit check *)

(** [uint64(float64(TotalPower) * InstantFinalityThreshold)]. *)
Definition commit_threshold (total : Z) : Z :=
  F64.to_u64 (F64.mul (F64.of_Z total) InstantFinalityThreshold).

(** [checkCommitLocked]; its arguments are not used by the code. *)
Definition checkCommitLocked (cm : ConsensusManager) : ConsensusManager :=
  match CurrentRound cm with
  | None => cm
  | Some r =>
      if commit_threshold (TotalPower (Engine cm)) <=? rs_PrecommitPower r then
        let cm := with_round (Some (with_phase PhaseCommit false r)) cm in
        match rs_Proposal r with
        | Some b => with_engine (FinalizeBlock b (Engine cm)) cm
        | None => cm
        end
      else cm
  end.
Definition checkCommit (cm : ConsensusManager) : ConsensusManager := checkCommitLocked cm.

(** ** Handlers *)

(** The guard shared by [prevote] and [precommit]. *)
Definition in_round (height round : Z) (r : RoundState) : bool :=
  (rs_Height r =? height) && (rs_Round r =? round).

Definition prevote (height round : Z) (hash : bytes) (voter : ValidatorID)
    (cm : ConsensusManager) : ConsensusManager :=
  let vote := mkVote height round hash voter 1 in
  let cm := match CurrentRound cm with
            | Some r => if in_round height round r
                        then with_round (Some (add_prevote (ValidatorID_String voter) vote r)) cm
                        else cm
            | None => cm
            end in
  broadcastVote vote cm.

Definition precommit (height round : Z) (hash : bytes) (voter : ValidatorID)
    (cm : ConsensusManager) : ConsensusManager :=
  let vote := mkVote height round hash voter 2 in
  let cm := match CurrentRound cm with
            | Some r => if in_round height round r
                        then with_round (Some (add_precommit (ValidatorID_String voter) vote r)) cm
                        else cm
            | None => cm
            end in
  checkCommit (broadcastVote vote cm).

(** [handleVote]: prevotes are keyed by the sender, precommits by the validator
    named in the vote; the round number of the vote is not read. *)
Definition handleVote (v : Vote) (from : bytes) (cm : ConsensusManager) : ConsensusManager :=
  match CurrentRound cm with
  | None => cm
  | Some r =>
      if negb (rs_Height r =? v_Height v) then cm
      else if v_VoteType v =? 1 then with_round (Some (add_prevote from v r)) cm
      else if v_VoteType v =? 2 then
        checkCommitLocked
          (with_round (Some (add_precommit (ValidatorID_String (v_Validator v)) v r)) cm)
      else cm
  end.

(** [handleTimeout]. *)
Definition handleTimeout (height round : Z) (cm : ConsensusManager) : ConsensusManager :=
  match CurrentRound cm with
  | None => cm
  | Some r =>
      if negb (rs_Height r =? height) then cm
      else with_round (Some (with_phase PhaseTimeout (rs_TimeoutArmed r) r)) cm
  end.

(** [isLocalValidator]: this node is validator 0x01. *)
Definition isLocalValidator (id : ValidatorID) : bool := bool_decide (id = NewValidatorID 1).

(** [proposeBlock]. *)
Definition proposeBlock (height : Z) (proposer : ValidatorID) (cm : ConsensusManager)
    : ConsensusManager :=
  let '(b, c) := produce_block proposer (ChainState cm) in
  let round := mkRound height 0 PhasePropose proposer (Some b) ∅ ∅ 0 0 false in
  let cm := with_round (Some round) (with_chain c cm) in
  let cm := broadcastProposal round cm in
  let cm := with_round (Some (with_phase PhasePropose true round)) cm in
  if isLocalValidator proposer then prevote height 0 (blk_Hash b) proposer cm else cm.

(** [runBlockRound], one tick of the consensus loop. *)
Definition runBlockRound (cm : ConsensusManager) : ConsensusManager :=
  let height := u64 (CurrentHeight (Engine cm) + 1) in
  match EngineSelectProposer (Engine cm) height with
  | None => cm
  | Some p => if isLocalValidator p then proposeBlock height p cm else cm
  end.

(** ** The state machine *)

Inductive event :=
| Tick
| VoteReceived (v : Vote) (from : bytes)
| Precommit (height round : Z) (hash : bytes) (voter : ValidatorID)
| TimerFired (height round : Z).

Definition handle (e : event) (cm : ConsensusManager) : ConsensusManager :=
  match e with
  | Tick => runBlockRound cm
  | VoteReceived v from => handleVote v from cm
  | Precommit h r hash voter => precommit h r hash voter cm
  | TimerFired h r => handleTimeout h r cm
  end.

End Manager.
Arguments ConsensusManager C : clear implicits.

(** ** Lemmas *)

Section Lemmas.
Context {C : Type} `{!BlockProducer C}.
Implicit Types cm : ConsensusManager C.

Lemma send_fields ty p cm :
  Engine (send ty p cm) = Engine cm /\ CurrentRound (send ty p cm) = CurrentRound cm /\
  ChainState (send ty p cm) = ChainState cm.
Proof. unfold send. by destruct (P2P cm). Qed.

(** A commit check leaves the engine alone, or finalizes the proposal of a round
    whose counted precommits reach the threshold. *)
Definition justified (e e' : ConsensusEngine) (r : option RoundState) : Prop :=
  e' = e \/
  exists rd b, r = Some rd /\ rs_Proposal rd = Some b /\ rs_Phase rd = PhaseCommit /\
    commit_threshold (TotalPower e) <= rs_PrecommitPower rd /\ e' = FinalizeBlock b e.

Lemma checkCommitLocked_justified cm :
  justified (Engine cm) (Engine (checkCommitLocked cm)) (CurrentRound (checkCommitLocked cm)).
Proof.
  unfold checkCommitLocked, justified. destruct (CurrentRound cm) as [r|] eqn:Er; [|by left].
  destruct (Z.leb_spec (commit_threshold (TotalPower (Engine cm))) (rs_PrecommitPower r));
    [|by left].
  destruct (rs_Proposal r) as [b|] eqn:Eb; simpl; [right|by left].
  by exists (with_phase PhaseCommit false r), b.
Qed.

Lemma prevote_engine h rd hash voter cm : Engine (prevote h rd hash voter cm) = Engine cm.
Proof.
  unfold prevote, broadcastVote. rewrite (proj1 (send_fields _ _ _)).
  destruct (CurrentRound cm); [destruct (in_round _ _ _)|]; done.
Qed.

Lemma proposeBlock_engine h p cm : Engine (proposeBlock h p cm) = Engine cm.
Proof.
  unfold proposeBlock, broadcastProposal. destruct (produce_block p (ChainState cm)) as [b c].
  simpl. destruct (isLocalValidator p); [rewrite prevote_engine|]; simpl;
    by rewrite (proj1 (send_fields _ _ _)).
Qed.

Lemma runBlockRound_engine cm : Engine (runBlockRound cm) = Engine cm.
Proof.
  unfold runBlockRound. repeat case_match; auto using proposeBlock_engine.
Qed.

Lemma threshold_table :
  forallb (fun n => commit_threshold (Z.of_nat n) =? 2 * Z.of_nat n / 3) (seq 0 201) = true.
Proof. vm_compute. reflexivity. Qed.

(** ** Counting votes *)

(** The precommit events of a run that the current round has counted, as the
    keys they were recorded under. *)
Definition counted_key (e : event) (cm : ConsensusManager C) : option bytes :=
  match CurrentRound cm, e with
  | Some r, VoteReceived v _ =>
      if (rs_Height r =? v_Height v) && (v_VoteType v =? 2)
      then Some (ValidatorID_String (v_Validator v)) else None
  | Some r, Precommit h rd _ voter =>
      if in_round h rd r then Some (ValidatorID_String voter) else None
  | _, _ => None
  end.

(** Whether a tick opens a new round here. *)
Definition proposes (cm : ConsensusManager C) : bool :=
  match EngineSelectProposer (Engine cm) (u64 (CurrentHeight (Engine cm) + 1)) with
  | Some p => isLocalValidator p
  | None => false
  end.

(** The keys counted since the current round was opened. *)
Definition next_keys (e : event) (cm : ConsensusManager C) (ks : list bytes) : list bytes :=
  match e with
  | Tick => if proposes cm then [] else ks
  | _ => match counted_key e cm with Some k => k :: ks | None => ks end
  end.

Inductive traced : ConsensusManager C -> list bytes -> Prop :=
| traced_new e p c : traced (NewConsensusManager e p c) []
| traced_step cm ks e : traced cm ks -> traced (handle e cm) (next_keys e cm ks).

Definition counts_ok (r : option RoundState) (ks : list bytes) : Prop :=
  match r with
  | None => ks = []
  | Some r => rs_PrecommitPower r = u64 (Z.of_nat (length ks)) /\
              dom (rs_Precommits r) = list_to_set (C := gset bytes) ks
  end.

Lemma counts_ok_phase r ph armed ks :
  counts_ok (Some r) ks -> counts_ok (Some (with_phase ph armed r)) ks.
Proof. done. Qed.

Lemma counts_ok_add r k v ks :
  counts_ok (Some r) ks -> counts_ok (Some (add_precommit k v r)) (k :: ks).
Proof.
  intros [H1 H2]. split.
  - simpl. rewrite H1. unfold u64. rewrite Zplus_mod_idemp_l. f_equal. lia.
  - simpl. by rewrite dom_insert_L, H2.
Qed.

Lemma checkCommitLocked_counts cm ks :
  counts_ok (CurrentRound cm) ks -> counts_ok (CurrentRound (checkCommitLocked cm)) ks.
Proof.
  unfold checkCommitLocked. destruct (CurrentRound cm) as [r|] eqn:Er; [|by rewrite Er].
  destruct (_ <=? _); [|by rewrite Er]. by destruct (rs_Proposal r).
Qed.

Lemma proposeBlock_counts h p cm : counts_ok (CurrentRound (proposeBlock h p cm)) [].
Proof.
  unfold proposeBlock, prevote, broadcastVote. destruct (produce_block p (ChainState cm)).
  simpl. destruct (isLocalValidator p); [|done].
  rewrite (proj1 (proj2 (send_fields _ _ _))). simpl. by destruct (in_round _ _ _).
Qed.

Lemma handle_counts e cm ks :
  counts_ok (CurrentRound cm) ks ->
  counts_ok (CurrentRound (handle e cm)) (next_keys e cm ks).
Proof.
  intros H. destruct e as [|v from|h rd hash voter|h rd]; simpl.
  - unfold runBlockRound, proposes. destruct (EngineSelectProposer _ _) as [p|]; [|done].
    destruct (isLocalValidator p); [apply proposeBlock_counts|done].
  - unfold handleVote, counted_key. destruct (CurrentRound cm) as [r|] eqn:Er; [|simpl in *; by rewrite Er].
    destruct (rs_Height r =? v_Height v); simpl; [|simpl in *; by rewrite Er].
    destruct (Z.eqb_spec (v_VoteType v) 1) as [->|]; simpl; [done|].
    destruct (v_VoteType v =? 2); [|simpl in *; by rewrite Er].
    apply checkCommitLocked_counts. simpl. by apply counts_ok_add.
  - unfold precommit, checkCommit, broadcastVote, counted_key. apply checkCommitLocked_counts.
    rewrite (proj1 (proj2 (send_fields _ _ _))).
    destruct (CurrentRound cm) as [r|] eqn:Er; [|simpl in *; by rewrite Er].
    simpl in *. destruct (in_round h rd r); [|by rewrite Er]. by apply counts_ok_add.
  - unfold handleTimeout, counted_key. destruct (CurrentRound cm) as [r|] eqn:Er; [|simpl in *; by rewrite Er].
    destruct (negb _); [by rewrite Er|done].
Qed.

Lemma traced_counts cm ks : traced cm ks -> counts_ok (CurrentRound cm) ks.
Proof. induction 1; [done|by apply handle_counts]. Qed.

End Lemmas.

(** ** Properties *)

Section Properties.
Context {C : Type} `{!BlockProducer C}.
Implicit Types cm : ConsensusManager C.

(** C5 (commit safety).  No event changes the engine except by finalizing the
    proposal of the current round, and only when the round's counted precommit
    power has reached the commit threshold; ticks, prevotes and timeouts never
    do. *)
Theorem handle_justified e cm :
  justified (Engine cm) (Engine (handle e cm)) (CurrentRound (handle e cm)).
Proof.
  destruct e as [|v from|h rd hash voter|h rd]; simpl.
  - left. apply runBlockRound_engine.
  - unfold handleVote. destruct (CurrentRound cm) as [r|] eqn:Er; [|by left].
    destruct (negb _); [by left|]. destruct (v_VoteType v =? 1); [by left|].
    destruct (v_VoteType v =? 2); [|by left].
    apply (checkCommitLocked_justified
      (with_round (Some (add_precommit (ValidatorID_String (v_Validator v)) v r)) cm)).
  - unfold precommit, checkCommit, broadcastVote.
    set (cm1 := send _ _ _).
    replace (Engine cm) with (Engine cm1); [apply checkCommitLocked_justified|].
    subst cm1. rewrite (proj1 (send_fields _ _ _)).
    destruct (CurrentRound cm); [destruct (in_round _ _ _)|]; done.
  - left. unfold handleTimeout. destruct (CurrentRound cm); [|done]. by destruct (negb _).
Qed.

(** Quorum of distinct voters.  In any run whose counted precommits carry
    pairwise different validator names, the power that the commit check reads is
    the number of recorded precommits: a committed round has that many distinct
    voters behind it.  (Repeated or same-named votes break this, see
    [double_vote_commits].) *)
Theorem precommit_power_counts_voters cm ks r :
  traced cm ks -> CurrentRound cm = Some r -> NoDup ks ->
  Z.of_nat (length ks) < 2 ^ 64 ->
  rs_PrecommitPower r = Z.of_nat (size (rs_Precommits r)).
Proof.
  intros Ht Hr Hnd Hl. apply traced_counts in Ht. rewrite Hr in Ht. destruct Ht as [H1 H2].
  rewrite H1, <- size_dom, H2, size_list_to_set by done.
  apply u64_small. unfold is_u64. lia.
Qed.

(** Counting is never an under-count.  In every run, the distinct recorded
    precommits are at most the counted ones, before the counter wraps. *)
Theorem precommit_power_bounds_voters cm ks r :
  traced cm ks -> CurrentRound cm = Some r -> Z.of_nat (length ks) < 2 ^ 64 ->
  Z.of_nat (size (rs_Precommits r)) <= rs_PrecommitPower r.
Proof.
  intros Ht Hr Hl. apply traced_counts in Ht. rewrite Hr in Ht. destruct Ht as [H1 H2].
  rewrite H1, <- size_dom, H2. rewrite u64_small by (unfold is_u64; lia).
  assert (Hle : (size (list_to_set ks : gset bytes) <= length ks)%nat); [|lia].
  clear. induction ks as [|k ks IH]; [done|].
  simpl. pose proof (size_union_alt {[k]} (list_to_set ks : gset bytes)) as Hs.
  rewrite Hs, size_singleton.
  assert (size ((list_to_set ks : gset bytes) ∖ {[k]}) <= size (list_to_set ks : gset bytes))%nat
    by (apply subseteq_size; set_solver). lia.
Qed.

End Properties.

(** ** A toy chain, for witnesses *)

#[local] Instance toy_producer : BlockProducer Z := {|
  chain_height c := c;
  produce_block p c := (mkBlock (u64 (c + 1)) p 0 zero32 [] zero32 zero32 [], u64 (c + 1));
  produce_block_law p c := conj eq_refl (conj eq_refl eq_refl);
|}.

Definition solo_set : ValidatorSet :=
  (AddMultiple [NewValidatorID 1; 9 :: NewValidatorID 1] [100; 100] NewValidatorSet).2.
Definition three_set : ValidatorSet :=
  (AddMultiple [demo_id 1; demo_id 2; demo_id 3] [100; 100; 100] NewValidatorSet).2.

(** The manager of validator 0x01 with three active validators, in a round it
    has proposed at height 1. *)
Definition demo_cm : ConsensusManager Z :=
  proposeBlock 1 (demo_id 1)
    (NewConsensusManager (NewConsensusEngine three_set) (Some (mkP2P (lit "n1") 0 [])) 0).

Definition vote_of (b : Z) : Vote := mkVote 1 0 zero32 (demo_id b) 2.
Definition two_votes : ConsensusManager Z :=
  handle (VoteReceived (vote_of 3) (lit "p3")) (handle (VoteReceived (vote_of 2) (lit "p2")) demo_cm).

Example demo_not_committed : Blocks (Engine (handle (VoteReceived (vote_of 2) (lit "p2")) demo_cm)) !! 1 = None.
Proof. vm_compute. reflexivity. Qed.
Example demo_committed : is_Some (Blocks (Engine two_votes) !! 1).
Proof. vm_compute. eauto. Qed.

(** One validator's precommit, delivered twice, commits a block that three
    validators are supposed to agree on: the power is incremented although the
    vote map still has one entry. *)
Lemma double_vote_commits :
  let cm := handle (VoteReceived (vote_of 2) (lit "p2"))
              (handle (VoteReceived (vote_of 2) (lit "p2")) demo_cm) in
  is_Some (Blocks (Engine cm) !! 1) /\
  (r ← CurrentRound cm; Some (size (rs_Precommits r))) = Some 1%nat.
Proof. vm_compute. eauto. Qed.

(** A vote from outside the active set counts as well. *)
Lemma outsider_votes_commit :
  let cm := handle (VoteReceived (vote_of 77) (lit "x"))
              (handle (VoteReceived (vote_of 78) (lit "y")) demo_cm) in
  IsValidatorActive (Engine demo_cm) (demo_id 77) = false /\
  is_Some (Blocks (Engine cm) !! 1).
Proof. vm_compute. eauto. Qed.

(** "2/3+ for finality": the threshold of a total power is two thirds rounded down,
    so 133 of 200 commit, which is less than two thirds. *)
Lemma threshold_rounds_down total :
  0 <= total <= MaxValidators -> commit_threshold total = 2 * total / 3.
Proof.
  intros Ht. pose proof threshold_table as Htab. rewrite forallb_forall in Htab.
  specialize (Htab (Z.to_nat total)). rewrite Z2Nat.id in Htab by lia.
  apply Z.eqb_eq, Htab. apply in_seq. unfold MaxValidators in Ht. lia.
Qed.
Lemma threshold_below_two_thirds : commit_threshold 200 = 133 /\ 3 * 133 < 2 * 200.
Proof. rewrite threshold_rounds_down by (unfold MaxValidators; lia). done. Qed.


(** ** Witnesses *)

Definition start_cm : ConsensusManager Z :=
  NewConsensusManager (NewConsensusEngine three_set) (Some (mkP2P (lit "n1") 0 [])) 0.
Definition ev2 : event := VoteReceived (vote_of 2) (lit "p2").
Definition ev3 : event := VoteReceived (vote_of 3) (lit "p3").
Definition traced_cm : ConsensusManager Z := handle ev3 (handle ev2 (handle Tick start_cm)).
Definition traced_keys : list bytes :=
  next_keys ev3 (handle ev2 (handle Tick start_cm))
    (next_keys ev2 (handle Tick start_cm) (next_keys Tick start_cm [])).
Definition no_round : RoundState :=
  mkRound 0 0 PhasePropose zero32 None ∅ ∅ 0 0 false.
Definition traced_round : RoundState := default no_round (CurrentRound traced_cm).

Lemma traced_cm_traced : traced traced_cm traced_keys.
Proof. do 3 apply traced_step. constructor. Qed.

Lemma precommit_power_counts_voters_witness :
  rs_PrecommitPower traced_round = 2 /\ Z.of_nat (size (rs_Precommits traced_round)) = 2.
Proof.
  assert (H : rs_PrecommitPower traced_round = Z.of_nat (size (rs_Precommits traced_round))).
  { apply (precommit_power_counts_voters traced_cm traced_keys traced_round traced_cm_traced).
    - vm_compute. reflexivity.
    - assert (traced_keys = [hex_byte 3; hex_byte 2]) as -> by (vm_compute; reflexivity).
      apply (bool_decide_unpack _). vm_compute. exact I.
    - vm_compute. reflexivity. }
  split; [vm_compute; reflexivity|]. rewrite <- H. vm_compute. reflexivity.
Defined.

Lemma precommit_power_bounds_voters_witness :
  Z.of_nat (size (rs_Precommits traced_round)) <= 2.
Proof.
  apply (precommit_power_bounds_voters traced_cm traced_keys traced_round traced_cm_traced);
    vm_compute; reflexivity.
Defined.
