(* ===== verification/TxWire.v ===== *)
(** The binary wire format of transactions (serialize.go): [SerializeTx],
    [DeserializeTx], their hexadecimal forms, and the length-checked reader. *)

From Stdlib Require Import ZArith Lia.
From S2P Require Import Prelude Sha256 GoFloat Collections StateDB Validators Types.
From stdpp Require Import gmap list.
Local Open Scope Z_scope.
Local Open Scope go_scope.

(** ** Binary helpers *)

Definition u64be (v : Z) : bytes := be_enc 8 v.
Definition u32be (v : Z) : bytes := be_enc 4 v.
Definition u16be (v : Z) : bytes := be_enc 2 v.
Definition be64 (b : bytes) : Z := if (length b <? 8)%nat then 0 else be_dec (take 8 b).
Definition be32 (b : bytes) : Z := if (length b <? 4)%nat then 0 else be_dec (take 4 b).
Definition be16 (b : bytes) : Z := if (length b <? 2)%nat then 0 else be_dec (take 2 b).

Definition len (b : bytes) : Z := Z.of_nat (length b).

(** ** Serialization *)

(** [SerializeTx]: length prefixes are truncated to their width. *)
Definition SerializeTx (tx : Transaction) : bytes :=
  let val := big_bytes (tx_Value tx) in
  u64be (tx_Nonce tx) ++
  u16be (u16 (len (tx_From tx))) ++ tx_From tx ++
  u16be (u16 (len (tx_To tx))) ++ tx_To tx ++
  u16be (u16 (len val)) ++ val ++
  u64be (tx_GasLimit tx) ++
  u64be (tx_GasPrice tx) ++
  [lane_byte (tx_Lane tx)] ++
  u32be (u32 (len (tx_EncryptedData tx))) ++ tx_EncryptedData tx ++
  u32be (u32 (len (tx_Data tx))) ++ tx_Data tx ++
  u16be (u16 (len (tx_Signature tx))) ++ tx_Signature tx.

(** [SerializeTxHex]. *)
Definition SerializeTxHex (tx : Transaction) : bytes := fmt_x (SerializeTx tx).

(** ** The reader *)

Record reader := mkReader { rd_data : bytes; rd_off : nat; rd_buf : bytes }.

(** [reader.read]. *)
Definition read (n : nat) (r : reader) : option reader :=
  if (length (rd_data r) <? rd_off r + n)%nat then None
  else Some (mkReader (rd_data r) (rd_off r + n) (take n (drop (rd_off r) (rd_data r)))).

(** [if !r.read(n) { return nil, fmt.Errorf(msg) }], yielding [r.buf]. *)
Definition rd (n : nat) (msg : string) : M reader bytes := fun r =>
  match read n r with
  | None => (Err msg, r)
  | Some r => (Ok (rd_buf r), r)
  end.

(** [DeserializeTx] after the reader is set up. *)
Definition parseTx : M reader Transaction :=
  let* nonce := rd 8 "tx: short read for nonce" in
  let* l := rd 2 "tx: short read for fromLen" in
  let* from := rd (Z.to_nat (be16 l)) "tx: short read for from" in
  let* l := rd 2 "tx: short read for toLen" in
  let* to := rd (Z.to_nat (be16 l)) "tx: short read for to" in
  let* l := rd 2 "tx: short read for valueLen" in
  let* val := rd (Z.to_nat (be16 l)) "tx: short read for value" in
  let* gasLimit := rd 8 "tx: short read for gasLimit" in
  let* gasPrice := rd 8 "tx: short read for gasPrice" in
  let* lane := rd 1 "tx: short read for lane" in
  let* l := rd 4 "tx: short read for encDataLen" in
  let* enc := rd (Z.to_nat (be32 l)) "tx: short read for encrypted data" in
  let* l := rd 4 "tx: short read for dataLen" in
  let* data := rd (Z.to_nat (be32 l)) "tx: short read for data" in
  let* l := rd 2 "tx: short read for sigLen" in
  let* sig := rd (Z.to_nat (be16 l)) "tx: short read for signature" in
  let lane := lane_of_byte (byte_at lane 0) in
  let hash := Sha256.sum256 (tx_preimage (be64 nonce) from to (be_dec val)
                (be64 gasLimit) lane data enc) in
  mret (mkTx (be64 nonce) from to (be_dec val) (be64 gasLimit) (be64 gasPrice) 0 data hash
          sig lane enc []).

(** [DeserializeTx]. *)
Definition DeserializeTx (data : bytes) : outcome Transaction :=
  (parseTx (mkReader data 0 [])).1.

(** [DeserializeTxHex]. *)
Definition DeserializeTxHex (s : bytes) : outcome Transaction :=
  match hex_decode s with
  | None => Err "tx: hex decode"
  | Some data => DeserializeTx data
  end.

(** ** What fits on the wire *)

(** Field widths of the wire format; the lane byte of a named lane is its own. *)
Record wire_ok (tx : Transaction) : Prop := {
  wo_nonce : is_u64 (tx_Nonce tx);
  wo_from : len (tx_From tx) < 2 ^ 16;
  wo_to : len (tx_To tx) < 2 ^ 16;
  wo_value : 0 <= tx_Value tx;
  wo_value_len : len (big_bytes (tx_Value tx)) < 2 ^ 16;
  wo_gasLimit : is_u64 (tx_GasLimit tx);
  wo_gasPrice : is_u64 (tx_GasPrice tx);
  wo_lane : lane_of_byte (lane_byte (tx_Lane tx)) = tx_Lane tx;
  wo_enc : len (tx_EncryptedData tx) < 2 ^ 32;
  wo_data : len (tx_Data tx) < 2 ^ 32;
  wo_sig : len (tx_Signature tx) < 2 ^ 16;
}.

(** What the receiver reconstructs: the hash is recomputed and the execution
    fields are empty. *)
Definition received (tx : Transaction) : Transaction :=
  mkTx (tx_Nonce tx) (tx_From tx) (tx_To tx) (tx_Value tx) (tx_GasLimit tx)
    (tx_GasPrice tx) 0 (tx_Data tx) (TxHash tx) (tx_Signature tx) (tx_Lane tx)
    (tx_EncryptedData tx) [].

(** ** Lemmas *)

(** The reader stands before [rest]. *)
Definition before (r : reader) (rest : bytes) : Prop :=
  (rd_off r <= length (rd_data r))%nat /\ drop (rd_off r) (rd_data r) = rest.

Lemma rd_before r x rest n msg :
  before r (x ++ rest) -> length x = n ->
  exists r', rd n msg r = (Ok x, r') /\ before r' rest.
Proof.
  intros [Ho Hd] <-. unfold rd, read.
  assert (Hl : length (rd_data r) = (rd_off r + length x + length rest)%nat).
  { apply (f_equal length) in Hd. rewrite length_drop, length_app in Hd. lia. }
  destruct (Nat.ltb_spec (length (rd_data r)) (rd_off r + length x)); [lia|].
  rewrite Hd, take_app_length. eexists. split; [done|]. split; simpl; [lia|].
  by rewrite <- drop_drop, Hd, drop_app_length.
Qed.

Lemma rd_short r n msg :
  (length (rd_data r) < rd_off r + n)%nat -> rd n msg r = (Err msg, r).
Proof. intros H. unfold rd, read. destruct (Nat.ltb_spec (length (rd_data r)) (rd_off r + n)); [done|lia]. Qed.

Lemma be16_u16be v : 0 <= v < 2 ^ 16 -> be16 (u16be (u16 v)) = v.
Proof.
  intros. unfold be16, u16be, u16. rewrite be_enc_length. simpl (_ <? _)%nat. cbv iota.
  rewrite take_ge by (rewrite be_enc_length; done).
  rewrite Z.mod_small by done. by apply be_dec_enc_small.
Qed.
Lemma be32_u32be v : 0 <= v < 2 ^ 32 -> be32 (u32be (u32 v)) = v.
Proof.
  intros. unfold be32, u32be, u32. rewrite be_enc_length. simpl (_ <? _)%nat. cbv iota.
  rewrite take_ge by (rewrite be_enc_length; done).
  rewrite Z.mod_small by done. by apply be_dec_enc_small.
Qed.
Lemma be64_u64be v : is_u64 v -> be64 (u64be v) = v.
Proof.
  intros. unfold be64, u64be. rewrite be_enc_length. simpl (_ <? _)%nat. cbv iota.
  rewrite take_ge by (rewrite be_enc_length; done). by apply be_dec_enc_small.
Qed.

Lemma len_nonneg b : 0 <= len b.
Proof. unfold len. lia. Qed.

(** One step of the parser: consume the next field. *)
Ltac rd_step H :=
  let r := fresh "r" in let E := fresh "E" in let H1 := fresh "Hr" in
  lazymatch type of H with
  | before ?r0 (?x ++ ?rest) =>
      lazymatch goal with
      | |- context [mbind _ (rd ?n ?msg) r0] =>
          destruct (rd_before r0 x rest n msg H) as (r & E & H1);
          [ unfold u64be, u32be, u16be;
            first [apply be_enc_length | reflexivity | unfold len; lia]
          | rewrite (bind_ok _ _ _ _ _ E); clear E H; rename H1 into H ]
      end
  end.

Lemma parseTx_serialize tx extra r :
  wire_ok tx -> before r (SerializeTx tx ++ extra) ->
  exists r', parseTx r = (Ok (received tx), r') /\ before r' extra.
Proof.
  intros [Hn Hf Ht Hv Hvl Hgl Hgp Hl He Hd Hs] H.
  pose proof (len_nonneg (tx_From tx)). pose proof (len_nonneg (tx_To tx)).
  pose proof (len_nonneg (big_bytes (tx_Value tx))).
  pose proof (len_nonneg (tx_EncryptedData tx)). pose proof (len_nonneg (tx_Data tx)).
  pose proof (len_nonneg (tx_Signature tx)).
  unfold SerializeTx in H. cbv zeta in H. rewrite <- !(assoc_L (++)) in H.
  unfold parseTx.
  rd_step H. rd_step H. rewrite be16_u16be by done. rd_step H.
  rd_step H. rewrite be16_u16be by done. rd_step H.
  rd_step H. rewrite be16_u16be by done. rd_step H.
  rd_step H. rd_step H. rd_step H.
  rd_step H. rewrite be32_u32be by done. rd_step H.
  rd_step H. rewrite be32_u32be by done. rd_step H.
  rd_step H. rewrite be16_u16be by done. rd_step H.
  eexists. split; [|exact H].
  rewrite !be64_u64be, big_bytes_dec by (done || lia). 
  change (byte_at [lane_byte (tx_Lane tx)] 0) with (lane_byte (tx_Lane tx)).
  rewrite Hl. done.
Qed.

Lemma hex_digit_val d : 0 <= d < 16 -> hex_val (hex_digit d) = Some d.
Proof.
  intros Hd. assert (d ∈ seqZ 0 16) as Hin by (apply elem_of_seqZ; lia).
  revert Hin. clear. vm_compute seqZ. rewrite !elem_of_cons, elem_of_nil.
  intros Hin. repeat destruct Hin as [->|Hin]; try reflexivity. done.
Qed.

Lemma hex_decode_fmt_x b : wf_bytes b -> hex_decode (fmt_x b) = Some b.
Proof.
  induction 1 as [|x b Hx _ IH]; [done|].
  change (fmt_x (x :: b)) with (hex_digit (x / 16) :: hex_digit (x mod 16) :: fmt_x b).
  cbn [hex_decode]. unfold is_byte in Hx.
  rewrite !hex_digit_val; [|apply Z.mod_pos_bound; lia|].
  - rewrite IH. f_equal. f_equal. rewrite Z.mul_comm. symmetry. apply Z.div_mod. lia.
  - split; [apply Z.div_pos; lia|apply Z.div_lt_upper_bound; lia].
Qed.

(** A parser that reads only the bytes it consumes: on an extended message it
    returns the same value and stops at the same place; it never panics. *)
Definition extend (e : bytes) (r : reader) : reader :=
  mkReader (rd_data r ++ e) (rd_off r) (rd_buf r).
Definition local {A} (m : M reader A) : Prop := forall r,
  match m r with
  | (Ok a, r') => rd_data r' = rd_data r /\ (rd_off r' <= length (rd_data r') \/ r' = r)%nat /\
                  forall e, m (extend e r) = (Ok a, extend e r')
  | (Err _, _) => True
  | (Panic, _) => False
  end.

Lemma local_ret {A} (a : A) : local (mret a).
Proof. intros r. split_and!; auto. Qed.

Lemma local_rd n msg : local (rd n msg).
Proof.
  intros r. unfold rd, read. destruct (Nat.ltb_spec (length (rd_data r)) (rd_off r + n)); [done|].
  simpl. split_and!; [done|left; lia|]. intros e. unfold extend. simpl.
  rewrite length_app.
  destruct (Nat.ltb_spec (length (rd_data r) + length e) (rd_off r + n)); [lia|].
  f_equal; [f_equal|f_equal]; rewrite drop_app_le by lia;
    rewrite take_app_le by (rewrite length_drop; lia); done.
Qed.

Lemma local_bind {A B} (m : M reader A) (k : A -> M reader B) :
  local m -> (forall a, local (k a)) -> local (mbind (M := M reader) k m).
Proof.
  intros Hm Hk r. specialize (Hm r). unfold mbind, M_bind.
  destruct (m r) as [[a|e|] r1] eqn:E; [|done|done].
  destruct Hm as (Hd & Ho & He). specialize (Hk a r1).
  destruct (k a r1) as [[b|e|] r2] eqn:E2; [|done|done].
  destruct Hk as (Hd2 & Ho2 & He2). split_and!.
  - congruence.
  - destruct Ho2 as [?| ->]; [by left|]. done.
  - intros x. by rewrite He, He2.
Qed.

#[local] Hint Resolve local_rd local_ret local_bind : core.

Lemma parseTx_local : local parseTx.
Proof. unfold parseTx. repeat (apply local_bind; [apply local_rd|intros ?]). apply local_ret. Qed.

Lemma DeserializeTx_own tx extra :
  wire_ok tx -> DeserializeTx (SerializeTx tx ++ extra) = Ok (received tx).
Proof.
  intros Hok. unfold DeserializeTx.
  destruct (parseTx_serialize tx extra (mkReader (SerializeTx tx ++ extra) 0 []) Hok)
    as (r' & E & _); [split; simpl; [lia|done]|].
  by rewrite E.
Qed.

(** ** Properties *)

(** C9 (wire round trip).  A transaction whose fields fit the wire widths is
    received with every signed and unsigned field unchanged, a freshly computed
    hash equal to the sender's signing hash, and empty execution fields; bytes
    after the signature are ignored. *)
Theorem DeserializeTx_SerializeTx tx extra :
  wire_ok tx -> DeserializeTx (SerializeTx tx ++ extra) = Ok (received tx).
Proof. apply DeserializeTx_own. Qed.

(** Injectivity.  Two transactions that fit the wire and serialize to the
    same bytes agree on every field the receiver keeps, the signing hash
    included. *)
Theorem SerializeTx_inj tx1 tx2 :
  wire_ok tx1 -> wire_ok tx2 -> SerializeTx tx1 = SerializeTx tx2 ->
  received tx1 = received tx2.
Proof.
  intros H1 H2 He.
  pose proof (DeserializeTx_own tx1 [] H1) as E1.
  pose proof (DeserializeTx_own tx2 [] H2) as E2.
  rewrite He in E1. congruence.
Qed.

(** RPC round trip.  The hexadecimal form used by the RPC decodes to the
    same transaction. *)
Theorem DeserializeTxHex_SerializeTxHex tx :
  wire_ok tx -> wf_bytes (SerializeTx tx) ->
  DeserializeTxHex (SerializeTxHex tx) = Ok (received tx).
Proof.
  intros Hok Hwf. unfold DeserializeTxHex, SerializeTxHex.
  rewrite hex_decode_fmt_x by done. rewrite <- (app_nil_r (SerializeTx tx)).
  by apply DeserializeTx_own.
Qed.

(** Truncation.  Every proper prefix of a serialized transaction is
    rejected with an error; the parser never returns a transaction from a
    message that was cut short. *)
Theorem DeserializeTx_truncated tx n :
  wire_ok tx -> (n < length (SerializeTx tx))%nat ->
  exists e, DeserializeTx (take n (SerializeTx tx)) = Err e.
Proof.
  intros Hok Hn. unfold DeserializeTx.
  pose proof (parseTx_local (mkReader (take n (SerializeTx tx)) 0 [])) as Hloc.
  destruct (parseTx (mkReader (take n (SerializeTx tx)) 0 [])) as [[t|e|] r'];
    [exfalso|by exists e|done].
  destruct Hloc as (Hd & Ho & He). specialize (He (drop n (SerializeTx tx))).
  unfold extend in He at 1. simpl in He. rewrite take_drop in He.
  destruct (parseTx_serialize tx [] (mkReader (SerializeTx tx) 0 []) Hok)
    as (r2 & E & [_ Hb]); [rewrite app_nil_r; split; [apply Nat.le_0_l|done]|].
  rewrite He in E. injection E as _ <-.
  unfold extend in Hb. cbn [rd_off rd_data] in Hb, Hd, Ho.
  apply (f_equal length) in Hb. rewrite Hd, take_drop, length_drop in Hb.
  rewrite Hd, length_take in Ho. cbn [length] in Hb.
  destruct Ho as [Ho|Ho]; [lia|]. rewrite Ho in Hb. cbn [rd_off] in Hb. lia.
Qed.

(** ** Types of parsed transactions *)

Lemma rd_inv n msg r b r' :
  rd n msg r = (Ok b, r') -> length b = n /\ rd_data r' = rd_data r /\ (wf_bytes (rd_data r) -> wf_bytes b).
Proof.
  unfold rd, read. destruct (Nat.ltb_spec (length (rd_data r)) (rd_off r + n)) as [|Hl]; [discriminate|].
  intros [= <- <-]. split_and!; [rewrite length_take, length_drop; cbn; lia|done|]. intros Hw. by apply Forall_take, Forall_drop.
Qed.

Lemma be_prefix_bound n b : wf_bytes b -> 0 <= be_dec (take n b) < 256 ^ Z.of_nat n.
Proof.
  intros Hw. pose proof (be_dec_bound (take n b) (Forall_take _ _ _ Hw)) as H. rewrite length_take in H.
  split; [lia|]. eapply Z.lt_le_trans; [apply H|]. apply Z.pow_le_mono_r; lia.
Qed.
Lemma be64_u64 b : wf_bytes b -> is_u64 (be64 b).
Proof. intros Hw. unfold be64. case_match; [by unfold is_u64|]. by apply (be_prefix_bound 8). Qed.
Lemma be16_bound b : wf_bytes b -> 0 <= be16 b < 2 ^ 16.
Proof. intros Hw. unfold be16. case_match; [lia|]. by apply (be_prefix_bound 2). Qed.
Lemma be32_bound b : wf_bytes b -> 0 <= be32 b < 2 ^ 32.
Proof. intros Hw. unfold be32. case_match; [lia|]. by apply (be_prefix_bound 4). Qed.

Lemma lane_of_byte_stable b : lane_of_byte (lane_byte (lane_of_byte b)) = lane_of_byte b.
Proof.
  unfold lane_of_byte. destruct (b =? 0) eqn:E0; [done|]. destruct (b =? 1) eqn:E1; [done|].
  destruct (b =? 2) eqn:E2; [done|]. cbn. by rewrite E0, E1, E2.
Qed.

(** What the parser builds is typed, and as the receiver of itself would have it. *)
Lemma parseTx_typed r tx r' :
  wf_bytes (rd_data r) -> parseTx r = (Ok tx, r') -> wire_ok tx /\ received tx = tx.
Proof.
  intros Hw H. unfold parseTx in H.
  repeat match type of H with
  | mbind _ _ _ = (Ok _, _) =>
      let b := fresh "b" in let s := fresh "s" in let H1 := fresh "Hr" in let L := fresh "L" in let D := fresh "D" in let W := fresh "W" in
      apply bind_inv in H as (b & s & H1 & H); apply rd_inv in H1 as (L & D & W);
      match type of Hw with wf_bytes ?d => specialize (W Hw); rewrite <- D in Hw; clear D end
  end.
  cbv [mret M_ret] in H. injection H as <- _.
  assert (Hb16 : forall b c, wf_bytes b -> length c = Z.to_nat (be16 b) -> len c < 2 ^ 16).
  { intros x c Hx Hc. pose proof (be16_bound x Hx). unfold len. lia. }
  assert (Hb32 : forall b c, wf_bytes b -> length c = Z.to_nat (be32 b) -> len c < 2 ^ 32).
  { intros x c Hx Hc. pose proof (be32_bound x Hx). unfold len. lia. }
  split; [|reflexivity]. split; cbn; try (by apply be64_u64).
  - exact (Hb16 _ _ W0 L1).
  - exact (Hb16 _ _ W2 L3).
  - by apply be_dec_bound.
  - unfold len. rewrite big_bytes_length. pose proof (be_dec_bound b5 W5) as Hv.
    assert (nbytes (be_dec b5) <= length b5)%nat by (apply nbytes_spec; lia). pose proof (be16_bound b4 W4). lia.
  - apply lane_of_byte_stable.
  - exact (Hb32 _ _ W9 L10).
  - exact (Hb32 _ _ W11 L12).
  - exact (Hb16 _ _ W13 L14).
Qed.

(** C21.  Typed parsing.  On any bytes the parser returns an error or a transaction
    whose every field fits its width on the wire, with its own signing hash and
    empty execution fields, so that it survives being sent on; it never panics. *)
Theorem DeserializeTx_typed data :
  wf_bytes data ->
  match DeserializeTx data with
  | Ok tx => wire_ok tx /\ received tx = tx
  | Err _ => True
  | Panic => False
  end.
Proof.
  intros Hw. unfold DeserializeTx. pose proof (parseTx_local (mkReader data 0 [])) as Hl.
  destruct (parseTx _) as [[tx|e|] r'] eqn:E; [|done|done]. by apply (parseTx_typed (mkReader data 0 []) tx r').
Qed.

(** ** The signing hash *)

(** The fields are joined by colons without lengths, so a colon inside an
    address moves the boundary: different transactions, same signing hash. *)
Lemma TxHash_ambiguous :
  let tx1 := NewTransaction 0 (lit "a:b") (lit "c") 5 21000 [] in
  let tx2 := NewTransaction 0 (lit "a") (lit "b:c") 5 21000 [] in
  tx1 <> tx2 /\ TxHash tx1 = TxHash tx2.
Proof.
  cbv zeta. apply conj; [|reflexivity].
  intros H. apply (f_equal tx_From) in H. discriminate H.
Qed.

(** ** Witnesses *)

Definition demo_tx : Transaction :=
  mkTx 7 (lit "aa11") (lit "bb22") 300 21000 2 0 [1; 2; 3] (zeros 32) [9; 9] PrivateLane [4] [].

Lemma demo_tx_ok : wire_ok demo_tx.
Proof. split; vm_compute; first [reflexivity | discriminate | split; [discriminate|reflexivity]]. Qed.

Lemma DeserializeTx_SerializeTx_witness :
  DeserializeTx (SerializeTx demo_tx ++ [0; 0]) = Ok (received demo_tx).
Proof. apply (DeserializeTx_SerializeTx demo_tx [0; 0] demo_tx_ok). Defined.

Lemma SerializeTx_inj_witness :
  received demo_tx = received (received demo_tx).
Proof.
  apply (SerializeTx_inj demo_tx (received demo_tx)).
  - exact demo_tx_ok.
  - split; vm_compute; first [reflexivity | discriminate | split; [discriminate|reflexivity]].
  - vm_compute. reflexivity.
Defined.

Lemma DeserializeTxHex_SerializeTxHex_witness :
  DeserializeTxHex (SerializeTxHex demo_tx) = Ok (received demo_tx).
Proof.
  apply (DeserializeTxHex_SerializeTxHex demo_tx demo_tx_ok).
  apply (bool_decide_unpack (Forall (fun b => 0 <= b < 256) (SerializeTx demo_tx))).
  vm_compute. exact I.
Defined.

Lemma DeserializeTx_truncated_witness :
  exists e, DeserializeTx (take 20 (SerializeTx demo_tx)) = Err e.
Proof.
  apply (DeserializeTx_truncated demo_tx 20 demo_tx_ok).
  apply Nat.ltb_lt. vm_compute. reflexivity.
Defined.

Lemma DeserializeTx_typed_witness :
  match DeserializeTx (SerializeTx demo_tx) with Ok tx => wire_ok tx /\ received tx = tx | _ => False end.
Proof.
  assert (Hw : wf_bytes (SerializeTx demo_tx))
    by (apply (bool_decide_unpack (Forall (fun b => 0 <= b < 256) (SerializeTx demo_tx))); vm_compute; exact I).
  assert (Hok : exists tx, DeserializeTx (SerializeTx demo_tx) = Ok tx) by (eexists; vm_compute; reflexivity).
  destruct Hok as [tx Htx]. pose proof (DeserializeTx_typed (SerializeTx demo_tx) Hw) as H.
  rewrite Htx in *. exact H.
Defined.
