(* ===== verification/Staking.v ===== *)
(** Progressive staking (progressive_staking.go) and the protocol-wide inflation
    rate (evm/inflation.go): marginal reward brackets, the accrual of block
    emission, the epoch cap and the accounting of stakes and rewards. *)

From Stdlib Require Import ZArith Lia SpecFloat.
From S2P Require Import Prelude GoFloat Collections Validators Consensus.
From stdpp Require Import gmap list.
Local Open Scope Z_scope.

(** ** The inflation rate *)

Definition DefaultAnnualInflationPct : F64.t := F64.of_Z 7.
Definition MinAnnualInflationPct : F64.t := F64.of_Z 3.
Definition MaxAnnualInflationPct : F64.t := F64.of_Z 9.

(** [SetInflationPct]: the value stored in [activeInflationPct]. *)
Definition SetInflationPct (pct : F64.t) : F64.t :=
  let pct := if F64.ltb pct MinAnnualInflationPct then MinAnnualInflationPct else pct in
  if F64.ltb MaxAnnualInflationPct pct then MaxAnnualInflationPct else pct.

Definition InflationPctToCalldata (pct : F64.t) : Z :=
  u32 (F64.trunc (F64.mul pct (F64.of_Z 100))).

Definition CalldataToInflationPct (encoded : Z) : outcome F64.t :=
  let pct := F64.div (F64.of_Z encoded) (F64.of_Z 100) in
  if F64.ltb pct MinAnnualInflationPct || F64.ltb MaxAnnualInflationPct pct
  then Err "inflation %v%% outside bounds [%.0f, %.0f]" else Ok pct.

Definition uint32ToBytes (v : Z) : bytes := zeros 28 ++ be_enc 4 v.

(** ** Reward brackets *)

Record StakingBracket := mkBracket { br_MinStake : Z; br_MaxStake : Z; br_APY : F64.t }.

Definition ProgressiveStakingBrackets : list StakingBracket :=
  [mkBracket 1 1001 (F64.lit 15 100);
   mkBracket 1001 10001 (F64.lit 8 100);
   mkBracket 10001 100001 (F64.lit 4 100);
   mkBracket 100001 1000001 (F64.lit 2 100);
   mkBracket 1000001 0 (F64.lit 1 100)].

Definition WAYTotalSupply : Z := 100000000.
Definition QuestTreasurySharePct : Z := 15.

(** The loop of [CalculateReward]; [first] is [i == 0]. *)
Fixpoint reward_loop (first : bool) (bs : list StakingBracket)
    (annual remaining lower : F64.t) : F64.t :=
  match bs with
  | [] => annual
  | b :: bs =>
      if F64.leb remaining F64.zero then annual else
      let upper := if (br_MaxStake b =? 0) && negb first then F64.max_float
                   else F64.of_Z (br_MaxStake b) in
      let lower := if first then F64.sub (F64.of_Z (br_MinStake b)) (F64.of_Z 1) else lower in
      let tokens := F64.min remaining (F64.sub upper lower) in
      if F64.leb tokens F64.zero then annual else
      reward_loop false bs (F64.add annual (F64.mul tokens (br_APY b)))
        (F64.sub remaining tokens) upper
  end.

Definition CalculateReward (stake : Z) : Z :=
  if stake <? MinStake then 0
  else F64.to_u64 (F64.floor
         (reward_loop true ProgressiveStakingBrackets F64.zero (F64.of_Z stake) F64.zero)).

Definition EffectiveAPY (stake : Z) : F64.t :=
  if stake =? 0 then F64.zero
  else F64.mul (F64.div (F64.of_Z (CalculateReward stake)) (F64.of_Z stake)) (F64.of_Z 100).

Definition PerBlockReward (stake : Z) : Z := CalculateReward stake / 31536000.

Definition TreasuryShareOf (amount : Z) : Z := u64 (amount * QuestTreasurySharePct) / 100.

(** ** State *)

Record ValidatorReward := mkVR {
  vr_ValidatorID : ValidatorID;
  StakedAmount : Z;
  RewardPerBlock : Z;
  Accumulated : Z;
  LastUpdateBlock : Z;
}.

Record ProgressiveStaking := mkPS {
  AnnualInflationPct : F64.t;
  BlockTimeSec : F64.t;
  ValidatorRewards : gmap bytes ValidatorReward;
  TotalStaked : Z;
  CurrentBlock : Z;
  accrued : F64.t;
  epochMinted : Z;
  ps_EpochLength : Z;
}.

Definition with_stakes (m : gmap bytes ValidatorReward) (total : Z) (ps : ProgressiveStaking) :=
  mkPS (AnnualInflationPct ps) (BlockTimeSec ps) m total (CurrentBlock ps)
    (accrued ps) (epochMinted ps) (ps_EpochLength ps).
Definition with_emission (block : Z) (acc : F64.t) (minted : Z)
    (m : gmap bytes ValidatorReward) (ps : ProgressiveStaking) :=
  mkPS (AnnualInflationPct ps) (BlockTimeSec ps) m (TotalStaked ps) block acc minted
    (ps_EpochLength ps).
Definition with_accumulated (z : Z) (vr : ValidatorReward) :=
  mkVR (vr_ValidatorID vr) (StakedAmount vr) (RewardPerBlock vr) z (LastUpdateBlock vr).
Definition with_staked (z : Z) (vr : ValidatorReward) :=
  mkVR (vr_ValidatorID vr) z (RewardPerBlock vr) (Accumulated vr) (LastUpdateBlock vr).

(** [NewProgressiveStaking]: the manager and the inflation rate it seeds. *)
Definition NewProgressiveStaking (pct blockTime : F64.t) (epochLength : Z)
    : ProgressiveStaking * F64.t :=
  let pct := if F64.leb pct F64.zero then DefaultAnnualInflationPct else pct in
  let blockTime := if F64.leb blockTime F64.zero then F64.of_Z 3 else blockTime in
  (mkPS pct blockTime ∅ 0 0 F64.zero 0 epochLength, SetInflationPct pct).

(** ** Emission

    [pct] is the live value of [evm.GetInflationPct()]. *)

Definition blocksPerYear (blockTime : F64.t) : F64.t := F64.div (F64.of_Z 31536000) blockTime.

Definition AnnualEmission (pct : F64.t) : Z :=
  F64.to_u64 (F64.div (F64.mul (F64.of_Z WAYTotalSupply) pct) (F64.of_Z 100)).

Definition PerBlockEmission (pct : F64.t) (ps : ProgressiveStaking) : F64.t :=
  F64.div (F64.of_Z (AnnualEmission pct)) (blocksPerYear (BlockTimeSec ps)).

Definition EpochCap (pct : F64.t) (ps : ProgressiveStaking) : Z :=
  if ps_EpochLength ps =? 0 then AnnualEmission pct else
  let epochsPerYear := F64.div (blocksPerYear (BlockTimeSec ps)) (F64.of_Z (ps_EpochLength ps)) in
  if F64.leb epochsPerYear F64.zero then AnnualEmission pct
  else F64.to_u64 (F64.div (F64.of_Z (AnnualEmission pct)) epochsPerYear).

(** ** Stakes *)

Definition RegisterStake (id : ValidatorID) (amount : Z) (ps : ProgressiveStaking) :=
  match ValidatorRewards ps !! id with
  | Some e =>
      with_stakes (<[id := with_staked amount e]> (ValidatorRewards ps))
        (u64 (u64 (TotalStaked ps - StakedAmount e) + amount)) ps
  | None =>
      with_stakes (<[id := mkVR id amount 0 0 (CurrentBlock ps)]> (ValidatorRewards ps))
        (u64 (TotalStaked ps + amount)) ps
  end.

Definition RemoveStake (id : ValidatorID) (ps : ProgressiveStaking) :=
  match ValidatorRewards ps !! id with
  | Some e => with_stakes (delete id (ValidatorRewards ps))
                (u64 (TotalStaked ps - StakedAmount e)) ps
  | None => ps
  end.

Definition RolloverEpoch (ps : ProgressiveStaking) :=
  with_emission (CurrentBlock ps) (accrued ps) 0 (ValidatorRewards ps) ps.

Definition ClaimReward (id : ValidatorID) (ps : ProgressiveStaking) : Z * ProgressiveStaking :=
  match ValidatorRewards ps !! id with
  | None => (0, ps)
  | Some vr => (Accumulated vr,
      with_stakes (<[id := with_accumulated 0 vr]> (ValidatorRewards ps)) (TotalStaked ps) ps)
  end.

(** ** Block rewards *)

Section Distribution.
Context `{MapRange}.

Definition annual_rewards (ps : ProgressiveStaking) : gmap bytes Z :=
  (fun vr => CalculateReward (StakedAmount vr)) <$> ValidatorRewards ps.

Definition total_annual (annual : gmap bytes Z) : Z :=
  fold_left (fun t e => u64 (t + e.2)) (map_range annual) 0.

(** The whole tokens of this block under the epoch cap; [0] is an early
    return. *)
Definition block_available (cap minted : Z) (acc : F64.t) : Z :=
  if (0 <? cap) && (cap <=? minted) then 0 else
  let available := F64.to_u64 acc in
  if available =? 0 then 0
  else if (0 <? cap) && (cap <? u64 (minted + available)) then u64 (cap - minted)
  else available.

(** The body of the payout loop, over (distribution, rewards, paid). *)
Definition pay_one (available total : Z)
    (st : gmap bytes Z * gmap bytes ValidatorReward * Z) (e : bytes * Z) :=
  let '(dist, m, paid) := st in
  let blockReward := u64 (available * e.2) / total in
  if blockReward =? 0 then st
  else (<[e.1 := blockReward]> dist,
        alter (fun vr => with_accumulated (u64 (Accumulated vr + blockReward)) vr) e.1 m,
        u64 (paid + blockReward)).

Definition DistributeBlockReward (pct : F64.t) (height : Z) (ps : ProgressiveStaking)
    : gmap bytes Z * ProgressiveStaking :=
  let annual := annual_rewards ps in
  let total := total_annual annual in
  if total =? 0
  then (∅, with_emission height (accrued ps) (epochMinted ps) (ValidatorRewards ps) ps) else
  let acc := F64.add (accrued ps) (PerBlockEmission pct ps) in
  let keep := with_emission height acc (epochMinted ps) (ValidatorRewards ps) ps in
  let available := block_available (EpochCap pct ps) (epochMinted ps) acc in
  if available =? 0 then (∅, keep) else
  let '(dist, m, paid) :=
    fold_left (pay_one available total) (map_range annual) (∅, ValidatorRewards ps, 0) in
  if paid =? 0 then (dist, with_emission height acc (epochMinted ps) m ps)
  else (dist, with_emission height (F64.sub acc (F64.of_Z paid))
                (u64 (epochMinted ps + paid)) m ps).

End Distribution.

(** ** Lemmas: the payout loop *)

Lemma CalculateReward_range s : is_u64 (CalculateReward s).
Proof.
  unfold CalculateReward. case_match; [unfold is_u64; lia|]. apply u64_range.
Qed.

Section Lemmas.
Context `{MapRange}.

Definition share (available total : Z) (e : bytes * Z) : Z := u64 (available * e.2) / total.

(** A validator's entry after the credits recorded in [dist]. *)
Definition credit (dist : gmap bytes Z) (k : bytes) (vr : ValidatorReward) : ValidatorReward :=
  match dist !! k with
  | Some r => with_accumulated (u64 (Accumulated vr + r)) vr
  | None => vr
  end.

Definition pay_inv (m0 : gmap bytes ValidatorReward)
    (st : gmap bytes Z * gmap bytes ValidatorReward * Z) : Prop :=
  (forall k, st.1.2 !! k = credit st.1.1 k <$> m0 !! k) /\ st.2 = u64 (map_sum id st.1.1).

Lemma pay_one_inv m0 available total st e :
  pay_inv m0 st -> st.1.1 !! e.1 = None ->
  pay_inv m0 (pay_one available total st e) /\
  map_sum id (pay_one available total st e).1.1 =
    map_sum id st.1.1 + share available total e /\
  (forall k, k <> e.1 -> (pay_one available total st e).1.1 !! k = st.1.1 !! k).
Proof.
  destruct st as [[dist m] paid], e as [k a]. intros [Hm Hp] Hf. cbn [fst snd] in *.
  unfold pay_one. fold (share available total (k, a)). cbn [fst snd].
  change (u64 (available * a) / total) with (share available total (k, a)).
  destruct (Z.eqb_spec (share available total (k, a)) 0) as [E|E].
  { rewrite E, Z.add_0_r. done. }
  assert (Hs : map_sum id (<[k := share available total (k, a)]> dist) =
               map_sum id dist + share available total (k, a)).
  { rewrite map_sum_insert by done. unfold id at 1. lia. }
  cbn [fst snd]. split_and!; [split; cbn [fst snd]|done|].
  - intros k'. destruct (decide (k = k')) as [<-|Hne].
    + rewrite lookup_alter_eq, Hm. destruct (m0 !! k) as [vr|]; [|done]. simpl.
      unfold credit. by rewrite lookup_insert_eq, Hf.
    + rewrite lookup_alter_ne by done. rewrite Hm. unfold credit.
      by rewrite lookup_insert_ne.
  - rewrite Hs, Hp. unfold u64. by rewrite Zplus_mod_idemp_l.
  - intros k' Hne. by rewrite lookup_insert_ne.
Qed.

Lemma pay_loop m0 available total l st :
  pay_inv m0 st -> NoDup l.*1 -> (forall e, e ∈ l -> st.1.1 !! e.1 = None) ->
  let st' := fold_left (pay_one available total) l st in
  pay_inv m0 st' /\
  map_sum id st'.1.1 = map_sum id st.1.1 + sumZ (map (share available total) l).
Proof.
  revert st. induction l as [|e l IH]; intros st Hi Hnd Hf.
  { simpl. split; [done|lia]. }
  cbn [fold_left fmap list_fmap map sumZ foldr] in *. apply NoDup_cons in Hnd as [Hni Hnd].
  destruct (pay_one_inv m0 available total st e Hi (Hf e (list_elem_of_here _ _)))
    as (H1 & H2 & H3).
  destruct (IH (pay_one available total st e) H1 Hnd) as [H4 H5].
  - intros e' He'. rewrite H3; [apply Hf; by right|]. intros Heq. apply Hni.
    rewrite <- Heq. apply list_elem_of_fmap. by exists e'.
  - split; [exact H4|]. cbn zeta in H5. rewrite H5, H2. unfold sumZ. lia.
Qed.

(** The payout of one block never exceeds what is available, even when the
    product [available * annual] wraps. *)
Lemma shares_le available l :
  0 <= available -> Forall (fun e => 0 <= e.2) l ->
  sumZ (map snd l) < 2 ^ 64 -> fold_left (fun t e => u64 (t + e.2)) l 0 <> 0 ->
  sumZ (map (share available (fold_left (fun t e => u64 (t + e.2)) l 0)) l) <= available.
Proof.
  intros Ha Hl Hs Ht.
  assert (0 <= sumZ (map snd l)) by (apply sumZ_nonneg; by rewrite Forall_map).
  assert (Htot : fold_left (fun t e => u64 (t + e.2)) l 0 = sumZ (map snd l)).
  { rewrite (u64_sum_loop snd). apply u64_small. unfold is_u64. lia. }
  rewrite Htot in *. set (T := sumZ (map snd l)) in *.
  assert (forall l', Forall (fun e => 0 <= e.2) l' ->
    sumZ (map (share available T) l') * T <= available * sumZ (map snd l')) as Hgen.
  { induction 1 as [|e l' He _ IH]; cbn [map sumZ foldr]; [lia|].
    assert (share available T e * T <= available * e.2).
    { unfold share. pose proof (Z.mod_le (available * e.2) (2 ^ 64)).
      unfold u64. pose proof (Z.mul_div_le ((available * e.2) mod 2 ^ 64) T). nia. }
    unfold sumZ in *. lia. }
  specialize (Hgen l Hl). fold T in Hgen. nia.
Qed.

(** The counters do not wrap at this distribution. *)
Definition fits (pct : F64.t) (ps : ProgressiveStaking) : Prop :=
  is_u64 (epochMinted ps) /\
  map_sum id (annual_rewards ps) < 2 ^ 64 /\
  epochMinted ps + F64.to_u64 (F64.add (accrued ps) (PerBlockEmission pct ps)) < 2 ^ 64.

Lemma block_available_spec cap minted acc :
  is_u64 minted -> minted + F64.to_u64 acc < 2 ^ 64 -> is_u64 cap ->
  0 <= block_available cap minted acc <= F64.to_u64 acc /\
  (0 < cap -> minted <= cap -> minted + block_available cap minted acc <= cap) /\
  (0 < cap -> cap <= minted -> block_available cap minted acc = 0).
Proof.
  intros Hm Hs Hc. pose proof (u64_range (F64.trunc acc)) as Ha.
  fold (F64.to_u64 acc) in Ha. unfold block_available, is_u64 in *.
  rewrite (u64_small (minted + F64.to_u64 acc)) by (unfold is_u64; lia).
  destruct (Z.ltb_spec 0 cap); cbn [andb].
  - destruct (Z.leb_spec cap minted); [lia|].
    rewrite (u64_small (cap - minted)) by (unfold is_u64; lia).
    destruct (Z.eqb_spec (F64.to_u64 acc) 0); [lia|].
    destruct (Z.ltb_spec cap (minted + F64.to_u64 acc)); lia.
  - destruct (Z.eqb_spec (F64.to_u64 acc) 0); lia.
Qed.

Lemma EpochCap_range pct ps : is_u64 (EpochCap pct ps).
Proof. unfold EpochCap. repeat case_match; apply u64_range. Qed.

Lemma annual_rewards_nonneg ps : Forall (fun e : bytes * Z => 0 <= e.2) (map_range (annual_rewards ps)).
Proof.
  apply Forall_forall. intros [k a] Hin. apply map_range_elem in Hin.
  unfold annual_rewards in Hin. rewrite lookup_fmap in Hin.
  destruct (ValidatorRewards ps !! k) as [vr|]; [|done]. injection Hin as <-.
  apply CalculateReward_range.
Qed.

(** One block: what is paid, where it goes, and what the counters say. *)
Lemma DistributeBlockReward_step pct h ps dist ps' :
  fits pct ps -> DistributeBlockReward pct h ps = (dist, ps') ->
  0 <= map_sum id dist /\
  epochMinted ps' = epochMinted ps + map_sum id dist /\
  (0 < EpochCap pct ps -> epochMinted ps <= EpochCap pct ps ->
   epochMinted ps' <= EpochCap pct ps) /\
  (forall k, ValidatorRewards ps' !! k = credit dist k <$> ValidatorRewards ps !! k) /\
  EpochCap pct ps' = EpochCap pct ps /\ TotalStaked ps' = TotalStaked ps.
Proof.
  intros (Hm & Hann & Hsum). unfold DistributeBlockReward.
  assert (Hnone : forall k, ValidatorRewards ps !! k = credit ∅ k <$> ValidatorRewards ps !! k).
  { intros k. unfold credit. rewrite lookup_empty. by destruct (_ !! k). }
  set (acc := F64.add (accrued ps) (PerBlockEmission pct ps)) in *.
  set (total := total_annual (annual_rewards ps)).
  destruct (Z.eqb_spec total 0) as [E|Htot].
  { intros [= <- <-]. rewrite map_sum_empty. cbn. split_and!; try done; lia. }
  destruct (block_available_spec (EpochCap pct ps) (epochMinted ps) acc Hm Hsum
              (EpochCap_range _ _)) as (Hav & Hcap & _).
  set (av := block_available _ _ acc) in *.
  destruct (Z.eqb_spec av 0) as [E|Hne].
  { intros [= <- <-]. rewrite map_sum_empty. cbn. split_and!; try done; lia. }
  destruct (pay_loop (ValidatorRewards ps) av total (map_range (annual_rewards ps))
              (∅, ValidatorRewards ps, 0)) as [[Hc Hp] Hs].
  { split; [done|]. cbn. by rewrite map_sum_empty. }
  { apply map_range_nodup. }
  { intros e _. apply lookup_empty. }
  assert (Hle : sumZ (map (share av total) (map_range (annual_rewards ps))) <= av).
  { apply (shares_le av (map_range (annual_rewards ps))); [lia|apply annual_rewards_nonneg| |done].
    change (map snd) with (map (fun e : bytes * Z => id e.2)). by rewrite map_sum_range. }
  assert (Hge : 0 <= sumZ (map (share av total) (map_range (annual_rewards ps)))).
  { apply sumZ_nonneg, Forall_map, Forall_forall. intros e _. unfold share, compose.
    apply Z_div_nonneg_nonneg; [apply u64_range|]. subst total. unfold total_annual.
    rewrite (u64_sum_loop snd). apply u64_range. }
  destruct (fold_left _ _ _) as [[d m] paid]. cbn [fst snd] in *.
  rewrite map_sum_empty in Hs. unfold is_u64 in *.
  rewrite u64_small in Hp by (unfold is_u64; lia).
  destruct (Z.eqb_spec paid 0) as [E|Hpaid]; intros [= <- <-]; cbn [epochMinted
    ValidatorRewards with_emission EpochCap TotalStaked]; split_and!; try done; try lia.
  all: rewrite u64_small by (unfold is_u64; lia); lia.
Qed.

(** The loop gives each visited validator its share, and nothing when it is zero. *)
Lemma pay_loop_shares available total l st :
  NoDup l.*1 -> (forall e, e ∈ l -> st.1.1 !! e.1 = None) ->
  forall k, default 0 ((fold_left (pay_one available total) l st).1.1 !! k) =
    match (list_to_map l : gmap bytes Z) !! k with
    | Some a => share available total (k, a)
    | None => default 0 (st.1.1 !! k)
    end.
Proof.
  revert st. induction l as [|[k0 a0] l IH]; intros st Hnd Hf k; [done|].
  cbn [fold_left fmap list_fmap fst] in *. apply NoDup_cons in Hnd as [Hni Hnd].
  assert (Hd : forall k, default 0 ((pay_one available total st (k0, a0)).1.1 !! k) =
                 if decide (k = k0) then share available total (k0, a0) else default 0 (st.1.1 !! k)).
  { intros k'. destruct st as [[dist m] paid]. unfold pay_one. fold (share available total (k0, a0)).
    cbn [fst snd]. change (u64 (available * a0) / total) with (share available total (k0, a0)).
    pose proof (Hf (k0, a0) (list_elem_of_here _ _)) as H0. cbn [fst] in H0.
    destruct (Z.eqb_spec (share available total (k0, a0)) 0) as [E|E]; cbn [fst].
    - case_decide; [subst; by rewrite H0, E|done].
    - case_decide; [subst; by rewrite lookup_insert_eq|by rewrite lookup_insert_ne]. }
  rewrite IH; [|done|].
  - rewrite Hd. cbn [list_to_map foldr]. destruct (decide (k = k0)) as [->|Hne].
    + rewrite lookup_insert_eq. by rewrite (not_elem_of_list_to_map_1 l k0 Hni).
    + by rewrite lookup_insert_ne.
  - intros [k' a'] He. destruct st as [[dist m] paid]. unfold pay_one. cbn [fst snd].
    pose proof (Hf (k', a') (list_elem_of_further _ _ _ He)) as H0. cbn [fst] in H0.
    case_match; [done|]. cbn [fst]. rewrite lookup_insert_ne; [done|].
    intros ->. apply Hni. apply list_elem_of_fmap. by exists (k', a').
Qed.

(** Rounding down loses less than one token per validator. *)
Lemma shares_ge available (l : list (bytes * Z)) :
  0 <= available -> Forall (fun e => 0 <= e.2) l -> 0 < sumZ (map snd l) ->
  available * sumZ (map snd l) < 2 ^ 64 ->
  available - Z.of_nat (length l) < sumZ (map (share available (sumZ (map snd l))) l).
Proof.
  intros Ha Hl HT Hb. set (T := sumZ (map snd l)) in *.
  assert (Hgen : forall l', Forall (fun e : bytes * Z => 0 <= e.2) l' -> sumZ (map snd l') <= T ->
    available * sumZ (map snd l') <= T * sumZ (map (share available T) l') + (T - 1) * Z.of_nat (length l')).
  { induction 1 as [|e l' He Hl' IH]; intros HT'; [unfold sumZ; cbn; lia|].
    cbn [map sumZ foldr length] in *. fold (sumZ (map snd l')) (sumZ (map (share available T) l')) in *.
    assert (H0 : 0 <= sumZ (map snd l')) by (apply sumZ_nonneg; by rewrite Forall_map).
    specialize (IH ltac:(lia)).
    assert (Hs : available * e.2 <= T * share available T e + (T - 1)).
    { unfold share. rewrite u64_small by (unfold is_u64; nia).
      pose proof (Z.div_mod (available * e.2) T ltac:(lia)). pose proof (Z.mod_pos_bound (available * e.2) T HT). lia. }
    lia. }
  specialize (Hgen l Hl ltac:(lia)). fold T in Hgen.
  destruct (decide (length l = 0%nat)) as [E|E].
  { apply nil_length_inv in E. subst l. unfold T, sumZ in HT. cbn in HT. lia. }
  set (S := sumZ (map (share available T) l)) in *.
  assert (T * available < T * (S + Z.of_nat (length l))) by nia. apply Z.mul_lt_mono_pos_l in H0; lia.
Qed.

Lemma list_to_map_range {A} (m : gmap bytes A) : list_to_map (map_range m) = m.
Proof.
  rewrite (list_to_map_proper _ (map_to_list m)); [apply list_to_map_to_list|apply map_range_nodup|apply map_range_perm].
Qed.

(** What a block has to give: the whole tokens accrued, within what is left of the
    epoch. *)
Definition block_budget (pct : F64.t) (ps : ProgressiveStaking) : Z :=
  Z.min (F64.to_u64 (F64.add (accrued ps) (PerBlockEmission pct ps))) (EpochCap pct ps - epochMinted ps).

Lemma block_available_budget pct ps :
  fits pct ps -> 0 < EpochCap pct ps -> epochMinted ps <= EpochCap pct ps ->
  block_available (EpochCap pct ps) (epochMinted ps) (F64.add (accrued ps) (PerBlockEmission pct ps)) =
    block_budget pct ps /\ 0 <= block_budget pct ps.
Proof.
  intros (Hm & _ & Hs) Hc Hle. unfold block_budget. set (acc := F64.add _ _) in *.
  pose proof (u64_range (F64.trunc acc)) as Ha. fold (F64.to_u64 acc) in Ha.
  pose proof (EpochCap_range pct ps) as Hr. unfold block_available, is_u64 in *.
  rewrite (u64_small (epochMinted ps + F64.to_u64 acc)) by (unfold is_u64; lia).
  rewrite (proj2 (Z.ltb_lt _ _) Hc). cbn [andb].
  destruct (Z.leb_spec (EpochCap pct ps) (epochMinted ps)); [lia|].
  rewrite (u64_small (EpochCap pct ps - epochMinted ps)) by (unfold is_u64; lia).
  destruct (Z.eqb_spec (F64.to_u64 acc) 0); [lia|].
  destruct (Z.ltb_spec (EpochCap pct ps) (epochMinted ps + F64.to_u64 acc)); lia.
Qed.

Lemma total_annual_sum pct ps : fits pct ps -> total_annual (annual_rewards ps) = map_sum id (annual_rewards ps).
Proof.
  intros (_ & Hann & _). unfold total_annual. rewrite (u64_sum_loop snd).
  change (map snd) with (map (fun e : bytes * Z => id e.2)). rewrite map_sum_range. apply u64_small.
  split; [|done]. apply map_sum_nonneg. intros k v Hk. unfold annual_rewards in Hk.
  rewrite lookup_fmap in Hk. destruct (_ !! k); [|done]. injection Hk as <-. apply CalculateReward_range.
Qed.

(** Who gets what. *)
Lemma DistributeBlockReward_shares pct h ps dist ps' :
  fits pct ps -> 0 < EpochCap pct ps -> epochMinted ps <= EpochCap pct ps ->
  DistributeBlockReward pct h ps = (dist, ps') ->
  let total := map_sum id (annual_rewards ps) in
  forall k, default 0 (dist !! k) =
    match annual_rewards ps !! k with Some a => u64 (block_budget pct ps * a) / total | None => 0 end.
Proof.
  intros Hf Hc Hle Hd total k. destruct (block_available_budget pct ps Hf Hc Hle) as [Hb Hb0].
  revert Hd. unfold DistributeBlockReward. rewrite (total_annual_sum pct ps Hf), Hb. fold total.
  destruct (Z.eqb_spec total 0) as [E|E].
  { intros [= <- _]. rewrite lookup_empty, E. destruct (annual_rewards ps !! k); [by rewrite Z.div_0_r|done]. }
  destruct (Z.eqb_spec (block_budget pct ps) 0) as [E0|E0].
  { intros [= <- _]. rewrite lookup_empty, E0. by destruct (annual_rewards ps !! k). }
  pose proof (pay_loop_shares (block_budget pct ps) total (map_range (annual_rewards ps))
    (∅, ValidatorRewards ps, 0) (map_range_nodup _) (fun e _ => lookup_empty e.1) k) as Hs.
  rewrite list_to_map_range in Hs. cbn [fst] in Hs. rewrite lookup_empty in Hs.
  destruct (fold_left _ _ _) as [[d m] paid]. cbn [fst] in Hs.
  destruct (paid =? 0); intros [= <- _]; by rewrite Hs.
Qed.

(** The sum of what they get. *)
Lemma DistributeBlockReward_paid pct h ps dist ps' :
  fits pct ps -> 0 < EpochCap pct ps -> epochMinted ps <= EpochCap pct ps ->
  DistributeBlockReward pct h ps = (dist, ps') ->
  let total := map_sum id (annual_rewards ps) in
  map_sum id dist = map_sum (fun a => u64 (block_budget pct ps * a) / total) (annual_rewards ps).
Proof.
  intros Hf Hc Hle Hd total. pose proof (DistributeBlockReward_step _ _ _ _ _ Hf Hd) as _.
  destruct (block_available_budget pct ps Hf Hc Hle) as [Hb Hb0].
  rewrite <- (map_sum_range (fun a => u64 (block_budget pct ps * a) / total)).
  revert Hd. unfold DistributeBlockReward. rewrite (total_annual_sum pct ps Hf), Hb. fold total.
  assert (H0 : forall f : Z -> Z, (forall a, f a = 0) -> sumZ (map (fun e : bytes * Z => f e.2) (map_range (annual_rewards ps))) = 0).
  { intros f Hz. induction (map_range _) as [|e l IH]; [done|]. unfold sumZ in *. cbn. by rewrite IH, Hz. }
  destruct (Z.eqb_spec total 0) as [E|E].
  { intros [= <- _]. rewrite map_sum_empty, (H0 (fun a => u64 (block_budget pct ps * a) / total)); [done|].
    intros a. by rewrite E, Z.div_0_r. }
  destruct (Z.eqb_spec (block_budget pct ps) 0) as [E0|E0].
  { intros [= <- _]. rewrite map_sum_empty, (H0 (fun a => u64 (block_budget pct ps * a) / total)); [done|].
    intros a. by rewrite E0. }
  destruct (pay_loop (ValidatorRewards ps) (block_budget pct ps) total (map_range (annual_rewards ps))
              (∅, ValidatorRewards ps, 0)) as [_ Hs].
  { split; [|cbn; by rewrite map_sum_empty]. intros k. unfold credit. cbn. rewrite lookup_empty. by destruct (_ !! k). }
  { apply map_range_nodup. }
  { intros e _. apply lookup_empty. }
  destruct (fold_left _ _ _) as [[d m] paid]. cbn [fst snd] in Hs. rewrite map_sum_empty in Hs.
  destruct (paid =? 0); intros [= <- _]; rewrite Hs; reflexivity.
Qed.

(** The emission that is kept for later blocks. *)
Lemma DistributeBlockReward_accrued pct h ps dist ps' :
  fits pct ps -> DistributeBlockReward pct h ps = (dist, ps') ->
  let acc := F64.add (accrued ps) (PerBlockEmission pct ps) in
  CurrentBlock ps' = h /\
  accrued ps' = if map_sum id (annual_rewards ps) =? 0 then accrued ps
                else if map_sum id dist =? 0 then acc else F64.sub acc (F64.of_Z (map_sum id dist)).
Proof.
  intros Hf Hd. destruct (DistributeBlockReward_step _ _ _ _ _ Hf Hd) as (Hp & Hm & _).
  destruct Hf as (Hu & Hann & Hs). revert Hd Hm.
  unfold DistributeBlockReward. rewrite (total_annual_sum pct ps (conj Hu (conj Hann Hs))).
  destruct (map_sum id (annual_rewards ps) =? 0); [by intros [= <- <-]|].
  set (acc := F64.add _ _) in *. case_match; [intros [= <- <-]; by rewrite map_sum_empty|].
  destruct (pay_loop (ValidatorRewards ps) (block_available (EpochCap pct ps) (epochMinted ps) acc)
    (map_sum id (annual_rewards ps)) (map_range (annual_rewards ps)) (∅, ValidatorRewards ps, 0)) as [[_ Hq] _].
  { split; [|cbn; by rewrite map_sum_empty]. intros k. unfold credit. cbn. rewrite lookup_empty. by destruct (_ !! k). }
  { apply map_range_nodup. }
  { intros e _. apply lookup_empty. }
  destruct (fold_left _ _ _) as [[d m] paid]. cbn [fst snd] in Hq. unfold is_u64 in *.
  destruct (Z.eqb_spec paid 0) as [E|E]; intros [= <- <-]; cbn [accrued epochMinted CurrentBlock with_emission]; intros Hm.
  - split; [done|]. destruct (Z.eqb_spec (map_sum id d) 0); [done|lia].
  - assert (Hps : paid = map_sum id d).
    { pose proof (u64_range (map_sum id d)) as R1. unfold is_u64 in R1.
      assert (map_sum id d < 2 ^ 64) by (pose proof (u64_range (epochMinted ps + paid)) as R; unfold is_u64 in R; lia).
      rewrite Hq. apply u64_small. unfold is_u64. lia. }
    rewrite <- Hps. split; [done|]. by rewrite (proj2 (Z.eqb_neq _ _) E).
Qed.

(** The payouts against the budget. *)
Lemma paid_bounds pct h ps dist ps' :
  fits pct ps -> 0 < EpochCap pct ps -> epochMinted ps <= EpochCap pct ps ->
  DistributeBlockReward pct h ps = (dist, ps') ->
  let total := map_sum id (annual_rewards ps) in
  map_sum id dist <= block_budget pct ps /\
  (0 < total -> block_budget pct ps * total < 2 ^ 64 ->
   block_budget pct ps - Z.of_nat (size (annual_rewards ps)) < map_sum id dist).
Proof.
  intros Hf Hc Hle Hd. cbv zeta. destruct (block_available_budget pct ps Hf Hc Hle) as [_ Hb0].
  rewrite (DistributeBlockReward_paid _ _ _ _ _ Hf Hc Hle Hd), <- (map_sum_range (fun a => u64 (block_budget pct ps * a) / _)).
  set (l := map_range (annual_rewards ps)).
  assert (Ht : map_sum id (annual_rewards ps) = sumZ (map snd l))
    by (unfold l; change (map snd) with (map (fun e : bytes * Z => id e.2)); by rewrite map_sum_range).
  assert (Hn : size (annual_rewards ps) = length l) by (unfold l; by rewrite map_range_perm, length_map_to_list).
  pose proof (annual_rewards_nonneg ps) as Hnn. fold l in Hnn.
  change (map (fun e : bytes * Z => u64 (block_budget pct ps * e.2) / map_sum id (annual_rewards ps)) l)
    with (map (share (block_budget pct ps) (map_sum id (annual_rewards ps))) l).
  rewrite Ht, Hn. destruct Hf as (_ & Hann & _). rewrite Ht in Hann. split.
  - assert (Htot : fold_left (fun t e => u64 (t + e.2)) l 0 = sumZ (map snd l)).
    { rewrite (u64_sum_loop snd). apply u64_small. split; [|done]. apply sumZ_nonneg. by rewrite Forall_map. }
    destruct (decide (sumZ (map snd l) = 0)) as [E|E].
    + rewrite E. replace (sumZ (map (share (block_budget pct ps) 0) l)) with 0; [done|]. symmetry. clear.
      induction l as [|e l IH]; [done|]. unfold sumZ in *. cbn. rewrite IH. unfold share. by rewrite Z.div_0_r.
    + rewrite <- Htot. apply shares_le; [done|done|done|by rewrite Htot].
  - intros HT Hfit. by apply shares_ge.
Qed.

End Lemmas.

(** ** Lemmas: the stake ledger *)

Definition stake_ok (ps : ProgressiveStaking) : Prop :=
  TotalStaked ps = u64 (map_sum StakedAmount (ValidatorRewards ps)).

Lemma u64_replace a b c : u64 (u64 (u64 a - b) + c) = u64 (a - b + c).
Proof. u64_sum. Qed.

Lemma RegisterStake_ok id amount ps : stake_ok ps -> stake_ok (RegisterStake id amount ps).
Proof.
  unfold stake_ok, RegisterStake. intros ->.
  destruct (ValidatorRewards ps !! id) as [e|] eqn:E; cbn [TotalStaked ValidatorRewards with_stakes].
  - rewrite (map_sum_replace _ _ _ _ _ E). cbn. by rewrite u64_replace.
  - rewrite map_sum_insert by done. cbn. unfold u64. rewrite Zplus_mod_idemp_l. f_equal. lia.
Qed.

Lemma RemoveStake_ok id ps : stake_ok ps -> stake_ok (RemoveStake id ps).
Proof.
  unfold stake_ok, RemoveStake. intros Hs.
  destruct (ValidatorRewards ps !! id) as [e|] eqn:E; cbn [TotalStaked ValidatorRewards with_stakes]; [|done].
  rewrite Hs, (map_sum_delete _ _ _ _ E). unfold u64. rewrite Zminus_mod_idemp_l. f_equal. lia.
Qed.

Lemma ClaimReward_ok id ps : stake_ok ps -> stake_ok (ClaimReward id ps).2.
Proof.
  unfold stake_ok, ClaimReward. intros Hs.
  destruct (ValidatorRewards ps !! id) as [e|] eqn:E; cbn; [|done].
  rewrite (map_sum_replace _ _ _ _ _ E). cbn. rewrite Hs. f_equal. lia.
Qed.

(** Paying out leaves every stake alone, with or without wrap-around. *)
Lemma pay_one_stakes available total st e :
  StakedAmount <$> (pay_one available total st e).1.2 = StakedAmount <$> st.1.2.
Proof.
  destruct st as [[d m] p]. unfold pay_one. case_match; [done|]. cbn [fst snd].
  apply map_eq. intros k. rewrite !lookup_fmap. destruct (decide (e.1 = k)) as [<-|Hne].
  - rewrite lookup_alter_eq. by destruct (m !! e.1).
  - by rewrite lookup_alter_ne.
Qed.

Lemma pay_loop_stakes available total l st :
  StakedAmount <$> (fold_left (pay_one available total) l st).1.2 = StakedAmount <$> st.1.2.
Proof.
  revert st. induction l as [|e l IH]; intros st; [done|]. cbn [fold_left].
  by rewrite IH, pay_one_stakes.
Qed.

Lemma Distribute_ok `{MapRange} pct h ps : stake_ok ps -> stake_ok (DistributeBlockReward pct h ps).2.
Proof.
  unfold stake_ok, DistributeBlockReward. intros Hs.
  case_match; [done|]. case_match; [done|].
  pose proof (pay_loop_stakes
    (block_available (EpochCap pct ps) (epochMinted ps) (F64.add (accrued ps) (PerBlockEmission pct ps)))
    (total_annual (annual_rewards ps)) (map_range (annual_rewards ps))
    (∅, ValidatorRewards ps, 0)) as Hst.
  destruct (fold_left _ _ _) as [[d m] paid]. cbn [fst snd] in Hst.
  apply (f_equal (map_sum id)) in Hst. rewrite !map_sum_fmap in Hst.
  case_match; cbn; rewrite Hs; f_equal; symmetry; exact Hst.
Qed.

(** ** Runs *)

(** Everything that can happen to the manager. *)
Inductive ps_step `{MapRange} : ProgressiveStaking -> ProgressiveStaking -> Prop :=
| step_register id amount ps : ps_step ps (RegisterStake id amount ps)
| step_remove id ps : ps_step ps (RemoveStake id ps)
| step_claim id ps : ps_step ps (ClaimReward id ps).2
| step_rollover ps : ps_step ps (RolloverEpoch ps)
| step_distribute pct h ps : ps_step ps (DistributeBlockReward pct h ps).2.

Inductive ps_reachable `{MapRange} : ProgressiveStaking -> Prop :=
| ps_new pct bt el : ps_reachable (NewProgressiveStaking pct bt el).1
| ps_next ps ps' : ps_reachable ps -> ps_step ps ps' -> ps_reachable ps'.

(** [epoch_run pct n ps ps']: from [ps] to [ps'] within one epoch at inflation
    [pct], stakes changing freely, [n] tokens being distributed. *)
Inductive epoch_run `{MapRange} (pct : F64.t) (ps : ProgressiveStaking) : Z -> ProgressiveStaking -> Prop :=
| run_start : epoch_run pct ps 0 ps
| run_register n ps1 id amount :
    epoch_run pct ps n ps1 -> epoch_run pct ps n (RegisterStake id amount ps1)
| run_remove n ps1 id : epoch_run pct ps n ps1 -> epoch_run pct ps n (RemoveStake id ps1)
| run_claim n ps1 id : epoch_run pct ps n ps1 -> epoch_run pct ps n (ClaimReward id ps1).2
| run_block n ps1 h dist ps2 :
    epoch_run pct ps n ps1 -> fits pct ps1 ->
    DistributeBlockReward pct h ps1 = (dist, ps2) ->
    epoch_run pct ps (n + map_sum id dist) ps2.

Lemma epoch_run_counts `{MapRange} pct ps n ps' :
  epoch_run pct ps n ps' -> 0 < EpochCap pct ps -> epochMinted ps <= EpochCap pct ps ->
  EpochCap pct ps' = EpochCap pct ps /\ epochMinted ps' = epochMinted ps + n /\
  epochMinted ps' <= EpochCap pct ps.
Proof.
  intros Hr Hc Hm. induction Hr as [|n ps1 id amount _ IH|n ps1 id _ IH|n ps1 id _ IH
    |n ps1 h dist ps2 _ IH Hf Hd]; [split_and!; [done|lia|done]| | | |].
  - unfold RegisterStake. by destruct (ValidatorRewards ps1 !! id).
  - unfold RemoveStake. by destruct (ValidatorRewards ps1 !! id).
  - unfold ClaimReward. by destruct (ValidatorRewards ps1 !! id).
  - destruct IH as (H1 & H2 & H3).
    destruct (DistributeBlockReward_step _ _ _ _ _ Hf Hd) as (_ & G1 & G2 & _ & G3 & _).
    rewrite H1 in *. split_and!; [done|lia|auto].
Qed.

(** ** The brackets in exact arithmetic *)

(** Hundredths of a token owed per year, bracket by bracket. *)
Definition marginal_hundredths (s : Z) : Z :=
  15 * Z.min s 1001 + 8 * Z.min (Z.max 0 (s - 1001)) 9000 +
  4 * Z.min (Z.max 0 (s - 10001)) 90000 + 2 * Z.min (Z.max 0 (s - 100001)) 900000 +
  Z.max 0 (s - 1000001).

(** The same as a sum of capped amounts, which shows the concavity. *)
Lemma marginal_capped s : 0 <= s ->
  marginal_hundredths s =
    7 * Z.min s 1001 + 4 * Z.min s 10001 + 2 * Z.min s 100001 + Z.min s 1000001 + s.
Proof. intros. unfold marginal_hundredths. lia. Qed.

Lemma min_rate c s t : 0 <= c -> 0 < s <= t -> Z.min t c * s <= Z.min s c * t.
Proof.
  intros Hc Hst. destruct (Z.min_spec t c) as [[? ->]|[? ->]],
    (Z.min_spec s c) as [[? ->]|[? ->]]; nia.
Qed.

(** The anti-whale property of the brackets: the yield per token never grows
    with the stake. *)
Lemma marginal_rate_antitone s t :
  0 < s <= t -> marginal_hundredths t * s <= marginal_hundredths s * t.
Proof.
  intros Hst. rewrite !marginal_capped by lia.
  pose proof (min_rate 1001 s t). pose proof (min_rate 10001 s t).
  pose proof (min_rate 100001 s t). pose proof (min_rate 1000001 s t). lia.
Qed.

(** The stakes on which the binary64 computation has been compared with the
    exact one: everything up to 2,500 tokens and windows around the bracket
    boundaries. *)
Definition checked_stakes : list Z :=
  map Z.of_nat (seq 0 2500) ++ map (fun k => 9900 + Z.of_nat k) (seq 0 200) ++
  map (fun k => 99900 + Z.of_nat k) (seq 0 200) ++
  map (fun k => 999900 + Z.of_nat k) (seq 0 200).

Definition exact_reward (s : Z) : Z := if s <? 100 then 0 else marginal_hundredths s / 100.

Lemma checked_stakes_exact :
  forallb (fun s => CalculateReward s =? exact_reward s) checked_stakes = true.
Proof. vm_compute. reflexivity. Qed.

Lemma calldata_window :
  forallb (fun k => Bool.eqb (is_ok (CalldataToInflationPct (Z.of_nat k)))
                             ((300 <=? Z.of_nat k) && (Z.of_nat k <=? 900)))
    (seq 0 4096) = true.
Proof. vm_compute. reflexivity. Qed.

(** No stored rate compares below the minimum or above the maximum. *)
Lemma SetInflationPct_ltb pct :
  F64.ltb (SetInflationPct pct) MinAnnualInflationPct = false /\
  F64.ltb MaxAnnualInflationPct (SetInflationPct pct) = false.
Proof.
  unfold SetInflationPct.
  destruct (F64.ltb pct MinAnnualInflationPct) eqn:E1; [vm_compute; done|].
  destruct (F64.ltb MaxAnnualInflationPct pct) eqn:E2; [vm_compute; done|done].
Qed.

(** ** Properties *)

(** C28 (emission).  One block of rewards, in an epoch with a positive cap that is
    not overdrawn, whatever the order in which the map is visited.  The budget is the
    whole tokens accrued, within what is left of the epoch.  Each validator gets the
    budget times its annual reward over the sum of the annual rewards, rounded down
    after a 64-bit product, and nobody else gets anything; so the payouts stay within
    the budget, and lose less than one token per validator to rounding when the
    products fit.  Every validator is credited with its payout, the epoch counter
    grows by their sum, and the accrued emission shrinks by it.  The stakes do not
    move.  The counters are assumed not to wrap. *)
Theorem block_reward_conserved `{MapRange} pct h ps dist ps' :
  fits pct ps -> 0 < EpochCap pct ps -> epochMinted ps <= EpochCap pct ps ->
  DistributeBlockReward pct h ps = (dist, ps') ->
  let total := map_sum id (annual_rewards ps) in
  let budget := block_budget pct ps in
  let paid := map_sum id dist in
  (forall k, default 0 (dist !! k) =
     match annual_rewards ps !! k with Some a => u64 (budget * a) / total | None => 0 end) /\
  0 <= paid <= budget /\
  (0 < total -> budget * total < 2 ^ 64 -> budget - Z.of_nat (size (annual_rewards ps)) < paid) /\
  (forall k, ValidatorRewards ps' !! k = credit dist k <$> ValidatorRewards ps !! k) /\
  epochMinted ps' = epochMinted ps + paid /\
  accrued ps' = (if total =? 0 then accrued ps else
                 let acc := F64.add (accrued ps) (PerBlockEmission pct ps) in
                 if paid =? 0 then acc else F64.sub acc (F64.of_Z paid)) /\
  TotalStaked ps' = TotalStaked ps /\ CurrentBlock ps' = h.
Proof.
  intros Hf Hc Hle Hd total budget paid.
  destruct (DistributeBlockReward_step _ _ _ _ _ Hf Hd) as (H0 & H1 & _ & H3 & _ & H4).
  destruct (DistributeBlockReward_accrued _ _ _ _ _ Hf Hd) as [H5 H6].
  pose proof (DistributeBlockReward_shares _ _ _ _ _ Hf Hc Hle Hd) as Hs. cbv zeta in Hs.
  destruct (paid_bounds pct h ps dist ps' Hf Hc Hle Hd) as [Hup Hlow].
  by split_and!.
Qed.

(** C18 (epoch cap).  Over any interleaving of blocks, registrations, removals
    and claims from a rollover, where the epoch counter is zero, to the next, the
    tokens distributed never exceed the epoch cap.  The cap must be positive (a cap
    that rounds to zero is read as no cap), and the 64-bit counters must not wrap in
    any of the blocks ([fits], a premise of [run_block]). *)
Theorem epoch_emission_capped `{MapRange} pct ps n ps' :
  0 < EpochCap pct ps -> epochMinted ps = 0 -> epoch_run pct ps n ps' ->
  n <= EpochCap pct ps.
Proof.
  intros Hc H0 Hr. destruct (epoch_run_counts _ _ _ _ Hr Hc) as (_ & H1 & H2); lia.
Qed.

(** Stake ledger.  In every reachable state the cached total is the sum of
    the registered stakes modulo 2^64. *)
Theorem reachable_stake_ok `{MapRange} ps : ps_reachable ps -> stake_ok ps.
Proof.
  induction 1 as [pct bt el|ps ps' _ IH Hs]; [done|].
  destruct Hs; auto using RegisterStake_ok, RemoveStake_ok, ClaimReward_ok, Distribute_ok.
Qed.

(** Marginal brackets.  On every checked stake the binary64 loop returns
    the floor of the exact marginal sum, and below the minimum stake nothing. *)
Theorem CalculateReward_exact s :
  s ∈ checked_stakes -> CalculateReward s = exact_reward s.
Proof.
  intros Hs. pose proof checked_stakes_exact as H. rewrite forallb_forall in H.
  apply Z.eqb_eq, H. by apply list_elem_of_In.
Qed.

(** Inflation bounds.  Whatever number is passed, infinities included, the
    stored rate lies in the 3-9 window, and a rate inside the window is stored
    as it is. *)
Theorem SetInflationPct_bounds pct :
  pct <> S754_nan ->
  F64.leb MinAnnualInflationPct (SetInflationPct pct) = true /\
  F64.leb (SetInflationPct pct) MaxAnnualInflationPct = true /\
  (F64.leb MinAnnualInflationPct pct = true -> F64.leb pct MaxAnnualInflationPct = true ->
   SetInflationPct pct = pct).
Proof.
  intros Hn. unfold SetInflationPct.
  destruct (F64.ltb pct MinAnnualInflationPct) eqn:E1.
  { replace (F64.ltb MaxAnnualInflationPct MinAnnualInflationPct) with false by (by vm_compute).
    split_and!; [by vm_compute|by vm_compute|].
    intros H _. apply F64.ltb_leb_false in E1. congruence. }
  destruct (F64.ltb MaxAnnualInflationPct pct) eqn:E2.
  { split_and!; [by vm_compute|by vm_compute|].
    intros _ H. apply F64.ltb_leb_false in E2. congruence. }
  split_and!; [by apply F64.ltb_false_leb|by apply F64.ltb_false_leb|done].
Qed.

(** ** What the code does that its comments do not say *)

(** "15% on first 1,000 + 8% on next 9,000": the first bracket holds 1,001
    tokens, so 1,012 tokens earn 151 a year and not 150. *)
Lemma first_bracket_is_1001 :
  CalculateReward 1012 = 151 /\ (15 * 1000 + 8 * 12) / 100 = 150.
Proof. vm_compute. done. Qed.

(** "An epoch cap guarantees the annual cap holds": with one-block epochs the
    cap rounds down to zero, which the code reads as no cap. *)
Lemma one_block_epochs_uncapped :
  EpochCap (F64.of_Z 7) (NewProgressiveStaking (F64.of_Z 7) (F64.of_Z 3) 1).1 = 0.
Proof. vm_compute. reflexivity. Qed.

(** ** Witnesses *)

Definition demo_staking : ProgressiveStaking :=
  RegisterStake (NewValidatorID 2) 50000 (RegisterStake (NewValidatorID 1) 1000
    (NewProgressiveStaking (F64.of_Z 7) (F64.of_Z 3) 10000).1).
(** The same two validators on a chain with ten-minute blocks: a block pays both. *)
Definition demo_slow : ProgressiveStaking :=
  RegisterStake (NewValidatorID 2) 50000 (RegisterStake (NewValidatorID 1) 1000
    (NewProgressiveStaking (F64.of_Z 7) (F64.of_Z 600) 10000).1).
Definition demo_slow_1 := DistributeBlockReward (F64.of_Z 7) 1 demo_slow.
Definition demo_slow_2 := DistributeBlockReward (F64.of_Z 7) 2 demo_slow_1.2.

Lemma fits_demo_slow : fits (F64.of_Z 7) demo_slow.
Proof. split_and!; vm_compute; first [reflexivity | split; [discriminate|reflexivity]]. Qed.

Lemma fits_demo_slow_1 : fits (F64.of_Z 7) demo_slow_1.2.
Proof. split_and!; vm_compute; first [reflexivity | split; [discriminate|reflexivity]]. Qed.

(** The second block: a budget of 134, paid as 7 and 126; one token is lost to
    rounding. *)
Lemma block_reward_conserved_witness :
  default 0 (demo_slow_2.1 !! NewValidatorID 1) = 7 /\
  default 0 (demo_slow_2.1 !! NewValidatorID 2) = 126 /\
  map_sum id demo_slow_2.1 <= 134 /\
  epochMinted demo_slow_2.2 = epochMinted demo_slow_1.2 + map_sum id demo_slow_2.1.
Proof.
  destruct (block_reward_conserved (F64.of_Z 7) 2 demo_slow_1.2 demo_slow_2.1 demo_slow_2.2)
    as (Hs & [_ Hb] & _ & _ & Hm & _).
  - exact fits_demo_slow_1.
  - vm_compute. reflexivity.
  - vm_compute. discriminate.
  - by destruct demo_slow_2 eqn:E.
  - split_and!; [rewrite Hs; vm_compute; reflexivity..| |exact Hm].
    etransitivity; [exact Hb|]. vm_compute. discriminate.
Defined.

(** Two blocks, which pay 132 and 133 tokens of the epoch's 1,331,811. *)
Lemma epoch_emission_capped_witness :
  0 < map_sum id demo_slow_1.1 /\ 0 < map_sum id demo_slow_2.1 /\
  map_sum id demo_slow_1.1 + map_sum id demo_slow_2.1 <= EpochCap (F64.of_Z 7) demo_slow.
Proof.
  split_and!; [vm_compute; reflexivity..|].
  apply (epoch_emission_capped (F64.of_Z 7) demo_slow _ demo_slow_2.2); [vm_compute; reflexivity..|].
  apply (run_block _ _ _ demo_slow_1.2 2); [|exact fits_demo_slow_1|by destruct demo_slow_2 eqn:E].
  apply (run_block _ _ 0 demo_slow 1 demo_slow_1.1); [constructor|exact fits_demo_slow|].
  by destruct demo_slow_1 eqn:E.
Defined.

Lemma reachable_stake_ok_witness :
  TotalStaked demo_staking = u64 (map_sum StakedAmount (ValidatorRewards demo_staking)).
Proof.
  apply (reachable_stake_ok demo_staking).
  eapply ps_next; [eapply ps_next; [apply ps_new|]|]; apply step_register.
Defined.

Lemma CalculateReward_exact_witness : CalculateReward 10001 = 870.
Proof.
  rewrite (CalculateReward_exact 10001); [vm_compute; reflexivity|].
  apply (bool_decide_unpack (10001 ∈ checked_stakes)). vm_compute. exact I.
Defined.

Lemma SetInflationPct_bounds_witness :
  F64.leb (SetInflationPct (F64.of_Z 40)) MaxAnnualInflationPct = true.
Proof. apply (SetInflationPct_bounds (F64.of_Z 40)). vm_compute. discriminate. Defined.
