(* ===== verification/Econo.v ===== *)
(** The economic health engine (evm/econo_loop.go) and the live WAY supply that
    backs it (the Quest helpers of evm/task_registry.go): rolling-window
    accumulators, the phase computation, and the policy loop with its treasury
    burn. *)

From Stdlib Require Import ZArith Lia.
From S2P Require Import Prelude Sha256 GoFloat Collections StateDB.
From stdpp Require Import gmap list.
Local Open Scope Z_scope.
Local Open Scope go_scope.

(** ** The live supply (account 0x23, slot 0x41) *)

Definition addr23 : bytes := PrecompileAddrHex 35.
Definition treasury_addr : bytes := PrecompileAddrHex 3.

Definition QUEST_SUPPLY_PCT : Z := 5.
Definition waySupplySlot : Z := 65.
Definition WAYStartingSupply : Z := 100000000.
Definition supply_key : bytes := storageKey [waySupplySlot].

Definition supply_of (w : World) : Z := readBigInt (slot w addr23 supply_key).

Definition QuestTotalSupply : HM Z := touch addr23 ;;; gets supply_of.

(** [FillBytes] panics above 256 bits. *)
Definition QuestAddSupply (amount : Z) : HM unit :=
  if amount <=? 0 then mret tt else
  let* cur := QuestTotalSupply in
  let* s := must (fill_bytes 32 (cur + amount)) in
  sstore addr23 supply_key s.

Definition cap_of (w : World) : Z := supply_of w * QUEST_SUPPLY_PCT / 100.
Definition QuestCap : HM Z :=
  let* supply := QuestTotalSupply in mret (supply * QUEST_SUPPLY_PCT / 100).

(** ** Constants *)

Definition EconoWindowBlocks : Z := 10000.
Definition EconoGBPExpansionThreshold : Z := 100000.
Definition EconoVelocityExpansionThreshold : Z := 100.
Definition EconoMRTPayWeight : Z := 1000.
Definition EconoMRTExpansionClaims : Z := 10.
Definition EconoMaxBurnBps : Z := 500.
Definition EconoMaxGrantBps : Z := 500.
Definition EconoExpansionBurnBps : Z := 50.
Definition EconoConsolidationGrantBps : Z := 200.

(** ** Accrual *)

(** The reset that opens every accrual; the subtraction is unsigned. *)
Definition roll_window (blockNum : Z) (e : EconoSnapshot) : EconoSnapshot :=
  if EconoWindowBlocks <=? u64 (blockNum - WindowStart e) then econo_fresh blockNum else e.

Definition add64 (a b : Z) : Z := u64 (a + b).

Definition accrue_payout (amount : Z) (isPro : bool) (e : EconoSnapshot) : EconoSnapshot :=
  if isPro then
    mkEcono (add64 (GBP e) amount) (add64 (Tasks e) 1) (add64 (ProPaid e) amount)
      (add64 (ProTasks e) 1) (MicroPaid e) (MicroTasks e) (MRTPaid e) (MRTClaims e)
      (RentPaid e) (StorageStaked e) (WindowStart e) (Phase e)
  else
    mkEcono (add64 (GBP e) amount) (add64 (Tasks e) 1) (ProPaid e) (ProTasks e)
      (add64 (MicroPaid e) amount) (add64 (MicroTasks e) 1) (MRTPaid e) (MRTClaims e)
      (RentPaid e) (StorageStaked e) (WindowStart e) (Phase e).

Definition accrue_mrt (tokenSupply : Z) (e : EconoSnapshot) : EconoSnapshot :=
  let weighted := u64 (tokenSupply * EconoMRTPayWeight) in
  mkEcono (GBP e) (add64 (Tasks e) 1) (add64 (ProPaid e) weighted) (add64 (ProTasks e) 1)
    (MicroPaid e) (MicroTasks e) (add64 (MRTPaid e) weighted) (add64 (MRTClaims e) 1)
    (RentPaid e) (StorageStaked e) (WindowStart e) (Phase e).

Definition accrue_rent (amount : Z) (e : EconoSnapshot) : EconoSnapshot :=
  mkEcono (GBP e) (add64 (Tasks e) 1) (ProPaid e) (ProTasks e) (MicroPaid e) (MicroTasks e)
    (MRTPaid e) (MRTClaims e) (add64 (RentPaid e) amount) (StorageStaked e)
    (WindowStart e) (Phase e).

Definition accrue_storage (amount : Z) (e : EconoSnapshot) : EconoSnapshot :=
  mkEcono (GBP e) (add64 (Tasks e) 1) (ProPaid e) (ProTasks e) (MicroPaid e) (MicroTasks e)
    (MRTPaid e) (MRTClaims e) (RentPaid e) (add64 (StorageStaked e) amount)
    (WindowStart e) (Phase e).

Definition on_econo (f : EconoSnapshot -> EconoSnapshot) (w : World) : World :=
  with_econo (f (econo w)) w.

Definition EconoAccruePayout (amount : Z) (isPro : bool) (blockNum : Z) : World -> World :=
  on_econo (fun e => accrue_payout amount isPro (roll_window blockNum e)).
Definition EconoAccrueMRT (tokenSupply blockNum : Z) : World -> World :=
  on_econo (fun e => accrue_mrt tokenSupply (roll_window blockNum e)).
Definition EconoAccrueRent (amount blockNum : Z) : World -> World :=
  on_econo (fun e => accrue_rent amount (roll_window blockNum e)).
Definition EconoAccrueStorage (amount blockNum : Z) : World -> World :=
  on_econo (fun e => accrue_storage amount (roll_window blockNum e)).

(** ** Indicators and phase *)

Definition EconoGBPEquiv (e : EconoSnapshot) : Z :=
  add64 (add64 (add64 (GBP e) (RentPaid e)) (MRTPaid e)) (StorageStaked e).

(** The divisor is the low 64 bits of the supply: a multiple of 2^64 panics. *)
Definition EconoVelocityBps : HM Z :=
  let* supply := QuestTotalSupply in
  if supply =? 0 then mret 0 else
  let* tasks := gets (fun w => Tasks (econo w)) in
  if big_u64 supply =? 0 then panic
  else mret (u64 (tasks * 10000) / big_u64 supply).

Definition ComputeEconoPhase : HM Z :=
  let* e := gets econo in
  let* v := EconoVelocityBps in
  let highOutput := EconoGBPExpansionThreshold <=? EconoGBPEquiv e in
  let highVelocity := EconoVelocityExpansionThreshold <=? v in
  let mrtSurge := EconoMRTExpansionClaims <=? MRTClaims e in
  mret (if (highOutput && highVelocity) || mrtSurge then 1 else 0).

Definition with_phase_of (p : Z) (e : EconoSnapshot) : EconoSnapshot :=
  mkEcono (GBP e) (Tasks e) (ProPaid e) (ProTasks e) (MicroPaid e) (MicroTasks e)
    (MRTPaid e) (MRTClaims e) (RentPaid e) (StorageStaked e) (WindowStart e) p.

Definition AccrueEcono : HM unit :=
  let* p := ComputeEconoPhase in modify (on_econo (with_phase_of p)).

(** [EconoEmploymentBps]: [claimant_key] is the verified-task slot. *)
Definition claimant_key (addr : bytes) : bytes := storageKey (16 :: addr).
Definition slot_byte31 (acc : Account) (k : bytes) : Z :=
  byte_at (default zero32 (Storage acc !! k)) 31.

Definition EconoEmploymentBps (w : World) : Z :=
  let l := map_to_list (accounts w) in
  let total := Z.of_nat (length (List.filter
    (fun e : bytes * Account => (0 <? Balance e.2) || negb (bool_decide (Code e.2 = []))) l)) in
  let active := Z.of_nat (length (List.filter
    (fun e : bytes * Account => slot_byte31 e.2 (claimant_key e.1) =? 2) l)) in
  if total =? 0 then 0 else u64 (active * 10000) / total.

Definition EconoYieldSpreadBps (e : EconoSnapshot) : Z :=
  let microAvg := if 0 <? MicroTasks e then MicroPaid e / MicroTasks e else 0 in
  let proAvg := if 0 <? ProTasks e then ProPaid e / ProTasks e else 0 in
  if microAvg =? 0 then 0 else u64 (proAvg * 10000) / microAvg.

(** ** Policy *)

Definition clamp_bps (bps mx : Z) : Z := if mx <? bps then mx else bps.

Definition burnTreasuryShare (bps : Z) (w : World) : World :=
  let bps := clamp_bps bps EconoMaxBurnBps in
  if bps =? 0 then w else
  let w := GetOrCreateAccount treasury_addr w in
  let b := bal w treasury_addr in
  if b =? 0 then w else
  let burn := b * bps / 10000 in
  if burn =? 0 then w else
  AddLog addr23 [Sha256.sum256 (lit "EconoBurn")] (big_bytes burn) 0
    (set_bal treasury_addr (b - burn) w).

Definition grantStimulus (bps : Z) (w : World) : World :=
  AddLog addr23 [Sha256.sum256 (lit "EconoStimulus")]
    (big_bytes (clamp_bps bps EconoMaxGrantBps)) 0 w.

Definition ApplyEconoPolicy (w : World) : World :=
  if Phase (econo w) =? 1
  then burnTreasuryShare EconoExpansionBurnBps
         (with_policy (mkPolicy 1 EconoExpansionBurnBps 0) w)
  else grantStimulus EconoConsolidationGrantBps
         (with_policy (mkPolicy 0 0 EconoConsolidationGrantBps) w).

Definition phaseName (p : Z) : bytes :=
  if p =? 1 then lit "Expansion" else lit "Consolidation".

Definition EconoTaskPaidTopic : bytes := Sha256.sum256 (lit "TaskPaid").
Definition sha256SumBytes (b : bytes) : bytes := Sha256.sum256 b.

(** A task identifier up to its first zero byte. *)
Fixpoint until_zero (b : bytes) : bytes :=
  match b with
  | [] => []
  | x :: b => if x =? 0 then [] else x :: until_zero b
  end.

Definition proTaskSet : list bytes := map lit
  ["badge-curate"; "oracle-feed"; "account-recovery"; "privacy-proof"; "xchain-attest";
   "template-deploy"; "validator-72h"; "mrt-claim"; "dms-setup"]%string.
Definition isProTask (taskId : bytes) : bool :=
  existsb (fun t => bool_decide (t = until_zero taskId)) proTaskSet.

(** ** Window accounting *)

(** An accrual: what happened and at which block it is reported. *)
Inductive accrual :=
| Payout (amount : Z) (isPro : bool)
| MRTClaim (tokenSupply : Z)
| Rent (amount : Z)
| StorageStake (amount : Z).

Definition accrue (a : accrual) (blockNum : Z) : World -> World :=
  match a with
  | Payout amount isPro => EconoAccruePayout amount isPro blockNum
  | MRTClaim t => EconoAccrueMRT t blockNum
  | Rent amount => EconoAccrueRent amount blockNum
  | StorageStake amount => EconoAccrueStorage amount blockNum
  end.

(** Contribution to the GBP-equivalent output. *)
Definition output_of (a : accrual) : Z :=
  match a with
  | Payout amount _ => amount
  | MRTClaim t => t * EconoMRTPayWeight
  | Rent amount => amount
  | StorageStake amount => amount
  end.

Definition accrue_all (l : list (accrual * Z)) (w : World) : World :=
  fold_left (fun w e => accrue e.1 e.2 w) l w.

Definition in_window (start : Z) (e : accrual * Z) : Prop :=
  start <= e.2 < start + EconoWindowBlocks.

Lemma roll_window_inside b e :
  WindowStart e <= b < WindowStart e + EconoWindowBlocks -> roll_window b e = e.
Proof.
  intros Hb. unfold roll_window, EconoWindowBlocks in *.
  rewrite u64_small by (unfold is_u64; lia).
  destruct (Z.leb_spec 10000 (b - WindowStart e)); [lia|done].
Qed.

(** What a report adds to each total, apart from the code's accumulators. *)
Definition payout_part (a : accrual) : Z := match a with Payout amount _ => amount | _ => 0 end.
Definition pro_part (a : accrual) : Z :=
  match a with Payout amount true => amount | MRTClaim t => t * EconoMRTPayWeight | _ => 0 end.
Definition micro_part (a : accrual) : Z := match a with Payout amount false => amount | _ => 0 end.
Definition mrt_part (a : accrual) : Z := match a with MRTClaim t => t * EconoMRTPayWeight | _ => 0 end.
Definition rent_part (a : accrual) : Z := match a with Rent amount => amount | _ => 0 end.
Definition storage_part (a : accrual) : Z := match a with StorageStake amount => amount | _ => 0 end.
Definition is_pro (a : accrual) : bool := match a with Payout _ true | MRTClaim _ => true | _ => false end.
Definition is_micro (a : accrual) : bool := match a with Payout _ false => true | _ => false end.
Definition is_mrt (a : accrual) : bool := match a with MRTClaim _ => true | _ => false end.

Definition sum_of (f : accrual -> Z) (l : list (accrual * Z)) : Z := sumZ (map (fun e => f e.1) l).
Definition count_of (p : accrual -> bool) (l : list (accrual * Z)) : Z :=
  sumZ (map (fun e => if p e.1 : bool then 1 else 0) l).

(** The snapshot that a list of reports should leave, from scratch. *)
Definition window_totals (start : Z) (l : list (accrual * Z)) : EconoSnapshot :=
  mkEcono (u64 (sum_of payout_part l)) (u64 (count_of (fun _ => true) l))
    (u64 (sum_of pro_part l)) (u64 (count_of is_pro l))
    (u64 (sum_of micro_part l)) (u64 (count_of is_micro l))
    (u64 (sum_of mrt_part l)) (u64 (count_of is_mrt l))
    (u64 (sum_of rent_part l)) (u64 (sum_of storage_part l)) start 0.

Lemma sum_of_snoc f l a b : sum_of f (l ++ [(a, b)]) = sum_of f l + f a.
Proof. unfold sum_of. rewrite map_app, sumZ_app. cbn. lia. Qed.
Lemma count_of_snoc p l a b : count_of p (l ++ [(a, b)]) = count_of p l + if p a : bool then 1 else 0.
Proof. unfold count_of. rewrite map_app, sumZ_app. cbn. lia. Qed.

Lemma u64_keep z : u64 z = u64 (z + 0).
Proof. by rewrite Z.add_0_r. Qed.
Lemma u64_plus z x : add64 (u64 z) x = u64 (z + x).
Proof. apply u64_add_l. Qed.
Lemma u64_plus_u z x : add64 (u64 z) (u64 x) = u64 (z + x).
Proof. unfold add64. u64_sum. Qed.

(** One report inside the window moves the snapshot as it moves the totals. *)
Lemma accrue_totals start l a b w :
  econo w = window_totals start l -> in_window start (a, b) ->
  accrue a b w = with_econo (window_totals start (l ++ [(a, b)])) w.
Proof.
  intros He Hb. assert (Hr : roll_window b (econo w) = window_totals start l).
  { rewrite He. by apply roll_window_inside. }
  unfold window_totals at 1. rewrite !sum_of_snoc, !count_of_snoc.
  destruct a as [amount []|t|amount|amount]; cbn [accrue];
    unfold EconoAccruePayout, EconoAccrueMRT, EconoAccrueRent, EconoAccrueStorage, on_econo; rewrite Hr;
    f_equal; unfold accrue_payout, accrue_mrt, accrue_rent, accrue_storage; cbv zeta;
    cbn [window_totals GBP Tasks ProPaid ProTasks
      MicroPaid MicroTasks MRTPaid MRTClaims RentPaid StorageStaked WindowStart Phase
      payout_part pro_part micro_part mrt_part rent_part storage_part is_pro is_micro is_mrt];
    rewrite ?u64_plus_u, ?u64_plus, ?Z.add_0_r; reflexivity.
Qed.

Lemma accrue_all_totals start l0 l w :
  econo w = window_totals start l0 -> Forall (in_window start) l ->
  accrue_all l w = with_econo (window_totals start (l0 ++ l)) w.
Proof.
  revert l0 w. induction l as [|[a b] l IH]; intros l0 w He Hl.
  { rewrite app_nil_r, <- He. by destruct w. }
  apply Forall_cons in Hl as [Hh Ht]. unfold accrue_all. cbn [fold_left fst snd].
  rewrite (accrue_totals start l0 a b w He Hh). rewrite (cons_middle (a, b) l0 l), app_assoc.
  exact (IH (l0 ++ [(a, b)]) (with_econo (window_totals start (l0 ++ [(a, b)])) w) eq_refl Ht).
Qed.

Lemma output_parts l :
  sum_of output_of l = sum_of payout_part l + sum_of rent_part l + sum_of mrt_part l + sum_of storage_part l.
Proof.
  induction l as [|[a b] l IH]; [done|]. unfold sum_of, sumZ in *. cbn [map foldr fst] in *. rewrite IH.
  destruct a as [? []| | |]; cbn [output_of payout_part rent_part mrt_part storage_part]; lia.
Qed.

(** ** Properties *)

(** C29 (window accounting).  However payouts, mineral claims, rents and stakes
    interleave inside one window, each of the ten accumulators is the sum, or the
    number, of the reports of its kind modulo 2^64: a payout counts as professional
    or micro work by its flag, a claim counts by its weight as professional work too,
    and rents and stakes have sums of their own.  The window and the phase stay,
    nothing else of the state changes, and the GBP-equivalent is the output of all
    reports. *)
Theorem window_accounts start l w :
  econo w = econo_fresh start -> Forall (in_window start) l ->
  accrue_all l w = with_econo (window_totals start l) w /\
  EconoGBPEquiv (econo (accrue_all l w)) = u64 (sum_of output_of l).
Proof.
  intros He Hl. rewrite (accrue_all_totals start [] l w He Hl). split; [done|].
  rewrite output_parts. cbn [app econo with_econo EconoGBPEquiv]. unfold EconoGBPEquiv, add64, window_totals.
  cbn [GBP RentPaid MRTPaid StorageStaked]. u64_sum.
Qed.

(** Policy step.  The policy loop only ever burns: in expansion the treasury
    loses exactly half a percent rounded down and stays non-negative, in
    consolidation no balance moves, and in both no other balance and no storage
    changes and the published rates stay under their caps. *)
Theorem ApplyEconoPolicy_spec w :
  0 <= bal w treasury_addr ->
  let w' := ApplyEconoPolicy w in
  bal w' treasury_addr =
    bal w treasury_addr -
    (if Phase (econo w) =? 1 then bal w treasury_addr * 50 / 10000 else 0) /\
  0 <= bal w' treasury_addr /\
  (forall a, a <> treasury_addr -> bal w' a = bal w a) /\
  (forall a k, slot w' a k = slot w a k) /\
  BurnBps (policy w') <= EconoMaxBurnBps /\ GrantBps (policy w') <= EconoMaxGrantBps.
Proof.
  intros Hb w'. subst w'. unfold ApplyEconoPolicy.
  destruct (Z.eqb_spec (Phase (econo w)) 1) as [E|E].
  2: { unfold grantStimulus. world_simpl. split_and!; try done; try lia; world_simpl; lia. }
  unfold burnTreasuryShare.
  change (clamp_bps EconoExpansionBurnBps EconoMaxBurnBps) with 50.
  change (50 =? 0) with false. cbv iota.
  set (w1 := with_policy _ w).
  assert (Hbal : forall a, bal (GetOrCreateAccount treasury_addr w1) a = bal w a)
    by (intros; unfold w1; world_simpl; done).
  assert (Hpol : policy (GetOrCreateAccount treasury_addr w1) = mkPolicy 1 50 0).
  { unfold GetOrCreateAccount. by destruct (accounts w1 !! treasury_addr). }
  rewrite Hbal.
  destruct (Z.eqb_spec (bal w treasury_addr) 0) as [H0|H0].
  { rewrite H0, Hpol, Hbal, H0. split_and!; try done; try lia.
    intros a k. unfold w1. by world_simpl. }
  destruct (Z.eqb_spec (bal w treasury_addr * 50 / 10000) 0) as [H1|H1].
  { rewrite Hpol, Hbal, H1. split_and!; try done; try lia.
    intros a k. unfold w1. by world_simpl. }
  assert (Hpol2 : forall w2 a z t d, policy (AddLog addr23 t d 0 (set_bal a z w2)) = policy w2) by done.
  rewrite Hpol2, Hpol. world_simpl. rewrite !bal_set_bal, decide_True by done.
  split_and!; try done.
  - pose proof (Z.div_le_upper_bound (bal w treasury_addr * 50) 10000 (bal w treasury_addr)). lia.
  - intros a Ha. world_simpl. rewrite bal_set_bal, decide_False by congruence. apply Hbal.
  - intros a k. world_simpl. unfold w1. by world_simpl.
Qed.

(** ** What the code does that its comments do not say *)

(** "Reset the window if we've crossed into a new epoch": the subtraction is
    unsigned and a task payout is always reported at block 0, so the first
    payout after a window opened at a positive block discards the window. *)
Lemma payout_discards_window w :
  1 <= WindowStart (econo w) < 2 ^ 63 ->
  WindowStart (econo (EconoAccruePayout 10 false 0 w)) = 0 /\
  Tasks (econo (EconoAccruePayout 10 false 0 w)) = 1.
Proof.
  intros Hw. unfold EconoAccruePayout, on_econo, roll_window, EconoWindowBlocks.
  replace (u64 (0 - WindowStart (econo w))) with (2 ^ 64 - WindowStart (econo w)).
  - destruct (Z.leb_spec 10000 (2 ^ 64 - WindowStart (econo w))); [done|lia].
  - unfold u64. apply (Z.mod_unique_pos _ _ (-1)); lia.
Qed.

(** ** Witnesses *)

Definition demo_world : World :=
  set_bal treasury_addr 1000000 (with_econo (with_phase_of 1 (econo_fresh 20000)) NewStateDB).

Definition demo_reports : list (accrual * Z) :=
  [(Payout 40 true, 20001); (Rent 7, 20000); (MRTClaim 2, 29999); (Payout 5 false, 20100); (StorageStake 9, 25000)].
Lemma window_accounts_witness :
  econo (accrue_all demo_reports (with_econo (econo_fresh 20000) NewStateDB)) =
    mkEcono 45 5 2040 2 5 1 2000 1 7 9 20000 0 /\
  EconoGBPEquiv (econo (accrue_all demo_reports (with_econo (econo_fresh 20000) NewStateDB))) = 2061.
Proof.
  destruct (window_accounts 20000 demo_reports (with_econo (econo_fresh 20000) NewStateDB)) as [H G].
  - reflexivity.
  - repeat constructor; unfold in_window, EconoWindowBlocks; simpl; lia.
  - rewrite G. split; [rewrite H|]; vm_compute; reflexivity.
Defined.

Lemma ApplyEconoPolicy_spec_witness :
  bal (ApplyEconoPolicy demo_world) treasury_addr = 995000.
Proof.
  destruct (ApplyEconoPolicy_spec demo_world) as [H _].
  - vm_compute. discriminate.
  - rewrite H. vm_compute. reflexivity.
Defined.
