(* ===== verification/TaskRegistry.v ===== *)
(** The task registry (precompile 0x23, evm/task_registry.go): quest claims,
    verified payouts under the live five-percent cap, the autopilot oracle,
    bounties and community tasks with escrow. *)

From Stdlib Require Import ZArith Lia.
From S2P Require Import Prelude Sha256 GoFloat Collections StateDB Econo.
From stdpp Require Import gmap list.
Local Open Scope Z_scope.
Local Open Scope go_scope.

(** ** Rewards and eligibility *)

Definition rewards : list (bytes * Z) := map (fun e => (lit e.1, e.2))
  [("wallet-setup", 100); ("first-transfer", 10); ("faucet-claim", 10); ("receive-way", 10);
   ("governance-vote", 25); ("doxdev-badge", 100); ("badge-curate", 200); ("gov-propose", 25);
   ("1way-mint", 300); ("1way-burn", 150); ("2way-open", 25); ("first-swap", 10);
   ("add-liquidity", 10); ("stability-deposit", 50); ("btc-bridge", 25); ("sway-stake", 50);
   ("wifr-bridge", 50); ("bijo-journal", 100); ("lock-time", 25); ("lock-vesting", 50);
   ("mrt-claim", 150); ("dms-setup", 150); ("oracle-feed", 150); ("account-recovery", 50);
   ("privacy-proof", 100); ("staterent-pay", 50); ("xchain-attest", 100);
   ("template-deploy", 100); ("validator-72h", 100)]%string.

Definition assoc (k : bytes) (l : list (bytes * Z)) : option Z :=
  match List.find (fun e => bool_decide (e.1 = k)) l with Some e => Some e.2 | None => None end.

Definition taskRewardAmount (taskId : bytes) : Z := default 0 (assoc (until_zero taskId) rewards).
Definition GetTaskReward (taskId : bytes) : Z := taskRewardAmount taskId.

Definition autoEligibleTasks : list bytes := map lit
  ["first-transfer"; "faucet-claim"; "receive-way"; "governance-vote"; "gov-propose";
   "1way-mint"; "1way-burn"; "2way-open"; "first-swap"; "add-liquidity";
   "stability-deposit"; "btc-bridge"; "sway-stake"; "wifr-bridge"; "bijo-journal";
   "lock-time"; "lock-vesting"; "staterent-pay"]%string.
Definition isAutoEligible (taskId : bytes) : bool :=
  existsb (fun t => bool_decide (t = until_zero taskId)) autoEligibleTasks.

(** ** The autopilot *)

Definition autopilot_key : bytes := storageKey [80].

(** [autopilotAddress]; the empty string when no autopilot is set. *)
Definition autopilotAddress (w : World) : bytes :=
  match GetAccount w addr23 with
  | None => []
  | Some acc =>
      let s := drop 12 (default zero32 (Storage acc !! autopilot_key)) in
      if forallb (fun b => b =? 0) s then [] else fmt_x s
  end.

(** [strings.EqualFold] on the hexadecimal strings compared here. *)
Definition equal_fold (a b : bytes) : bool := bool_decide (to_lower a = to_lower b).

Definition isAutopilot (caller : bytes) (w : World) : bool :=
  let ap := autopilotAddress w in
  negb (bool_decide (ap = [])) && equal_fold caller ap.

Definition SetAutopilot (addr : bytes) : HM unit :=
  match hex_decode (trim_0x (to_lower addr)) with
  | Some b =>
      if (length b =? 20)%nat
      then touch addr23 ;;; sstore addr23 autopilot_key (zeros 12 ++ b)
      else fail "SetAutopilot: invalid 20-byte address %q"
  | None => fail "SetAutopilot: invalid 20-byte address %q"
  end.

Definition QuestGetAutopilot (w : World) : bytes := autopilotAddress w.

(** ** Records *)

(** [copy(s[:], b); s[31] = flag]. *)
Definition flagged (b : bytes) (flag : Z) : bytes := take 31 (copy_at 0 b zero32) ++ [flag].

Definition claim_key (addr : bytes) : bytes := storageKey (16 :: addr).
Definition giveaway_key (addr : bytes) : bytes := storageKey (17 :: addr).
Definition paid_key : bytes := storageKey [64].
Definition task_key (taskId : bytes) : bytes := storageKey (48 :: taskId).
Definition escrow_key (taskId : bytes) : bytes := storageKey (49 :: taskId).
Definition bounty_key (id : Z) : bytes := storageKey (32 :: big_bytes id).
Definition fix_key (id : Z) : bytes := storageKey (24 :: big_bytes id).
Definition delegated_key (id : Z) : bytes := storageKey (25 :: big_bytes id).
Definition delegation_key (id : Z) (registrant : bytes) : bytes :=
  storageKey (25 :: big_bytes id ++ registrant).

(** The Dox_Dev level the handlers test; a missing account reads as level 0,
    which fails every test made here just as the nil check does. *)
Definition level_of (w : World) (a : bytes) : Z := DoxDevLevel (acct w a).

Definition move (from to : bytes) (amount : Z) : HM unit :=
  modify (fun w => add_bal to amount (add_bal from (- amount) w)).

(** ** verifyAndPay *)

Definition verifyAndPay (taskId claimant : bytes) : HM unit :=
  let reward := taskRewardAmount taskId in
  touch addr23 ;;;
  let* paid := gets (fun w => readBigInt (slot w addr23 paid_key)) in
  let* cap := QuestCap in
  guard_err (cap <? paid + reward) "quest cap reached: %s paid / %s cap" ;;;
  sstore claimant (claim_key claimant) (flagged taskId 2) ;;;
  touch treasury_addr ;;;
  touch claimant ;;;
  let* funds := gets (fun w => bal w treasury_addr) in
  if reward <=? funds then
    move treasury_addr claimant reward ;;;
    sstore_fill addr23 paid_key (paid + reward) ;;;
    addlog addr23 [EconoTaskPaidTopic; sha256SumBytes taskId] (big_bytes reward) 0 ;;;
    modify (EconoAccruePayout (big_u64 reward) (isProTask taskId) 0)
  else
    sstore_fill addr23 paid_key (paid + reward).

(** ** Handlers

    One definition per selector; [input] is the whole calldata, whose capacity
    is its length, so a short slice panics. *)

Definition taskClaim (input caller : bytes) : HM bytes :=
  let* taskId := must (slice input 4 36) in
  touch caller ;;;
  sstore caller (claim_key caller) (flagged taskId 1) ;;;
  mret [1].

Definition taskVerify (input caller : bytes) : HM bytes :=
  let* taskId := must (slice input 4 36) in
  let claimant := readAddress input 36 in
  let* lvl := gets (fun w => level_of w caller) in
  guard_err (lvl <? 2) "unauthorized: need badge" ;;;
  verifyAndPay taskId (fmt_x claimant) ;;;
  mret [1].

Definition taskAutoVerify (input caller : bytes) : HM bytes :=
  let* taskId := must (slice input 4 36) in
  let claimant := readAddress input 36 in
  let* ap := gets (isAutopilot caller) in
  guard_err (negb ap) "unauthorized: caller is not the designated autopilot" ;;;
  guard_err (negb (isAutoEligible taskId)) "task is not auto-eligible; use human taskVerify" ;;;
  verifyAndPay taskId (fmt_x claimant) ;;;
  mret [1].

Definition questSetAutopilot (input caller : bytes) : HM bytes :=
  let addr := readAddress input 4 in
  let* lvl := gets (fun w => level_of w caller) in
  guard_err (lvl <? 3) "unauthorized: need Dox_Dev L3" ;;;
  touch addr23 ;;;
  sstore addr23 autopilot_key (zeros 12 ++ addr) ;;;
  mret [1].

Definition status_bytes (s : bytes) : bytes :=
  if byte_at s 31 =? 1 then lit "claimed"
  else if byte_at s 31 =? 2 then lit "verified" else lit "none".

Definition taskStatus (input caller : bytes) : HM bytes :=
  let* _ := must (slice input 4 36) in
  gets (fun w => status_bytes (slot w caller (claim_key caller))).

(** Reading a missing account dereferences nil. *)
Definition deref (a : bytes) : HM Account :=
  fun w => match GetAccount w a with Some acc => (Ok acc, w) | None => (Panic, w) end.

Definition taskStatusOf (input : bytes) : HM bytes :=
  let claimant := fmt_x (readAddress input 36) in
  let* acc := deref claimant in
  mret (status_bytes (default zero32 (Storage acc !! claim_key claimant))).

Definition getTaskReward (input : bytes) : HM bytes :=
  let* taskId := must (slice input 4 36) in
  mret (writeUint64 (big_u64 (taskRewardAmount taskId))).

Definition questPoolRemaining : HM bytes :=
  gets (fun w => match GetAccount w treasury_addr with
                 | None => zero32
                 | Some t => writeUint64 (big_u64 (Balance t))
                 end).

Definition questFund (input : bytes) : HM bytes :=
  let* amount := must (slice input 4 36) in
  touch treasury_addr ;;;
  modify (add_bal treasury_addr (be_dec amount)) ;;;
  mret [1].

Definition faucet_pool_addr : bytes := PrecompileAddrHex 2.

Definition giveawayClaim (input caller : bytes) : HM bytes :=
  let* _ := must (slice input 4 36) in
  let* acc := deref caller in
  guard_err (byte_at (default zero32 (Storage acc !! giveaway_key caller)) 31 =? 1)
    "already claimed" ;;;
  sstore caller (giveaway_key caller) (flagged [] 1) ;;;
  let* pool := gets (fun w => GetAccount w faucet_pool_addr) in
  match pool with
  | None => panic
  | Some _ =>
      let* funds := gets (fun w => bal w faucet_pool_addr) in
      (if 5 <=? funds then move faucet_pool_addr caller 5 else mret tt) ;;;
      mret [1]
  end.

Definition registerBounty (input : bytes) : HM bytes :=
  let* bountyType := must (index input 4) in
  let* amount := must (slice input 5 37) in
  let* lane := must (index input 37) in
  let* descHash := must (slice input 38 70) in
  let rec := copy_at 2 (big_bytes (be_dec amount)) (bountyType :: lane :: zeros 30) in
  let* _ := deref addr23 in
  sstore addr23 (bounty_key (be_dec descHash)) rec ;;;
  mret [1].

Definition claimFix (input caller : bytes) : HM bytes :=
  let* bountyId := must (slice input 4 36) in
  let* prHash := must (slice input 36 68) in
  touch caller ;;;
  sstore caller (fix_key (be_dec bountyId)) (flagged (big_bytes (be_dec prHash)) 1) ;;;
  mret [1].

Definition verifyFix (input caller : bytes) : HM bytes :=
  let* id := must (slice input 4 36) in
  let claimant := fmt_x (readAddress input 36) in
  let* lvl := gets (fun w => level_of w caller) in
  guard_err (lvl <? 2) "unauthorized: need badge" ;;;
  touch claimant ;;;
  sstore claimant (fix_key (be_dec id)) (flagged [] 2) ;;;
  let* tr := deref addr23 in
  let amount := readBigInt (default zero32 (Storage tr !! bounty_key (be_dec id))) in
  touch treasury_addr ;;;
  let* funds := gets (fun w => bal w treasury_addr) in
  (if amount <=? funds then move treasury_addr claimant amount else mret tt) ;;;
  mret [1].

(** [Mul(b, 8).Div(b, 10)]: the receiver of [Div] is overwritten, so the bound
    is a tenth of the record read as an integer. *)
Definition delegateMicroTask (input caller : bytes) : HM bytes :=
  let* id := must (slice input 4 36) in
  let registrant := readAddress input 36 in
  let* amount := must (slice input 56 88) in
  let* lvl := gets (fun w => level_of w caller) in
  guard_err (lvl <? 2) "unauthorized: need professional badge" ;;;
  let* tr := deref addr23 in
  let bountyData := default zero32 (Storage tr !! bounty_key (be_dec id)) in
  let* alreadyDelegated := gets (fun w => readBigInt (slot w caller (delegated_key (be_dec id)))) in
  let total := alreadyDelegated + be_dec amount in
  guard_err (readBigInt bountyData / 10 <? total) "exceeds 80%% delegation limit" ;;;
  touch caller ;;;
  sstore caller (delegation_key (be_dec id) registrant)
    (copy_at 0 (big_bytes (be_dec amount)) zero32) ;;;
  mret [1].

Definition createTask (input : bytes) : HM bytes :=
  let* taskId := must (slice input 4 36) in
  let* rb := must (slice input 36 68) in
  let* minLevel := must (index input 68) in
  let* verifyMode := must (index input 69) in
  let reward := be_dec rb in
  guard_err (reward <=? 0) "reward must be > 0" ;;;
  let b := big_bytes reward in
  let rec := copy_at (32 - length b) b (minLevel :: verifyMode :: zeros 30) in
  touch addr23 ;;;
  sstore addr23 (task_key taskId) rec ;;;
  mret [1].

Definition escrowTask (input caller : bytes) : HM bytes :=
  let* taskId := must (slice input 4 36) in
  let* ab := must (slice input 36 68) in
  let amount := be_dec ab in
  touch caller ;;;
  let* funds := gets (fun w => bal w caller) in
  guard_err (funds <? amount) "insufficient balance to escrow" ;;;
  touch addr23 ;;;
  let* esc := gets (fun w => readBigInt (slot w addr23 (escrow_key taskId))) in
  let* s := must (fill_bytes 32 (esc + amount)) in
  modify (add_bal addr23 amount) ;;;
  sstore addr23 (escrow_key taskId) s ;;;
  modify (add_bal caller (- amount)) ;;;
  mret [1].

Definition verifyCommunity (input caller : bytes) : HM bytes :=
  let* taskId := must (slice input 4 36) in
  let claimant := fmt_x (readAddress input 36) in
  touch addr23 ;;;
  let* rec := sload addr23 (task_key taskId) in
  guard_err ((byte_at rec 0 =? 0) && (byte_at rec 1 =? 0)) "unknown task" ;;;
  let reward := be_dec (drop 2 rec) in
  let* w := gets id in
  (if byte_at rec 1 =? 0
   then guard_err (negb (isAutopilot caller w)) "unauthorized: need autopilot oracle"
   else guard_err (level_of w caller <? 2) "unauthorized: need Dox_Dev L2 verifier") ;;;
  let* esc := gets (fun w => readBigInt (slot w addr23 (escrow_key taskId))) in
  let src := if 0 <? esc then addr23 else treasury_addr in
  touch claimant ;;;
  sstore claimant (claim_key claimant) (flagged taskId 2) ;;;
  touch src ;;;
  (if 0 <? esc
   then sstore_fill addr23 (escrow_key taskId) (if esc - reward <? 0 then 0 else esc - reward)
   else mret tt) ;;;
  let* funds := gets (fun w => bal w src) in
  (if reward <=? funds then modify (add_bal src (- reward)) else mret tt) ;;;
  modify (add_bal claimant reward) ;;;
  mret [1].

Definition getTask (input : bytes) : HM bytes :=
  let* taskId := must (slice input 4 36) in
  touch addr23 ;;;
  sload addr23 (task_key taskId).

(** [taskRegistryPrecompile]. *)
Definition taskRegistryPrecompile : Handler := fun input caller _ =>
  if (length input <? 4)%nat then fail "input too short" else
  let sel := selectorBytes input in
  if sel =? 0xA1B2C3D4 then taskClaim input caller
  else if sel =? 0xB2C3D4E5 then taskVerify input caller
  else if sel =? 0x04A78446 then taskAutoVerify input caller
  else if sel =? 0x7680323F then questSetAutopilot input caller
  else if sel =? 0x79B592DB then gets autopilotAddress
  else if sel =? 0xC3D4E5F6 then taskStatus input caller
  else if sel =? 0xB5C0A0CF then taskStatusOf input
  else if sel =? 0xE32481A4 then getTaskReward input
  else if sel =? 0xDF95446F then questPoolRemaining
  else if sel =? 0xCEA1B2C3 then questFund input
  else if sel =? 0xE5F6A7B8 then giveawayClaim input caller
  else if sel =? 0x24A5B6C7 then registerBounty input
  else if sel =? 0x35B6C7D8 then claimFix input caller
  else if sel =? 0x46C7D8E9 then verifyFix input caller
  else if sel =? 0x58E9F0A1 then delegateMicroTask input caller
  else if sel =? 0x71C2D3E4 then createTask input
  else if sel =? 0x82D3E4F5 then escrowTask input caller
  else if sel =? 0x93E4F5A6 then verifyCommunity input caller
  else if sel =? 0xA4F5A6B7 then getTask input
  else fail "unknown selector".

(** ** Read helpers for the RPC *)

Definition TaskStatusOf (claimant : bytes) (w : World) : bytes :=
  let a := to_lower (trim_0x claimant) in
  match GetAccount w a with
  | None => lit "none"
  | Some acc => status_bytes (default zero32 (Storage acc !! claim_key a))
  end.

Definition QuestPoolRemaining : HM Z :=
  let* cap := QuestCap in
  touch addr23 ;;;
  let* paid := gets (fun w => readBigInt (slot w addr23 paid_key)) in
  mret (if cap - paid <? 0 then 0 else cap - paid).

(** ** Lemmas *)

Definition paid_of (w : World) : Z := readBigInt (slot w addr23 paid_key).

(** The preimages of the slots of account 0x23 that a call can reach. *)
Definition registry_preimages (input caller : bytes) : list bytes :=
  let id := be_dec (take 32 (drop 4 input)) in
  let claimant := fmt_x (readAddress input 36) in
  [[64]; [65]; [80]; 16 :: caller; 17 :: caller; 16 :: claimant;
   48 :: take 32 (drop 4 input); 49 :: take 32 (drop 4 input);
   32 :: big_bytes (be_dec (take 32 (drop 38 input)));
   24 :: big_bytes id; 25 :: big_bytes id ++ readAddress input 36].

Abbreviation books := (same_slots addr23 [paid_key; supply_key]).

Lemma deref_books a : respects books (deref a).
Proof. intros w. unfold deref. by destruct (GetAccount w a). Qed.

Lemma move_books f t z : respects books (move f t z).
Proof. intros w k _. unfold move, modify, add_bal. cbn. by world_simpl. Qed.

(** A store under a key whose preimage is among those of the call. *)
Lemma store_books input caller a p v :
  collision_free (registry_preimages input caller) -> p ∈ registry_preimages input caller ->
  p <> [64] -> p <> [65] -> respects books (sstore a (storageKey p) v).
Proof.
  intros Hc Hp H1 H2. apply frame_sstore. right. rewrite !elem_of_cons, elem_of_nil.
  intros [H|[H|[]]]; revert H; eapply collision_free_ne; try done;
    unfold registry_preimages; rewrite !elem_of_cons; auto.
Qed.

(** What a successful verification does. *)
Definition verified_world (taskId claimant : bytes) (w : World) : World :=
  GetOrCreateAccount claimant (GetOrCreateAccount treasury_addr
    (set_slot claimant (claim_key claimant) (flagged taskId 2) (GetOrCreateAccount addr23 w))).
Definition booked (v : Z) (w : World) : World := set_slot addr23 paid_key (be_enc 32 v) w.
Definition paid_world (taskId claimant : bytes) (w : World) : World :=
  let reward := taskRewardAmount taskId in
  let w1 := verified_world taskId claimant w in
  if reward <=? bal w treasury_addr then
    EconoAccruePayout (big_u64 reward) (isProTask taskId) 0
      (AddLog addr23 [EconoTaskPaidTopic; sha256SumBytes taskId] (big_bytes reward) 0
        (booked (paid_of w + reward)
          (add_bal claimant reward (add_bal treasury_addr (- reward) w1))))
  else booked (paid_of w + reward) w1.

Lemma taskRewardAmount_bound taskId : 0 <= taskRewardAmount taskId <= 300.
Proof.
  unfold taskRewardAmount, assoc. destruct (List.find _ rewards) as [e|] eqn:E; [|cbn; lia].
  apply find_some in E as [Hin _]. revert e Hin.
  apply (proj1 (List.Forall_forall (fun e : bytes * Z => 0 <= default 0 (Some e.2) <= 300) rewards)).
  unfold rewards. repeat (apply List.Forall_cons || apply List.Forall_nil); cbn; lia.
Qed.

Lemma verifyAndPay_run taskId claimant w :
  0 <= paid_of w -> cap_of w < 2 ^ 256 ->
  verifyAndPay taskId claimant w =
    if cap_of w <? paid_of w + taskRewardAmount taskId
    then (Err "quest cap reached: %s paid / %s cap", GetOrCreateAccount addr23 w)
    else (Ok tt, paid_world taskId claimant w).
Proof.
  intros Hp Hc. pose proof (taskRewardAmount_bound taskId) as Hr.
  unfold verifyAndPay, QuestCap, QuestTotalSupply, touch, gets, modify, mret, M_ret,
    mbind, M_bind. cbn beta iota zeta.
  rewrite touch_touch. unfold supply_of. rewrite !slot_touch.
  fold (supply_of w) (paid_of w) (cap_of w). unfold guard_err.
  destruct (Z.ltb_spec (cap_of w) (paid_of w + taskRewardAmount taskId)) as [?|Hcap]; [done|].
  unfold mret, M_ret, sstore, modify. cbn beta iota zeta. fold (verified_world taskId claimant w).
  unfold paid_world, sstore_fill, must, mbind, M_bind.
  assert (bal (verified_world taskId claimant w) treasury_addr = bal w treasury_addr) as ->.
  { unfold verified_world. by world_simpl. }
  destruct (Z.leb_spec (taskRewardAmount taskId) (bal w treasury_addr));
    rewrite fill_bytes_ok by (change (256 ^ Z.of_nat 32) with (2 ^ 256); lia); done.
Qed.

Definition within_cap (w : World) : Prop :=
  0 <= paid_of w /\ cap_of w < 2 ^ 256 /\ paid_of w <= cap_of w.
Definition cap_rel (w w' : World) : Prop := within_cap w -> within_cap w'.

#[local] Instance cap_rel_preorder : PreOrder cap_rel.
Proof. unfold cap_rel. split; [by intros w|]. intros x y z H1 H2 H. auto. Qed.

Lemma books_cap_rel {A} (m : HM A) : respects books m -> respects cap_rel m.
Proof.
  apply respects_weaken. intros w w' Hs. unfold cap_rel, within_cap, paid_of, cap_of, supply_of.
  rewrite (Hs paid_key), (Hs supply_key); [done|by repeat constructor|by repeat constructor].
Qed.

Lemma paid_world_books taskId c w :
  claim_key c <> paid_key -> claim_key c <> supply_key -> paid_key <> supply_key ->
  0 <= paid_of w -> paid_of w + taskRewardAmount taskId < 2 ^ 256 ->
  paid_of (paid_world taskId c w) = paid_of w + taskRewardAmount taskId /\
  cap_of (paid_world taskId c w) = cap_of w.
Proof.
  intros H1 H2 H3 Hp Hb. pose proof (taskRewardAmount_bound taskId).
  assert (Hv : forall k, claim_key c <> k ->
    slot (verified_world taskId c w) addr23 k = slot w addr23 k).
  { intros k Hk. unfold verified_world. by world_simpl. }
  assert (Hpay : be_dec (be_enc 32 (paid_of w + taskRewardAmount taskId)) =
                 paid_of w + taskRewardAmount taskId).
  { apply be_dec_enc_small. change (256 ^ Z.of_nat 32) with (2 ^ 256). lia. }
  unfold paid_world, booked, EconoAccruePayout, on_econo, add_bal.
  destruct (Z.leb_spec (taskRewardAmount taskId) (bal w treasury_addr));
    unfold paid_of at 1, cap_of, supply_of, readBigInt; world_simpl;
    rewrite ?Hv by done; auto.
Qed.

(** The claim slots of a call do not hit the books. *)
Lemma claim_key_books input caller p :
  collision_free (registry_preimages input caller) -> p ∈ registry_preimages input caller ->
  p <> [64] -> p <> [65] ->
  storageKey p <> paid_key /\ storageKey p <> supply_key /\ paid_key <> supply_key.
Proof.
  intros Hc Hp H1 H2.
  split_and!; eapply collision_free_ne; try done; unfold registry_preimages;
    rewrite !elem_of_cons; auto.
Qed.

Lemma verifyAndPay_cap input caller taskId :
  collision_free (registry_preimages input caller) ->
  respects cap_rel (verifyAndPay taskId (fmt_x (readAddress input 36))).
Proof.
  intros Hc w (Hp & Hcap & Hle).
  rewrite verifyAndPay_run by done.
  destruct (Z.ltb_spec (cap_of w) (paid_of w + taskRewardAmount taskId)) as [?|Hok].
  { unfold within_cap, paid_of, cap_of, supply_of. cbn [snd]. rewrite !slot_touch. done. }
  destruct (claim_key_books input caller (16 :: fmt_x (readAddress input 36)) Hc)
    as (H1 & H2 & H3); [unfold registry_preimages; rewrite !elem_of_cons; auto 10|done|done|].
  pose proof (taskRewardAmount_bound taskId).
  destruct (paid_world_books taskId (fmt_x (readAddress input 36)) w H1 H2 H3) as [E1 E2];
    [done|lia|]. cbn [snd]. unfold within_cap. rewrite E1, E2. lia.
Qed.

(** One tactic for every handler: walk the program, and discharge each store by
    the preimage of its key. *)
Ltac books_auto Hc :=
  repeat first
    [ match goal with
      | H : slice _ _ _ = Some _ |- _ => apply slice_inv in H as (_ & _ & ->)
      | |- respects _ (sstore _ _ _) =>
          cbv delta [claim_key giveaway_key task_key escrow_key bounty_key fix_key
            delegation_key autopilot_key] beta;
          apply (store_books _ _ _ _ _ Hc); [unfold registry_preimages; cbv zeta; pre_mem|done|done]
      | |- respects _ (deref _) => apply deref_books
      | |- respects _ (move _ _ _) => apply move_books
      | |- respects _ (sstore_fill _ _ _) => unfold sstore_fill
      | |- respects _ (match _ with _ => _ end) => case_match
      end
    | frame_step ].

Lemma handlers_books input caller :
  collision_free (registry_preimages input caller) ->
  respects books (taskClaim input caller) /\ respects books (questSetAutopilot input caller) /\
  respects books (taskStatus input caller) /\ respects books (taskStatusOf input) /\
  respects books (getTaskReward input) /\ respects books questPoolRemaining /\
  respects books (questFund input) /\ respects books (giveawayClaim input caller) /\
  respects books (registerBounty input).
Proof.
  intros Hc. split_and!.
  - unfold taskClaim. books_auto Hc.
  - unfold questSetAutopilot. books_auto Hc.
  - unfold taskStatus. books_auto Hc.
  - unfold taskStatusOf. books_auto Hc.
  - unfold getTaskReward. books_auto Hc.
  - unfold questPoolRemaining. books_auto Hc.
  - unfold questFund. books_auto Hc.
  - unfold giveawayClaim. books_auto Hc.
  - unfold registerBounty. books_auto Hc.
Qed.

Lemma bounty_handlers_books input caller :
  collision_free (registry_preimages input caller) ->
  respects books (claimFix input caller) /\ respects books (verifyFix input caller) /\
  respects books (delegateMicroTask input caller) /\ respects books (createTask input) /\
  respects books (escrowTask input caller) /\ respects books (verifyCommunity input caller) /\
  respects books (getTask input).
Proof.
  intros Hc. split_and!.
  - unfold claimFix. books_auto Hc.
  - unfold verifyFix. books_auto Hc.
  - unfold delegateMicroTask. books_auto Hc.
  - unfold createTask. books_auto Hc.
  - unfold escrowTask. books_auto Hc.
  - unfold verifyCommunity. books_auto Hc.
  - unfold getTask. books_auto Hc.
Qed.

(** ** Payouts

    What the verifications really pay, beside the counter that is meant to bound
    it. *)

(** The two selectors that verify a quest task. *)
Definition verifies (input : bytes) : bool :=
  negb (length input <? 4)%nat &&
  ((selectorBytes input =? 0xB2C3D4E5) || (selectorBytes input =? 0x04A78446)).
Definition task_of (input : bytes) : bytes := take 32 (drop 4 input).
Definition claimant_of (input : bytes) : bytes := fmt_x (readAddress input 36).

(** [w'] is [w] with [p] moved from the treasury to [c]. *)
Definition treasury_pays (c : bytes) (p : Z) (w w' : World) : Prop :=
  forall a, bal w' a = bal w a - (if decide (a = treasury_addr) then p else 0)
                             + (if decide (a = c) then p else 0).

(** What a call takes out of the treasury for a verification. *)
Definition quest_paid (input : bytes) (w w' : World) : Z :=
  if verifies input then bal w treasury_addr - bal w' treasury_addr else 0.

Lemma paid_supply_ne : paid_key <> supply_key.
Proof. apply (bool_decide_unpack (paid_key <> supply_key)). vm_compute. exact I. Qed.

Lemma paid_world_pays taskId c w :
  treasury_pays c (if taskRewardAmount taskId <=? bal w treasury_addr
                   then taskRewardAmount taskId else 0) w (paid_world taskId c w).
Proof.
  intros a. unfold paid_world, booked, EconoAccruePayout, on_econo, add_bal.
  destruct (Z.leb_spec (taskRewardAmount taskId) (bal w treasury_addr));
    unfold verified_world; repeat (rewrite ?bal_set_bal; world_simpl);
    repeat case_decide; subst; try congruence; lia.
Qed.

(** A verification pays the reward or nothing, and the counter grows by at least as
    much. *)
Lemma verifyAndPay_pays input caller taskId w :
  let c := claimant_of input in
  let w' := (verifyAndPay taskId c w).2 in
  collision_free (registry_preimages input caller) -> within_cap w ->
  exists p, (p = 0 \/ p = taskRewardAmount taskId) /\ treasury_pays c p w w' /\
            p <= paid_of w' - paid_of w.
Proof.
  intros c w' Hc (Hp & Hcap & Hle). subst w'. rewrite verifyAndPay_run by done.
  pose proof (taskRewardAmount_bound taskId) as Hr.
  destruct (Z.ltb_spec (cap_of w) (paid_of w + taskRewardAmount taskId)) as [?|Hok]; cbn [snd].
  - exists 0. split; [by left|]. unfold paid_of. rewrite slot_touch. split; [|lia].
    intros a. world_simpl. repeat case_decide; lia.
  - destruct (claim_key_books input caller (16 :: c) Hc) as (H1 & H2 & H3);
      [unfold registry_preimages; rewrite !elem_of_cons; auto 10|done|done|].
    destruct (paid_world_books taskId c w H1 H2 H3) as [E1 _]; [done|lia|].
    exists (if taskRewardAmount taskId <=? bal w treasury_addr then taskRewardAmount taskId else 0).
    rewrite E1. split_and!; [case_match; auto|apply paid_world_pays|case_match; lia].
Qed.

(** A verifying call is refused before it reaches [verifyAndPay], or is that. *)
Lemma verifies_run input caller block w :
  verifies input = true ->
  let w' := (taskRegistryPrecompile input caller block w).2 in
  w' = w \/ w' = (verifyAndPay (task_of input) (claimant_of input) w).2.
Proof.
  unfold verifies. rewrite andb_true_iff, orb_true_iff, negb_true_iff, !Z.eqb_eq.
  intros [Hlen Hs]. unfold taskRegistryPrecompile. rewrite Hlen.
  assert (Hsl : forall x, slice input 4 36 = Some x -> x = task_of input)
    by (intros x Hx; by apply slice_inv in Hx as (_ & _ & ->)).
  destruct Hs as [-> | ->]; cbn [Z.eqb Pos.eqb]; [unfold taskVerify|unfold taskAutoVerify];
    (destruct (slice input 4 36) as [x|] eqn:Ex; [rewrite (Hsl x eq_refl)|by left]);
    unfold must, gets, guard_err, mret, M_ret, mbind, M_bind; cbn beta iota zeta; fold (claimant_of input).
  - destruct (level_of w caller <? 2); [by left|]. right. by destruct (verifyAndPay _ _ _) as [[|?|] ?].
  - destruct (negb _); [by left|]. destruct (negb _); [by left|]. right. by destruct (verifyAndPay _ _ _) as [[|?|] ?].
Qed.

(** Every other call leaves the counter and the supply alone. *)
Lemma verifies_books input caller block :
  collision_free (registry_preimages input caller) -> verifies input = false ->
  respects books (taskRegistryPrecompile input caller block).
Proof.
  intros Hc Hv. unfold verifies in Hv.
  destruct (handlers_books input caller Hc) as (?&?&?&?&?&?&?&?&?).
  destruct (bounty_handlers_books input caller Hc) as (?&?&?&?&?&?&?).
  unfold taskRegistryPrecompile. destruct (length input <? 4)%nat; [frame_step|].
  cbn [negb andb] in Hv. apply orb_false_iff in Hv as [V1 V2].
  repeat match goal with
  | H : respects books ?m |- respects _ ?m => exact H
  | H : (?a =? ?b) = false |- context[?a =? ?b] => rewrite H
  | _ => frame_step
  end.
Qed.

Lemma quest_call_pays input caller block w :
  let w' := (taskRegistryPrecompile input caller block w).2 in
  collision_free (registry_preimages input caller) -> within_cap w -> verifies input = true ->
  exists p, (p = 0 \/ p = taskRewardAmount (task_of input)) /\
            treasury_pays (claimant_of input) p w w' /\ p <= paid_of w' - paid_of w.
Proof.
  intros w' Hc Hw Hv. destruct (verifies_run input caller block w Hv) as [E|E]; fold w' in E; rewrite E.
  - exists 0. split; [by left|]. split; [|lia]. intros a. repeat case_decide; lia.
  - by apply (verifyAndPay_pays input caller).
Qed.

(** What leaves the treasury in a call is within the growth of the counter. *)
Lemma quest_paid_bound input caller block w :
  let w' := (taskRegistryPrecompile input caller block w).2 in
  collision_free (registry_preimages input caller) -> within_cap w ->
  0 <= quest_paid input w w' <= paid_of w' - paid_of w.
Proof.
  intros w' Hc Hw. unfold quest_paid. destruct (verifies input) eqn:Hv.
  - destruct (quest_call_pays input caller block w Hc Hw Hv) as (p & Hp & Hb & Hle). fold w' in Hb, Hle.
    pose proof (taskRewardAmount_bound (task_of input)). rewrite (Hb treasury_addr), decide_True by done.
    case_decide; destruct Hp; lia.
  - enough (E : paid_of w' = paid_of w) by lia. unfold paid_of. f_equal.
    apply (verifies_books input caller block Hc Hv w). by repeat constructor.
Qed.

Lemma quest_call_cap input caller block w :
  collision_free (registry_preimages input caller) -> within_cap w ->
  within_cap (taskRegistryPrecompile input caller block w).2.
Proof.
  intros Hc Hw. destruct (verifies input) eqn:Hv.
  - destruct (verifies_run input caller block w Hv) as [-> | ->]; [done|].
    by apply (verifyAndPay_cap input caller).
  - by apply (books_cap_rel _ (verifies_books input caller block Hc Hv)).
Qed.

(** A block's emission raises the supply, and with it the cap. *)
Lemma QuestAddSupply_cap amount w w' r :
  within_cap w -> QuestAddSupply amount w = (r, w') -> within_cap w' /\ paid_of w' = paid_of w.
Proof.
  intros (Hp & Hc & Hle). unfold QuestAddSupply.
  destruct (Z.leb_spec amount 0); [intros [= _ <-]; done|].
  unfold QuestTotalSupply, must, touch, gets, modify, sstore, mret, M_ret, mbind, M_bind.
  cbn beta iota zeta. unfold supply_of at 1. rewrite slot_touch. fold (supply_of w).
  assert (Hs : 0 <= supply_of w) by (unfold cap_of in Hle; change QUEST_SUPPLY_PCT with 5 in Hle; Z.to_euclidean_division_equations; lia).
  destruct (fill_bytes 32 (supply_of w + amount)) as [b|] eqn:E; intros [= _ <-].
  - unfold fill_bytes in E. rewrite Z.abs_eq in E by lia.
    destruct (Z.ltb_spec (supply_of w + amount) (256 ^ Z.of_nat 32)) as [Hb|]; [|done].
    apply (inj Some) in E as <-.
    change (256 ^ Z.of_nat 32) with (2 ^ 256) in Hb.
    pose proof paid_supply_ne as Hne.
    unfold within_cap, paid_of, cap_of, supply_of, readBigInt, QUEST_SUPPLY_PCT in *.
    world_simpl. rewrite be_dec_enc_small by (change (256 ^ Z.of_nat 32) with (2 ^ 256); lia).
    Z.to_euclidean_division_equations. lia.
  - unfold within_cap, cap_of, paid_of, supply_of in *. by rewrite !slot_touch.
Qed.

(** [quest_run w n w']: from [w] to [w'] by calls of the registry, emissions, and
    whatever else leaves the two books alone, the verifications taking [n] from the
    treasury. *)
Inductive quest_run (w : World) : Z -> World -> Prop :=
| quest_start : quest_run w 0 w
| quest_call n w1 input caller block w2 :
    quest_run w n w1 -> collision_free (registry_preimages input caller) ->
    w2 = (taskRegistryPrecompile input caller block w1).2 ->
    quest_run w (n + quest_paid input w1 w2) w2
| quest_mint n w1 amount r w2 :
    quest_run w n w1 -> QuestAddSupply amount w1 = (r, w2) -> quest_run w n w2
| quest_other n w1 w2 : quest_run w n w1 -> books w1 w2 -> quest_run w n w2.

(** ** Properties *)

(** C20 (quest cap).  Along any sequence of calls of the registry (whatever the
    caller and the outcome; errors and panics keep their partial effects), emissions
    of new supply, and whatever else leaves the two books of account 0x23 alone, what
    the verifications have taken out of the treasury is at most the growth of the
    cumulative payout counter, which stays within five percent of the live supply.  So
    from a fresh registry the rewards paid stay within five percent of the live
    supply.  And each verification moves the reward of its task, or nothing, from the
    treasury to its claimant, and touches no other balance.  The slot names of a call
    are assumed distinct.  The escrowed, bounty and giveaway payouts are not counted,
    in the code as here. *)
Theorem quest_payout_capped w n w' :
  within_cap w -> quest_run w n w' ->
  within_cap w' /\ 0 <= n <= paid_of w' - paid_of w /\
  (paid_of w = 0 -> n <= supply_of w' * 5 / 100) /\
  (forall input caller block,
     let w2 := (taskRegistryPrecompile input caller block w').2 in
     collision_free (registry_preimages input caller) -> verifies input = true ->
     exists p, (p = 0 \/ p = taskRewardAmount (task_of input)) /\
               treasury_pays (claimant_of input) p w' w2).
Proof.
  intros Hw Hr.
  assert (H : within_cap w' /\ 0 <= n <= paid_of w' - paid_of w).
  { induction Hr as [|n w1 input caller block w2 _ [IH1 IH2] Hc ->|n w1 amount r w2 _ [IH1 IH2] Hq
      |n w1 w2 _ [IH1 IH2] Hb].
    - split; [done|lia].
    - split; [by apply quest_call_cap|].
      pose proof (quest_paid_bound input caller block w1 Hc IH1). lia.
    - destruct (QuestAddSupply_cap _ _ _ _ IH1 Hq) as [? ->]. done.
    - unfold within_cap, paid_of, cap_of, supply_of in *.
      by rewrite (Hb paid_key), (Hb supply_key) by (by repeat constructor). }
  destruct H as [H1 H2]. split_and!; [done|lia..| |].
  - intros H0. destruct H1 as (_ & _ & Hle). unfold cap_of, QUEST_SUPPLY_PCT in Hle. lia.
  - intros input caller block w2 Hc Hv.
    destruct (quest_call_pays input caller block w' Hc H1 Hv) as (p & ? & ? & _). by exists p.
Qed.

(** Verification.  [verifyAndPay] on every branch: over the cap it errors
    and touches no balance and no slot; otherwise the claim is marked verified,
    the cumulative payout grows by the reward, and the reward moves from the
    treasury to the claimant exactly when the treasury can afford it. *)
Theorem verifyAndPay_spec taskId c w :
  0 <= paid_of w -> cap_of w < 2 ^ 256 -> c <> treasury_addr -> c <> addr23 ->
  let r := taskRewardAmount taskId in
  let '(res, w') := verifyAndPay taskId c w in
  if cap_of w <? paid_of w + r then
    is_ok res = false /\ (forall a, bal w' a = bal w a) /\ (forall a k, slot w' a k = slot w a k)
  else
    res = Ok tt /\ paid_of w' = paid_of w + r /\ slot w' c (claim_key c) = flagged taskId 2 /\
    let paid := if r <=? bal w treasury_addr then r else 0 in
    bal w' treasury_addr = bal w treasury_addr - paid /\ bal w' c = bal w c + paid /\
    (forall a, a <> c -> a <> treasury_addr -> bal w' a = bal w a).
Proof.
  intros Hp Hc Ht H23 r. rewrite verifyAndPay_run by done. fold r.
  pose proof (taskRewardAmount_bound taskId) as Hr. fold r in Hr.
  destruct (Z.ltb_spec (cap_of w) (paid_of w + r)) as [Hover|Hok].
  { split_and!; [done| |]; intros; by world_simpl. }
  assert (Hpay : be_dec (be_enc 32 (paid_of w + r)) = paid_of w + r).
  { apply be_dec_enc_small. change (256 ^ Z.of_nat 32) with (2 ^ 256). lia. }
  unfold paid_world. fold r. unfold booked, EconoAccruePayout, on_econo, add_bal.
  destruct (Z.leb_spec r (bal w treasury_addr)) as [Hf|Hf]; (split; [done|]);
    unfold paid_of at 1, readBigInt; world_simpl; (split; [exact Hpay|]);
    unfold verified_world; world_simpl; (split; [done|]);
    repeat (rewrite !bal_set_bal; world_simpl);
    (split_and!; [repeat case_decide; try congruence; lia
                 |repeat case_decide; try congruence; lia|]);
    intros a Ha1 Ha2;
    repeat (world_simpl; rewrite ?bal_set_bal, ?decide_False by congruence); done.
Qed.

(** ** What the code does that its comments do not say *)

Definition be20 (z : Z) : bytes := be_enc 20 z.
Definition sel_verify : bytes := be_enc 4 0xB2C3D4E5.
Definition pad32 (s : bytes) : bytes := s ++ zeros (32 - length s).
Definition verifier : bytes := lit "aa".
Definition quest_world : World :=
  upd_acct verifier (with_level 2)
    (set_bal treasury_addr 1000
      (set_slot addr23 supply_key (be_enc 32 WAYStartingSupply) NewStateDB)).
Definition verify_call : bytes := sel_verify ++ pad32 (lit "1way-mint") ++ be20 77.

(** "Each account may claim a given task once": nothing reads the claim slot
    before paying, so the same verification pays again. *)
Lemma verification_pays_twice :
  let w1 := (taskRegistryPrecompile verify_call verifier 0 quest_world).2 in
  let w2 := (taskRegistryPrecompile verify_call verifier 0 w1).2 in
  bal w1 (fmt_x (be20 77)) = 300 /\ bal w2 (fmt_x (be20 77)) = 600.
Proof. vm_compute. done. Qed.

(** "founder tops up the paying treasury": [questFund] checks neither the caller
    nor a balance; the amount is created. *)
Lemma questFund_mints amount caller block w :
  0 <= amount < 2 ^ 256 ->
  bal (taskRegistryPrecompile (be_enc 4 0xCEA1B2C3 ++ be_enc 32 amount) caller block w).2
    treasury_addr = bal w treasury_addr + amount.
Proof.
  intros Ha. unfold taskRegistryPrecompile.
  change (length (be_enc 4 0xCEA1B2C3 ++ be_enc 32 amount) <? 4)%nat with false.
  change (selectorBytes (be_enc 4 0xCEA1B2C3 ++ be_enc 32 amount)) with 0xCEA1B2C3.
  cbn [Z.eqb Pos.eqb]. unfold questFund.
  change (slice (be_enc 4 0xCEA1B2C3 ++ be_enc 32 amount) 4 36) with (Some (be_enc 32 amount)).
  unfold must, mbind, M_bind, mret, M_ret, touch, modify, add_bal. cbn [snd].
  rewrite bal_set_bal, decide_True, bal_touch by done. f_equal. by apply be_dec_enc_small.
Qed.

(** A community task whose payer is empty still credits the claimant. *)
Definition community_world : World :=
  set_slot addr23 (task_key (pad32 (lit "t"))) (1 :: 1 :: be_enc 30 500)
    (set_bal treasury_addr 0 quest_world).
Lemma verifyCommunity_mints :
  let w' := (taskRegistryPrecompile (be_enc 4 0x93E4F5A6 ++ pad32 (lit "t") ++ be20 77)
               verifier 0 community_world).2 in
  bal community_world treasury_addr = 0 /\ bal w' treasury_addr = 0 /\
  bal w' (fmt_x (be20 77)) = 500.
Proof. vm_compute. done. Qed.

(** "max 50% per tx", "exceeds 80%% delegation limit": the bound computed is a
    tenth of the whole bounty record, whose top byte is the bounty type. *)
Definition bounty_world : World :=
  set_slot addr23 (bounty_key 9) (1 :: 0 :: copy_at 0 (big_bytes 100) (zeros 30)) quest_world.
Lemma delegation_is_unbounded :
  is_ok (taskRegistryPrecompile
    (be_enc 4 0x58E9F0A1 ++ be_enc 32 9 ++ be20 77 ++ be_enc 32 1000000)
    verifier 0 bounty_world).1 = true.
Proof. vm_compute. reflexivity. Qed.

(** ** Witnesses *)

(** Two verifications of the same claim, which pay 300 each. *)
Definition quest_world_1 : World := (taskRegistryPrecompile verify_call verifier 0 quest_world).2.
Definition quest_world_2 : World := (taskRegistryPrecompile verify_call verifier 0 quest_world_1).2.

Lemma quest_payout_capped_witness :
  0 + quest_paid verify_call quest_world quest_world_1 +
      quest_paid verify_call quest_world_1 quest_world_2 = 600 /\
  0 + quest_paid verify_call quest_world quest_world_1 +
      quest_paid verify_call quest_world_1 quest_world_2 <= supply_of quest_world_2 * 5 / 100.
Proof.
  split; [vm_compute; reflexivity|].
  assert (Hc : collision_free (registry_preimages verify_call verifier))
    by (apply collision_free_nodup; vm_compute; reflexivity).
  apply (quest_payout_capped quest_world _ quest_world_2).
  - unfold within_cap. vm_compute. split_and!; first [discriminate|reflexivity].
  - apply (quest_call _ _ quest_world_1 verify_call verifier 0); [|exact Hc|reflexivity].
    apply (quest_call _ _ quest_world verify_call verifier 0); [constructor|exact Hc|reflexivity].
  - vm_compute. reflexivity.
Defined.

Lemma verifyAndPay_spec_witness :
  paid_of (verifyAndPay (pad32 (lit "1way-mint")) (lit "cc") quest_world).2 = 300.
Proof.
  pose proof (verifyAndPay_spec (pad32 (lit "1way-mint")) (lit "cc") quest_world) as H.
  destruct (verifyAndPay (pad32 (lit "1way-mint")) (lit "cc") quest_world) as [res w'] eqn:E.
  cbv zeta in H.
  replace (cap_of quest_world <? paid_of quest_world + taskRewardAmount (pad32 (lit "1way-mint")))
    with false in H by (vm_compute; reflexivity).
  apply proj2, proj1 in H.
  - cbn [snd]. rewrite H. vm_compute. reflexivity.
  - vm_compute. discriminate.
  - vm_compute. reflexivity.
  - vm_compute. discriminate.
  - vm_compute. discriminate.
Defined.
