(* ===== verification/RateLimit.v ===== *)
(** The per-IP request limiter (rate_limit.go): token buckets, their refill and
    the cleanup loop.  Times are [time.Duration] nanoseconds read from a
    monotonic clock, which the caller passes in. *)

From Stdlib Require Import ZArith Lia Sorted.
From S2P Require Import Prelude Collections.
From stdpp Require Import gmap list.
Local Open Scope Z_scope.

Record tokenBucket := mkBucket { tokens : Z; lastCheck : Z }.

Record RateLimiter := mkRL {
  buckets : gmap bytes tokenBucket;
  rate : Z;
  window : Z;
  cleanup : Z;
}.

Definition NewRateLimiter (r w : Z) : RateLimiter := mkRL ∅ r w (5 * 60 * 1000000000).

Definition with_buckets (m : gmap bytes tokenBucket) (rl : RateLimiter) : RateLimiter :=
  mkRL m (rate rl) (window rl) (cleanup rl).

(** [rl.window / time.Duration(rl.rate)]: the nanoseconds one token costs. *)
Definition token_cost (rl : RateLimiter) : Z := Z.quot (window rl) (rate rl).

(** The refill of an existing bucket, before the request is charged. *)
Definition refill (rl : RateLimiter) (now : Z) (b : tokenBucket) : Z :=
  let t := tokens b + Z.quot (now - lastCheck b) (token_cost rl) in
  if rate rl <? t then rate rl else t.

(** [Allow]: integer division by zero panics. *)
Definition Allow (ip : bytes) (now : Z) (rl : RateLimiter) : outcome bool * RateLimiter :=
  match buckets rl !! ip with
  | None => (Ok true, with_buckets (<[ip := mkBucket (rate rl - 1) now]> (buckets rl)) rl)
  | Some b =>
      if (rate rl =? 0) || (token_cost rl =? 0) then (Panic, rl) else
      let t := refill rl now b in
      if 0 <? t
      then (Ok true, with_buckets (<[ip := mkBucket (t - 1) now]> (buckets rl)) rl)
      else (Ok false, with_buckets (<[ip := mkBucket t now]> (buckets rl)) rl)
  end.

(** One pass of [cleanupLoop]. *)
Definition cleanup_pass (now : Z) (rl : RateLimiter) : RateLimiter :=
  with_buckets (filter (fun e : bytes * tokenBucket => ~ 10 * window rl < now - lastCheck e.2)
                  (buckets rl)) rl.

(** [extractIP]: the forwarded header when present, else the remote address up
    to its last colon. *)
Fixpoint drop_port (rev_addr : bytes) : option bytes :=
  match rev_addr with
  | [] => None
  | c :: rest => if c =? 58 then Some rest else drop_port rest
  end.
Definition extractIP (forwarded remote : bytes) : bytes :=
  if bool_decide (forwarded <> []) then forwarded
  else match drop_port (rev remote) with Some r => rev r | None => remote end.

(** ** Runs *)

(** Requests of one address at the given times: how many were let through. *)
Fixpoint served (ip : bytes) (times : list Z) (rl : RateLimiter) : Z * RateLimiter :=
  match times with
  | [] => (0, rl)
  | now :: times =>
      let '(o, rl1) := Allow ip now rl in
      let '(n, rl2) := served ip times rl1 in
      ((match o with Ok true => 1 | _ => 0 end) + n, rl2)
  end.

(** Any request, and the cleanup, interleaved. *)
Inductive rl_step : RateLimiter -> RateLimiter -> Prop :=
| step_allow ip now rl : rl_step rl (Allow ip now rl).2
| step_cleanup now rl : rl_step rl (cleanup_pass now rl).

Inductive rl_reachable (r w : Z) : RateLimiter -> Prop :=
| rl_start : rl_reachable r w (NewRateLimiter r w)
| rl_next rl rl' : rl_reachable r w rl -> rl_step rl rl' -> rl_reachable r w rl'.

(** ** Lemmas *)

Definition bucket_ok (rl : RateLimiter) (b : tokenBucket) : Prop := tokens b <= rate rl - 1.

Lemma Allow_params ip now rl :
  rate (Allow ip now rl).2 = rate rl /\ window (Allow ip now rl).2 = window rl.
Proof. unfold Allow. repeat case_match; done. Qed.

Lemma Allow_other ip now rl ip' :
  ip <> ip' -> buckets (Allow ip now rl).2 !! ip' = buckets rl !! ip'.
Proof. intros. unfold Allow. repeat case_match; try done; cbn; by rewrite lookup_insert_ne. Qed.

(** The bucket a served or refused request leaves behind. *)
Lemma Allow_bucket ip now rl b :
  0 < rate rl -> 0 < token_cost rl -> buckets rl !! ip = Some b ->
  exists ok, (Allow ip now rl).1 = Ok ok /\ ok = (0 <? refill rl now b) /\
  buckets (Allow ip now rl).2 !! ip =
    Some (mkBucket (refill rl now b - if ok then 1 else 0) now).
Proof.
  intros Hr Hc Hb. unfold Allow. rewrite Hb.
  destruct (Z.eqb_spec (rate rl) 0); [lia|]. destruct (Z.eqb_spec (token_cost rl) 0); [lia|].
  cbn [orb]. eexists. split_and!; [|reflexivity|]; destruct (0 <? refill rl now b); cbn;
    rewrite ?lookup_insert_eq, ?Z.sub_0_r; done.
Qed.

Lemma div_add_le a b c : 0 < c -> 0 <= a -> 0 <= b -> a / c + b / c <= (a + b) / c.
Proof.
  intros Hc Ha Hb. apply Z.div_le_lower_bound; [lia|].
  pose proof (Z.mul_div_le a c). pose proof (Z.mul_div_le b c). lia.
Qed.

(** From an existing bucket: tokens in hand plus the refill of the elapsed time
    bound the requests served. *)
Lemma served_bucket ip times rl b last :
  0 < rate rl -> 0 < token_cost rl -> buckets rl !! ip = Some b -> 0 <= tokens b ->
  StronglySorted Z.le (lastCheck b :: times) -> Forall (fun t => t <= last) (lastCheck b :: times) ->
  (served ip times rl).1 <= tokens b + (last - lastCheck b) / token_cost rl.
Proof.
  intros Hr Hc. revert rl b Hr Hc. induction times as [|now times IH]; intros rl b Hr Hc Hb Ht Hs Hl.
  { apply Forall_cons in Hl as [Hl _]. cbn.
    assert (0 <= (last - lastCheck b) / token_cost rl) by (apply Z.div_pos; lia). lia. }
  cbn [served]. destruct (Allow_bucket ip now rl b Hr Hc Hb) as (ok & E1 & E2 & E3).
  destruct (Allow_params ip now rl) as [P1 P2].
  destruct (Allow ip now rl) as [o rl1] eqn:EA. cbn [fst snd] in *. subst o.
  apply StronglySorted_inv in Hs as [Hs Hle]. apply Forall_cons in Hle as [Hnow _].
  apply Forall_cons in Hl as [_ Hl]. pose proof Hl as [Hlast _]%Forall_cons.
  assert (Hcost : token_cost rl1 = token_cost rl) by (unfold token_cost; congruence).
  assert (Hq : Z.quot (now - lastCheck b) (token_cost rl) = (now - lastCheck b) / token_cost rl)
    by (apply Z.quot_div_nonneg; lia).
  assert (Hd : 0 <= (now - lastCheck b) / token_cost rl) by (apply Z.div_pos; lia).
  assert (Hsplit : (now - lastCheck b) / token_cost rl + (last - now) / token_cost rl
                   <= (last - lastCheck b) / token_cost rl).
  { replace (last - lastCheck b) with ((now - lastCheck b) + (last - now)) by lia.
    apply div_add_le; lia. }
  assert (Href : 0 <= refill rl now b <= tokens b + (now - lastCheck b) / token_cost rl).
  { unfold refill. rewrite Hq. destruct (Z.ltb_spec (rate rl)
      (tokens b + (now - lastCheck b) / token_cost rl)); lia. }
  specialize (IH rl1 (mkBucket (refill rl now b - if ok then 1 else 0) now)).
  rewrite Hcost, P1 in IH. cbn [tokens lastCheck] in IH.
  assert (Hrec : (served ip times rl1).1 <=
     (refill rl now b - if ok then 1 else 0) + (last - now) / token_cost rl).
  { apply IH; try done. subst ok. destruct (Z.ltb_spec 0 (refill rl now b)); lia. }
  destruct (served ip times rl1) as [n rl2]. cbn [fst] in *.
  destruct ok; lia.
Qed.

Lemma rl_step_ok rl rl' :
  rl_step rl rl' ->
  rate rl' = rate rl /\ window rl' = window rl /\
  (0 < rate rl -> map_Forall (fun _ => bucket_ok rl) (buckets rl) ->
   map_Forall (fun _ => bucket_ok rl') (buckets rl')).
Proof.
  intros [ip now|now].
  - destruct (Allow_params ip now rl0) as [P1 P2]. split_and!; [done|done|].
    intros Hr Hall. unfold bucket_ok. rewrite P1. unfold Allow.
    destruct (buckets rl0 !! ip) as [b|] eqn:E; [|apply map_Forall_insert_2; [cbn; lia|done]].
    case_match; [done|].
    assert (refill rl0 now b <= rate rl0)
      by (unfold refill; cbv zeta; match goal with |- context [?x <? ?y] => destruct (Z.ltb_spec x y) end; lia).
    destruct (Z.ltb_spec 0 (refill rl0 now b)); apply map_Forall_insert_2; cbn; try done; lia.
  - split_and!; [done|done|]. intros _ Hall k b Hk. apply map_lookup_filter_Some in Hk as [Hk _].
    by apply Hall in Hk.
Qed.

(** ** Properties *)

(** C30 (request bound).  From a fresh address, whatever the arrival times, the
    requests let through are at most the burst [rate] plus one per token cost of
    elapsed time. *)
Theorem served_bound ip first times last rl :
  0 < rate rl -> 0 < token_cost rl -> buckets rl !! ip = None ->
  StronglySorted Z.le (first :: times) -> Forall (fun t => t <= last) (first :: times) ->
  (served ip (first :: times) rl).1 <= rate rl + (last - first) / token_cost rl.
Proof.
  intros Hr Hc Hn Hs Hl. cbn [served]. unfold Allow at 1. rewrite Hn.
  pose proof (served_bucket ip times
    (with_buckets (<[ip := mkBucket (rate rl - 1) first]> (buckets rl)) rl)
    (mkBucket (rate rl - 1) first) last Hr Hc (lookup_insert_eq _ _ _)) as H.
  cbn [tokens lastCheck] in H.
  destruct (served ip times _) as [n rl2]. cbn [fst] in *.
  change (token_cost (with_buckets _ rl)) with (token_cost rl) in H.
  specialize (H ltac:(lia) Hs Hl). lia.
Qed.

(** Bucket invariant.  In every reachable limiter no bucket holds more than
    [rate - 1] tokens between requests. *)
Theorem reachable_buckets_ok r w rl :
  0 < r -> rl_reachable r w rl ->
  rate rl = r /\ window rl = w /\ map_Forall (fun _ => bucket_ok rl) (buckets rl).
Proof.
  intros Hr. induction 1 as [|rl rl' _ (IH1 & IH2 & IH3) Hs].
  { split_and!; [done|done|]. apply map_Forall_empty. }
  apply rl_step_ok in Hs as (H1 & H2 & H3). rewrite H1, H2. split_and!; try done.
  apply H3; [lia|done].
Qed.

(** ** What the code does that it does not mean to *)

(** The clock of a bucket advances on every request while the refill rounds
    down, so an address that polls faster than one token cost is refused for
    ever once its burst is spent, however slowly tokens should return. *)
Lemma polling_starves ip rl last now n :
  0 < rate rl -> 0 < now < token_cost rl -> buckets rl !! ip = Some (mkBucket 0 last) ->
  (served ip (map (fun k => last + Z.of_nat k * now) (seq 1 n)) rl).1 = 0.
Proof.
  intros Hr Hn. revert rl last Hr Hn.
  assert (Hgen : forall k rl, 0 < rate rl -> 0 < now < token_cost rl -> forall last,
    buckets rl !! ip = Some (mkBucket 0 (last + Z.of_nat k * now)) ->
    (served ip (map (fun k => last + Z.of_nat k * now) (seq (S k) n)) rl).1 = 0).
  { induction n as [|n IH]; intros k rl Hr Hn last Hb; [done|]. cbn [seq map served].
    destruct (Allow_bucket ip (last + Z.of_nat (S k) * now) rl _ Hr ltac:(lia) Hb)
      as (ok & E1 & E2 & E3). destruct (Allow_params ip (last + Z.of_nat (S k) * now) rl) as [P1 P2].
    assert (Href : refill rl (last + Z.of_nat (S k) * now)
                     (mkBucket 0 (last + Z.of_nat k * now)) = 0).
    { unfold refill. cbn [tokens lastCheck].
      rewrite Z.quot_small by lia. cbv zeta. destruct (Z.ltb_spec (rate rl) (0 + 0)); lia. }
    rewrite Href in *. cbn in E2. subst ok.
    destruct (Allow ip _ rl) as [o rl1]. cbn [fst snd] in *. subst o.
    specialize (IH (S k) rl1). unfold token_cost in IH. rewrite P1, P2 in IH.
    specialize (IH Hr Hn last E3). by destruct (served ip _ rl1). }
  intros rl last Hr Hn Hb. apply (Hgen 0%nat rl Hr Hn last). by rewrite Z.add_0_r.
Qed.

(** ** Witnesses *)

Definition demo_rl : RateLimiter := NewRateLimiter 3 3000.

Lemma served_bound_witness :
  (served (lit "ip") [0; 1; 2; 3; 1500; 2600] demo_rl).1 <= 5.
Proof.
  apply (served_bound (lit "ip") 0 [1; 2; 3; 1500; 2600] 2999 demo_rl).
  - reflexivity.
  - reflexivity.
  - reflexivity.
  - repeat constructor; lia.
  - repeat constructor; lia.
Defined.

Lemma reachable_buckets_ok_witness :
  map_Forall (fun _ => bucket_ok demo_rl) (buckets (Allow (lit "ip") 5 demo_rl).2).
Proof.
  apply (reachable_buckets_ok 3 3000 (Allow (lit "ip") 5 demo_rl).2).
  - lia.
  - apply (rl_next 3 3000 demo_rl); constructor.
Defined.
