(* ===== verification/Scheduler.v ===== *)
(** The time execution engine (evm/oracle_scheduler.go): recurring oracle tasks,
    their execution at a block, and the professional badges kept under the same
    precompile address 0x0D. *)

From Stdlib Require Import ZArith Lia.
From S2P Require Import Prelude Sha256 Collections StateDB.
From stdpp Require Import gmap list.
Local Open Scope Z_scope.
Local Open Scope go_scope.

(** ** Data *)

Record ScheduledTask := mkTask {
  st_ID : bytes;
  st_Caller : bytes;
  st_FeedID : bytes;
  st_Interval : Z;
  st_NextBlock : Z;
  st_LastExecuted : Z;
  st_ExecutionCount : Z;
  st_MaxExecutions : Z;
  st_GasPrice : Z;
  st_Reward : Z;
  st_Active : bool;
}.

(** [TimeExecution]; [te_State] is the shared state database. *)
Record TimeExecution := mkTE {
  te_Tasks : gmap bytes ScheduledTask;
  te_TaskOrder : list bytes;
  te_State : World;
}.

Definition NewTimeExecution (w : World) : TimeExecution := mkTE ∅ [] w.

Definition addr0D : bytes := PrecompileAddrHex 13.
Definition task_count_key : bytes := storageKey [1].

Definition on_state (f : World -> World) (te : TimeExecution) : TimeExecution :=
  mkTE (te_Tasks te) (te_TaskOrder te) (f (te_State te)).
Definition put_task (t : ScheduledTask) (te : TimeExecution) : TimeExecution :=
  mkTE (<[st_ID t := t]> (te_Tasks te)) (te_TaskOrder te) (te_State te).

Definition deactivate (t : ScheduledTask) : ScheduledTask :=
  mkTask (st_ID t) (st_Caller t) (st_FeedID t) (st_Interval t) (st_NextBlock t)
    (st_LastExecuted t) (st_ExecutionCount t) (st_MaxExecutions t) (st_GasPrice t)
    (st_Reward t) false.
Definition executed_at (blockNum : Z) (t : ScheduledTask) : ScheduledTask :=
  mkTask (st_ID t) (st_Caller t) (st_FeedID t) (st_Interval t) (u64 (blockNum + st_Interval t))
    blockNum (u64 (st_ExecutionCount t + 1)) (st_MaxExecutions t) (st_GasPrice t)
    (st_Reward t) (st_Active t).

(** ** Task count *)

Definition task_count (w : World) : Z := readUint64 (slot w addr0D task_count_key).

Definition getTaskCount (te : TimeExecution) : Z * TimeExecution :=
  (task_count (te_State te), on_state (GetOrCreateAccount addr0D) te).

Definition incrementTaskCount (te : TimeExecution) : TimeExecution :=
  let te := on_state (GetOrCreateAccount addr0D) te in
  let '(n, te) := getTaskCount te in
  on_state (set_slot addr0D task_count_key (be_enc 32 (u64 (n + 1)))) te.

(** ** Scheduling *)

Definition task_id (caller feedID : bytes) (startBlock n : Z) : bytes :=
  Sha256.sum256 (caller ++ [58] ++ fmt_x feedID ++ [58] ++ fmt_d startBlock ++ [58] ++ fmt_d n).

Definition ScheduleTask (caller feedID : bytes) (interval startBlock maxExecutions reward : Z)
    (te : TimeExecution) : outcome (bytes * Z) * TimeExecution :=
  if interval <? 100 then (Err "interval must be >= 100 blocks", te) else
  let '(n, te) := getTaskCount te in
  let id := task_id caller feedID startBlock (u64 (n + 1)) in
  let task := mkTask id caller feedID interval startBlock 0 0 maxExecutions 0 reward true in
  let te := mkTE (<[id := task]> (te_Tasks te)) (te_TaskOrder te ++ [id]) (te_State te) in
  (Ok (id, startBlock), incrementTaskCount te).

Definition CancelTask (id caller : bytes) (te : TimeExecution) : outcome unit * TimeExecution :=
  match te_Tasks te !! id with
  | None => (Err "task not found", te)
  | Some t =>
      if negb (bool_decide (st_Caller t = caller)) then (Err "only caller can cancel", te)
      else (Ok tt, put_task (deactivate t) te)
  end.

(** ** Execution *)

(** One iteration of the loop: the task executed, if any. *)
Definition run_task (blockNum : Z) (id : bytes) : M TimeExecution (list bytes) := fun te =>
  match te_Tasks te !! id with
  | None => (Panic, te)
  | Some t =>
      if negb (st_Active t) then (Ok [], te)
      else if (0 <? st_MaxExecutions t) && (st_MaxExecutions t <=? st_ExecutionCount t)
      then (Ok [], put_task (deactivate t) te)
      else if st_NextBlock t <=? blockNum then
        let te := put_task (executed_at blockNum t) te in
        (Ok [id],
          if 0 <? st_Reward t
          then on_state (fun w => add_bal (st_Caller t) (st_Reward t)
                                   (GetOrCreateAccount (st_Caller t) w)) te
          else te)
      else (Ok [], te)
  end.

Fixpoint run_tasks (blockNum : Z) (order : list bytes) : M TimeExecution (list bytes) :=
  match order with
  | [] => mret []
  | id :: order =>
      let* a := run_task blockNum id in
      let* b := run_tasks blockNum order in
      mret (a ++ b)
  end.

Definition ExecuteDueTasks (blockNum : Z) : M TimeExecution (list bytes) := fun te =>
  run_tasks blockNum (te_TaskOrder te) te.

Definition GetTask (id : bytes) (te : TimeExecution) : option ScheduledTask := te_Tasks te !! id.

(** [te.Tasks[id]] along the insertion order; the order only lists known tasks. *)
Definition ordered_tasks (te : TimeExecution) : list ScheduledTask :=
  omap (fun id => te_Tasks te !! id) (te_TaskOrder te).
Definition GetActiveTasks (te : TimeExecution) : list ScheduledTask :=
  List.filter st_Active (ordered_tasks te).
Definition GetTasksDueAt (blockNum : Z) (te : TimeExecution) : list ScheduledTask :=
  List.filter (fun t => st_Active t && (st_NextBlock t =? blockNum)) (ordered_tasks te).

(** ** Professional badges *)

Definition professionalBadgeKey (oracle : bytes) : bytes := storageKey (18 :: oracle).
Definition profRewardKey (oracle : bytes) : bytes := storageKey (19 :: oracle).
Definition profEarnedKey (oracle : bytes) : bytes := storageKey (20 :: oracle).
Definition profApplicationKey (oracle profession : bytes) : bytes :=
  storageKey (21 :: oracle ++ profession).

Definition CalculateProfessionalReward (profession : bytes) : Z :=
  if bool_decide (profession = lit "geologist") then 100
  else if bool_decide (profession = lit "lawyer") then 80
  else if bool_decide (profession = lit "surveyor") then 60
  else if bool_decide (profession = lit "engineer") then 70 else 0.

Definition valid_profession (p : bytes) : bool :=
  existsb (fun q => bool_decide (q = p))
    (map lit ["geologist"; "lawyer"; "surveyor"; "engineer"]%string).

Definition ApplyForProfessionalBadge (profession licenseHash caller : bytes) : HM unit :=
  guard_err (negb (valid_profession profession)) "ProfessionalBadge: invalid profession %s" ;;;
  let* w := gets id in
  guard_err (match GetAccount w caller with None => true | Some a => DoxDevLevel a <? 2 end)
    "ProfessionalBadge: caller not verified (need Dox_Dev 2+)" ;;;
  touch addr0D ;;;
  sstore addr0D (profApplicationKey caller profession)
    (take 31 (copy_at 0 licenseHash zero32) ++ [1]).

Definition VerifyProfessionalBadge (profession caller : bytes) : HM bool :=
  let* w := gets id in
  match GetAccount w (PrecompileAddrHex 19) with
  | None => fail "ProfessionalBadge: DoxDevBadge contract not found"
  | Some badge =>
      guard_err (readUint64 (default zero32 (Storage badge !! storageKey (48 :: caller))) =? 0)
        "ProfessionalBadge: only curators can verify" ;;;
      let rewardRate := CalculateProfessionalReward profession in
      guard_err (rewardRate =? 0) "ProfessionalBadge: invalid profession %s" ;;;
      touch addr0D ;;;
      sstore addr0D (storageKey (22 :: caller)) (Sha256.sum256 profession) ;;;
      sstore addr0D (profRewardKey caller) (be_enc 32 rewardRate) ;;;
      mret true
  end.

(** ** Runs *)

Inductive te_step : TimeExecution -> TimeExecution -> Prop :=
| step_schedule caller feed interval start mx reward te :
    is_u64 interval -> is_u64 mx ->
    te_step te (ScheduleTask caller feed interval start mx reward te).2
| step_cancel id caller te : te_step te (CancelTask id caller te).2
| step_execute b te : te_step te (ExecuteDueTasks b te).2
| step_world f te : te_step te (on_state f te).

Inductive te_reachable : TimeExecution -> Prop :=
| te_new w : te_reachable (NewTimeExecution w)
| te_next te te' : te_reachable te -> te_step te te' -> te_reachable te'.

(** ** Lemmas *)

Definition task_ok (id : bytes) (t : ScheduledTask) : Prop :=
  st_ID t = id /\ 100 <= st_Interval t /\ 0 <= st_ExecutionCount t /\
  is_u64 (st_MaxExecutions t) /\
  (0 < st_MaxExecutions t -> st_ExecutionCount t <= st_MaxExecutions t).

Definition te_ok (te : TimeExecution) : Prop :=
  map_Forall task_ok (te_Tasks te) /\
  Forall (fun id => is_Some (te_Tasks te !! id)) (te_TaskOrder te).

Lemma put_task_ok t te :
  te_ok te -> task_ok (st_ID t) t -> te_ok (put_task t te).
Proof.
  intros [H1 H2] Ht. split; cbn; [by apply map_Forall_insert_2|].
  eapply Forall_impl; [exact H2|]. cbn. intros id Hid. rewrite lookup_insert.
  case_decide; [by eexists|done].
Qed.

Lemma on_state_ok f te : te_ok te -> te_ok (on_state f te).
Proof. done. Qed.

Lemma incrementTaskCount_tasks te :
  te_Tasks (incrementTaskCount te) = te_Tasks te /\
  te_TaskOrder (incrementTaskCount te) = te_TaskOrder te.
Proof. done. Qed.

Lemma deactivate_ok id t : task_ok id t -> task_ok id (deactivate t).
Proof. done. Qed.

Lemma run_task_ok b id te : te_ok te -> te_ok (run_task b id te).2.
Proof.
  intros Hte. unfold run_task. destruct (te_Tasks te !! id) as [t|] eqn:E; [|done].
  pose proof (proj1 Hte id t E) as (H1 & H2 & H3 & H4 & H5).
  destruct (negb (st_Active t)); [done|].
  destruct ((0 <? st_MaxExecutions t) && (st_MaxExecutions t <=? st_ExecutionCount t)) eqn:G.
  { apply put_task_ok; [done|]. cbn. by split_and!. }
  destruct (st_NextBlock t <=? b); [|done].
  assert (te_ok (put_task (executed_at b t) te)).
  { apply put_task_ok; [done|]. split_and!; cbn; try done; try apply u64_range.
    intros Hm. apply andb_false_iff in G as [G|G]; zbool; [lia|]. unfold is_u64 in H4.
    rewrite u64_small; unfold is_u64; lia. }
  case_match; by cbn.
Qed.

Lemma run_tasks_ok b order te : te_ok te -> te_ok (run_tasks b order te).2.
Proof.
  revert te. induction order as [|id order IH]; intros te Hte; [done|].
  cbn [run_tasks]. unfold mbind at 1, M_bind. pose proof (run_task_ok b id te Hte) as H1.
  destruct (run_task b id te) as [[a|e|] te1]; try done. cbn [snd] in H1.
  unfold mbind, M_bind. specialize (IH te1 H1). by destruct (run_tasks b order te1) as [[]].
Qed.

(** The loop does not dereference a missing task. *)
Lemma run_task_keys b id te id' :
  is_Some (te_Tasks te !! id') -> is_Some (te_Tasks (run_task b id te).2 !! id').
Proof.
  intros H. unfold run_task. repeat case_match; try done; cbn; rewrite lookup_insert;
    case_decide; done.
Qed.

Lemma run_tasks_returns b order te :
  Forall (fun id => is_Some (te_Tasks te !! id)) order ->
  exists l, (run_tasks b order te).1 = Ok l.
Proof.
  revert te. induction order as [|id order IH]; intros te Hall; [by eexists|].
  apply Forall_cons in Hall as [Hid Hall]. cbn [run_tasks]. unfold mbind at 1, M_bind.
  assert (exists a, (run_task b id te).1 = Ok a) as [a Ea].
  { unfold run_task. destruct Hid as [t ->]. repeat case_match; by eexists. }
  assert (Forall (fun k => is_Some (te_Tasks (run_task b id te).2 !! k)) order) as Hall1
    by (eapply Forall_impl; [exact Hall|]; cbn; intros; by apply run_task_keys).
  destruct (run_task b id te) as [o te1]. cbn [fst snd] in *. subst o.
  destruct (IH te1 Hall1) as [l El]. unfold mbind, M_bind.
  destruct (run_tasks b order te1) as [o te2]. cbn [fst] in El. subst o. by eexists.
Qed.

Lemma te_step_ok te te' : te_step te te' -> te_ok te -> te_ok te'.
Proof.
  intros [caller feed interval start mx reward te0 Hi Hm|id caller te0|b te0|f te0] Hte.
  - unfold ScheduleTask. destruct (Z.ltb_spec interval 100); [done|]. cbn [getTaskCount snd].
    set (t := mkTask _ _ _ _ _ _ _ _ _ _ _).
    assert (Hput : te_ok (put_task t (on_state (GetOrCreateAccount addr0D) te0))).
    { apply put_task_ok; [done|]. split_and!; cbn; try done; unfold is_u64 in *; lia. }
    destruct Hput as [P1 P2]. split; [exact P1|].
    apply Forall_app; split; [exact P2|]. constructor; [|done]. cbn.
    rewrite lookup_insert_eq. by eexists.
  - unfold CancelTask. destruct (te_Tasks te0 !! id) as [t|] eqn:E; [|done].
    case_match; [done|]. pose proof (proj1 Hte id t E) as Ht. cbn.
    apply put_task_ok; [done|]. destruct Ht as (H1 & H2). subst id. by split.
  - by apply run_tasks_ok.
  - done.
Qed.

Lemma te_reachable_ok te : te_reachable te -> te_ok te.
Proof.
  induction 1 as [w|te te' _ IH Hs]; [|by eapply te_step_ok].
  split; [apply map_Forall_empty|constructor].
Qed.

(** ** Properties *)

(** C31 (bounded execution).  In every reachable engine the due-task loop
    returns at every block, and no task has run more often than its limit. *)
Theorem reachable_tasks_bounded te b :
  te_reachable te ->
  (exists l, (ExecuteDueTasks b te).1 = Ok l) /\
  (forall id t, te_Tasks te !! id = Some t -> 0 < st_MaxExecutions t ->
   st_ExecutionCount t <= st_MaxExecutions t).
Proof.
  intros Hr. apply te_reachable_ok in Hr as [H1 H2]. split.
  - by apply run_tasks_returns.
  - intros id t Ht. by apply H1 in Ht as (_ & _ & _ & _ & H).
Qed.

(** One execution.  Running one task at block [b] executes it exactly when
    it is active, under its limit and due; it then waits a full interval, and
    its caller's balance grows by exactly the reward while nobody else's moves. *)
Theorem run_task_spec b id te t :
  te_ok te -> te_Tasks te !! id = Some t -> b + st_Interval t < 2 ^ 64 -> 0 <= b -> 0 <= st_Reward t ->
  let due := st_Active t && ((st_MaxExecutions t =? 0) || (st_ExecutionCount t <? st_MaxExecutions t))
             && (st_NextBlock t <=? b) in
  let '(r, te') := run_task b id te in
  r = Ok (if due then [id] else []) /\
  (forall a, bal (te_State te') a =
     bal (te_State te) a + (if due && bool_decide (a = st_Caller t) then st_Reward t else 0)) /\
  (due = true -> exists t', te_Tasks te' !! id = Some t' /\
     st_NextBlock t' = b + st_Interval t /\ b + 100 <= st_NextBlock t') /\
  (forall id', id' <> id -> te_Tasks te' !! id' = te_Tasks te !! id').
Proof.
  intros Hte E Hb Hb0 Hr due. pose proof (proj1 Hte id t E) as (H1 & H2 & H3 & H4 & H5).
  unfold run_task. rewrite E. subst due. destruct (st_Active t); cbn [negb andb].
  2: { split_and!; try done. intros a. lia. }
  unfold is_u64 in H4.
  assert (Hlim : (st_MaxExecutions t =? 0) || (st_ExecutionCount t <? st_MaxExecutions t) =
    negb ((0 <? st_MaxExecutions t) && (st_MaxExecutions t <=? st_ExecutionCount t))).
  { destruct (Z.eqb_spec (st_MaxExecutions t) 0), (Z.ltb_spec 0 (st_MaxExecutions t)),
      (Z.ltb_spec (st_ExecutionCount t) (st_MaxExecutions t)),
      (Z.leb_spec (st_MaxExecutions t) (st_ExecutionCount t)); try done; lia. }
  rewrite Hlim. destruct ((0 <? st_MaxExecutions t) && _); cbn [negb andb].
  { split_and!; try done; [intros a; cbn; lia|]. intros id' Hne. cbn. by rewrite lookup_insert_ne by congruence. }
  destruct (st_NextBlock t <=? b); cbn [andb].
  2: { split_and!; try done. intros a. lia. }
  assert (Hnext : te_Tasks (put_task (executed_at b t) te) !! id = Some (executed_at b t)).
  { cbn. rewrite H1. apply lookup_insert_eq. }
  assert (Hother : forall id', id' <> id ->
    te_Tasks (put_task (executed_at b t) te) !! id' = te_Tasks te !! id').
  { intros id' Hne. cbn. by rewrite lookup_insert_ne by congruence. }
  assert (Hint : st_NextBlock (executed_at b t) = b + st_Interval t).
  { cbn. apply u64_small. unfold is_u64. lia. }
  destruct (Z.ltb_spec 0 (st_Reward t)); split_and!; try done.
  - intros a. cbn. unfold add_bal. rewrite bal_set_bal. world_simpl.
    case_decide as Hd; [rewrite bool_decide_eq_true_2 by done; by subst|].
    rewrite bool_decide_eq_false_2 by congruence. lia.
  - intros _. exists (executed_at b t). rewrite Hint. split_and!; [done|done|lia].
  - intros a. cbn. case_match; lia.
  - intros _. exists (executed_at b t). rewrite Hint. split_and!; [done|done|lia].
Qed.

(** ** Witnesses *)

Definition demo_te : TimeExecution :=
  (ScheduleTask (lit "alice") (zeros 32) 100 5 2 7 (NewTimeExecution NewStateDB)).2.
Definition demo_task_id : bytes := task_id (lit "alice") (zeros 32) 5 1.
Definition demo_task : ScheduledTask :=
  mkTask demo_task_id (lit "alice") (zeros 32) 100 5 0 0 2 0 7 true.

Lemma demo_te_reachable : te_reachable demo_te.
Proof. eapply te_next; [apply te_new|]. apply step_schedule; unfold is_u64; lia. Qed.

Lemma reachable_tasks_bounded_witness : exists l, (ExecuteDueTasks 9 demo_te).1 = Ok l.
Proof. apply (reachable_tasks_bounded demo_te 9 demo_te_reachable). Defined.

Lemma run_task_spec_witness :
  bal (te_State (run_task 9 demo_task_id demo_te).2) (lit "alice") = 7.
Proof.
  pose proof (run_task_spec 9 demo_task_id demo_te demo_task
    (te_reachable_ok _ demo_te_reachable)) as H. cbv zeta in H.
  assert (E : te_Tasks demo_te !! demo_task_id = Some demo_task) by (vm_compute; reflexivity).
  specialize (H E ltac:(vm_compute; reflexivity) ltac:(lia) ltac:(vm_compute; discriminate)).
  destruct (run_task 9 demo_task_id demo_te) as [r te'] eqn:R.
  destruct H as (_ & H & _). cbn [snd]. rewrite H. vm_compute. reflexivity.
Defined.
