(* ===== verification/Governance.v ===== *)
(** The governance precompile (0x1D, evm/governance.go): proposals, votes,
    finalization with the inflation hook, prediction markets, and the curator
    election helpers.

    Calldata is a slice whose capacity is its length (the transaction decoder
    allocates it with [make]).  An [append] to a sub-slice of it therefore writes
    into the calldata itself while it fits; [append_into] models that. *)

From Stdlib Require Import ZArith Lia.
From S2P Require Import Prelude Sha256 GoFloat Collections StateDB Staking.
From stdpp Require Import gmap list.
Local Open Scope Z_scope.
Local Open Scope go_scope.

(** ** Constants *)

Definition VoteTypeDirect : Z := 0.
Definition VoteTypeQuadratic : Z := 1.
Definition VoteTypeFutarchy : Z := 2.
Definition VoteTypeInflation : Z := 3.
Definition ProposalStatusActive : Z := 1.
Definition ProposalStatusPassed : Z := 2.
Definition ProposalStatusFailed : Z := 3.
Definition DirectThreshold : Z := 50.
Definition QuadraticThreshold : Z := 60.
Definition FutarchyThreshold : Z := 66.

Definition addr1D : bytes := PrecompileAddrHex 29.
Definition addr13 : bytes := PrecompileAddrHex 19.

(** ** Keys *)

Definition govProposalKey (id : bytes) : bytes := storageKey (1 :: id).
Definition govDescriptionKey (id : bytes) : bytes := storageKey (16 :: id).
Definition govTargetKey (id : bytes) : bytes := storageKey (17 :: id).
Definition govCalldataKey (id : bytes) : bytes := storageKey (18 :: id).
Definition govVotesKey (id : bytes) : bytes := storageKey (19 :: id).
Definition govVoteRecordKey (id voter : bytes) : bytes := storageKey (2 :: id ++ voter).
Definition govCreditsKey (voter : bytes) : bytes := storageKey (3 :: voter).
Definition govMarketKey (id : bytes) : bytes := storageKey (4 :: id).
Definition govNoVotesKey (id : bytes) : bytes := storageKey (21 :: id).
Definition govTradeKey (id trader : bytes) : bytes := storageKey (20 :: id ++ trader).
Definition pidKey (idx : Z) : bytes := storageKey (lit "pid_" ++ fmt_d idx).
Definition proposalCountKey : bytes := storageKey (lit "proposal_count").

(** ** Aliased appends *)

(** [append(s, src...)] where [s] ends at offset [off] of [input]: the calldata
    afterwards, and whether the result still aliases it. *)
Definition append_into (off : nat) (src input : bytes) : bytes * bool :=
  if (off + length src <=? length input)%nat then (copy_at off src input, true)
  else (input, false).

(** [generateProposalID]: the digest, and the calldata it leaves behind. *)
Definition generateProposalID (titleHash caller : bytes) (blockNum : Z) : bytes :=
  Sha256.sum256 (titleHash ++ caller ++ fmt_d blockNum).
Definition clobber_proposal (caller : bytes) (blockNum : Z) (input : bytes) : bytes :=
  let '(input1, aliased) := append_into 37 caller input in
  if aliased then (append_into (37 + length caller) (fmt_d blockNum) input1).1 else input1.

Definition generateMarketID (proposalID : bytes) (blockNum : Z) : bytes :=
  Sha256.sum256 (proposalID ++ fmt_d blockNum).
Definition clobber_market (blockNum : Z) (input : bytes) : bytes :=
  (append_into 36 (fmt_d blockNum) input).1.

(** ** Handlers *)

Definition govCreateProposal (input caller : bytes) (blockNum : Z) : HM bytes :=
  guard_err (length input <? 121)%nat "Governance: createProposal input too short" ;;;
  let voteType := byte_at input 4 in
  let titleHash := take 32 (drop 5 input) in
  let calldataLen := big_u64 (readBigInt (readSlot input 89)) in
  let stop := i64 (121 + i64 calldataLen) in
  guard_err (Z.of_nat (length input) <? stop) "Governance: calldata exceeds input length" ;;;
  let* _ := must (slice input 121 stop) in
  let id := generateProposalID titleHash caller blockNum in
  let input := clobber_proposal caller blockNum input in
  let* calldata := must (slice input 121 stop) in
  touch addr1D ;;;
  sstore addr1D (govProposalKey id) (voteType :: ProposalStatusActive :: take 30 titleHash) ;;;
  sstore addr1D (govDescriptionKey id) (take 32 (drop 37 input)) ;;;
  sstore addr1D (govTargetKey id) (take 20 (drop 69 input) ++ zeros 12) ;;;
  sstore addr1D (govCalldataKey id) (copy_at 0 (take 32 calldata) zero32) ;;;
  let* count := gets (fun w => readBigInt (slot w addr1D proposalCountKey)) in
  sstore addr1D (pidKey (big_u64 count)) id ;;;
  sstore_big addr1D proposalCountKey (count + 1) ;;;
  sstore addr1D (govVotesKey id) zero32 ;;;
  addlog addr1D [storageKey (lit "ProposalCreated"); id] [voteType] blockNum ;;;
  mret id.

Definition govVote (input caller : bytes) : HM bytes :=
  guard_err (length input <? 69)%nat "Governance: vote input too short" ;;;
  let id := take 32 (drop 4 input) in
  let dir := byte_at input 36 in
  let credits := readBigInt (readSlot input 37) in
  touch addr1D ;;;
  let* prop := sload addr1D (govProposalKey id) in
  guard_err (bool_decide (prop = zero32)) "Governance: proposal not found" ;;;
  guard_err (negb (byte_at prop 1 =? ProposalStatusActive)) "Governance: proposal not active" ;;;
  let* record := sload addr1D (govVoteRecordKey id caller) in
  guard_err (negb (bool_decide (record = zero32))) "Governance: already voted" ;;;
  let* cb := must (fill_bytes 31 credits) in
  sstore addr1D (govVoteRecordKey id caller) (dir :: cb) ;;;
  let* votes := sload addr1D (govVotesKey id) in
  (if dir =? 1
   then sstore_fill addr1D (govVotesKey id) (readBigInt votes + 1)
   else
     let* no := sload addr1D (govNoVotesKey id) in
     sstore_fill addr1D (govNoVotesKey id) (readBigInt no + 1) ;;;
     sstore addr1D (govVotesKey id) votes) ;;;
  (if byte_at prop 0 =? VoteTypeQuadratic
   then
     let* cs := sload addr1D (govCreditsKey caller) in
     guard_err (readBigInt cs - credits <? 0) "Governance: insufficient credits" ;;;
     sstore_fill addr1D (govCreditsKey caller) (readBigInt cs - credits)
   else mret tt) ;;;
  addlog addr1D [storageKey (lit "VoteCast"); id] [dir] 0 ;;;
  mret (boolResult true).

Definition govGetProposal (input : bytes) : HM bytes :=
  guard_err (length input <? 36)%nat "Governance: getProposal input too short" ;;;
  touch addr1D ;;;
  let* prop := sload addr1D (govProposalKey (take 32 (drop 4 input))) in
  guard_err (bool_decide (prop = zero32)) "Governance: proposal not found" ;;;
  mret (byte_at prop 0 :: byte_at prop 1 :: copy_at 0 (take 30 (drop 2 prop)) (zeros 32)).

Definition govGetVote (input caller : bytes) : HM bytes :=
  guard_err (length input <? 36)%nat "Governance: getVote input too short" ;;;
  touch addr1D ;;;
  let* record := sload addr1D (govVoteRecordKey (take 32 (drop 4 input)) caller) in
  guard_err (bool_decide (record = zero32)) "Governance: vote not found" ;;;
  mret (byte_at record 0 :: copy_at 0 (take 31 (drop 1 record)) (zeros 32)).

Definition govGetCredits (caller : bytes) : HM bytes :=
  touch addr1D ;;;
  let* cs := sload addr1D (govCreditsKey caller) in
  must (fill_bytes 32 (readBigInt cs)).

Definition gov_threshold (voteType : Z) : Z :=
  if voteType =? VoteTypeDirect then DirectThreshold
  else if voteType =? VoteTypeQuadratic then QuadraticThreshold
  else if voteType =? VoteTypeFutarchy then FutarchyThreshold else 0.

Definition gov_passed (voteType yes no : Z) : bool :=
  (0 <? yes + no) && (gov_threshold voteType <? big_u64 (yes * 100 / (yes + no))).

(** The effect of a passed inflation proposal. *)
Definition apply_inflation (id : bytes) (blockNum : Z) : HM unit :=
  let* cd := sload addr1D (govCalldataKey id) in
  match CalldataToInflationPct (be_dec (take 4 cd)) with
  | Ok pct =>
      let applied := SetInflationPct pct in
      modify (with_inflation applied) ;;;
      addlog addr1D [storageKey (lit "InflationSet"); id]
        (uint32ToBytes (InflationPctToCalldata applied)) blockNum
  | _ => mret tt
  end.

Definition govFinalize (input : bytes) (blockNum : Z) : HM bytes :=
  guard_err (length input <? 36)%nat "Governance: finalize input too short" ;;;
  let id := take 32 (drop 4 input) in
  touch addr1D ;;;
  let* prop := sload addr1D (govProposalKey id) in
  guard_err (bool_decide (prop = zero32)) "Governance: proposal not found" ;;;
  guard_err (negb (byte_at prop 1 =? ProposalStatusActive)) "Governance: proposal not active" ;;;
  let voteType := byte_at prop 0 in
  let* yes := gets (fun w => readBigInt (slot w addr1D (govVotesKey id))) in
  let* no := gets (fun w => readBigInt (slot w addr1D (govNoVotesKey id))) in
  let passed := gov_passed voteType yes no in
  (if passed && (voteType =? VoteTypeInflation) then apply_inflation id blockNum else mret tt) ;;;
  sstore addr1D (govProposalKey id)
    (voteType :: (if passed then ProposalStatusPassed else ProposalStatusFailed) :: drop 2 prop) ;;;
  addlog addr1D [storageKey (lit "ProposalFinalized"); id] (boolToBytes passed) blockNum ;;;
  mret (boolResult passed).

Definition govCreateMarket (input : bytes) (blockNum : Z) : HM bytes :=
  guard_err (length input <? 68)%nat "Governance: createMarket input too short" ;;;
  let id := generateMarketID (take 32 (drop 4 input)) blockNum in
  let input := clobber_market blockNum input in
  touch addr1D ;;;
  sstore addr1D (govMarketKey id) (take 32 (drop 36 input)) ;;;
  addlog addr1D [storageKey (lit "MarketCreated"); id] [1] blockNum ;;;
  mret id.

Definition govTradeMarket (input caller : bytes) : HM bytes :=
  guard_err (length input <? 69)%nat "Governance: tradeMarket input too short" ;;;
  let id := take 32 (drop 4 input) in
  let side := byte_at input 36 in
  let amount := readBigInt (readSlot input 37) in
  touch addr1D ;;;
  let* ab := must (fill_bytes 31 amount) in
  sstore addr1D (govTradeKey id caller) (side :: ab) ;;;
  addlog addr1D [storageKey (lit "MarketTrade"); id] [side] 0 ;;;
  mret (boolResult true).

(** [governancePrecompile]. *)
Definition governancePrecompile : Handler := fun input caller blockNum =>
  if (length input <? 4)%nat then fail "Governance: input too short" else
  let sel := selectorBytes input in
  if sel =? 0xD1E2F3A4 then govCreateProposal input caller blockNum
  else if sel =? 0xE2F3A4B5 then govVote input caller
  else if sel =? 0xF3A4B5C6 then govGetProposal input
  else if sel =? 0xA4B5C6D7 then govGetVote input caller
  else if sel =? 0xB5C6D7E8 then govGetCredits caller
  else if sel =? 0xC6D7E8F9 then govFinalize input blockNum
  else if sel =? 0xD7E8F9A0 then govCreateMarket input blockNum
  else if sel =? 0xE8F9A0B1 then govTradeMarket input caller
  else fail "Governance: unknown selector 0x%08X".

(** ** Curators *)

Definition curator_key (who : bytes) : bytes := storageKey (48 :: who).
Definition badge_key (who : bytes) : bytes := storageKey (16 :: who).
Definition govCuratorApplicationKey (applicant : bytes) : bytes := storageKey (32 :: applicant).
Definition govCuratorVoteKey (id voter : bytes) : bytes := storageKey (33 :: id ++ voter).
Definition curator_slot : bytes := zeros 31 ++ [1].

Definition ApplyForCurator (caller : bytes) (blockNum : Z) : HM unit :=
  let* badge := gets (fun w => GetAccount w addr13) in
  match badge with
  | None => fail "Governance: DoxDevBadge contract not found"
  | Some b =>
      let data := default zero32 (Storage b !! badge_key caller) in
      guard_err (bool_decide (data = zero32))
        "Governance: caller not verified (need Dox_Dev 2+)" ;;;
      guard_err (byte_at data 0 <? 2) "Governance: caller level %d below minimum 2" ;;;
      guard_err (negb (readUint64 (default zero32 (Storage b !! curator_key caller)) =? 0))
        "Governance: caller is already a curator" ;;;
      touch addr1D ;;;
      sstore addr1D (govCuratorApplicationKey caller)
        (take 31 (Sha256.sum256 (caller ++ [58] ++ fmt_d blockNum)) ++ [0])
  end.

Definition score_of (scores : gmap bytes Z) (c : bytes) : Z := default 0 (scores !! c).

(** One voter's contribution: every candidate gets the whole count. *)
Definition add_votes (count : Z) (scores : gmap bytes Z) (c : bytes) : gmap bytes Z :=
  if 1000 <? u64 (score_of scores c + count) then <[c := 1000]> scores
  else <[c := u64 (score_of scores c + count)]> scores.

Definition count_voter (candidates : list bytes) (badge : Account)
    (scores : gmap bytes Z) (v : bytes * Z) : gmap bytes Z :=
  let data := default zero32 (Storage badge !! badge_key v.1) in
  if bool_decide (data = zero32) || (byte_at data 0 <? 2) then scores
  else fold_left (add_votes v.2) candidates scores.

Definition elect_one (c : bytes) : HM unit :=
  sstore addr1D (curator_key c) curator_slot ;;;
  touch addr13 ;;;
  sstore addr13 (curator_key c) curator_slot.

Fixpoint elect_all (scores : gmap bytes Z) (candidates : list bytes) : HM (list bytes) :=
  match candidates with
  | [] => mret []
  | c :: cs =>
      if 0 <? score_of scores c
      then elect_one c ;;; let* r := elect_all scores cs in mret (c :: r)
      else elect_all scores cs
  end.

Definition ElectCuratorCouncil `{MapRange} (candidates : list bytes) (votes : gmap bytes Z)
    : HM (list bytes) :=
  touch addr1D ;;;
  let* w := gets id in
  let start := fold_left (fun m c => <[c := 0]> m) candidates (∅ : gmap bytes Z) in
  match map_range votes, GetAccount w addr13 with
  | [], _ => elect_all start candidates
  | _, None => fail "Governance: DoxDevBadge contract not found"
  | voters, Some badge =>
      elect_all (fold_left (count_voter candidates badge) voters start) candidates
  end.

Fixpoint DistributeCuratorRewards_loop (baseReward : Z) (curators : list bytes) : HM unit :=
  match curators with
  | [] => mret tt
  | c :: cs =>
      let* bonus := gets (fun w => readUint64 (slot w addr1D (storageKey (34 :: c)))) in
      touch c ;;;
      modify (add_bal c (u64 (baseReward + bonus))) ;;;
      DistributeCuratorRewards_loop baseReward cs
  end.
Definition DistributeCuratorRewards (curators : list bytes) (baseReward : Z) : HM unit :=
  touch addr1D ;;; DistributeCuratorRewards_loop baseReward curators.

(** ** Lemmas *)

Lemma gov_passed_spec voteType yes no :
  0 <= yes -> 0 <= no ->
  gov_passed voteType yes no =
    bool_decide (0 < yes + no /\ (gov_threshold voteType + 1) * (yes + no) <= 100 * yes).
Proof.
  intros Hy Hn. unfold gov_passed.
  assert (0 <= gov_threshold voteType) by (unfold gov_threshold; repeat case_match; done).
  destruct (Z.ltb_spec 0 (yes + no)) as [Ht|Ht]; cbn [andb].
  2: { symmetry. apply bool_decide_eq_false. lia. }
  assert (Hq : 0 <= yes * 100 / (yes + no) <= 100).
  { split; [apply Z.div_pos; lia|]. apply Z.div_le_upper_bound; lia. }
  rewrite big_u64_small by (unfold is_u64; lia).
  pose proof (Z.mul_div_le (yes * 100) (yes + no) Ht).
  pose proof (Z.mul_succ_div_gt (yes * 100) (yes + no) Ht).
  destruct (Z.ltb_spec (gov_threshold voteType) (yes * 100 / (yes + no))); symmetry;
    [apply bool_decide_eq_true|apply bool_decide_eq_false]; nia.
Qed.

Lemma byte_at_cons0 x l : byte_at (x :: l) 0 = x. Proof. done. Qed.
Lemma byte_at_cons1 x y l : byte_at (x :: y :: l) 1 = y. Proof. done. Qed.

(** The hook writes nothing but the rate and the log. *)
Lemma apply_inflation_run id block w :
  (apply_inflation id block w).1 = Ok tt /\
  accounts (apply_inflation id block w).2 = accounts w /\
  (inflation (apply_inflation id block w).2 = inflation w \/
   exists pct, inflation (apply_inflation id block w).2 = SetInflationPct pct).
Proof.
  unfold apply_inflation. run_go.
  match goal with |- context [CalldataToInflationPct ?x] =>
    destruct (CalldataToInflationPct x) as [pct|e|] end; cbn; split_and!; try done; eauto.
Qed.

Lemma slot_accounts w w' a k : accounts w' = accounts w -> slot w' a k = slot w a k.
Proof. unfold slot, acct. by intros ->. Qed.
Lemma bal_accounts w w' a : accounts w' = accounts w -> bal w' a = bal w a.
Proof. unfold bal, acct. by intros ->. Qed.

(** The state a finalization leaves, as a function of the outcome of the hook. *)
Definition finalized (id : bytes) (block : Z) (passed : bool) (prop : bytes) (w : World) : World :=
  AddLog addr1D [storageKey (lit "ProposalFinalized"); id] (boolToBytes passed) block
    (set_slot addr1D (govProposalKey id)
      (byte_at prop 0 :: (if passed then ProposalStatusPassed else ProposalStatusFailed) ::
       drop 2 prop) w).

Lemma govFinalize_run input block w :
  let id := take 32 (drop 4 input) in
  let prop := slot w addr1D (govProposalKey id) in
  let passed := gov_passed (byte_at prop 0) (readBigInt (slot w addr1D (govVotesKey id)))
                  (readBigInt (slot w addr1D (govNoVotesKey id))) in
  (36 <= length input)%nat -> prop <> zero32 -> byte_at prop 1 = ProposalStatusActive ->
  govFinalize input block w =
    let w1 := GetOrCreateAccount addr1D w in
    let w2 := if passed && (byte_at prop 0 =? VoteTypeInflation)
              then (apply_inflation id block w1).2 else w1 in
    (Ok (boolResult passed), finalized id block passed prop w2).
Proof.
  intros id prop passed Hl Hne Hact. unfold govFinalize.
  replace (length input <? 36)%nat with false by (symmetry; apply Nat.ltb_ge; lia).
  run_go. rewrite !slot_touch. fold id. fold prop.
  rewrite bool_decide_eq_false_2 by done. rewrite Hact. cbn [Z.eqb Pos.eqb negb].
  change (ProposalStatusActive =? ProposalStatusActive) with true. cbn [negb].
  rewrite !slot_touch. fold passed.
  destruct (passed && (byte_at prop 0 =? VoteTypeInflation)); [|done].
  destruct (apply_inflation_run id block (GetOrCreateAccount addr1D w)) as (E & _ & _).
  destruct (apply_inflation id block (GetOrCreateAccount addr1D w)) as [o w2].
  cbn [fst snd] in *. by subst o.
Qed.

(** The preimages a vote uses. *)
Definition vote_preimages (id caller : bytes) : list bytes :=
  [1 :: id; 2 :: id ++ caller; 19 :: id; 21 :: id; 3 :: caller].

Lemma fill_bytes_31 v : 0 <= v < 2 ^ 248 -> fill_bytes 31 v = Some (be_enc 31 v).
Proof. intros. apply fill_bytes_ok. done. Qed.

Lemma vote_keys id caller :
  collision_free (vote_preimages id caller) ->
  govVoteRecordKey id caller <> govProposalKey id /\ govVoteRecordKey id caller <> govVotesKey id /\
  govVoteRecordKey id caller <> govNoVotesKey id /\ govVotesKey id <> govNoVotesKey id /\
  govVotesKey id <> govProposalKey id /\ govNoVotesKey id <> govProposalKey id.
Proof. intros Hc. split_and!; key_ne Hc. Qed.

(** The state an accepted ballot leaves. *)
Definition balloted (id caller : bytes) (dir credits : Z) (w : World) : World :=
  let yes := slot w addr1D (govVotesKey id) in
  let no := slot w addr1D (govNoVotesKey id) in
  let w1 := set_slot addr1D (govVoteRecordKey id caller) (dir :: be_enc 31 credits)
              (GetOrCreateAccount addr1D w) in
  AddLog addr1D [storageKey (lit "VoteCast"); id] [dir] 0
    (if dir =? 1 then set_slot addr1D (govVotesKey id) (be_enc 32 (readBigInt yes + 1)) w1
     else set_slot addr1D (govVotesKey id) yes
            (set_slot addr1D (govNoVotesKey id) (be_enc 32 (readBigInt no + 1)) w1)).

Section Ballot.
Context (input caller : bytes) (w : World).
Let id := take 32 (drop 4 input).
Let dir := byte_at input 36.
Let credits := readBigInt (readSlot input 37).
Let prop := slot w addr1D (govProposalKey id).
Let yes := readBigInt (slot w addr1D (govVotesKey id)).
Let no := readBigInt (slot w addr1D (govNoVotesKey id)).
Hypothesis Hlen : (69 <= length input)%nat.
Hypothesis Hfree : collision_free (vote_preimages id caller).
Hypothesis Hfound : prop <> zero32.
Hypothesis Hactive : byte_at prop 1 = ProposalStatusActive.
Hypothesis Hcr : 0 <= credits < 2 ^ 248.
Hypothesis Hyes : 0 <= yes < 2 ^ 256 - 1.
Hypothesis Hno : 0 <= no < 2 ^ 256 - 1.

Lemma short_false n : (n <= length input)%nat -> (length input <? n)%nat = false.
Proof. intros. by apply Nat.ltb_ge. Qed.

Lemma fill32 v : 0 <= v < 2 ^ 256 -> fill_bytes 32 v = Some (be_enc 32 v).
Proof. intros. by apply fill_bytes_ok. Qed.

Lemma govVote_run :
  byte_at prop 0 <> VoteTypeQuadratic -> slot w addr1D (govVoteRecordKey id caller) = zero32 ->
  govVote input caller w = (Ok (boolResult true), balloted id caller dir credits w).
Proof.
  intros Hq Hrec. destruct (vote_keys id caller Hfree) as (K1 & K2 & K3 & K4 & _).
  unfold govVote. rewrite short_false by done.
  run_go. fold id dir credits. rewrite !slot_touch. fold prop.
  rewrite bool_decide_eq_false_2, Hactive by done.
  change (ProposalStatusActive =? ProposalStatusActive) with true. cbn [negb].
  run_go. rewrite slot_touch, Hrec. rewrite bool_decide_eq_true_2 by done. cbn [negb].
  run_go. rewrite fill_bytes_31 by done. unfold must, sstore_fill. run_go.
  unfold balloted. fold yes no.
  assert (forall k, govVoteRecordKey id caller <> k ->
    slot (set_slot addr1D (govVoteRecordKey id caller) (dir :: be_enc 31 credits)
            (GetOrCreateAccount addr1D w)) addr1D k = slot w addr1D k) as Hread
    by (intros; by world_simpl).
  destruct (Z.eqb_spec (byte_at prop 0) VoteTypeQuadratic); [done|].
  destruct (dir =? 1); rewrite ?Hread by done; fold yes no; by rewrite fill32 by lia.
Qed.

Lemma balloted_slots :
  slot (balloted id caller dir credits w) addr1D (govVoteRecordKey id caller) =
    dir :: be_enc 31 credits /\
  slot (balloted id caller dir credits w) addr1D (govProposalKey id) = prop /\
  readBigInt (slot (balloted id caller dir credits w) addr1D (govVotesKey id)) =
    yes + (if dir =? 1 then 1 else 0) /\
  readBigInt (slot (balloted id caller dir credits w) addr1D (govNoVotesKey id)) =
    no + (if dir =? 1 then 0 else 1).
Proof.
  destruct (vote_keys id caller Hfree) as (K1 & K2 & K3 & K4 & K5 & K6).
  assert (Hdec : forall v, 0 <= v < 2 ^ 256 -> readBigInt (be_enc 32 v) = v)
    by (intros; by apply be_dec_enc_small).
  unfold balloted. fold yes no. destruct (dir =? 1); world_simpl; unfold prop;
    split_and!; try done; rewrite ?Z.add_0_r; try done; apply Hdec; lia.
Qed.

(** A recorded ballot that is not the empty slot is refused the next time. *)
Lemma ballot_refused w' :
  slot w' addr1D (govProposalKey id) = prop ->
  slot w' addr1D (govVoteRecordKey id caller) = dir :: be_enc 31 credits ->
  dir <> 0 \/ credits <> 0 ->
  govVote input caller w' = (Err "Governance: already voted", GetOrCreateAccount addr1D w').
Proof.
  intros Hp Hrec Hz. unfold govVote. rewrite short_false by done.
  run_go. fold id. rewrite !slot_touch, Hp.
  rewrite bool_decide_eq_false_2, Hactive by done.
  change (ProposalStatusActive =? ProposalStatusActive) with true. cbn [negb]. run_go.
  rewrite slot_touch, Hrec. rewrite bool_decide_eq_false_2; [done|].
  intros Hz0. change zero32 with (0 :: zeros 31) in Hz0.
  assert (Hd : dir = 0) by (by apply (f_equal (fun l => byte_at l 0)) in Hz0).
  assert (He : be_enc 31 credits = zeros 31) by (by apply (f_equal (drop 1)) in Hz0).
  destruct Hz as [Hz|Hz]; [done|]. apply Hz.
  apply (be_enc_inj 31); [exact Hcr|split; [done|done]|]. by rewrite be_enc_0.
Qed.

End Ballot.

(** ** Properties *)

(** C32 (finalization).  Finalizing an active proposal passes it exactly when
    votes were cast and the yes share reaches one point above the threshold of
    its type; the status becomes final, so a second call errors; no balance and
    no other slot changes; and the inflation rate either stays or is a clamped
    rate, and moves only for a passed inflation proposal. *)
Theorem govFinalize_spec input block block2 w :
  let id := take 32 (drop 4 input) in
  let prop := slot w addr1D (govProposalKey id) in
  let yes := readBigInt (slot w addr1D (govVotesKey id)) in
  let no := readBigInt (slot w addr1D (govNoVotesKey id)) in
  let passed := bool_decide (0 < yes + no /\
                  (gov_threshold (byte_at prop 0) + 1) * (yes + no) <= 100 * yes) in
  (36 <= length input)%nat -> prop <> zero32 -> byte_at prop 1 = ProposalStatusActive ->
  0 <= yes -> 0 <= no ->
  let '(r, w') := govFinalize input block w in
  r = Ok (boolResult passed) /\
  byte_at (slot w' addr1D (govProposalKey id)) 1 =
    (if passed then ProposalStatusPassed else ProposalStatusFailed) /\
  (govFinalize input block2 w').1 = Err "Governance: proposal not active" /\
  (forall a, bal w' a = bal w a) /\
  (forall a k, a <> addr1D \/ k <> govProposalKey id -> slot w' a k = slot w a k) /\
  (inflation w' = inflation w \/
   (passed = true /\ byte_at prop 0 = VoteTypeInflation /\
    F64.ltb (inflation w') MinAnnualInflationPct = false /\
    F64.ltb MaxAnnualInflationPct (inflation w') = false)).
Proof.
  intros id prop yes no passed Hl Hne Hact Hy Hn.
  rewrite govFinalize_run by done. fold id prop yes no. rewrite gov_passed_spec by done.
  fold passed. cbv zeta.
  set (w1 := GetOrCreateAccount addr1D w).
  set (w2 := if passed && _ then _ else _).
  assert (Hacc : accounts w2 = accounts w1).
  { subst w2. destruct (passed && _); [|done]. apply apply_inflation_run. }
  assert (Hslot : slot (finalized id block passed prop w2) addr1D (govProposalKey id) =
    byte_at prop 0 :: (if passed then ProposalStatusPassed else ProposalStatusFailed) :: drop 2 prop)
    by (unfold finalized; by world_simpl).
  split_and!; try done.
  - by rewrite Hslot.
  - unfold govFinalize. replace (length input <? 36)%nat with false by (symmetry; apply Nat.ltb_ge; lia).
    run_go. rewrite slot_touch. fold id. rewrite Hslot.
    rewrite bool_decide_eq_false_2 by (by destruct passed). by destruct passed.
  - intros a. unfold finalized. world_simpl. rewrite (bal_accounts _ _ _ Hacc). unfold w1. by world_simpl.
  - intros a k Hak. unfold finalized. world_simpl. rewrite slot_set_ne by naive_solver.
    rewrite (slot_accounts _ _ _ _ Hacc). unfold w1. by world_simpl.
  - cbn [finalized inflation AddLog with_logs set_slot upd_acct with_accounts].
    assert (Hw1 : inflation w1 = inflation w) by apply inflation_touch.
    subst w2. destruct passed; cbn [andb]; [|by left].
    destruct (Z.eqb_spec (byte_at prop 0) VoteTypeInflation) as [E|E]; [|by left].
    destruct (apply_inflation_run id block w1) as (_ & _ & [H|[pct H]]); rewrite H; [by left|].
    right. split_and!; [done|done|apply SetInflationPct_ltb|apply SetInflationPct_ltb].
Qed.

(** Voting.  On an active proposal of a type that charges no credits, a
    first ballot is accepted, adds one to exactly the tally it names, and is
    recorded; unless the ballot is all zero, the same voter is then refused and
    the refusal changes no slot. *)
Theorem govVote_spec input caller w :
  let id := take 32 (drop 4 input) in
  let dir := byte_at input 36 in
  let credits := readBigInt (readSlot input 37) in
  let prop := slot w addr1D (govProposalKey id) in
  let yes := readBigInt (slot w addr1D (govVotesKey id)) in
  let no := readBigInt (slot w addr1D (govNoVotesKey id)) in
  (69 <= length input)%nat -> collision_free (vote_preimages id caller) ->
  prop <> zero32 -> byte_at prop 1 = ProposalStatusActive ->
  byte_at prop 0 <> VoteTypeQuadratic ->
  slot w addr1D (govVoteRecordKey id caller) = zero32 -> 0 <= credits < 2 ^ 248 ->
  0 <= yes -> yes + 1 < 2 ^ 256 -> 0 <= no -> no + 1 < 2 ^ 256 ->
  let '(r, w') := govVote input caller w in
  r = Ok (boolResult true) /\
  readBigInt (slot w' addr1D (govVotesKey id)) = yes + (if dir =? 1 then 1 else 0) /\
  readBigInt (slot w' addr1D (govNoVotesKey id)) = no + (if dir =? 1 then 0 else 1) /\
  slot w' addr1D (govVoteRecordKey id caller) = dir :: be_enc 31 credits /\
  (dir <> 0 \/ credits <> 0 ->
   let '(r2, w2) := govVote input caller w' in
   r2 = Err "Governance: already voted" /\ forall a k, slot w2 a k = slot w' a k).
Proof.
  intros id dir credits prop yes no Hl Hc Hne Hact Hq Hrec Hcr Hy Hy2 Hn Hn2.
  assert (0 <= yes < 2 ^ 256 - 1) as By by lia. assert (0 <= no < 2 ^ 256 - 1) as Bn by lia.
  rewrite (govVote_run input caller w Hl Hc Hne Hact Hcr By Bn Hq Hrec).
  destruct (balloted_slots input caller w Hl Hc By Bn) as (S1 & S2 & S3 & S4).
  split_and!; try done. intros Hz.
  rewrite (ballot_refused input caller w Hl Hne Hact Hcr _ S2 S1 Hz).
  split; [done|]. intros a k. by rewrite slot_touch.
Qed.

(** ** What the code does that its comments do not say *)

Definition gov_call (sel : Z) (rest : bytes) : bytes := be_enc 4 sel ++ rest.
Definition demo_id32 : bytes := be_enc 32 5.
Definition gov_world : World :=
  set_slot addr1D (govProposalKey demo_id32) (0 :: 1 :: zeros 30) NewStateDB.
Definition vote_call (dir credits : Z) : bytes :=
  gov_call 0xE2F3A4B5 (demo_id32 ++ [dir] ++ be_enc 32 credits).

(** A "no" ballot with zero credits is recorded as the empty slot, so the same
    address can cast it again and again. *)
Lemma empty_ballots_repeat :
  let w1 := (governancePrecompile (vote_call 0 0) (lit "aa") 1 gov_world).2 in
  let w2 := (governancePrecompile (vote_call 0 0) (lit "aa") 1 w1).2 in
  readBigInt (slot w2 addr1D (govNoVotesKey demo_id32)) = 2.
Proof. vm_compute. reflexivity. Qed.

(** A quadratic ballot without the credits returns an error but has already been
    counted. *)
Definition quad_world : World :=
  set_slot addr1D (govProposalKey demo_id32) (1 :: 1 :: zeros 30) NewStateDB.
Lemma failed_ballot_counts :
  let '(r, w) := governancePrecompile (vote_call 1 9) (lit "aa") 1 quad_world in
  r = Err "Governance: insufficient credits" /\
  readBigInt (slot w addr1D (govVotesKey demo_id32)) = 1.
Proof. vm_compute. done. Qed.

(** The proposal identifier is computed by appending to a sub-slice of the
    calldata, so the stored description begins with the caller and the block
    number instead of the description hash. *)
Definition create_call : bytes :=
  gov_call 0xD1E2F3A4 ([0] ++ be_enc 32 7 ++ replicate 32 255 ++ replicate 20 9 ++ be_enc 32 0).
Lemma description_is_clobbered :
  let '(r, w) := governancePrecompile create_call (lit "alice") 12 NewStateDB in
  match r with
  | Ok id => take 7 (slot w addr1D (govDescriptionKey id)) = lit "alice12"
  | _ => False
  end.
Proof. vm_compute. reflexivity. Qed.

(** ** Witnesses *)

Lemma govFinalize_spec_witness :
  (govFinalize (gov_call 0xC6D7E8F9 demo_id32) 1
     (set_slot addr1D (govVotesKey demo_id32) (be_enc 32 3) gov_world)).1 = Ok (boolResult true).
Proof.
  pose proof (govFinalize_spec (gov_call 0xC6D7E8F9 demo_id32) 1 2
    (set_slot addr1D (govVotesKey demo_id32) (be_enc 32 3) gov_world)) as H.
  cbv zeta in H.
  destruct (govFinalize (gov_call 0xC6D7E8F9 demo_id32) 1 _) as [r w'].
  apply proj1 in H; [|vm_compute; lia|vm_compute; discriminate|vm_compute; reflexivity
                     |vm_compute; discriminate|vm_compute; discriminate].
  cbn [fst]. rewrite H. vm_compute. reflexivity.
Defined.

Lemma govVote_spec_witness :
  readBigInt (slot (govVote (vote_call 1 0) (lit "aa") gov_world).2 addr1D
    (govVotesKey demo_id32)) = 1.
Proof.
  pose proof (govVote_spec (vote_call 1 0) (lit "aa") gov_world) as H. cbv zeta in H.
  change (take 32 (drop 4 (vote_call 1 0))) with demo_id32 in H.
  destruct (govVote (vote_call 1 0) (lit "aa") gov_world) as [r w'].
  apply proj2, proj1 in H; cbn [snd].
  - rewrite H. vm_compute. reflexivity.
  - apply Nat.leb_le. vm_compute. reflexivity.
  - apply collision_free_nodup. vm_compute. reflexivity.
  - vm_compute. discriminate.
  - vm_compute. reflexivity.
  - vm_compute. discriminate.
  - vm_compute. reflexivity.
  - vm_compute. split; [discriminate|reflexivity].
  - vm_compute. discriminate.
  - vm_compute. reflexivity.
  - vm_compute. discriminate.
  - vm_compute. reflexivity.
Defined.
