(* ===== verification/OraclePre.v ===== *)
(** The oracle and signature precompiles (0x0C-0x12 of evm/precompiles.go, with
    evm/crypto_verify.go): median aggregation of signed reports, scheduling,
    signature checks, guardian recovery and the rent estimate.

    [ed25519] verification itself is library code: the section variable
    [verify pub msg sig], about which nothing is assumed. *)

From Stdlib Require Import ZArith Lia.
From S2P Require Import Prelude Sha256 Collections StateDB Scheduler.
From stdpp Require Import gmap list.
Local Open Scope Z_scope.
Local Open Scope go_scope.

Section Oracle.
Context (verify : bytes -> bytes -> bytes -> bool).
Context `{SortSlice}.

(** ** crypto_verify.go *)

Definition verifyEd25519Sig (pub msg sig : bytes) : outcome bool :=
  if negb (length pub =? 32)%nat then Err "verifyEd25519Sig: pubkey must be %d bytes, got %d"
  else if negb (length sig =? 64)%nat
  then Err "verifyEd25519Sig: signature must be %d bytes, got %d"
  else Ok (verify pub msg sig).

(** A 32-byte key gives 64 digits, of which the first 40 are the address. *)
Definition addrFromPubKey (pub : bytes) : bytes := take 40 (fmt_x pub).

Definition hashToBytes (data : list bytes) : bytes := Sha256.sum256 (concat data).

Definition medianBig (vals : list Z) : Z :=
  match vals with
  | [] => 0
  | _ => nth (length vals / 2) (sort_slice Z.ltb vals) 0
  end.

(** A report counts when its account is badged and its signature verifies. *)
Definition attested (w : World) (pub msg sig : bytes) : bool :=
  match GetAccount w (addrFromPubKey pub) with
  | None => false
  | Some acc =>
      negb (DoxDevLevel acc <? 2) &&
      match verifyEd25519Sig pub msg sig with Ok b => b | _ => false end
  end.

(** ** 0x0C OracleAggregator *)

Record report := mkReport { rp_pub : bytes; rp_value : Z; rp_hash : bytes; rp_sig : bytes }.

(** The [i]th 160-byte record after the count byte. *)
Definition report_at (input : bytes) (i : nat) : report :=
  let rec := drop (1 + 160 * i) input in
  mkReport (take 32 rec) (be_dec (take 32 (drop 32 rec))) (take 32 (drop 64 rec))
    (take 64 (drop 96 rec)).

Definition reports (input : bytes) (count : nat) : list report :=
  map (report_at input) (seq 0 count).

Definition accepted (w : World) (rs : list report) : list report :=
  List.filter (fun r => attested w (rp_pub r) (rp_hash r) (rp_sig r)) rs.

Definition oracleAggregator : Handler := fun input _ _ =>
  guard_err (length input <? 1)%nat "OracleAggregator: empty input" ;;;
  let count := byte_at input 0 in
  guard_err (count <? 1) "OracleAggregator: need at least 1 oracle" ;;;
  let count := if 10 <? count then 10 else count in
  guard_err (Z.of_nat (length input) <? 1 + count * 160)
    "OracleAggregator: input too short (need %d bytes, got %d)" ;;;
  let* good := gets (fun w => accepted w (reports input (Z.to_nat count))) in
  let confidence := u8 (Z.of_nat (length good) * 100 / count) in
  let* median := must (fill_bytes 32 (medianBig (map rp_value good))) in
  mret (confidence :: median).

(** ** 0x0D OracleScheduler *)

(** The engine is built for this call; what outlives it is its state. *)
Definition oracleScheduler : Handler := fun input caller blockNum =>
  guard_err (length input <? 56)%nat "OracleScheduler: input too short (need 56 bytes)" ;;;
  let interval := big_u64 (be_dec (take 8 input)) in
  let startBlock := big_u64 (be_dec (take 8 (drop 8 input))) in
  let feedID := take 32 (drop 16 input) in
  let maxExecutions := big_u64 (be_dec (take 8 (drop 48 input))) in
  let reward := if (64 <=? length input)%nat
                then big_u64 (be_dec (take 8 (drop 56 input))) else 0 in
  guard_err (interval <? 100) "OracleScheduler: interval too short (min 100 blocks)" ;;;
  let startBlock := if startBlock <? blockNum then blockNum else startBlock in
  fun w =>
    let '(r, te) := ScheduleTask caller feedID interval startBlock maxExecutions reward
                      (NewTimeExecution w) in
    match r with
    | Ok (id, next) => (Ok (id ++ be_enc 8 next), te_State te)
    | Err e => (Err e, te_State te)
    | Panic => (Panic, te_State te)
    end.

(** ** 0x0E OracleVerifier, 0x0F TLSVerifier, 0x10 AggregateSignatureVerify *)

Definition oracleVerifier : Handler := fun input _ _ =>
  guard_err (length input <? 128)%nat "OracleVerifier: input too short (need %d bytes)" ;;;
  let pub := take 32 input in
  let* acc := gets (fun w => GetAccount w (addrFromPubKey pub)) in
  match acc with
  | None => mret [0]
  | Some a =>
      if DoxDevLevel a <? 2 then mret [0] else
      match verifyEd25519Sig pub (take 32 (drop 32 input)) (take 64 (drop 64 input)) with
      | Ok b => mret [bool_byte b]
      | Err e => fail e
      | Panic => panic
      end
  end.

Definition tlsVerifier : Handler := fun input _ _ =>
  guard_err (length input <? 160)%nat "TLSVerifier: input too short (need %d bytes)" ;;;
  let origin := take 32 (drop 32 input) in
  match verifyEd25519Sig (take 32 input) (origin ++ take 32 (drop 64 input))
          (take 64 (drop 96 input)) with
  | Ok true => mret (1 :: origin)
  | Ok false => mret (zeros 33)
  | Err e => fail e
  | Panic => panic
  end.

Definition blsVerify : Handler := fun input _ _ =>
  guard_err (length input <? 128)%nat
    "AggregateSignatureVerify: input too short (need %d bytes)" ;;;
  match verifyEd25519Sig (take 32 input) (take 32 (drop 32 input)) (take 64 (drop 64 input)) with
  | Ok b => mret [bool_byte b]
  | Err e => fail e
  | Panic => panic
  end.

(** ** 0x11 AccountRecovery *)

Definition guardian_ok (w : World) (input : bytes) (i : nat) : bool :=
  let rec := drop (64 + 96 * i) input in
  attested w (take 32 rec) (take 64 input) (take 64 (drop 32 rec)).

Definition owner_pubkey_key : bytes := copy_at 0 (lit "owner-pubkey") zero32.

Definition accountRecovery : Handler := fun input _ _ =>
  guard_err (length input <? 352)%nat "AccountRecovery: input too short (need %d bytes)" ;;;
  let* w := gets id in
  let valid := length (List.filter (guardian_ok w input) (seq 0 3)) in
  guard_err (valid <? 3)%nat
    "AccountRecovery: insufficient guardian approvals (need 3, got %d)" ;;;
  let targetAddr := addrFromPubKey (take 32 input) in
  let newOwner := take 32 (drop 32 input) in
  touch targetAddr ;;;
  sstore targetAddr owner_pubkey_key newOwner ;;;
  mret (take 20 (addrFromPubKey newOwner) ++ [1]).

(** ** 0x12 StateRent estimate *)

Definition stateRentCalc : Handler := fun input _ blockNum =>
  guard_err (length input <? 28)%nat "StateRent: input too short (need 28 bytes)" ;;;
  let addr := fmt_x (take 20 input) in
  let contractSize := big_u64 (be_dec (take 8 (drop 20 input))) in
  let* acc := gets (fun w => GetAccount w addr) in
  let blocksSinceLast := match acc with
    | Some a => if 0 <? LastRentPayment a then u64 (blockNum - LastRentPayment a) else blockNum
    | None => blockNum
    end in
  let rentDue := u64 (contractSize * blocksSinceLast) / 1000 in
  let rentDue := if rentDue =? 0 then 1 else rentDue in
  mret (be_enc 32 rentDue ++ be_enc 8 blocksSinceLast).

End Oracle.

(** ** Lemmas: the median *)

#[export] Instance Zltb_strict : StrictWeak Z.ltb.
Proof.
  split.
  - intros x. apply Z.ltb_irrefl.
  - intros x y z. rewrite !Z.ltb_lt. lia.
  - intros x y z. rewrite !Z.ltb_lt. lia.
Qed.

Definition within (lo hi x : Z) : bool := (lo <=? x) && (x <=? hi).
Definition count_if {A} (p : A -> bool) (l : list A) : nat := length (List.filter p l).

Lemma count_if_perm {A} (p : A -> bool) l l' : Permutation l l' -> count_if p l = count_if p l'.
Proof.
  unfold count_if. induction 1; simpl; try done; repeat case_match; simpl; congruence.
Qed.

Lemma count_if_app {A} (p : A -> bool) l l' : count_if p (l ++ l') = (count_if p l + count_if p l')%nat.
Proof. unfold count_if. by rewrite List.filter_app, length_app. Qed.

Lemma count_if_le {A} (p : A -> bool) l : (count_if p l <= length l)%nat.
Proof. unfold count_if. induction l as [|x l IH]; simpl; [done|]. destruct (p x); simpl; lia. Qed.

Lemma count_if_none {A} (p : A -> bool) l : Forall (fun x => p x = false) l -> count_if p l = 0%nat.
Proof. unfold count_if. induction 1 as [|x l Hx _ IH]; simpl; [done|]. by rewrite Hx. Qed.

Lemma sorted_split (l : list Z) (i : nat) m :
  sorted_by Z.ltb l -> l !! i = Some m ->
  Forall (fun x => x <= m) (take (S i) l) /\ Forall (fun x => m <= x) (drop i l).
Proof.
  unfold sorted_by. intros Hs. revert i. induction Hs as [|y l Hs IH Hall]; intros [|i] Hi; try done.
  - injection Hi as ->. simpl. rewrite take_0. split; [repeat constructor; lia|].
    constructor; [lia|]. eapply Forall_impl; [exact Hall|]. cbn. intros x Hx.
    apply Z.ltb_ge in Hx. lia.
  - simpl in Hi. destruct (IH i Hi) as [H1 H2]. split; [|exact H2].
    change (take (S (S i)) (y :: l)) with (y :: take (S i) l). constructor; [|exact H1].
    rewrite Forall_forall in Hall.
    pose proof (Hall m (list_elem_of_lookup_2 _ _ _ Hi)) as Hm. cbn in Hm.
    apply Z.ltb_ge in Hm. lia.
Qed.

(** A strict majority of the values inside an interval pins the median there. *)
Lemma median_majority `{SortSlice} vals lo hi :
  (length vals < 2 * count_if (within lo hi) vals)%nat ->
  lo <= medianBig vals <= hi.
Proof.
  intros Hmaj. unfold medianBig. destruct vals as [|v vs] eqn:Ev; [cbn in Hmaj; lia|].
  rewrite <- Ev in *. pose proof (sort_slice_perm Z.ltb vals) as Hp.
  pose proof (sort_slice_sorted Z.ltb vals _) as Hsorted.
  set (s := sort_slice Z.ltb vals) in *.
  assert (Hlen : length s = length vals) by (by apply Permutation_length).
  assert (Hpos : (0 < length vals)%nat) by (subst vals; simpl; lia).
  assert (Hi : (length vals / 2 < length s)%nat).
  { rewrite Hlen. apply Nat.div_lt; lia. }
  destruct (lookup_lt_is_Some_2 s _ Hi) as [m Hm].
  rewrite (nth_lookup_Some s _ 0 m Hm).
  destruct (sorted_split s _ m Hsorted Hm) as [Hlo Hhi].
  rewrite <- (count_if_perm _ _ _ Hp) in Hmaj.
  pose proof (Nat.div_mod (length vals) 2). pose proof (Nat.mod_upper_bound (length vals) 2).
  split.
  - destruct (Z.lt_ge_cases m lo) as [Hlt|]; [exfalso|done].
    rewrite <- (take_drop (S (length vals / 2)) s), count_if_app in Hmaj.
    rewrite count_if_none in Hmaj.
    + pose proof (count_if_le (within lo hi) (drop (S (length vals / 2)) s)) as Hc.
      rewrite length_drop in Hc. lia.
    + eapply Forall_impl; [exact Hlo|]. cbn. intros x Hx. unfold within.
      destruct (Z.leb_spec lo x); [lia|done].
  - destruct (Z.lt_ge_cases hi m) as [Hlt|]; [exfalso|done].
    rewrite <- (take_drop (length vals / 2) s), count_if_app in Hmaj.
    rewrite (count_if_none _ (drop _ s)) in Hmaj.
    + pose proof (count_if_le (within lo hi) (take (length vals / 2) s)) as Hc.
      rewrite length_take in Hc. lia.
    + eapply Forall_impl; [exact Hhi|]. cbn. intros x Hx. unfold within.
      destruct (Z.leb_spec x hi); [lia|]. by rewrite andb_false_r.
Qed.

Section Properties.
Context (verify : bytes -> bytes -> bytes -> bool).
Context `{SortSlice}.

Lemma oracleAggregator_run input caller block w out w' :
  oracleAggregator verify input caller block w = (Ok out, w') ->
  let count := Z.min 10 (byte_at input 0) in
  let good := accepted verify w (reports input (Z.to_nat count)) in
  w' = w /\ 1 <= count /\
  exists med, fill_bytes 32 (medianBig (map rp_value good)) = Some med /\
  out = u8 (Z.of_nat (length good) * 100 / count) :: med.
Proof.
  intros Hrun count good. unfold oracleAggregator in Hrun.
  assert (Hcount : (if 10 <? byte_at input 0 then 10 else byte_at input 0) = count).
  { subst count. destruct (Z.ltb_spec 10 (byte_at input 0)); lia. }
  rewrite Hcount in Hrun. inv_go Hrun. zbool.
  split_and!; [done|subst count; lia|]. by eexists.
Qed.

Lemma accepted_length w input n :
  (length (accepted verify w (reports input n)) <= n)%nat.
Proof.
  unfold accepted, reports. pose proof (count_if_le
    (fun r => attested verify w (rp_pub r) (rp_hash r) (rp_sig r)) (map (report_at input) (seq 0 n))) as Hle.
  rewrite length_map, length_seq in Hle. exact Hle.
Qed.

(** C33 (oracle aggregation).  A successful aggregation leaves the state alone;
    the confidence is the percentage of reports accepted, never above 100; and
    whenever a strict majority of the accepted values lies in an interval, so
    does the reported median, for any sorting algorithm. *)
Theorem oracleAggregator_sound input caller block w out w' lo hi :
  oracleAggregator verify input caller block w = (Ok out, w') ->
  let count := Z.min 10 (byte_at input 0) in
  let good := accepted verify w (reports input (Z.to_nat count)) in
  w' = w /\
  byte_at out 0 = Z.of_nat (length good) * 100 / count /\ 0 <= byte_at out 0 <= 100 /\
  (0 <= lo -> hi < 2 ^ 256 ->
   (length good < 2 * count_if (within lo hi) (map rp_value good))%nat ->
   lo <= be_dec (drop 1 out) <= hi).
Proof.
  intros Hrun count good.
  destruct (oracleAggregator_run _ _ _ _ _ _ Hrun) as (-> & Hc & med & Hmed & ->).
  fold count good in Hmed |- *. fold count in Hc.
  assert (Hle : Z.of_nat (length good) <= count).
  { pose proof (accepted_length w input (Z.to_nat count)). subst good. lia. }
  assert (Hq : 0 <= Z.of_nat (length good) * 100 / count <= 100).
  { split; [apply Z.div_pos; lia|]. apply Z.div_le_upper_bound; lia. }
  split_and!; [done| | | |].
  - cbn. apply Z.mod_small. lia.
  - cbn. unfold u8. rewrite Z.mod_small; lia.
  - cbn. unfold u8. rewrite Z.mod_small; lia.
  - intros Hlo Hhi Hmaj. rewrite <- (length_map rp_value good) in Hmaj.
    apply median_majority in Hmaj. clear Hq Hle.
    rewrite fill_bytes_ok in Hmed by (change (256 ^ Z.of_nat 32) with (2 ^ 256); lia).
    assert (med = be_enc 32 (medianBig (map rp_value good))) as -> by congruence.
    rewrite skipn_cons, drop_0.
    rewrite be_dec_enc_small by (change (256 ^ Z.of_nat 32) with (2 ^ 256); lia). exact Hmaj.
Qed.

(** C34 (recovery).  An account is re-keyed only when each of the three guardian
    records verifies for a badged account, and the call changes nothing but the
    owner slot of the target. *)
Theorem accountRecovery_spec input caller block w :
  (352 <= length input)%nat ->
  let target := addrFromPubKey (take 32 input) in
  let approved := forallb (guardian_ok verify w input) [0; 1; 2]%nat in
  let '(r, w') := accountRecovery verify input caller block w in
  is_ok r = approved /\
  (approved = true ->
   slot w' target owner_pubkey_key = take 32 (drop 32 input) /\
   (forall a k, a <> target \/ k <> owner_pubkey_key -> slot w' a k = slot w a k)) /\
  (approved = false -> w' = w) /\ (forall a, bal w' a = bal w a).
Proof.
  intros Hl target approved. unfold accountRecovery.
  replace (length input <? 352)%nat with false by (symmetry; apply Nat.ltb_ge; lia).
  run_go. fold target.
  assert (Hcount : (length (List.filter (guardian_ok verify w input) (seq 0 3)) <? 3)%nat
                   = negb approved).
  { subst approved. cbn. by destruct (guardian_ok verify w input 0),
      (guardian_ok verify w input 1), (guardian_ok verify w input 2). }
  change (id w) with w. rewrite Hcount. destruct approved; cbn [negb].
  - split_and!; try done.
    + intros _. split; [by world_simpl|]. intros a k Hak.
      rewrite slot_set_ne by (destruct Hak; [by left; congruence|by right; congruence]).
      by world_simpl.
    + intros a. by world_simpl.
  - by split_and!.
Qed.

End Properties.

(** ** What the code does that its comments do not say *)

Definition any_sig : bytes -> bytes -> bytes -> bool := fun _ _ _ => true.
Definition gkey : bytes := replicate 32 7.
Definition one_guardian : World :=
  upd_acct (addrFromPubKey gkey) (with_level 2) NewStateDB.
Definition guardian_record : bytes := gkey ++ zeros 64.

(** "On 3 valid approvals": the three records may be the same guardian's. *)
Lemma one_guardian_recovers :
  is_ok (accountRecovery any_sig
    (replicate 32 1 ++ replicate 32 2 ++ guardian_record ++ guardian_record ++ guardian_record)
    (lit "x") 1 one_guardian).1 = true.
Proof. vm_compute. reflexivity. Qed.

(** A scheduled task lives in an engine that is dropped when the precompile
    returns: a later engine over the same state has nothing to execute. *)
Lemma scheduled_task_is_lost block w :
  (ExecuteDueTasks block (NewTimeExecution w)).1 = Ok [].
Proof. reflexivity. Qed.

(** ** Witnesses *)

Definition agg_call : bytes :=
  [3] ++ (gkey ++ be_enc 32 10 ++ zeros 32 ++ zeros 64) ++
  (gkey ++ be_enc 32 12 ++ zeros 32 ++ zeros 64) ++ (gkey ++ be_enc 32 90 ++ zeros 32 ++ zeros 64).

Lemma oracleAggregator_sound_witness :
  10 <= be_dec (drop 1 (match (oracleAggregator any_sig agg_call (lit "x") 1 one_guardian).1 with
                        | Ok out => out | _ => [] end)) <= 12.
Proof.
  assert (Hok : exists out, (oracleAggregator any_sig agg_call (lit "x") 1 one_guardian).1 = Ok out)
    by (eexists; vm_compute; reflexivity).
  destruct (oracleAggregator any_sig agg_call (lit "x") 1 one_guardian) as [o w'] eqn:E.
  destruct Hok as [out Hout]. cbn [fst] in Hout |- *. subst o.
  apply (oracleAggregator_sound any_sig agg_call (lit "x") 1 one_guardian out w' 10 12 E).
  - lia.
  - reflexivity.
  - apply Nat.ltb_lt. vm_compute. reflexivity.
Defined.

Lemma accountRecovery_spec_witness :
  (accountRecovery any_sig (replicate 352 7) (lit "x") 1 NewStateDB).2 = NewStateDB.
Proof.
  pose proof (accountRecovery_spec any_sig (replicate 352 7) (lit "x") 1 NewStateDB) as H.
  cbv zeta in H.
  destruct (accountRecovery any_sig (replicate 352 7) (lit "x") 1 NewStateDB) as [r w'].
  cbn [snd]. apply proj2, proj2, proj1 in H.
  - apply H. vm_compute. reflexivity.
  - apply Nat.leb_le. vm_compute. reflexivity.
Defined.
