(* ===== verification/Badges.v ===== *)
(** The DoxDevBadge registry (0x13) and the BIJO token surface (0x14) of
    evm/precompiles.go: badge issuance, upgrade, revocation and expiry, the
    curator council, applications; token reads and the transfer switch. *)

From Stdlib Require Import ZArith Lia.
From S2P Require Import Prelude Sha256 Collections StateDB.
From stdpp Require Import gmap list.
Local Open Scope Z_scope.
Local Open Scope go_scope.

(** ** Keys of account 0x13 *)

Definition dox_addr : bytes := PrecompileAddrHex 19.
Definition total_key : bytes := writeUint64 0.
Definition count_key : bytes := writeUint64 1.
Definition dox_badge_key (target : bytes) : bytes := storageKey (16 :: target).
Definition dox_token_key (n : Z) : bytes := storageKey (32 :: big_bytes n).
Definition dox_curator_key (who : bytes) : bytes := storageKey (48 :: who).
Definition app_key (who : bytes) : bytes := storageKey (64 :: who).
Definition role_key (who : bytes) : bytes := storageKey (65 :: who).
Definition docs_key (who : bytes) : bytes := storageKey (66 :: who).

(** The badge record: [level(1) | expiresAt(8) | revoked(1) | .. | issuedAt(8) | ..]. *)
Definition badge_record (level expiresAt issuedAt : Z) : bytes :=
  level :: be_enc 8 expiresAt ++ zeros 8 ++ be_enc 8 issuedAt ++ zeros 7.

Definition is_curator (w : World) (who : bytes) : bool :=
  negb (readUint64 (slot w dox_addr (dox_curator_key who)) =? 0).

(** ** Reads *)

Definition doxGetLevel (input : bytes) : HM bytes :=
  let* data := sload dox_addr (dox_badge_key (readAddress input 4)) in
  if bool_decide (data = zero32) then mret [0] else mret [byte_at data 0].

Definition doxIsVerified (input : bytes) (blockNum : Z) : HM bytes :=
  let* data := sload dox_addr (dox_badge_key (readAddress input 4)) in
  if bool_decide (data = zero32) then mret [0]
  else if byte_at data 0 =? 0 then mret [0]
  else if negb (byte_at data 9 =? 0) then mret [0]
  else
    let expiresAt := readUint64FromInput data 1 in
    if (0 <? expiresAt) && (expiresAt <? blockNum) then mret [0] else mret [1].

Definition doxHasMinLevel (input : bytes) : HM bytes :=
  let* data := sload dox_addr (dox_badge_key (readAddress input 4)) in
  let minLevel := readByte input 24 in
  if bool_decide (data = zero32) then mret [0]
  else if byte_at data 0 =? 0 then mret [0]
  else if negb (byte_at data 9 =? 0) then mret [0]
  else if byte_at data 0 <? minLevel then mret [0] else mret [1].

Definition dox_read_counter (k : bytes) : HM bytes :=
  gets (fun w => be_enc 8 (readUint64 (slot w dox_addr k))).

(** ** Writes *)

Definition doxIssueBadge (input caller : bytes) (blockNum : Z) : HM bytes :=
  let target := readAddress input 4 in
  let level := readByte input 24 in
  let validityPeriod := readUint64FromInput input 25 in
  if (level <? 1) || (3 <? level) then mret [0] else
  let* w := gets id in
  if negb (is_curator w caller) then mret [0] else
  let existing := slot w dox_addr (dox_badge_key target) in
  if negb (bool_decide (existing = zero32)) && (byte_at existing 9 =? 0) then mret [0] else
  let total := u64 (readUint64 (slot w dox_addr total_key) + 1) in
  let expiresAt := if 0 <? validityPeriod then u64 (blockNum + validityPeriod) else 0 in
  sstore dox_addr total_key (writeUint64 total) ;;;
  sstore dox_addr (dox_badge_key target) (badge_record level expiresAt blockNum) ;;;
  let* mapping := sload dox_addr (dox_token_key total) in
  sstore dox_addr (dox_token_key total) (copy_at 0 target mapping) ;;;
  mret [1].

Definition doxRevokeBadge (input caller : bytes) : HM bytes :=
  let target := readAddress input 4 in
  let* w := gets id in
  if negb (is_curator w caller) then mret [0] else
  let data := slot w dox_addr (dox_badge_key target) in
  if bool_decide (data = zero32) then mret [0]
  else if negb (byte_at data 9 =? 0) then mret [0]
  else sstore dox_addr (dox_badge_key target) (<[9%nat := 1]> data) ;;; mret [1].

Definition doxUpgradeBadge (input caller : bytes) : HM bytes :=
  let target := readAddress input 4 in
  let newLevel := readByte input 24 in
  let* w := gets id in
  if negb (is_curator w caller) then mret [0]
  else if (newLevel <? 1) || (3 <? newLevel) then mret [0] else
  let data := slot w dox_addr (dox_badge_key target) in
  if byte_at data 0 =? 0 then mret [0]
  else if negb (byte_at data 9 =? 0) then mret [0]
  else if newLevel <=? byte_at data 0 then mret [0]
  else sstore dox_addr (dox_badge_key target) (<[0%nat := newLevel]> data) ;;; mret [1].

(** The new curator's key is built from the raw address, the caller's from the
    address string. *)
Definition doxAddCurator (input caller : bytes) : HM bytes :=
  let target := readAddress input 4 in
  let* w := gets id in
  if negb (is_curator w caller) then mret [0]
  else if is_curator w target then mret [0]
  else
    sstore dox_addr (dox_curator_key target) (writeUint64 1) ;;;
    let* count := gets (fun w => readUint64 (slot w dox_addr count_key)) in
    sstore dox_addr count_key (writeUint64 (u64 (count + 1))) ;;;
    mret [1].

Definition doxRemoveCurator (input caller : bytes) : HM bytes :=
  let target := readAddress input 4 in
  let* w := gets id in
  if negb (is_curator w caller) then mret [0]
  else if negb (is_curator w target) then mret [0]
  else
    sstore dox_addr (dox_curator_key target) (writeUint64 0) ;;;
    let* count := gets (fun w => readUint64 (slot w dox_addr count_key)) in
    (if 3 <? count then sstore dox_addr count_key (writeUint64 (count - 1)) else mret tt) ;;;
    mret [1].

Definition doxApply (input caller : bytes) : HM bytes :=
  guard_err (length input <? 84)%nat "input too short" ;;;
  sstore dox_addr (app_key caller) (zeros 2 ++ readAddress input 68 ++ zeros 10) ;;;
  sstore dox_addr (role_key caller) (take 32 (drop 4 input)) ;;;
  sstore dox_addr (docs_key caller) (take 32 (drop 36 input)) ;;;
  mret [1].

(** [doxDevBadgePrecompile]. *)
Definition doxDevBadgePrecompile : Handler := fun input caller blockNum =>
  let sel := selectorBytes input in
  touch dox_addr ;;;
  if sel =? 0x9E9F1846 then doxGetLevel input
  else if sel =? 0x65274728 then doxIsVerified input blockNum
  else if sel =? 0x7B245AFA then doxHasMinLevel input
  else if sel =? 0x5FCF5764 then dox_read_counter count_key
  else if sel =? 0xE55B5B05 then dox_read_counter total_key
  else if sel =? 0x0210186D then doxIssueBadge input caller blockNum
  else if sel =? 0xB911F9C7 then doxRevokeBadge input caller
  else if sel =? 0x215F898D then doxUpgradeBadge input caller
  else if sel =? 0x0F9BD4BD then doxAddCurator input caller
  else if sel =? 0xD52CDF2D then doxRemoveCurator input caller
  else if sel =? 0x1A2B3C4D then doxApply input caller
  else fail "DoxDevBadge: unknown selector 0x%08X".

(** ** BIJO *)

Definition bijo_addr : bytes := PrecompileAddrHex 20.
Definition BijoSupply : Z := 369000000 * 10 ^ 18.
Definition bijo_enabled_key : bytes := writeUint64 1.

Definition bijoPrecompile : Handler := fun input _ _ =>
  let sel := selectorBytes input in
  touch bijo_addr ;;;
  if sel =? 0x5B46F8F6 then
    let* v := gets (fun w => readBigInt (slot w bijo_addr (storageKey (16 :: readAddress input 4)))) in
    must (fill_bytes 32 v)
  else if sel =? 0xA368022E then
    let* v := gets (fun w => readBigInt (slot w bijo_addr (writeUint64 0))) in
    must (fill_bytes 32 (if v =? 0 then BijoSupply else v))
  else if sel =? 0x3B88EF57 then fail "BIJO transfer requires caller context — use CALL opcode routing"
  else if sel =? 0x9F0BB8A9 then fail "BIJO approve requires caller context — use CALL opcode routing"
  else if sel =? 0x4B6685E7 then fail "BIJO transferFrom requires caller context — use CALL opcode routing"
  else if sel =? 0xD864B7CA then
    let* v := gets (fun w => readBigInt (slot w bijo_addr
                (storageKey (32 :: readAddress input 4 ++ readAddress input 24)))) in
    must (fill_bytes 32 v)
  else if sel =? 0xAD478CDA then
    let* on := gets (fun w => readUint64 (slot w bijo_addr bijo_enabled_key)) in
    if negb (on =? 0) then mret [0]
    else sstore bijo_addr bijo_enabled_key (writeUint64 1) ;;; mret [1]
  else if sel =? 0x2F30833B then
    gets (fun w => [bool_byte (negb (readUint64 (slot w bijo_addr bijo_enabled_key) =? 0))])
  else fail "BIJO: unknown selector 0x%08X".

(** ** Lemmas *)

(** [gated ks m]: run by a non-curator, [m] changes no slot outside [ks]. *)
Definition gated (caller : bytes) (ks : list bytes) (m : HM bytes) : Prop :=
  forall w, is_curator w caller = false ->
  forall a k, k ∉ ks -> slot (m w).2 a k = slot w a k.

Lemma gated_if caller ks (b : bool) m n :
  (b = true -> gated caller ks m) -> (b = false -> gated caller ks n) ->
  gated caller ks (if b then m else n).
Proof. destruct b; auto. Qed.

Lemma gated_same caller ks m :
  (forall w, is_curator w caller = false -> (m w).2 = w) -> gated caller ks m.
Proof. intros H w Hc a k _. by rewrite H. Qed.

(** The writes test the caller first. *)
Lemma noncurator_write m_ok input caller w :
  is_curator w caller = false ->
  (m_ok = doxRevokeBadge \/ m_ok = doxUpgradeBadge \/ m_ok = doxAddCurator \/
   m_ok = doxRemoveCurator) ->
  m_ok input caller w = (Ok [0], w).
Proof.
  intros Hc [->|[->|[->| ->]]]; unfold doxRevokeBadge, doxUpgradeBadge, doxAddCurator,
    doxRemoveCurator; run_go; change (id w) with w; by rewrite Hc.
Qed.

Lemma noncurator_issue input caller block w :
  is_curator w caller = false -> doxIssueBadge input caller block w = (Ok [0], w).
Proof.
  intros Hc. unfold doxIssueBadge. destruct ((_ <? 1) || _); [done|].
  run_go. change (id w) with w. by rewrite Hc.
Qed.

Lemma gated_apply input caller :
  gated caller [app_key caller; role_key caller; docs_key caller] (doxApply input caller).
Proof.
  intros w _ a k Hk. unfold doxApply. destruct (length input <? 84)%nat; [done|].
  run_go. cbn [snd]. rewrite !not_elem_of_cons in Hk. destruct Hk as (H1 & H2 & H3 & _).
  by rewrite !slot_set_ne by (right; congruence).
Qed.

Lemma reads_quiet input block w k :
  (doxGetLevel input w).2 = w /\ (doxIsVerified input block w).2 = w /\
  (doxHasMinLevel input w).2 = w /\ (dox_read_counter k w).2 = w.
Proof.
  unfold doxGetLevel, doxIsVerified, doxHasMinLevel, dox_read_counter. run_go.
  split_and!; repeat case_match; done.
Qed.

(** ** The record after issuance *)

Lemma badge_record_fields level e i :
  0 <= level < 256 -> is_u64 e ->
  byte_at (badge_record level e i) 0 = level /\ byte_at (badge_record level e i) 9 = 0 /\
  readUint64FromInput (badge_record level e i) 1 = e.
Proof.
  intros Hl He. split_and!; [done|done|].
  unfold readUint64FromInput. change (length (badge_record level e i) <? 1 + 8)%nat with false.
  cbv iota. unfold badge_record. rewrite skipn_cons, drop_0.
  rewrite take_app_length' by done. rewrite be_dec_enc_small by exact He. by apply big_u64_small.
Qed.

Definition issued (target : bytes) (level validity block : Z) (w : World) : World :=
  let total := u64 (readUint64 (slot w dox_addr total_key) + 1) in
  let expiresAt := if 0 <? validity then u64 (block + validity) else 0 in
  let w1 := set_slot dox_addr (dox_badge_key target) (badge_record level expiresAt block)
              (set_slot dox_addr total_key (writeUint64 total) w) in
  set_slot dox_addr (dox_token_key total)
    (copy_at 0 target (slot w1 dox_addr (dox_token_key total))) w1.

Lemma doxIssueBadge_run input caller block w :
  let level := readByte input 24 in
  let target := readAddress input 4 in
  1 <= level <= 3 -> is_curator w caller = true ->
  slot w dox_addr (dox_badge_key target) = zero32 \/
    byte_at (slot w dox_addr (dox_badge_key target)) 9 <> 0 ->
  doxIssueBadge input caller block w =
    (Ok [1], issued target level (readUint64FromInput input 25) block w).
Proof.
  intros level target Hl Hc Hfree. unfold doxIssueBadge. fold level target.
  destruct (Z.ltb_spec level 1); [lia|]. destruct (Z.ltb_spec 3 level); [lia|]. cbn [orb].
  run_go. change (id w) with w. rewrite Hc. cbn [negb].
  assert (negb (bool_decide (slot w dox_addr (dox_badge_key target) = zero32)) &&
          (byte_at (slot w dox_addr (dox_badge_key target)) 9 =? 0) = false) as ->; [|done].
  destruct Hfree as [->|H9]; [done|]. apply andb_false_iff. right. by apply Z.eqb_neq.
Qed.

(** ** Properties *)

(** C35 (curator gate).  A call by an address that is not a curator, whatever the
    selector, changes no slot of any account except its own three application
    slots, and no balance: badges, levels, counters and the council are out of
    its reach. *)
Theorem noncurator_changes_nothing input caller block w :
  is_curator w caller = false ->
  let w' := (doxDevBadgePrecompile input caller block w).2 in
  (forall a k, k ∉ [app_key caller; role_key caller; docs_key caller] ->
   slot w' a k = slot w a k) /\
  (selectorBytes input <> 0x1A2B3C4D -> forall a k, slot w' a k = slot w a k).
Proof.
  intros Hc w'. subst w'. unfold doxDevBadgePrecompile. cbv zeta.
  set (sel := selectorBytes input).
  set (ks := if sel =? 0x1A2B3C4D then [app_key caller; role_key caller; docs_key caller] else []).
  unfold mbind, M_bind, touch, modify.
  match goal with |- context [(if sel =? 0x9E9F1846 then ?m else ?n) _] =>
    assert (Hg : gated caller ks (if sel =? 0x9E9F1846 then m else n)) end.
  { pose proof (fun f Hf => gated_same caller ks (f input caller)
      (fun v Hv => f_equal snd (noncurator_write f input caller v Hv Hf))) as Hwrite.
    pose proof (gated_same caller ks (doxIssueBadge input caller block)
      (fun v Hv => f_equal snd (noncurator_issue input caller block v Hv))) as Hissue.
    pose proof (fun v k => reads_quiet input block v k) as Hr.
    do 3 (apply gated_if; intros _; [apply gated_same; intros v _; apply (Hr v total_key)|]).
    apply gated_if; intros _; [apply gated_same; intros v _; apply (Hr v count_key)|].
    apply gated_if; intros _; [apply gated_same; intros v _; apply (Hr v total_key)|].
    apply gated_if; intros _; [exact Hissue|].
    do 4 (apply gated_if; intros _; [apply Hwrite; auto|]).
    apply gated_if; intros Esel; [|done].
    unfold ks. rewrite Esel. apply gated_apply. }
  assert (Hc1 : is_curator (GetOrCreateAccount dox_addr w) caller = false)
    by (unfold is_curator; by rewrite slot_touch).
  specialize (Hg _ Hc1). split.
  - intros a k Hk. rewrite Hg; [apply slot_touch|]. unfold ks.
    destruct (sel =? 0x1A2B3C4D); [exact Hk|apply not_elem_of_nil].
  - intros Hsel a k. rewrite Hg; [apply slot_touch|]. unfold ks.
    destruct (Z.eqb_spec sel 0x1A2B3C4D); [done|apply not_elem_of_nil].
Qed.

(** Badge life cycle.  A curator's issuance to a free address writes a badge
    that the registry then reads back: its level, a pass for exactly the
    minimum levels it reaches, and verification until and including the expiry
    block (for ever when no validity is given). *)
Theorem issueBadge_roundtrip input caller block w query min :
  let level := readByte input 24 in
  let target := readAddress input 4 in
  let validity := readUint64FromInput input 25 in
  1 <= level <= 3 -> is_curator w caller = true ->
  slot w dox_addr (dox_badge_key target) = zero32 \/
    byte_at (slot w dox_addr (dox_badge_key target)) 9 <> 0 ->
  dox_token_key (u64 (readUint64 (slot w dox_addr total_key) + 1)) <> dox_badge_key target ->
  0 <= block -> block + validity < 2 ^ 64 ->
  readAddress query 4 = target -> readByte query 24 = min ->
  let '(r, w') := doxIssueBadge input caller block w in
  r = Ok [1] /\
  (doxGetLevel query w').1 = Ok [level] /\
  (doxHasMinLevel query w').1 = Ok [bool_byte (min <=? level)] /\
  (forall now, (doxIsVerified query now w').1 =
     Ok [bool_byte ((validity =? 0) || (now <=? block + validity))]).
Proof.
  intros level target validity Hl Hc Hfree Htok Hb Hbv Hq Hm.
  rewrite doxIssueBadge_run by done. fold level target validity. split; [done|].
  pose proof (u64_range (be_dec (take 8 (drop 25 input)))) as Hv0.
  assert (Hv : 0 <= validity).
  { subst validity. unfold readUint64FromInput, big_u64. case_match; [done|apply u64_range]. }
  set (e := if 0 <? validity then block + validity else 0).
  assert (Hrec : slot (issued target level validity block w) dox_addr (dox_badge_key target)
                 = badge_record level e block).
  { unfold issued. rewrite slot_set_ne by (right; exact Htok). rewrite slot_set_eq. f_equal.
    subst e. destruct (Z.ltb_spec 0 validity); [|done]. apply u64_small. unfold is_u64. lia. }
  assert (He : is_u64 e) by (subst e; unfold is_u64; destruct (Z.ltb_spec 0 validity); lia).
  destruct (badge_record_fields level e block ltac:(lia) He) as (F0 & F9 & F1).
  assert (Hnz : badge_record level e block <> zero32).
  { intros Hz. apply (f_equal (fun l => byte_at l 0)) in Hz. rewrite F0 in Hz. cbn in Hz. lia. }
  assert (Hl0 : (level =? 0) = false) by (apply Z.eqb_neq; lia).
  unfold doxGetLevel, doxHasMinLevel, doxIsVerified. run_go.
  rewrite Hq, Hm, Hrec, F0, F9, F1, Hl0, bool_decide_eq_false_2 by done. cbn [Z.eqb negb].
  split_and!; [done| |intros now].
  - destruct (Z.ltb_spec level min), (Z.leb_spec min level); try done; lia.
  - subst e. destruct (Z.ltb_spec 0 validity), (Z.eqb_spec validity 0); try lia; cbn [orb andb].
    + destruct (Z.ltb_spec 0 (block + validity)); [|lia]. cbn [andb].
      destruct (Z.ltb_spec (block + validity) now), (Z.leb_spec now (block + validity));
        try done; lia.
    + done.
Qed.

(** ** What the code does that its comments do not say *)

(** "Only existing curators can add new curators": the membership written for a
    new curator is keyed by the raw address and read by the address string, so
    the added address does not become a curator. *)
Definition badge_world : World :=
  set_slot dox_addr (dox_curator_key (lit "aa")) (writeUint64 1) NewStateDB.
Definition add_curator_call : bytes := be_enc 4 0x0F9BD4BD ++ be_enc 20 77.
Lemma added_curator_is_not_one :
  let '(r, w) := doxDevBadgePrecompile add_curator_call (lit "aa") 1 badge_world in
  r = Ok [1] /\ is_curator w (fmt_x (be_enc 20 77)) = false.
Proof. vm_compute. done. Qed.

(** [hasMinLevel] ignores the expiry that [isVerified] honours. *)
Definition expired_world : World :=
  set_slot dox_addr (dox_badge_key (be_enc 20 77)) (badge_record 2 10 1) NewStateDB.
Lemma expired_badge_has_level :
  (doxIsVerified (be_enc 4 0 ++ be_enc 20 77 ++ [2]) 50 expired_world).1 = Ok [0] /\
  (doxHasMinLevel (be_enc 4 0 ++ be_enc 20 77 ++ [2]) expired_world).1 = Ok [1].
Proof. vm_compute. done. Qed.

(** ** Witnesses *)

Lemma noncurator_changes_nothing_witness :
  slot (doxDevBadgePrecompile add_curator_call (lit "bb") 1 badge_world).2 dox_addr count_key =
  slot badge_world dox_addr count_key.
Proof.
  apply (noncurator_changes_nothing add_curator_call (lit "bb") 1 badge_world).
  - vm_compute. reflexivity.
  - vm_compute. discriminate.
Defined.

Definition issue_call : bytes := be_enc 4 0x0210186D ++ be_enc 20 77 ++ [2] ++ be_enc 8 100.

Lemma issueBadge_roundtrip_witness :
  (doxGetLevel issue_call (doxIssueBadge issue_call (lit "aa") 5 badge_world).2).1 = Ok [2].
Proof.
  pose proof (issueBadge_roundtrip issue_call (lit "aa") 5 badge_world issue_call 2) as H.
  cbv zeta in H.
  destruct (doxIssueBadge issue_call (lit "aa") 5 badge_world) as [r w'].
  apply proj2, proj1 in H; [exact H| | | | | | | |].
  - vm_compute. split; discriminate.
  - vm_compute. reflexivity.
  - left. vm_compute. reflexivity.
  - vm_compute. discriminate.
  - lia.
  - vm_compute. reflexivity.
  - reflexivity.
  - vm_compute. reflexivity.
Defined.
