(* ===== verification/Registries.v ===== *)
(** Three protocol registries of evm/precompiles.go: the DeadMansSwitch (0x15)
    state machine, the BitcoinRegistry (0x16) and the StorageEndowment (0x17)
    with its halving schedule. *)

From Stdlib Require Import ZArith Lia.
From S2P Require Import Prelude Sha256 Collections StateDB Econo.
From stdpp Require Import gmap list.
Local Open Scope Z_scope.
Local Open Scope go_scope.

(** ** 0x15 DeadMansSwitch *)

Module DMS.

Definition dms_addr : bytes := PrecompileAddrHex 21.
Definition dms_total_key : bytes := writeUint64 0.
Definition switch_key (id : Z) : bytes := storageKey (16 :: big_bytes id).

(** The record: [truthType(1) | interval(8) | lastHeartbeat(8) | state(1) |
    createdAt(8) | ..].  State 0 is active, 2 claimed, 3 cancelled. *)
Definition state_of (data : bytes) : Z := byte_at data 17.
Definition interval_of (data : bytes) : Z := readUint64FromInput data 1.
Definition heartbeat_of (data : bytes) : Z := readUint64FromInput data 9.
(** The deadline is computed in unsigned 64-bit arithmetic. *)
Definition deadline (data : bytes) : Z := u64 (heartbeat_of data + interval_of data).

Definition switch_of (w : World) (id : Z) : bytes := slot w dms_addr (switch_key id).
Definition id_arg (input : bytes) : Z := readUint64FromInput input 4.

Definition createSwitch (input : bytes) (blockNum : Z) : HM bytes :=
  let truthType := readByte input 4 in
  let heir := readAddress input 5 in
  let interval := readUint64FromInput input 25 in
  let* _ := must (slice input 33 65) in
  guard_err ((interval <? 86400) || (31536000 <? interval)) "DeadMansSwitch: invalid interval" ;;;
  guard_err ((truthType =? 0) && (readUint64FromInput heir 0 =? 0))
    "DeadMansSwitch: dark truth needs heir" ;;;
  let* n := gets (fun w => readUint64 (slot w dms_addr dms_total_key)) in
  let total := u64 (n + 1) in
  sstore dms_addr dms_total_key (writeUint64 total) ;;;
  sstore dms_addr (switch_key total)
    (truthType :: be_enc 8 interval ++ be_enc 8 blockNum ++ [0] ++ be_enc 8 blockNum ++ zeros 6) ;;;
  mret (be_enc 8 total).

Definition heartbeat (input : bytes) (blockNum : Z) : HM bytes :=
  let* data := gets (fun w => switch_of w (id_arg input)) in
  if negb (state_of data =? 0) then mret [0] else
  sstore dms_addr (switch_key (id_arg input)) (copy_at 9 (be_enc 8 blockNum) data) ;;;
  mret [1].

Definition claim (input : bytes) (blockNum : Z) : HM bytes :=
  let* data := gets (fun w => switch_of w (id_arg input)) in
  if negb (state_of data =? 0) then mret [0]
  else if blockNum <=? deadline data then mret [0] else
  sstore dms_addr (switch_key (id_arg input)) (<[17%nat := 2]> data) ;;;
  mret [1].

Definition cancel (input : bytes) : HM bytes :=
  let* data := gets (fun w => switch_of w (id_arg input)) in
  if negb (state_of data =? 0) then mret [0] else
  sstore dms_addr (switch_key (id_arg input)) (<[17%nat := 3]> data) ;;;
  mret [1].

Definition canClaim (input : bytes) (blockNum : Z) : HM bytes :=
  let* data := gets (fun w => switch_of w (id_arg input)) in
  if negb (state_of data =? 0) then mret [0]
  else mret [bool_byte (deadline data <? blockNum)].

Definition timeUntilClaimable (input : bytes) (blockNum : Z) : HM bytes :=
  let* data := gets (fun w => switch_of w (id_arg input)) in
  if negb (state_of data =? 0) then mret (zeros 8)
  else if deadline data <=? blockNum then mret (zeros 8)
  else mret (be_enc 8 (u64 (deadline data - blockNum))).

(** [deadManSwitchPrecompile]. *)
Definition deadManSwitchPrecompile : Handler := fun input _ blockNum =>
  let sel := selectorBytes input in
  touch dms_addr ;;;
  if sel =? 0x7F78EDCF then createSwitch input blockNum
  else if sel =? 0x7018B39E then heartbeat input blockNum
  else if sel =? 0x40FADB8B then claim input blockNum
  else if sel =? 0x26C1497E then cancel input
  else if sel =? 0xA688A635 then canClaim input blockNum
  else if sel =? 0xD75235C5 then timeUntilClaimable input blockNum
  else if sel =? 0x0034AFAA then gets (fun w => switch_of w (id_arg input))
  else if sel =? 0x890219ED then gets (fun w => be_enc 8 (readUint64 (slot w dms_addr dms_total_key)))
  else fail "DeadMansSwitch: unknown selector 0x%08X".

End DMS.

(** ** 0x16 BitcoinRegistry *)

Module BTC.

Definition btc_addr : bytes := PrecompileAddrHex 22.
Definition committed_key : bytes := writeUint64 0.
Definition withdrawn_key : bytes := writeUint64 1.
Definition balance_key (user : bytes) : bytes := storageKey (16 :: user).
Definition utxo_key (utxo : bytes) : bytes := storageKey (32 :: utxo).

Definition read32 (k : bytes) : HM bytes :=
  let* v := gets (fun w => readBigInt (slot w btc_addr k)) in must (fill_bytes 32 v).

Definition attestCommitment (input : bytes) : HM bytes :=
  guard_err (length input <? 88)%nat "BitcoinRegistry: input too short" ;;;
  let utxo := take 32 (drop 4 input) in
  let amount := readUint256 input 36 in
  let target := readAddress input 68 in
  if amount <? 10000 then mret [0]
  else if 100000000 <? amount then mret [0] else
  let* w := gets id in
  if negb (readUint64 (slot w btc_addr (utxo_key utxo)) =? 0) then mret [0] else
  sstore_big btc_addr (balance_key target) (readBigInt (slot w btc_addr (balance_key target)) + amount) ;;;
  let* utxoS := sload btc_addr (utxo_key utxo) in
  sstore btc_addr (utxo_key utxo) (copy_at 0 target utxoS) ;;;
  let* total := gets (fun w => readBigInt (slot w btc_addr committed_key)) in
  sstore_big btc_addr committed_key (total + amount) ;;;
  mret [1].

Definition requestWithdrawal (input : bytes) : HM bytes :=
  let amount := readUint256 input 4 in
  guard_err (amount <=? 0) "BitcoinRegistry: amount must be > 0" ;;;
  guard_err (1000000000 <? amount) "BitcoinRegistry: amount too large" ;;;
  let* total := gets (fun w => readBigInt (slot w btc_addr withdrawn_key)) in
  sstore_big btc_addr withdrawn_key (total + amount) ;;;
  mret (Sha256.sum256 (lit "withdrawal:" ++ take 100 input)).

(** [bitcoinRegistryPrecompile]. *)
Definition bitcoinRegistryPrecompile : Handler := fun input _ _ =>
  let sel := selectorBytes input in
  touch btc_addr ;;;
  if sel =? 0x2AFE5AE4 then read32 (balance_key (readAddress input 4))
  else if sel =? 0x3ABFEF65 then read32 committed_key
  else if sel =? 0x4A77D80B then read32 withdrawn_key
  else if sel =? 0xF237C0C2 then attestCommitment input
  else if sel =? 0x1D772727 then requestWithdrawal input
  else fail "BitcoinRegistry: unknown selector 0x%08X".

End BTC.

(** ** 0x17 StorageEndowment *)

Module SE.

Definition se_addr : bytes := PrecompileAddrHex 23.
Definition se_count_key : bytes := writeUint64 0.
Definition start_key : bytes := writeUint64 2.
Definition operator_key (who : bytes) : bytes := storageKey (16 :: who).
Definition list_key (i : Z) : bytes := storageKey (32 :: big_bytes i).
Definition proof_key (who fileHash : bytes) : bytes := storageKey (48 :: who ++ fileHash).
Definition halvingInterval : Z := 2 * 365 * 86400.

(** The first 20 characters of the caller, after a [0x] prefix; a shorter
    string is sliced out of range. *)
Definition caller_addr (caller : bytes) : option bytes :=
  match caller with
  | 48 :: 120 :: _ => if (4 <=? length caller)%nat then slice caller 2 22 else slice caller 0 20
  | _ => slice caller 0 20
  end.

Definition stake_bytes (amount : Z) : bytes :=
  let b := big_bytes amount in
  if (23 <? length b)%nat then drop (length b - 23) b else b.

Definition registerOperator (input caller : bytes) (blockNum : Z) : HM bytes :=
  let stake := readBigInt (readSlot input 4) in
  if stake =? 0 then mret [0] else
  let* who := must (caller_addr caller) in
  let* existing := sload se_addr (operator_key who) in
  if (byte_at existing 0 =? 1) && negb (byte_at existing 1 =? 0) then mret [0] else
  let* n := gets (fun w => readUint64 (slot w se_addr se_count_key)) in
  let count := u64 (n + 1) in
  sstore se_addr se_count_key (writeUint64 count) ;;;
  let b := stake_bytes stake in
  sstore se_addr (operator_key who)
    (1 :: be_enc 8 blockNum ++ copy_at (23 - length b) b (zeros 23)) ;;;
  sstore se_addr (list_key (u64 (count - 1))) (copy_at 0 who zero32) ;;;
  addlog se_addr [storageKey (lit "OperatorRegistered")] caller blockNum ;;;
  modify (EconoAccrueStorage (big_u64 stake) blockNum) ;;;
  mret [1].

Definition unregisterOperator (caller : bytes) : HM bytes :=
  let* who := must (caller_addr caller) in
  let* data := sload se_addr (operator_key who) in
  if negb (byte_at data 0 =? 1) then mret [0] else
  sstore se_addr (operator_key who) (<[0%nat := 0]> data) ;;;
  mret [1].

Definition getOperatorInfo (input : bytes) : HM bytes :=
  let* data := sload se_addr (operator_key (readAddress input 4)) in
  if bool_decide (data = zero32) then mret []
  else mret (byte_at data 0 :: copy_at 0 (take 30 (drop 1 data)) (zeros 31)).

Definition getCurrentEpoch (blockNum : Z) : HM bytes :=
  let* start := gets (fun w => readUint64 (slot w se_addr start_key)) in
  let now := if start =? 0 then blockNum else start in
  (if start =? 0 then sstore se_addr start_key (writeUint64 blockNum) else mret tt) ;;;
  mret (be_enc 8 (u64 (blockNum - now) / halvingInterval)).

(** The halving loop. *)
Fixpoint halve (n : nat) (base : Z) : Z :=
  match n with O => base | S n => halve n (base / 2) end.

Definition allocation (epoch : Z) : Z :=
  if 10 <=? epoch then 0 else halve (Z.to_nat epoch) (10000000 * 10 ^ 18).

Definition calculateEpochAllocation (blockNum : Z) : HM bytes :=
  let* start := gets (fun w => readUint64 (slot w se_addr start_key)) in
  let start := if start =? 0 then blockNum else start in
  let epoch := u64 (blockNum - start) / halvingInterval in
  must (fill_bytes 32 (allocation epoch)).

(** The operator is looked up under the caller string itself. *)
Definition submitProof (input caller : bytes) (blockNum : Z) : HM bytes :=
  let* data := sload se_addr (operator_key caller) in
  if negb (byte_at data 0 =? 1) then mret [0] else
  let* fileHash := must (slice input 4 36) in
  sstore se_addr (proof_key caller fileHash) (be_enc 8 blockNum ++ zeros 24) ;;;
  mret [1].

Definition getOperators : HM bytes :=
  gets (fun w =>
    let count := Z.min 50 (readUint64 (slot w se_addr se_count_key)) in
    concat (map (fun i => take 20 (slot w se_addr (list_key (Z.of_nat i)))) (seq 0 (Z.to_nat count)))).

(** [storageEndowmentPrecompile]. *)
Definition storageEndowmentPrecompile : Handler := fun input caller blockNum =>
  let sel := selectorBytes input in
  touch se_addr ;;;
  if sel =? 0x13E4F0A2 then registerOperator input caller blockNum
  else if sel =? 0x24B5D1C3 then unregisterOperator caller
  else if sel =? 0x35C6E2D4 then getOperatorInfo input
  else if sel =? 0xA8A012F7 then gets (fun w => be_enc 8 (readUint64 (slot w se_addr se_count_key)))
  else if sel =? 0xC5BAF020 then getCurrentEpoch blockNum
  else if sel =? 0xA7559A16 then calculateEpochAllocation blockNum
  else if sel =? 0xE4E68365 then submitProof input caller blockNum
  else if sel =? 0x2D2DC686 then getOperators
  else fail "StorageEndowment: unknown selector 0x%08X".

End SE.

(** ** Lemmas: the switch state machine *)

(** A switch that has left the active state keeps its record. *)
Definition settled (id : Z) (w w' : World) : Prop :=
  DMS.state_of (DMS.switch_of w id) <> 0 -> DMS.switch_of w' id = DMS.switch_of w id.

#[export] Instance settled_preorder id : PreOrder (settled id).
Proof.
  split; [by intros w _|]. intros x y z H1 H2 Hx. unfold settled in *.
  rewrite <- (H1 Hx). apply H2. by rewrite (H1 Hx).
Qed.

(** Rewriting a record that was read as active. *)
Lemma settled_update id id' (f : bytes -> bytes) w :
  DMS.state_of (DMS.switch_of w id') = 0 ->
  settled id w (set_slot DMS.dms_addr (DMS.switch_key id') (f (DMS.switch_of w id')) w).
Proof.
  intros H0 Hid. unfold DMS.switch_of in *.
  destruct (decide (DMS.switch_key id' = DMS.switch_key id)) as [E|E].
  - rewrite E in H0. done.
  - rewrite slot_set_ne; [done|by right].
Qed.

Lemma settled_same id w w' : (forall a k, slot w' a k = slot w a k) -> settled id w w'.
Proof. intros H _. apply H. Qed.

Lemma dms_updates_settled id input block w :
  settled id w (DMS.heartbeat input block w).2 /\ settled id w (DMS.claim input block w).2 /\
  settled id w (DMS.cancel input w).2.
Proof.
  unfold DMS.heartbeat, DMS.claim, DMS.cancel. run_go.
  destruct (Z.eqb_spec (DMS.state_of (DMS.switch_of w (DMS.id_arg input))) 0) as [E|E];
    cbn [negb]; [|by split_and!]. split_and!.
  - by apply (settled_update id _ (copy_at 9 (be_enc 8 block))).
  - case_match; [done|]. by apply (settled_update id _ (fun d => <[17%nat := 2]> d)).
  - by apply (settled_update id _ (fun d => <[17%nat := 3]> d)).
Qed.

Lemma dms_reads_quiet input block w :
  (DMS.canClaim input block w).2 = w /\ (DMS.timeUntilClaimable input block w).2 = w.
Proof.
  unfold DMS.canClaim, DMS.timeUntilClaimable. run_go. split; repeat case_match; done.
Qed.

Definition next_switch (w : World) : Z := u64 (readUint64 (slot w DMS.dms_addr DMS.dms_total_key) + 1).

Lemma create_settled id input block w :
  DMS.switch_key id <> DMS.dms_total_key -> DMS.switch_key (next_switch w) <> DMS.switch_key id ->
  settled id w (DMS.createSwitch input block w).2.
Proof.
  intros H1 H2 _. unfold DMS.createSwitch. destruct (slice input 33 65); [|done].
  unfold must. run_go. destruct ((_ <? 86400) || _); [done|]. run_go.
  destruct ((_ =? 0) && _); [done|]. run_go. cbn [snd]. unfold DMS.switch_of, next_switch in *.
  rewrite slot_set_ne by (by right). rewrite slot_set_ne by (right; congruence). done.
Qed.

Lemma halve_spec n base : 0 <= base -> SE.halve n base = base / 2 ^ Z.of_nat n.
Proof.
  revert base. induction n as [|n IH]; intros base Hb; [by rewrite Z.div_1_r|].
  cbn [SE.halve]. rewrite IH by (apply Z.div_pos; lia).
  rewrite Nat2Z.inj_succ, Z.pow_succ_r, Z.div_div by lia. done.
Qed.

(** ** Properties *)

(** Terminal switches.  Once a switch is claimed or cancelled no later call
    changes its record; only the creation of a further switch writes elsewhere,
    under a key the hypotheses keep apart. *)
Theorem settled_switch_frozen id input caller block w :
  DMS.state_of (DMS.switch_of w id) <> 0 ->
  (selectorBytes input = 0x7F78EDCF ->
   DMS.switch_key id <> DMS.dms_total_key /\ DMS.switch_key (next_switch w) <> DMS.switch_key id) ->
  DMS.switch_of (DMS.deadManSwitchPrecompile input caller block w).2 id = DMS.switch_of w id.
Proof.
  intros Hst Hkeys. revert Hst. change (settled id w (DMS.deadManSwitchPrecompile input caller block w).2).
  unfold DMS.deadManSwitchPrecompile, mbind, M_bind, touch, modify. cbv zeta.
  set (w1 := GetOrCreateAccount DMS.dms_addr w).
  assert (H01 : settled id w w1) by (apply settled_same; intros; apply slot_touch).
  refine (PreOrder_Transitive (R := settled id) _ _ _ H01 _).
  destruct (dms_updates_settled id input block w1) as (U1 & U2 & U3).
  destruct (dms_reads_quiet input block w1) as (R1 & R2).
  destruct (Z.eqb_spec (selectorBytes input) 0x7F78EDCF) as [E|_].
  { destruct (Hkeys E) as [K1 K2]. apply create_settled; [done|].
    unfold next_switch, w1. by rewrite slot_touch. }
  repeat (match goal with |- context [if ?b then _ else _] => destruct b end; [by rewrite ?R1, ?R2|]).
  done.
Qed.

(** Claim window.  On an active switch whose deadline does not wrap, a claim
    succeeds exactly after the deadline, [canClaim] announces it, the remaining
    time is the distance to the deadline, and a claimed switch then refuses
    claims, heartbeats and cancellation. *)
Theorem claim_window input block w :
  let data := DMS.switch_of w (DMS.id_arg input) in
  let due := DMS.heartbeat_of data + DMS.interval_of data in
  length data = 32%nat -> DMS.state_of data = 0 -> due < 2 ^ 64 -> 0 <= block < 2 ^ 64 ->
  let '(r, w') := DMS.claim input block w in
  r = Ok [bool_byte (due <? block)] /\
  (DMS.canClaim input block w).1 = Ok [bool_byte (due <? block)] /\
  (DMS.timeUntilClaimable input block w).1 = Ok (be_enc 8 (Z.max 0 (due - block))) /\
  (due < block -> forall later,
     (DMS.claim input later w').1 = Ok [0] /\ (DMS.heartbeat input later w').1 = Ok [0] /\
     (DMS.cancel input w').1 = Ok [0]).
Proof.
  intros data due Hlen Hact Hdue Hblock.
  assert (Hd : DMS.deadline data = due).
  { apply u64_small. unfold is_u64. split; [|exact Hdue]. subst due.
    unfold DMS.heartbeat_of, DMS.interval_of, readUint64FromInput, big_u64.
    repeat case_match; try pose proof (u64_range (Z.abs (be_dec (take 8 (drop 9 data)))));
      try pose proof (u64_range (Z.abs (be_dec (take 8 (drop 1 data))))); unfold is_u64 in *; lia. }
  assert (Hpos : 0 <= due) by (rewrite <- Hd; apply u64_range).
  assert (Hclaim : DMS.claim input block w =
    if due <? block then (Ok [1], set_slot DMS.dms_addr (DMS.switch_key (DMS.id_arg input))
                                    (<[17%nat := 2]> data) w)
    else (Ok [0], w)).
  { unfold DMS.claim. run_go. fold data. rewrite Hact, Hd. cbn [negb Z.eqb].
    destruct (Z.leb_spec block due), (Z.ltb_spec due block); try done; lia. }
  rewrite Hclaim. unfold DMS.canClaim, DMS.timeUntilClaimable. run_go. fold data.
  rewrite Hact, Hd. cbn [negb Z.eqb].
  assert (Htime : (if due <=? block then (Ok (zeros 8), w)
                   else (Ok (be_enc 8 (u64 (due - block))), w)).1
                  = Ok (be_enc 8 (Z.max 0 (due - block)))).
  { destruct (Z.leb_spec due block); cbn [fst].
    - rewrite Z.max_l by lia. by rewrite be_enc_0.
    - rewrite Z.max_r, u64_small by (unfold is_u64; lia). done. }
  destruct (Z.ltb_spec due block) as [Hlt|Hge]; cbn [bool_byte].
  - split_and!; [done|done|by destruct (due <=? block)|].
    intros _ later. set (w' := set_slot _ _ _ w).
    assert (Hst : DMS.state_of (DMS.switch_of w' (DMS.id_arg input)) = 2).
    { unfold DMS.switch_of, w'. rewrite slot_set_eq. unfold DMS.state_of, byte_at.
      apply nth_lookup_Some. rewrite list_lookup_insert_eq; [done|]. rewrite Hlen. lia. }
    unfold DMS.claim, DMS.heartbeat, DMS.cancel. run_go. rewrite Hst. done.
  - split_and!; [done|done|by destruct (due <=? block)|lia].
Qed.

(** Halving schedule.  The epoch allocation is ten million tokens shifted
    right once per epoch for ten epochs and zero afterwards, so it never grows. *)
Theorem allocation_halves e :
  0 <= e ->
  SE.allocation e = (if 10 <=? e then 0 else 10000000 * 10 ^ 18 / 2 ^ e) /\
  (forall e', e <= e' -> 0 <= SE.allocation e' <= SE.allocation e).
Proof.
  assert (Heq : forall e, 0 <= e ->
    SE.allocation e = if 10 <=? e then 0 else 10000000 * 10 ^ 18 / 2 ^ e).
  { intros x Hx. unfold SE.allocation. destruct (Z.leb_spec 10 x); [done|].
    rewrite halve_spec by lia. by rewrite Z2Nat.id. }
  intros He. split; [by apply Heq|]. intros e' Hle. rewrite !Heq by lia.
  assert (Hpow : forall x, 0 <= x -> 0 < 2 ^ x) by (intros; by apply Z.pow_pos_nonneg).
  destruct (Z.leb_spec 10 e'), (Z.leb_spec 10 e); try lia.
  - split; [lia|]. apply Z.div_pos; [lia|by apply Hpow].
  - split; [apply Z.div_pos; [lia|apply Hpow; lia]|].
    apply Z.div_le_compat_l; [lia|]. split; [by apply Hpow|]. apply Z.pow_le_mono_r; lia.
Qed.

(** ** What the code does that its comments do not say *)

(** "already committed": the check reads the low eight bytes of a slot that holds
    the owner in its first twenty, so the same output can be committed again. *)
Definition attest_call : bytes :=
  be_enc 4 0xF237C0C2 ++ replicate 32 5 ++ be_enc 32 20000 ++ be_enc 20 77.
Lemma utxo_commits_twice :
  let w1 := (BTC.bitcoinRegistryPrecompile attest_call (lit "a") 1 NewStateDB).2 in
  let '(r, w2) := BTC.bitcoinRegistryPrecompile attest_call (lit "a") 1 w1 in
  r = Ok [1] /\ readBigInt (slot w2 BTC.btc_addr (BTC.balance_key (be_enc 20 77))) = 40000.
Proof. vm_compute. done. Qed.

(** "already registered": the second byte of the record is the top byte of the
    block number, zero in practice, so an operator registers again and is
    counted again. *)
Definition register_call : bytes := be_enc 4 0x13E4F0A2 ++ be_enc 32 500.
Definition op_caller : bytes := replicate 40 97.
Lemma operator_registers_twice :
  let w1 := (SE.storageEndowmentPrecompile register_call op_caller 100 NewStateDB).2 in
  let '(r, w2) := SE.storageEndowmentPrecompile register_call op_caller 101 w1 in
  r = Ok [1] /\ readUint64 (slot w2 SE.se_addr SE.se_count_key) = 2.
Proof. vm_compute. done. Qed.

(** A registered operator cannot submit a proof: registration stores the first
    twenty characters of the caller, [submitProof] looks up all forty. *)
Lemma registered_operator_cannot_prove :
  let w1 := (SE.storageEndowmentPrecompile register_call op_caller 100 NewStateDB).2 in
  (SE.storageEndowmentPrecompile (be_enc 4 0xE4E68365 ++ zeros 32) op_caller 101 w1).1 = Ok [0].
Proof. vm_compute. reflexivity. Qed.

(** A switch that was never created reads as active, with no heartbeat interval:
    anyone can claim it. *)
Lemma unknown_switch_is_claimable :
  (DMS.deadManSwitchPrecompile (be_enc 4 0x40FADB8B ++ be_enc 8 9) (lit "a") 1 NewStateDB).1 = Ok [1].
Proof. vm_compute. reflexivity. Qed.

(** ** Witnesses *)

Definition claimed_world : World :=
  set_slot DMS.dms_addr (DMS.switch_key 1) (<[17%nat := 2]> zero32) NewStateDB.
Definition dms_call (sel id : Z) : bytes := be_enc 4 sel ++ be_enc 8 id.

Lemma settled_switch_frozen_witness :
  DMS.switch_of (DMS.deadManSwitchPrecompile (dms_call 0x26C1497E 1) (lit "a") 7 claimed_world).2 1
  = DMS.switch_of claimed_world 1.
Proof.
  apply (settled_switch_frozen 1 (dms_call 0x26C1497E 1) (lit "a") 7 claimed_world).
  - vm_compute. discriminate.
  - vm_compute. discriminate.
Defined.

Definition active_world : World :=
  set_slot DMS.dms_addr (DMS.switch_key 1)
    (1 :: be_enc 8 100000 ++ be_enc 8 50 ++ [0] ++ be_enc 8 50 ++ zeros 6) NewStateDB.

Lemma claim_window_witness :
  (DMS.claim (dms_call 0x40FADB8B 1) 100050 active_world).1 = Ok [0] /\
  (DMS.claim (dms_call 0x40FADB8B 1) 100051 active_world).1 = Ok [1].
Proof.
  split.
  - pose proof (claim_window (dms_call 0x40FADB8B 1) 100050 active_world) as H. cbv zeta in H.
    destruct (DMS.claim (dms_call 0x40FADB8B 1) 100050 active_world) as [r w'].
    apply proj1 in H; [cbn [fst]; rewrite H; vm_compute; reflexivity|..];
      vm_compute; try reflexivity; split; [discriminate|reflexivity].
  - pose proof (claim_window (dms_call 0x40FADB8B 1) 100051 active_world) as H. cbv zeta in H.
    destruct (DMS.claim (dms_call 0x40FADB8B 1) 100051 active_world) as [r w'].
    apply proj1 in H; [cbn [fst]; rewrite H; vm_compute; reflexivity|..];
      vm_compute; try reflexivity; split; [discriminate|reflexivity].
Defined.

Lemma allocation_halves_witness : SE.allocation 3 = 1250000 * 10 ^ 18.
Proof. rewrite (proj1 (allocation_halves 3 ltac:(lia))). reflexivity. Defined.
