(* ===== verification/Ledger.v ===== *)
(** Sums over the accounts of a state, and what keeps them: the acct_total of the
    balances ("money"), and sums of per-account storage slots.  The components
    that move value (the faucet, the token precompiles, block execution) state
    their conservation properties with these. *)

From Stdlib Require Import ZArith Lia.
From S2P Require Import Prelude Collections StateDB.
From stdpp Require Import gmap list.
Local Open Scope Z_scope.
Local Open Scope go_scope.

(** ** Sums over accounts *)

Definition acct_sum (f : bytes -> Account -> Z) (m : gmap bytes Account) : Z :=
  sumZ (map (fun e => f e.1 e.2) (map_to_list m)).

Definition acct_total (f : bytes -> Account -> Z) (w : World) : Z := acct_sum f (accounts w).

Lemma acct_sum_empty f : acct_sum f ∅ = 0.
Proof. unfold acct_sum. by rewrite map_to_list_empty. Qed.

Lemma acct_sum_insert f m a x :
  m !! a = None -> acct_sum f (<[a := x]> m) = f a x + acct_sum f m.
Proof.
  intros Ha. unfold acct_sum.
  rewrite (sumZ_perm _ (map (fun e => f e.1 e.2) ((a, x) :: map_to_list m))); [done|].
  apply Permutation_map. by apply map_to_list_insert.
Qed.

Lemma acct_sum_delete f m a x :
  m !! a = Some x -> acct_sum f m = f a x + acct_sum f (delete a m).
Proof.
  intros Ha. rewrite <- (insert_delete_id m a x Ha) at 1.
  apply acct_sum_insert, lookup_delete_eq.
Qed.

Lemma acct_sum_ge f m a x :
  (forall b y, m !! b = Some y -> 0 <= f b y) -> m !! a = Some x -> f a x <= acct_sum f m.
Proof.
  intros Hf Ha. rewrite (acct_sum_delete f m a x Ha).
  enough (0 <= acct_sum f (delete a m)) by lia. unfold acct_sum.
  apply sumZ_nonneg, Forall_forall. intros z Hz.
  apply list_elem_of_fmap in Hz as ([b y] & -> & Hb). apply elem_of_map_to_list in Hb.
  apply lookup_delete_Some in Hb as [_ Hb]. by apply Hf.
Qed.

Section Sum.
Context (f : bytes -> Account -> Z) (f_new : forall a, f a NewAccount = 0).

Lemma total_upd a g w :
  acct_total f (upd_acct a g w) = acct_total f w + (f a (g (acct w a)) - f a (acct w a)).
Proof using f_new.
  unfold acct_total, upd_acct, acct. cbn [accounts with_accounts].
  destruct (accounts w !! a) as [x|] eqn:E; cbn [default].
  - rewrite (acct_sum_delete f (accounts w) a x E), <- insert_delete_eq.
    rewrite acct_sum_insert by apply lookup_delete_eq. cbn. lia.
  - rewrite acct_sum_insert by done. cbn. rewrite f_new. lia.
Qed.

Lemma total_touch a w : acct_total f (GetOrCreateAccount a w) = acct_total f w.
Proof using f_new.
  unfold GetOrCreateAccount. destruct (accounts w !! a) eqn:E; [done|].
  unfold acct_total. cbn. rewrite acct_sum_insert by done. rewrite f_new. lia.
Qed.

(** A member of a nonnegative sum is bounded by it. *)
Lemma total_ge a w :
  (forall b, 0 <= f b (acct w b)) -> f a (acct w a) <= acct_total f w.
Proof using f_new.
  intros Hf. unfold acct_total. pose proof (Hf a) as Ha. unfold acct in Ha |- *.
  destruct (accounts w !! a) as [x|] eqn:E.
  - apply (acct_sum_ge f _ a x); [|done]. intros b y Hy.
    specialize (Hf b). unfold acct in Hf. by rewrite Hy in Hf.
  - cbn. rewrite f_new. unfold acct_sum. apply sumZ_nonneg, Forall_forall. intros z Hz.
    apply list_elem_of_fmap in Hz as ([b y] & -> & Hb). apply elem_of_map_to_list in Hb.
    specialize (Hf b). unfold acct in Hf. by rewrite Hb in Hf.
Qed.

End Sum.

(** ** Money *)

Definition money (w : World) : Z := acct_total (fun _ acc => Balance acc) w.

Lemma money_touch a w : money (GetOrCreateAccount a w) = money w.
Proof. by apply total_touch. Qed.
Lemma money_set_bal a z w : money (set_bal a z w) = money w + (z - bal w a).
Proof. unfold money, set_bal, bal. rewrite total_upd by done. done. Qed.
Lemma money_add_bal a z w : money (add_bal a z w) = money w + z.
Proof. unfold add_bal. rewrite money_set_bal. lia. Qed.
Lemma money_set_slot a k v w : money (set_slot a k v w) = money w.
Proof. unfold money, set_slot. rewrite total_upd by done. cbn. lia. Qed.
Lemma money_accounts w w' : accounts w' = accounts w -> money w' = money w.
Proof. unfold money, acct_total. by intros ->. Qed.
Lemma money_log a t d n w : money (AddLog a t d n w) = money w.
Proof. done. Qed.

#[export] Hint Rewrite money_touch money_set_bal money_add_bal money_set_slot money_log : world.

Definition same_money (w w' : World) : Prop := money w' = money w.

#[export] Instance same_money_preorder : PreOrder same_money.
Proof. split; [done|]. intros x y z H1 H2. unfold same_money in *. congruence. Qed.

Lemma same_money_touch a : respects same_money (touch a).
Proof. intros w. apply money_touch. Qed.
Lemma same_money_sstore a k v : respects same_money (sstore a k v).
Proof. intros w. apply money_set_slot. Qed.
Lemma same_money_addlog a t d n : respects same_money (addlog a t d n).
Proof. by intros w. Qed.
Lemma same_money_bind_must {A B} (o : option A) (k : A -> HM B) :
  (forall a, respects same_money (k a)) -> respects same_money (mbind (M := M World) k (must o)).
Proof. intros H. apply respects_bind_must; [apply _|]. intros a _. apply H. Qed.

(** [money_auto]: conservation goals of handlers that only write storage. *)
Ltac money_step :=
  lazymatch goal with
  | |- respects same_money (touch _) => apply same_money_touch
  | |- respects same_money (sstore _ _ _) => apply same_money_sstore
  | |- respects same_money (addlog _ _ _ _) => apply same_money_addlog
  | |- respects same_money (sstore_big _ _ _) => unfold sstore_big
  | |- respects same_money (sstore_fill _ _ _) => unfold sstore_fill
  | |- respects same_money _ => frame_step
  end.
Ltac money_auto := repeat money_step.

Lemma total_zero f w : (forall a x, accounts w !! a = Some x -> f a x = 0) -> acct_total f w = 0.
Proof.
  intros Hf. unfold acct_total, acct_sum.
  assert (H : forall l : list (bytes * Account),
    (forall e, e ∈ l -> f e.1 e.2 = 0) -> sumZ (map (fun e => f e.1 e.2) l) = 0).
  { induction l as [|e l IH]; intros Hl; [done|]. cbn [map sumZ foldr].
    rewrite (Hl e) by left. change (foldr Z.add 0 ?x) with (sumZ x). rewrite IH; [done|].
    intros e' He'. apply Hl. by right. }
  apply H. intros [a x] Hin. apply elem_of_map_to_list in Hin. by apply Hf.
Qed.
