(* ===== verification/Sway.v ===== *)
(** The SWAY token precompile (evm/sway_token.go, address 0x24): genesis
    allocation, bucketed minting, burning and the supply counter. *)

From Stdlib Require Import ZArith Lia.
From S2P Require Import Prelude Sha256 Collections StateDB Ledger Econo.
From stdpp Require Import gmap list.
Local Open Scope Z_scope.
Local Open Scope go_scope.

Definition SwayInitialSupply : Z := 1000000000.
Definition SwayHardCeiling : Z := 5000000000.
Definition SwayAllocFutureTasks : Z := 45.
Definition SwayAllocDEXLP : Z := 20.
Definition SwayAllocEcosystem : Z := 35.
Definition SwayBaseEmissionBps : Z := 250.
Definition SwayExpansionEmissionDeltaBps : Z := -100.
Definition SwayConsolidationEmissionDeltaBps : Z := 150.
Definition SwayBaseBurnBps : Z := 2000.

Definition sway_addr : bytes := PrecompileAddrHex 36.
Definition swayKeyTotalSupply : bytes := storageKey (lit "sway:totalSupply").
Definition swayKeyInit : bytes := storageKey (lit "sway:initialized").
Definition swayKeyBucket (b : bytes) : bytes := storageKey (lit "sway:bucket:" ++ b).
Definition swayBalanceKey (who : bytes) : bytes := storageKey (48 :: who).

Definition futureTasks : bytes := lit "futureTasks".
Definition dexLP : bytes := lit "dexLP".
Definition ecosystem : bytes := lit "ecosystem".

(** The allocation loop of [SwayInit]. *)
Definition allocations : list (bytes * Z) :=
  [(futureTasks, SwayAllocFutureTasks); (dexLP, SwayAllocDEXLP); (ecosystem, SwayAllocEcosystem)].
Fixpoint allocate (l : list (bytes * Z)) : HM unit :=
  match l with
  | [] => mret tt
  | (name, pct) :: l =>
      sstore_big sway_addr (swayKeyBucket name) (SwayInitialSupply * pct / 100) ;;;
      allocate l
  end.

Definition SwayInit : HM unit :=
  touch sway_addr ;;;
  let* done := sread sway_addr swayKeyInit in
  if negb (done =? 0) then mret tt else
  sstore_big sway_addr swayKeyTotalSupply SwayInitialSupply ;;;
  sstore_big sway_addr swayKeyInit 1 ;;;
  allocate allocations.

Definition SwayCirculating (w : World) : Z :=
  match GetAccount w sway_addr with
  | None => 0
  | Some _ => readBigInt (slot w sway_addr swayKeyTotalSupply)
  end.

Definition SwayBucketBalance (w : World) (name : bytes) : Z :=
  match GetAccount w sway_addr with
  | None => 0
  | Some _ => readBigInt (slot w sway_addr (swayKeyBucket name))
  end.

Definition SwayEmissionBps (w : World) : Z :=
  let delta := if pol_Phase (policy w) =? 1 then SwayExpansionEmissionDeltaBps
               else SwayConsolidationEmissionDeltaBps in
  let rate := SwayBaseEmissionBps + delta in
  u64 (if rate <? 0 then 0 else rate).

Definition epochsPerYear : Z := 365 * 24 * 3600 / (3 * 10000).
Definition SwayProjectedEmissionFromGBP (w : World) (pctBps : Z) : Z :=
  let gbp := EconoGBPEquiv (econo w) in
  if gbp =? 0 then 0 else gbp * epochsPerYear * pctBps / 10000.

(** [swayMintInternal] with a bucket; the empty name skips the bucket. *)
Definition swayMintInternal (to : bytes) (amount : Z) (bucket : bytes) : HM unit :=
  guard_err (amount <=? 0) "SWAY: amount must be positive" ;;;
  touch sway_addr ;;;
  let* remaining := sread sway_addr (swayKeyBucket bucket) in
  guard_err (bool_decide (bucket <> []) && (remaining <? amount)) "SWAY: bucket %s exhausted" ;;;
  let* supply := sread sway_addr swayKeyTotalSupply in
  let newTotal := supply + amount in
  guard_err (SwayHardCeiling <? big_u64 newTotal) "SWAY: hard ceiling %d exceeded" ;;;
  touch to ;;;
  let* cur := sread to (swayBalanceKey to) in
  sstore_big to (swayBalanceKey to) (cur + amount) ;;;
  sstore_big sway_addr swayKeyTotalSupply newTotal ;;;
  if bool_decide (bucket <> []) then
    let* rest := sread sway_addr (swayKeyBucket bucket) in
    sstore_big sway_addr (swayKeyBucket bucket) (rest - amount)
  else mret tt.

Definition swayBurnInternal (from : bytes) (amount : Z) : HM unit :=
  guard_err (amount <=? 0) "SWAY: amount must be positive" ;;;
  touch from ;;;
  let* cur := sread from (swayBalanceKey from) in
  guard_err (cur <? amount) "SWAY: insufficient balance" ;;;
  sstore_big from (swayBalanceKey from) (cur - amount) ;;;
  touch sway_addr ;;;
  let* supply := sread sway_addr swayKeyTotalSupply in
  sstore_big sway_addr swayKeyTotalSupply (supply - amount).

(** The result is the amount burned. *)
Definition SwayBurnFromFees (feeAmount : Z) : HM Z :=
  let burn := feeAmount * SwayBaseBurnBps / 10000 in
  if burn =? 0 then mret 0 else
  touch sway_addr ;;;
  let* eco := sread sway_addr (swayKeyBucket ecosystem) in
  let burn := if eco <? burn then eco else burn in
  if burn =? 0 then mret 0 else
  sstore_big sway_addr (swayKeyBucket ecosystem) (eco - burn) ;;;
  let* supply := sread sway_addr swayKeyTotalSupply in
  sstore_big sway_addr swayKeyTotalSupply (supply - burn) ;;;
  mret burn.

Definition swayMint (input caller : bytes) : HM bytes :=
  guard_err (negb (bool_decide (caller = PrecompileAddrHex 37)) &&
             negb (bool_decide (caller = PrecompileAddrHex 25))) "SWAY: unauthorized minter" ;;;
  swayMintInternal (fmt_x (readAddress input 4)) (readBigInt (readSlot input 24)) dexLP ;;;
  mret [1].

Definition swayMintToCaller (input caller : bytes) : HM bytes :=
  let amount := readBigInt (readSlot input 4) in
  (if bool_decide (caller = PrecompileAddrHex 24) then swayMintInternal caller amount dexLP
   else if bool_decide (caller = PrecompileAddrHex 35) then swayMintInternal caller amount futureTasks
   else fail "SWAY: unauthorized minter") ;;;
  mret [1].

(** The balance is looked up under the raw address, in an account that must
    exist. *)
Definition swayGetBalance (input : bytes) : HM bytes :=
  let raw := readAddress input 4 in
  let* acc := gets (fun w => GetAccount w (fmt_x raw)) in
  match acc with
  | None => panic
  | Some _ =>
      let* b := sread (fmt_x raw) (swayBalanceKey raw) in
      must (fill_bytes 32 b)
  end.

Definition swaySwapFee (input : bytes) : HM bytes :=
  let raw := readAddress input 4 in
  touch (fmt_x raw) ;;;
  sstore_big (fmt_x raw) (swayBalanceKey raw) 1 ;;;
  mret [1].

(** [swayPrecompile]. *)
Definition swayPrecompile : Handler := fun input caller _ =>
  guard_err (length input <? 4)%nat "SWAY: input too short" ;;;
  let sel := selectorBytes input in
  if sel =? 0x0A1B2C3D then SwayInit ;;; mret [1]
  else if sel =? 0xA1B2C3E4 then swayMint input caller
  else if sel =? 0xF6A7B8C9 then swayMintToCaller input caller
  else if sel =? 0xB2C3D4F5 then
    swayBurnInternal (fmt_x (readAddress input 4)) (readBigInt (readSlot input 24)) ;;; mret [1]
  else if sel =? 0xC3D4E5A6 then swayGetBalance input
  else if sel =? 0xD4E5A6B7 then
    let* supply := gets SwayCirculating in must (fill_bytes 32 supply)
  else if sel =? 0xE5A6B7C8 then
    let* bps := gets SwayEmissionBps in must (fill_bytes 32 bps)
  else if sel =? 0x1A2B3C4D then swaySwapFee input
  else fail "SWAY: unknown selector 0x%08X".

(** ** The ledger *)

(** What an account holds: the slot of its own address string. *)
Definition holding (a : bytes) (acc : Account) : Z :=
  readBigInt (default zero32 (Storage acc !! swayBalanceKey a)).
Definition sway_held (w : World) : Z := acct_total holding w.
Definition sway_supply (w : World) : Z := readBigInt (slot w sway_addr swayKeyTotalSupply).
Definition sway_bucket (w : World) (b : bytes) : Z :=
  readBigInt (slot w sway_addr (swayKeyBucket b)).

(** The initial supply plus what is held is the counter; what the buckets gave
    out is held or burned. *)
Record sway_ok (w : World) : Prop := {
  so_supply : sway_supply w = SwayInitialSupply + sway_held w;
  so_held : forall a, 0 <= holding a (acct w a);
  so_lp : 0 <= sway_bucket w dexLP;
  so_tasks : 0 <= sway_bucket w futureTasks;
  so_spent : sway_held w + sway_bucket w dexLP + sway_bucket w futureTasks <=
             SwayInitialSupply * (SwayAllocFutureTasks + SwayAllocDEXLP) / 100;
  so_init : readBigInt (slot w sway_addr swayKeyInit) <> 0;
}.

(** The preimages of the keys a call can touch. *)
Definition admin_preimages : list bytes :=
  [lit "sway:totalSupply"; lit "sway:initialized"; lit "sway:bucket:dexLP";
   lit "sway:bucket:futureTasks"; lit "sway:bucket:ecosystem"].
Definition admin_keys : list bytes := map storageKey admin_preimages.
Definition sway_preimages (raw : bytes) : list bytes :=
  [48 :: raw; 48 :: fmt_x raw] ++ admin_preimages.

(** Before the seed: no counter and no holdings. *)
Definition sway_fresh (w : World) : Prop :=
  readBigInt (slot w sway_addr swayKeyInit) = 0 /\ forall a, holding a (acct w a) = 0.

Inductive sway_reachable : World -> Prop :=
| sway_genesis w : sway_fresh w -> sway_reachable (SwayInit w).2
| sway_call input caller block w :
    sway_reachable w -> collision_free (sway_preimages (readAddress input 4)) ->
    sway_reachable (swayPrecompile input caller block w).2.

(** ** Lemmas *)

Lemma holding_new a : holding a NewAccount = 0.
Proof. reflexivity. Qed.

Lemma holding_slot a w : holding a (acct w a) = readBigInt (slot w a (swayBalanceKey a)).
Proof. done. Qed.

Lemma held_touch a w : sway_held (GetOrCreateAccount a w) = sway_held w.
Proof. apply total_touch, holding_new. Qed.

Lemma held_set a k v w :
  k <> swayBalanceKey a -> sway_held (set_slot a k v w) = sway_held w.
Proof.
  intros Hk. unfold sway_held, set_slot. rewrite total_upd by apply holding_new.
  unfold holding at 2. cbn [Storage with_storage]. rewrite lookup_insert_ne by done.
  unfold holding at 2. lia.
Qed.

Lemma held_set_own a v w :
  sway_held (set_slot a (swayBalanceKey a) v w) =
  sway_held w - readBigInt (slot w a (swayBalanceKey a)) + readBigInt v.
Proof.
  unfold sway_held, set_slot. rewrite total_upd by apply holding_new.
  unfold holding, slot. cbn [Storage with_storage]. rewrite lookup_insert_eq.
  unfold default, from_option, id. lia.
Qed.

#[export] Hint Rewrite held_touch : world.

Lemma holding_le w a : sway_ok w -> 0 <= readBigInt (slot w a (swayBalanceKey a)) <= sway_held w.
Proof.
  intros H. split; [apply (so_held w H)|].
  rewrite <- holding_slot. apply total_ge; [apply holding_new|apply (so_held w H)].
Qed.

(** Concrete keys are told apart by evaluation. *)
Lemma admin_keys_nodup : NoDup admin_keys.
Proof. apply (bool_decide_unpack _). vm_compute. exact I. Qed.

Lemma own_keys_apart who :
  who ∈ [sway_addr; PrecompileAddrHex 24; PrecompileAddrHex 35] ->
  swayBalanceKey who ∉ admin_keys.
Proof.
  intros H. repeat (apply elem_of_cons in H as [->|H]);
    [apply (bool_decide_unpack _); vm_compute; exact I..|].
  by apply elem_of_nil in H.
Qed.

Lemma raw_keys_apart raw :
  length raw = 20%nat -> collision_free (sway_preimages raw) ->
  (swayBalanceKey raw ∉ admin_keys) /\ (swayBalanceKey (fmt_x raw) ∉ admin_keys) /\
  swayBalanceKey raw <> swayBalanceKey (fmt_x raw).
Proof.
  intros Hl Hc.
  assert (Hne : forall x, x ∈ [48 :: raw; 48 :: fmt_x raw] -> storageKey x ∉ admin_keys).
  { intros x Hx Hin. apply list_elem_of_fmap in Hin as (p & Hp & Hin).
    assert (x <> p) as Hxp.
    { intros <-. repeat (apply elem_of_cons in Hx as [->|Hx]); [| |by apply elem_of_nil in Hx];
        repeat (apply elem_of_cons in Hin as [Hin|Hin]; [discriminate Hin|]);
        by apply elem_of_nil in Hin. }
    revert Hp. apply (collision_free_ne _ _ _ Hc); [..|done]; apply elem_of_app; auto. }
  split_and!; [apply Hne; pre_mem..|].
  apply (collision_free_ne _ _ _ Hc); [pre_mem..|]. intros [= H].
  assert (length raw = length (fmt_x raw)) as Hlen by (by rewrite <- H).
  rewrite fmt_x_length in Hlen. lia.
Qed.

Ltac concrete := apply (bool_decide_unpack _); vm_compute; exact I.

(** A write to one of the counters. *)
Lemma admin_write k s w :
  k ∈ admin_keys ->
  let w' := set_slot sway_addr k s w in
  sway_held w' = sway_held w /\
  (forall a, holding a (acct w' a) = holding a (acct w a)) /\
  (forall k', k' <> k -> slot w' sway_addr k' = slot w sway_addr k') /\
  slot w' sway_addr k = s.
Proof.
  intros Hk w'. assert (Hne : k <> swayBalanceKey sway_addr).
  { intros ->. by apply (own_keys_apart sway_addr ltac:(pre_mem)). }
  split_and!.
  - by apply held_set.
  - intros a. rewrite !holding_slot. subst w'. rewrite slot_set. case_decide as E; [|done].
    destruct E as [<- E]. done.
  - intros k' Hk'. apply slot_set_ne. right. congruence.
  - apply slot_set_eq.
Qed.

(** A write to an account's own balance. *)
Lemma own_write to s w :
  swayBalanceKey to ∉ admin_keys -> 0 <= readBigInt s ->
  let w' := set_slot to (swayBalanceKey to) s w in
  sway_held w' = sway_held w - readBigInt (slot w to (swayBalanceKey to)) + readBigInt s /\
  ((forall a, 0 <= holding a (acct w a)) -> forall a, 0 <= holding a (acct w' a)) /\
  (forall k, k ∈ admin_keys -> slot w' sway_addr k = slot w sway_addr k).
Proof.
  intros Hk Hs w'. split_and!.
  - apply held_set_own.
  - intros H a. specialize (H a). rewrite holding_slot in H |- *. subst w'. rewrite slot_set.
    by case_decide.
  - intros k Hin. apply slot_set_ne. right. intros <-. done.
Qed.

Lemma sway_ok_touch a w : sway_ok w -> sway_ok (GetOrCreateAccount a w).
Proof.
  intros [H1 H2 H3 H4 H5 H6].
  split; unfold sway_supply, sway_bucket in *; world_simpl; try done.
  intros b. rewrite acct_touch. apply H2.
Qed.

(** What a mint of [amount] from bucket [b] does to the ledger. *)
Record mint_effect (amount : Z) (b : bytes) (w w' : World) : Prop := {
  me_held : sway_held w' = sway_held w + amount;
  me_supply : sway_supply w' = sway_supply w + amount;
  me_bucket : sway_bucket w' b = sway_bucket w b - amount;
  me_other : forall b', b' ∈ [dexLP; futureTasks] -> b' <> b -> sway_bucket w' b' = sway_bucket w b';
  me_init : slot w' sway_addr swayKeyInit = slot w sway_addr swayKeyInit;
  me_nonneg : (forall a, 0 <= holding a (acct w a)) -> forall a, 0 <= holding a (acct w' a);
}.

Lemma bucket_key b :
  b ∈ [dexLP; futureTasks] ->
  swayKeyBucket b ∈ admin_keys /\ swayKeyBucket b <> swayKeyTotalSupply /\
  swayKeyBucket b <> swayKeyInit /\ bool_decide (b <> []) = true.
Proof.
  intros Hb. repeat (apply elem_of_cons in Hb as [->|Hb]); [..|by apply elem_of_nil in Hb];
    (split_and!; [concrete|concrete|concrete|reflexivity]).
Qed.
Lemma bucket_keys_apart b b' :
  b ∈ [dexLP; futureTasks] -> b' ∈ [dexLP; futureTasks] -> b' <> b -> swayKeyBucket b' <> swayKeyBucket b.
Proof.
  intros Hb Hb' Hne. rewrite !elem_of_cons in Hb, Hb'.
  destruct Hb as [->|[->|Hb]]; [..|destruct (not_elem_of_nil _ Hb)];
    (destruct Hb' as [->|[->|Hb']]; [..|destruct (not_elem_of_nil _ Hb')]).
  - exact (False_ind _ (Hne eq_refl)).
  - concrete.
  - concrete.
  - exact (False_ind _ (Hne eq_refl)).
Qed.

Lemma bucket_small w b : sway_ok w -> b ∈ [dexLP; futureTasks] -> 0 <= sway_bucket w b <= 650000000.
Proof.
  intros Hok Hb. pose proof (so_lp _ Hok). pose proof (so_tasks _ Hok). pose proof (so_spent _ Hok) as Hs.
  pose proof (holding_le _ [] Hok). change (SwayInitialSupply * _ / 100) with 650000000 in Hs.
  rewrite !elem_of_cons in Hb. destruct Hb as [->|[->|Hb]]; [lia|lia|destruct (not_elem_of_nil _ Hb)].
Qed.

(** The three writes of a mint. *)
Lemma mint_writes to amount b w :
  sway_ok w -> b ∈ [dexLP; futureTasks] -> swayBalanceKey to ∉ admin_keys ->
  0 < amount <= sway_bucket w b ->
  exists w',
    (let* cur := sread to (swayBalanceKey to) in
     sstore_big to (swayBalanceKey to) (cur + amount) ;;;
     sstore_big sway_addr swayKeyTotalSupply (sway_supply w + amount) ;;;
     let* rest := sread sway_addr (swayKeyBucket b) in
     sstore_big sway_addr (swayKeyBucket b) (rest - amount)) w = (Ok tt, w') /\
    mint_effect amount b w w'.
Proof.
  intros Hok Hb Hto Ha. unfold sread. run_go.
  destruct (bucket_key b Hb) as (B1 & B2 & B3 & _).
  pose proof (bucket_small w b Hok Hb) as Hsm. pose proof (holding_le w to Hok) as Hcur.
  pose proof (so_spent _ Hok) as H5. change (SwayInitialSupply * _ / 100) with 650000000 in H5.
  pose proof (so_supply _ Hok) as H1. pose proof (so_lp _ Hok). pose proof (so_tasks _ Hok).
  unfold SwayInitialSupply in H1. assert (Hbig : 5000000000 < 2 ^ 256) by reflexivity.
  destruct (sstore_big_run to (swayBalanceKey to)
    (readBigInt (slot w to (swayBalanceKey to)) + amount) w) as (s1 & R1 & E1); [lia|].
  rewrite E1. cbv beta iota.
  destruct (own_write to s1 w Hto ltac:(lia)) as (O1 & O2 & O3).
  set (w3 := set_slot to _ s1 w) in *.
  destruct (sstore_big_run sway_addr swayKeyTotalSupply (sway_supply w + amount) w3)
    as (s2 & R2 & E2); [lia|]. rewrite E2. cbv beta iota.
  destruct (admin_write swayKeyTotalSupply s2 w3 ltac:(concrete)) as (A1 & A2 & A3 & A4).
  set (w4 := set_slot sway_addr _ s2 w3) in *.
  assert (Hbu : readBigInt (slot w4 sway_addr (swayKeyBucket b)) = sway_bucket w b)
    by (unfold sway_bucket; by rewrite (A3 _ B2), (O3 _ B1)).
  rewrite Hbu.
  destruct (sstore_big_run sway_addr (swayKeyBucket b) (sway_bucket w b - amount) w4)
    as (s3 & R3 & E3); [lia|]. rewrite E3.
  destruct (admin_write (swayKeyBucket b) s3 w4 B1) as (C1 & C2 & C3 & C4).
  set (w5 := set_slot sway_addr _ s3 w4) in *. exists w5. split; [done|].
  clearbody w3 w4 w5. split; unfold sway_supply, sway_bucket in *.
  - rewrite C1, A1, O1. lia.
  - rewrite (C3 _ (not_eq_sym B2)). by rewrite A4, R2.
  - by rewrite C4, R3.
  - intros b' Hb' Hne. destruct (bucket_key b' Hb') as (B1' & B2' & _ & _).
    by rewrite (C3 _ (bucket_keys_apart b b' Hb Hb' Hne)), (A3 _ B2'), (O3 _ B1').
  - assert (I1 : swayKeyInit <> swayKeyTotalSupply) by concrete.
    assert (I2 : swayKeyInit ∈ admin_keys) by concrete.
    by rewrite (C3 _ (not_eq_sym B3)), (A3 _ I1), (O3 _ I2).
  - intros Hn a. rewrite C2, A2. by apply O2.
Qed.

Lemma mint_effect_ok amount b w w' :
  sway_ok w -> b ∈ [dexLP; futureTasks] -> 0 < amount <= sway_bucket w b -> mint_effect amount b w w' ->
  sway_ok w'.
Proof.
  intros [H1 H2 H3 H4 H5 H6] Hb Ha [E1 E2 E3 E4 E5 E6].
  assert (Hbk : forall b', b' ∈ [dexLP; futureTasks] ->
    sway_bucket w' b' = sway_bucket w b' - (if decide (b' = b) then amount else 0)).
  { intros b' Hb'. case_decide as E; [by subst|]. rewrite E4 by done. lia. }
  pose proof (Hbk dexLP ltac:(by left)) as Hl. pose proof (Hbk futureTasks ltac:(by right; left)) as Ht.
  rewrite !elem_of_cons in Hb. destruct Hb as [->|[->|Hb]]; [..|destruct (not_elem_of_nil _ Hb)];
    (repeat case_decide; try done; split; [lia|by apply E6|lia|lia|lia|by rewrite E5]).
Qed.

(** A mint is refused and changes no balance, or does what it says; it does not
    panic. *)
Lemma mint_cases to amount b w :
  sway_ok w -> b ∈ [dexLP; futureTasks] -> swayBalanceKey to ∉ admin_keys ->
  exists w', (swayMintInternal to amount b w).2 = w' /\ sway_ok w' /\
    ((exists e, (swayMintInternal to amount b w).1 = Err e /\ sway_supply w' = sway_supply w /\
                sway_held w' = sway_held w) \/
     ((swayMintInternal to amount b w).1 = Ok tt /\ 0 < amount /\ sway_supply w' = sway_supply w + amount /\
      sway_held w' = sway_held w + amount)).
Proof.
  intros Hok Hb Hto. eexists. split; [reflexivity|].
  assert (Ht : forall a x, sway_supply (GetOrCreateAccount a x) = sway_supply x /\
    sway_held (GetOrCreateAccount a x) = sway_held x /\
    forall c, sway_bucket (GetOrCreateAccount a x) c = sway_bucket x c).
  { intros a x. unfold sway_supply, sway_bucket. rewrite held_touch. repeat setoid_rewrite slot_touch. done. }
  destruct (Ht sway_addr w) as (T1 & T2 & T3).
  destruct (Ht to (GetOrCreateAccount sway_addr w)) as (U1 & U2 & U3).
  pose proof (sway_ok_touch sway_addr w Hok) as Hok1.
  pose proof (sway_ok_touch to _ Hok1) as Hok2.
  unfold swayMintInternal, sread. run_go.
  destruct (Z.leb_spec amount 0) as [|Hpos]; [split; [done|left; by eexists]|]. cbv beta iota.
  destruct (bucket_key b Hb) as (_ & _ & _ & B3). rewrite B3. cbn [andb].
  fold (sway_bucket (GetOrCreateAccount sway_addr w) b). rewrite T3.
  destruct (Z.ltb_spec (sway_bucket w b) amount) as [|Hle]; [split; [done|left; by eexists]|].
  cbv beta iota. fold (sway_supply (GetOrCreateAccount sway_addr w)).
  destruct (SwayHardCeiling <? _); [split; [done|left; by eexists]|]. cbv beta iota.
  destruct (mint_writes to amount b _ Hok2 Hb Hto ltac:(rewrite U3, T3; lia)) as (w' & E & Heff).
  cbv beta iota zeta delta [mbind M_bind sread gets] in E. rewrite U1 in E.
  rewrite E. split; [exact (mint_effect_ok amount b _ _ Hok2 Hb ltac:(rewrite U3, T3; lia) Heff)|right].
  destruct Heff as [E1 E2 _ _ _ _]. cbn [fst snd]. rewrite E1, E2, U1, U2, T1, T2. by split_and!.
Qed.

Lemma mint_ok to amount b w :
  sway_ok w -> b ∈ [dexLP; futureTasks] -> swayBalanceKey to ∉ admin_keys ->
  sway_ok (swayMintInternal to amount b w).2.
Proof. intros Hok Hb Hto. by destruct (mint_cases to amount b w Hok Hb Hto) as (w' & -> & ? & _). Qed.

Lemma burn_ok from amount w :
  sway_ok w -> swayBalanceKey from ∉ admin_keys -> sway_ok (swayBurnInternal from amount w).2.
Proof.
  intros Hok Hfrom. unfold swayBurnInternal, sread. run_go.
  destruct (Z.leb_spec amount 0) as [|Hpos]; [done|]. cbv beta iota.
  apply (sway_ok_touch from) in Hok. set (w1 := GetOrCreateAccount from w) in *.
  clearbody w1. clear w. pose proof (holding_le w1 from Hok) as Hcur.
  destruct (Z.ltb_spec (readBigInt (slot w1 from (swayBalanceKey from))) amount) as [|Hle]; [done|].
  cbv beta iota. destruct Hok as [H1 H2 H3 H4 H5 H6].
  change (SwayInitialSupply * (SwayAllocFutureTasks + SwayAllocDEXLP) / 100) with 650000000 in H5.
  unfold SwayInitialSupply in H1. assert (Hbig : 5000000000 < 2 ^ 256) by reflexivity.
  destruct (sstore_big_run from (swayBalanceKey from)
    (readBigInt (slot w1 from (swayBalanceKey from)) - amount) w1) as (s1 & R1 & E1); [lia|].
  rewrite E1. cbv beta iota.
  destruct (own_write from s1 w1 Hfrom ltac:(lia)) as (O1 & O2 & O3).
  set (w2 := set_slot from _ s1 w1) in *.
  rewrite slot_touch, O3 by concrete. fold (sway_supply w1).
  destruct (sstore_big_run sway_addr swayKeyTotalSupply (sway_supply w1 - amount)
    (GetOrCreateAccount sway_addr w2)) as (s2 & R2 & E2); [lia|]. rewrite E2. cbn [snd].
  destruct (admin_write swayKeyTotalSupply s2 (GetOrCreateAccount sway_addr w2) ltac:(concrete))
    as (A1 & A2 & A3 & A4).
  set (w3 := set_slot sway_addr _ s2 _) in *. rewrite held_touch in A1.
  assert (Hheld : sway_held w3 = sway_held w1 - amount) by (rewrite A1, O1; lia).
  clearbody w2 w3. unfold sway_supply, sway_bucket in *.
  split; unfold sway_supply, sway_bucket.
  - rewrite A4, R2, Hheld. unfold SwayInitialSupply. lia.
  - intros a. rewrite A2, acct_touch. by apply O2.
  - rewrite A3, slot_touch, O3 by concrete. done.
  - rewrite A3, slot_touch, O3 by concrete. done.
  - change (SwayInitialSupply * (SwayAllocFutureTasks + SwayAllocDEXLP) / 100) with 650000000.
    rewrite Hheld, !A3, !slot_touch, !O3 by concrete. lia.
  - rewrite A3, slot_touch, O3 by concrete. done.
Qed.

Lemma swapFee_ok input w :
  sway_ok w -> collision_free (sway_preimages (readAddress input 4)) ->
  sway_ok (swaySwapFee input w).2.
Proof.
  intros Hok Hc. unfold swaySwapFee. run_go. set (raw := readAddress input 4) in *.
  destruct (raw_keys_apart raw (readAddress_length input 4) Hc) as (K1 & K2 & K3).
  apply (sway_ok_touch (fmt_x raw)) in Hok. set (w1 := GetOrCreateAccount (fmt_x raw) w) in *.
  destruct (sstore_big_run (fmt_x raw) (swayBalanceKey raw) 1 w1) as (s & R & E); [done|].
  rewrite E. cbn [snd]. destruct Hok as [H1 H2 H3 H4 H5 H6].
  assert (Hadm : forall k, k ∈ admin_keys ->
    slot (set_slot (fmt_x raw) (swayBalanceKey raw) s w1) sway_addr k = slot w1 sway_addr k).
  { intros k Hk. apply slot_set_ne. right. by intros <-. }
  split; unfold sway_supply, sway_bucket in *; rewrite ?Hadm by concrete;
    rewrite ?(held_set _ _ _ _ K3); try done.
  intros a. rewrite holding_slot, slot_set. case_decide as Ha; [|apply H2].
  destruct Ha as [<- Ha]. done.
Qed.

Lemma init_ok w : sway_ok w -> sway_ok (SwayInit w).2.
Proof.
  intros Hok. pose proof (sway_ok_touch sway_addr w Hok) as Hok1. unfold SwayInit, sread. run_go.
  destruct (Z.eqb_spec (readBigInt (slot (GetOrCreateAccount sway_addr w) sway_addr swayKeyInit)) 0)
    as [E|E]; [|done].
  by apply (so_init _ Hok1) in E.
Qed.

Lemma init_fresh_ok w : sway_fresh w -> sway_ok (SwayInit w).2.
Proof.
  intros [Hi Hh]. unfold SwayInit, sread. run_go. rewrite slot_touch, Hi. cbn [Z.eqb negb].
  cbv beta iota.
  assert (H0 : forall a, holding a (acct (GetOrCreateAccount sway_addr w) a) = 0)
    by (intros a; by rewrite acct_touch).
  assert (Ht : sway_held (GetOrCreateAccount sway_addr w) = 0).
  { apply total_zero. intros a x Hx. specialize (H0 a). unfold acct in H0. by rewrite Hx in H0. }
  set (w1 := GetOrCreateAccount sway_addr w) in *. clearbody w1. cbn [allocate allocations]. run_go.
  assert (Hstep : forall k v u, k ∈ admin_keys -> 0 <= v < 2 ^ 256 -> exists u',
    sstore_big sway_addr k v u = (Ok tt, u') /\ sway_held u' = sway_held u /\
    (forall a, holding a (acct u' a) = holding a (acct u a)) /\
    (forall k', k' <> k -> slot u' sway_addr k' = slot u sway_addr k') /\
    readBigInt (slot u' sway_addr k) = v).
  { intros k v u Hk Hv. destruct (sstore_big_run sway_addr k v u Hv) as (s & R & E).
    destruct (admin_write k s u Hk) as (A1 & A2 & A3 & A4).
    exists (set_slot sway_addr k s u). by rewrite A4. }
  edestruct (Hstep swayKeyTotalSupply SwayInitialSupply w1) as (w2 & -> & B1 & B2 & B3 & B4);
    [concrete|done|]. cbv beta iota.
  edestruct (Hstep swayKeyInit 1 w2) as (w3 & -> & C1 & C2 & C3 & C4); [concrete|done|]. cbv beta iota.
  edestruct (Hstep (swayKeyBucket futureTasks) (SwayInitialSupply * SwayAllocFutureTasks / 100) w3)
    as (w4 & -> & D1 & D2 & D3 & D4); [concrete|done|]. cbv beta iota.
  edestruct (Hstep (swayKeyBucket dexLP) (SwayInitialSupply * SwayAllocDEXLP / 100) w4)
    as (w5 & -> & E1 & E2 & E3 & E4); [concrete|done|]. cbv beta iota.
  edestruct (Hstep (swayKeyBucket ecosystem) (SwayInitialSupply * SwayAllocEcosystem / 100) w5)
    as (w6 & -> & F1 & F2 & F3 & F4); [concrete|done|]. cbn [snd]. clear Hstep.
  assert (Hheld : sway_held w6 = 0) by congruence.
  split; unfold sway_supply, sway_bucket.
  - rewrite F3, E3, D3, C3, B4 by concrete. rewrite Hheld. done.
  - intros a. rewrite F2, E2, D2, C2, B2, H0. done.
  - rewrite F3, E4 by concrete. done.
  - rewrite F3, E3, D4 by concrete. done.
  - rewrite F3, E4, F3, E3, D4, Hheld by concrete. done.
  - rewrite F3, E3, D3, C4 by concrete. done.
Qed.

Lemma sway_step_ok input caller block w :
  sway_ok w -> collision_free (sway_preimages (readAddress input 4)) ->
  sway_ok (swayPrecompile input caller block w).2.
Proof.
  intros Hok Hc. destruct (raw_keys_apart _ (readAddress_length input 4) Hc) as (_ & K2 & _).
  assert (Hbind : forall (m : HM unit), sway_ok (m w).2 ->
    sway_ok ((mbind (M := M World) (fun _ => mret [1]) m) w).2).
  { intros m Hm. unfold mbind, M_bind. by destruct (m w) as [[]]. }
  unfold swayPrecompile. unfold mbind at 1, M_bind at 1, guard_err.
  destruct (length input <? 4)%nat; [done|]. cbv beta iota delta [mret M_ret]. cbv zeta.
  destruct (selectorBytes input =? 0x0A1B2C3D); [apply Hbind, init_ok, Hok|].
  destruct (selectorBytes input =? 0xA1B2C3E4).
  { unfold swayMint. unfold mbind at 1, M_bind at 1, guard_err. destruct (negb _ && _); [done|].
    cbv beta iota delta [mret M_ret]. apply Hbind, mint_ok; [done|pre_mem|done]. }
  destruct (selectorBytes input =? 0xF6A7B8C9).
  { unfold swayMintToCaller. cbv zeta. apply Hbind.
    case_bool_decide as E1; [subst caller; apply mint_ok; [done|pre_mem|apply own_keys_apart; pre_mem]|].
    case_bool_decide as E2; [subst caller; apply mint_ok; [done|pre_mem|apply own_keys_apart; pre_mem]|].
    done. }
  destruct (selectorBytes input =? 0xB2C3D4F5); [by apply Hbind, burn_ok|].
  destruct (selectorBytes input =? 0xC3D4E5A6).
  { unfold swayGetBalance, sread. run_go. cbv zeta. destruct (GetAccount _ _); [|done]. cbv beta iota.
    unfold must. by destruct (fill_bytes _ _). }
  destruct (selectorBytes input =? 0xD4E5A6B7); [run_go; unfold must; by destruct (fill_bytes _ _)|].
  destruct (selectorBytes input =? 0xE5A6B7C8); [run_go; unfold must; by destruct (fill_bytes _ _)|].
  destruct (selectorBytes input =? 0x1A2B3C4D); [by apply swapFee_ok|]. done.
Qed.

(** ** Properties *)

(** C19 (SWAY ledger).  In every state reachable from the genesis seed through the
    precompile, the supply counter is the initial supply plus the sum of what
    the accounts hold; nobody holds more than that sum; what was minted stays
    within the two reward buckets, so the counter never passes 1.65 billion and
    the hard ceiling is never reached. *)
Theorem sway_ledger w :
  sway_reachable w ->
  sway_supply w = SwayInitialSupply + sway_held w /\
  (forall a, 0 <= readBigInt (slot w a (swayBalanceKey a)) <= sway_held w) /\
  sway_held w <= 650000000 - sway_bucket w dexLP - sway_bucket w futureTasks /\
  sway_supply w <= 1650000000 < SwayHardCeiling.
Proof.
  intros Hr. assert (Hok : sway_ok w).
  { induction Hr as [w Hf|input caller block w _ IH Hc]; [by apply init_fresh_ok|by apply sway_step_ok]. }
  pose proof (so_spent _ Hok) as Hs. change (SwayInitialSupply * _ / 100) with 650000000 in Hs.
  pose proof (so_lp _ Hok). pose proof (so_tasks _ Hok). pose proof (so_supply _ Hok) as Hsup.
  split_and!; [done|intros a; by apply holding_le|lia| |done].
  rewrite Hsup. unfold SwayInitialSupply. lia.
Qed.

(** ** What the code does that its comments do not say *)

Definition lp_call : bytes := be_enc 4 0xA1B2C3E4 ++ be_enc 20 77 ++ be_enc 32 500.
Definition pool_caller : bytes := PrecompileAddrHex 25.
Definition genesis_sway : World := (SwayInit NewStateDB).2.
Definition minted_world : World := (swayPrecompile lp_call pool_caller 1 genesis_sway).2.

(** A minted balance is stored under the address string and read under the raw
    address: [getBalance] shows nothing. *)
Lemma minted_balance_is_invisible :
  readBigInt (slot minted_world (fmt_x (be_enc 20 77)) (swayBalanceKey (fmt_x (be_enc 20 77)))) = 500 /\
  (swayPrecompile (be_enc 4 0xC3D4E5A6 ++ be_enc 20 77) (lit "x") 1 minted_world).1 = Ok (zeros 32).
Proof. vm_compute. done. Qed.

(** Anyone burns anyone's tokens. *)
Lemma anyone_burns :
  let w := (swayPrecompile (be_enc 4 0xB2C3D4F5 ++ be_enc 20 77 ++ be_enc 32 500) (lit "thief") 1
              minted_world).2 in
  readBigInt (slot w (fmt_x (be_enc 20 77)) (swayBalanceKey (fmt_x (be_enc 20 77)))) = 0.
Proof. vm_compute. reflexivity. Qed.

(** The balance of an address the state has not seen is a nil dereference. *)
Lemma balance_of_nobody_panics :
  (swayPrecompile (be_enc 4 0xC3D4E5A6 ++ be_enc 20 77) (lit "x") 1 NewStateDB).1 = Panic.
Proof. vm_compute. reflexivity. Qed.

(** The buckets are shares of the initial supply, and a mint from a bucket adds
    to the counter again. *)
Lemma bucket_mint_inflates : sway_supply minted_world = SwayInitialSupply + 500.
Proof. vm_compute. reflexivity. Qed.

(** ** Witness *)

Lemma sway_ledger_witness : sway_supply minted_world = SwayInitialSupply + sway_held minted_world.
Proof.
  assert (Hr : sway_reachable minted_world).
  { apply sway_call; [apply sway_genesis|].
    - split; [vm_compute; reflexivity|]. intros a. reflexivity.
    - apply collision_free_nodup. vm_compute. reflexivity. }
  exact (proj1 (sway_ledger minted_world Hr)).
Defined.
