(* ===== verification/Faucet.v ===== *)
(** The gas faucet (evm/faucet.go, address 0x27) and the one-shot genesis seed it
    can trigger (evm/genesis_seed.go). *)

From Stdlib Require Import ZArith Lia.
From S2P Require Import Prelude Sha256 StateDB Ledger Econo TaskRegistry.
From stdpp Require Import gmap list.
Local Open Scope Z_scope.
Local Open Scope go_scope.

(** ** Genesis seed *)

Definition FounderAddress : bytes := lit "e5da0c28804c512ac7e0f4a53ad8d6fd13f81e76".
Definition ecosystem_reserve : bytes := lit "00000000000000000000000000000000000000ec".
Definition faucet_addr : bytes := PrecompileAddrHex 39.

Record GenesisSeedAccount := mkSeed { seed_Address : bytes; seed_Balance : Z; seed_Level : Z }.

Definition GenesisBootstrapAccounts : list GenesisSeedAccount :=
  [mkSeed treasury_addr 10000000 3;
   mkSeed ecosystem_reserve 13500000 3;
   mkSeed FounderAddress 1000000 3].

Definition FaucetGenesisReserve : Z := 10 ^ 24.

Definition seed_balance (balance : Z) (acc : Account) : Account :=
  if Balance acc =? 0 then with_balance balance acc else acc.
Definition seed_level (level : Z) (acc : Account) : Account :=
  if (0 <? level) && (DoxDevLevel acc <? level) then with_level level acc else acc.

Definition seed_fun (a : GenesisSeedAccount) (acc : Account) : Account :=
  seed_level (seed_Level a) (seed_balance (seed_Balance a) acc).

Definition seedAccountIfEmpty (a : GenesisSeedAccount) (w : World) : World :=
  upd_acct (seed_Address a) (seed_fun a) w.

(** The address constant decodes, so the seed cannot fail. *)
Definition founder_bytes : bytes := default [] (hex_decode FounderAddress).

Definition SeedAllGenesis (w : World) : World :=
  let w := fold_left (fun w a => seedAccountIfEmpty a w) GenesisBootstrapAccounts w in
  let w := upd_acct faucet_addr (seed_balance FaucetGenesisReserve) w in
  set_slot addr23 autopilot_key (copy_at 12 founder_bytes zero32) (GetOrCreateAccount addr23 w).

(** ** Faucet *)

Definition FaucetDefaultDripAmount : Z := 10 ^ 18.
Definition FaucetDefaultCooldown : Z := 1000.

Definition faucet_drip_key : bytes := storageKey [0].
Definition faucet_cooldown_key : bytes := storageKey [1].
Definition faucet_total_key : bytes := storageKey [2].
Definition faucet_last_key (who : bytes) : bytes := storageKey (16 :: who).

(** [callerAccountKey]. *)
Definition callerAccountKey (caller : bytes) : bytes :=
  let s := trim_0x (to_lower caller) in
  if (64 <=? length s)%nat then take 40 s else s.

Definition isFaucetAdmin (caller : bytes) : HM bool :=
  let callerKey := callerAccountKey caller in
  if bool_decide (callerKey = treasury_addr) then mret true else
  touch (PrecompileAddrHex 19) ;;;
  let* level := gets (fun w => readBigInt (slot w (PrecompileAddrHex 19) (storageKey (32 :: callerKey)))) in
  mret (3 <=? level).

(** The drip amount and the cooldown in force. *)
Definition drip_amount (w : World) : Z :=
  let drip := readBigInt (slot w faucet_addr faucet_drip_key) in
  if drip =? 0 then FaucetDefaultDripAmount else drip.
Definition cooldown_blocks (w : World) : Z :=
  let cd := readUint64 (slot w faucet_addr faucet_cooldown_key) in
  if cd =? 0 then FaucetDefaultCooldown else cd.

Definition rate_limited (w : World) (who : bytes) (blockNum : Z) : bool :=
  let last := readUint64 (slot w faucet_addr (faucet_last_key who)) in
  negb (last =? 0) && (blockNum <? u64 (last + cooldown_blocks w)).

Definition faucetDrip (caller who : bytes) (blockNum : Z) : HM bytes :=
  (if bool_decide (callerAccountKey caller = FounderAddress) then modify SeedAllGenesis
   else mret tt) ;;;
  let* w := gets id in
  if rate_limited w who blockNum then mret [0] else
  let drip := drip_amount w in
  if bal w faucet_addr <? drip then mret [0] else
  modify (add_bal faucet_addr (- drip)) ;;;
  touch caller ;;;
  modify (add_bal caller drip) ;;;
  sstore faucet_addr (faucet_last_key who) (be_enc 32 blockNum) ;;;
  let* sum := gets (fun w => readBigInt (slot w faucet_addr faucet_total_key)) in
  sstore_big faucet_addr faucet_total_key (sum + drip) ;;;
  addlog faucet_addr [storageKey (lit "FaucetDrip")] caller blockNum ;;;
  mret [1].

(** [faucetPrecompile]: the caller's key is cut at 20 characters before the
    selector is looked at; a shorter string panics. *)
Definition faucetPrecompile : Handler := fun input caller blockNum =>
  let sel := selectorBytes input in
  touch faucet_addr ;;;
  let* who := must (slice (callerAccountKey caller) 0 20) in
  if sel =? 0x2A7AB5DA then faucetDrip caller who blockNum
  else if sel =? 0xF7C3438B then
    let* d := gets drip_amount in must (fill_bytes 32 d)
  else if sel =? 0x1DECB48C then
    gets (fun w => be_enc 8 (readUint64 (slot w faucet_addr (faucet_last_key (readAddress input 4)))))
  else if sel =? 0x1AC9C1D0 then
    let* b := gets (fun w => bal w faucet_addr) in must (fill_bytes 32 b)
  else if sel =? 0x94AC47F1 then
    let* ok := isFaucetAdmin caller in
    guard_err (negb ok) "GasFaucet: setDripAmount requires admin" ;;;
    sstore_big faucet_addr faucet_drip_key (readUint256 input 4) ;;; mret [1]
  else if sel =? 0x8567A687 then
    let* ok := isFaucetAdmin caller in
    guard_err (negb ok) "GasFaucet: setCooldown requires admin" ;;;
    sstore faucet_addr faucet_cooldown_key (writeUint64 (readUint64FromInput input 4)) ;;; mret [1]
  else fail "GasFaucet: unknown selector 0x%08X".

(** ** Lemmas: the seed *)

Lemma seed_balance_idem b acc : b <> 0 -> seed_balance b (seed_balance b acc) = seed_balance b acc.
Proof.
  intros Hb. unfold seed_balance at 2 3. destruct (Z.eqb_spec (Balance acc) 0) as [E|E];
    unfold seed_balance; cbn [Balance with_balance]; by rewrite (proj2 (Z.eqb_neq _ 0)).
Qed.

Lemma seed_level_idem l acc : seed_level l (seed_level l acc) = seed_level l acc.
Proof.
  unfold seed_level at 2 3. destruct ((0 <? l) && (DoxDevLevel acc <? l)) eqn:E;
    unfold seed_level; cbn [DoxDevLevel with_level].
  - by rewrite Z.ltb_irrefl, andb_false_r.
  - by rewrite E.
Qed.

Lemma seed_level_balance l b acc : seed_level l (seed_balance b acc) = seed_balance b (seed_level l acc).
Proof.
  unfold seed_level, seed_balance. destruct (Balance acc =? 0) eqn:E1;
    destruct ((0 <? l) && (DoxDevLevel acc <? l)) eqn:E2; cbn; rewrite ?E1, ?E2; done.
Qed.

(** [fixed a f w]: the account exists and [f] changes nothing in it. *)
Definition fixed (a : bytes) (f : Account -> Account) (w : World) : Prop :=
  exists x, accounts w !! a = Some x /\ f x = x.

Lemma fixed_same a f w : (forall x, f (f x) = f x) -> fixed a f (upd_acct a f w).
Proof. intros H. exists (f (acct w a)). split; [apply lookup_insert_eq|done]. Qed.
Lemma fixed_other a b f g w : b <> a -> fixed a f w -> fixed a f (upd_acct b g w).
Proof. intros Hne (x & H1 & H2). exists x. split; [|done]. cbn. by rewrite lookup_insert_ne. Qed.
Lemma fixed_touch a b f w : fixed a f w -> fixed a f (GetOrCreateAccount b w).
Proof.
  intros (x & H1 & H2). exists x. split; [|done]. unfold GetOrCreateAccount.
  destruct (accounts w !! b) eqn:E; [done|]. cbn. rewrite lookup_insert_ne; [done|congruence].
Qed.
Lemma fixed_id a f w : fixed a f w -> upd_acct a f w = w.
Proof.
  intros (x & H1 & H2). unfold upd_acct, acct. rewrite H1. cbn. rewrite H2, insert_id by done.
  by destruct w.
Qed.
Lemma fixed_touch_id a f w : fixed a f w -> GetOrCreateAccount a w = w.
Proof. intros (x & H1 & _). unfold GetOrCreateAccount. by rewrite H1. Qed.

Lemma seed_fun_idem a acc : seed_Balance a <> 0 -> seed_fun a (seed_fun a acc) = seed_fun a acc.
Proof.
  intros H. unfold seed_fun. rewrite <- seed_level_balance, seed_level_idem.
  by rewrite !seed_level_balance, seed_balance_idem.
Qed.

(** Concrete addresses are told apart by evaluation. *)
Ltac seed_fixed :=
  repeat first
    [ apply fixed_same; intros; first [by apply seed_fun_idem | by apply seed_balance_idem
                                      | unfold with_storage; cbn; by rewrite insert_insert_eq ]
    | apply fixed_other; [apply (bool_decide_unpack _); vm_compute; exact I|]
    | apply fixed_touch ].

(** What the seed leaves untouched: funded balances, levels that are high
    enough, and every account it does not name. *)
Definition seeded (w : World) (a : bytes) : Z :=
  if bool_decide (a = faucet_addr) then FaucetGenesisReserve
  else match List.find (fun s => bool_decide (seed_Address s = a)) GenesisBootstrapAccounts with
       | Some s => seed_Balance s
       | None => 0
       end.

Lemma bal_seed s w a :
  bal (seedAccountIfEmpty s w) a =
  if decide (seed_Address s = a) then (if bal w a =? 0 then seed_Balance s else bal w a) else bal w a.
Proof.
  unfold bal, seedAccountIfEmpty. rewrite acct_upd. case_decide as E; [|done]. rewrite E.
  unfold seed_fun, seed_level, seed_balance. destruct (Balance (acct w a) =? 0); case_match; done.
Qed.

Lemma bal_seed_balance b r w a :
  bal (upd_acct b (seed_balance r) w) a =
  if decide (b = a) then (if bal w a =? 0 then r else bal w a) else bal w a.
Proof.
  unfold bal. rewrite acct_upd. case_decide as E; [|done]. rewrite E.
  unfold seed_balance. by destruct (Balance (acct w a) =? 0).
Qed.

(** ** Properties *)

(** One-shot seed.  Seeding again changes nothing at all; the first seeding
    funds exactly the empty bootstrap accounts and the empty faucet reserve, and
    leaves every other balance alone. *)
Theorem SeedAllGenesis_idempotent w :
  SeedAllGenesis (SeedAllGenesis w) = SeedAllGenesis w /\
  (forall a, bal (SeedAllGenesis w) a = if bal w a =? 0 then seeded w a else bal w a).
Proof.
  split.
  - set (w1 := SeedAllGenesis w). unfold SeedAllGenesis at 1.
    cbn [fold_left GenesisBootstrapAccounts].
    assert (F : fixed treasury_addr (seed_fun (mkSeed treasury_addr 10000000 3)) w1 /\
                fixed ecosystem_reserve (seed_fun (mkSeed ecosystem_reserve 13500000 3)) w1 /\
                fixed FounderAddress (seed_fun (mkSeed FounderAddress 1000000 3)) w1 /\
                fixed faucet_addr (seed_balance FaucetGenesisReserve) w1 /\
                fixed addr23 (fun acc => with_storage
                  (<[autopilot_key := copy_at 12 founder_bytes zero32]> (Storage acc)) acc) w1).
    { subst w1. unfold SeedAllGenesis. cbn [fold_left GenesisBootstrapAccounts].
      unfold seedAccountIfEmpty, set_slot.
      split_and!; seed_fixed. }
    destruct F as (F1 & F2 & F3 & F4 & F5). unfold seedAccountIfEmpty, set_slot.
    cbn [seed_Address].
    rewrite (fixed_id _ _ _ F1), (fixed_id _ _ _ F2), (fixed_id _ _ _ F3), (fixed_id _ _ _ F4).
    by rewrite (fixed_touch_id _ _ _ F5), (fixed_id _ _ _ F5).
  - intros a. unfold SeedAllGenesis. rewrite bal_set_slot, bal_touch.
    rewrite bal_seed_balance. cbn [fold_left GenesisBootstrapAccounts]. rewrite !bal_seed.
    unfold seeded. cbn [List.find GenesisBootstrapAccounts seed_Address seed_Balance].
    assert (D : forall x y : bytes, bool_decide (x = y) = false -> x <> y)
      by (intros x y; by case_bool_decide).
    destruct (decide (a = faucet_addr)) as [->|N4];
      [|destruct (decide (a = FounderAddress)) as [->|N3];
        [|destruct (decide (a = ecosystem_reserve)) as [->|N2];
          [|destruct (decide (a = treasury_addr)) as [->|N1]]]].
    all: repeat (match goal with
      | |- context [decide (?x = ?x)] => rewrite (decide_True (P := x = x)) by done
      | |- context [decide (?x = ?y)] =>
          rewrite (decide_False (P := x = y)) by (first [congruence | apply D; vm_compute; reflexivity])
      | |- context [bool_decide (?x = ?x)] => rewrite (bool_decide_eq_true_2 (x = x)) by done
      | |- context [bool_decide (?x = ?y)] =>
          rewrite (bool_decide_eq_false_2 (x = y)) by (first [congruence | apply D; vm_compute; reflexivity])
      end); cbv beta iota; cbn [seed_Balance].
    1-4: done.
    destruct (Z.eqb_spec (bal w a) 0); congruence.
Qed.

Lemma drip_run input caller block w :
  let key := callerAccountKey caller in
  let who := take 20 key in
  selectorBytes input = 0x2A7AB5DA -> (20 <= length key)%nat -> key <> FounderAddress ->
  let w1 := GetOrCreateAccount faucet_addr w in
  faucetPrecompile input caller block w =
  (if rate_limited w who block then (Ok [0], w1) else
   if bal w faucet_addr <? drip_amount w then (Ok [0], w1) else
   (let* _ := mret tt in
    modify (add_bal faucet_addr (- drip_amount w)) ;;;
    touch caller ;;;
    modify (add_bal caller (drip_amount w)) ;;;
    sstore faucet_addr (faucet_last_key who) (be_enc 32 block) ;;;
    let* sum := gets (fun w => readBigInt (slot w faucet_addr faucet_total_key)) in
    sstore_big faucet_addr faucet_total_key (sum + drip_amount w) ;;;
    addlog faucet_addr [storageKey (lit "FaucetDrip")] caller block ;;;
    mret [1]) w1)%go.
Proof.
  intros key who Hsel Hlen Hf w1. unfold faucetPrecompile. cbv zeta. rewrite Hsel.
  rewrite slice_some by (fold key; lia). fold key. rewrite drop_0.
  change (Z.to_nat (20 - 0)) with 20%nat. fold who.
  unfold must, faucetDrip. fold key. rewrite (bool_decide_eq_false_2 (key = FounderAddress)) by done.
  run_go. fold w1. cbv beta iota zeta. cbn [Z.eqb Pos.eqb]. unfold id.
  assert (Hl : rate_limited w1 who block = rate_limited w who block)
    by (unfold rate_limited, cooldown_blocks, w1; by rewrite !slot_touch).
  assert (Hd : drip_amount w1 = drip_amount w) by (unfold drip_amount, w1; by rewrite !slot_touch).
  assert (Hb : bal w1 faucet_addr = bal w faucet_addr) by (unfold w1; by rewrite bal_touch).
  rewrite Hl, Hd. destruct (rate_limited w who block); [done|]. rewrite Hb.
  by destruct (bal w faucet_addr <? drip_amount w).
Qed.

(** Drip.  A drip to a caller that is not the founder pays exactly when the
    cooldown has passed and the reserve suffices: the amount moves from the
    reserve to the caller, no other balance changes and no money is made; the
    counter grows by the amount, and the same key is refused until the cooldown
    is over. *)
Theorem faucet_drip_spec input caller block w :
  let key := callerAccountKey caller in
  let who := take 20 key in
  let drip := drip_amount w in
  let sum := readBigInt (slot w faucet_addr faucet_total_key) in
  let paid := negb (rate_limited w who block) && (drip <=? bal w faucet_addr) in
  selectorBytes input = 0x2A7AB5DA -> (20 <= length key)%nat -> key <> FounderAddress ->
  caller <> faucet_addr -> collision_free [16 :: who; [0]; [1]; [2]] ->
  0 <= block < 2 ^ 64 -> 0 <= sum -> 0 <= drip -> sum + drip < 2 ^ 256 ->
  let '(r, w') := faucetPrecompile input caller block w in
  r = Ok [bool_byte paid] /\
  (forall a, bal w' a = bal w a + (if paid then (if decide (a = caller) then drip else 0) -
                                     (if decide (a = faucet_addr) then drip else 0) else 0)) /\
  money w' = money w /\
  (paid = true -> readBigInt (slot w' faucet_addr faucet_total_key) = sum + drip /\
     forall later, 0 < block -> later < u64 (block + cooldown_blocks w) ->
       (faucetPrecompile input caller later w').1 = Ok [0]).
Proof.
  intros key who drip sum paid Hsel Hlen Hf Hne Hc Hb Hs Hd Hsd.
  rewrite drip_run by done. fold key who. subst paid.
  destruct (rate_limited w who block) eqn:El; cbn [negb andb].
  { split_and!; [done| |by world_simpl|done]. intros a. world_simpl. lia. }
  fold drip. destruct (Z.ltb_spec (bal w faucet_addr) drip) as [Hlt|Hge];
    [rewrite (proj2 (Z.leb_gt _ _)) by done|rewrite (proj2 (Z.leb_le _ _)) by done].
  { split_and!; [done| |by world_simpl|done]. intros a. world_simpl. lia. }
  run_go. cbv beta iota.
  assert (K1 : faucet_last_key who <> faucet_total_key) by key_ne Hc.
  assert (K2 : faucet_cooldown_key <> faucet_total_key) by key_ne Hc.
  assert (K3 : faucet_last_key who <> faucet_cooldown_key) by key_ne Hc.
  unfold add_bal. world_simpl. fold sum.
  edestruct (sstore_big_run faucet_addr faucet_total_key (sum + drip)) as (s & R & E); [lia|].
  rewrite E. cbv beta iota. set (w' := AddLog _ _ _ _ _).
  assert (Hlast : slot w' faucet_addr (faucet_last_key who) = be_enc 32 block)
    by (subst w'; world_simpl; done).
  assert (Hcd : cooldown_blocks w' = cooldown_blocks w).
  { unfold cooldown_blocks. subst w'. world_simpl. done. }
  split_and!.
  - done.
  - intros a. subst w'. world_simpl. rewrite !bal_set_bal. world_simpl. rewrite !bal_set_bal.
    world_simpl. repeat case_decide; subst; try congruence; world_simpl; lia.
  - subst w'. world_simpl. rewrite ?bal_set_bal. world_simpl. lia.
  - intros _. split; [subst w'; by world_simpl|]. intros later Hpos Hlate.
    rewrite drip_run by done. fold key who.
    assert (Hrl : rate_limited w' who later = true).
    { unfold rate_limited. rewrite Hlast, Hcd. unfold readUint64. rewrite be_dec_enc_small.
      - rewrite big_u64_small by (unfold is_u64; lia).
        rewrite (proj2 (Z.eqb_neq _ 0)) by lia. cbn [negb andb]. by apply Z.ltb_lt.
      - change (256 ^ Z.of_nat 32) with (2 ^ 256).
        assert (2 ^ 64 < 2 ^ 256) by reflexivity. lia. }
    by rewrite Hrl.
Qed.

(** ** What the code does that its comments do not say *)

Definition drip_call : bytes := be_enc 4 0x2A7AB5DA.
Definition drip_world : World := set_bal faucet_addr (10 ^ 24) NewStateDB.
Definition long_caller : bytes := replicate 64 97.

(** "The account key is the 40-hex form": the drip is credited to the account of
    the full key string. *)
Lemma drip_misses_account_key :
  let w := (faucetPrecompile drip_call long_caller 5 drip_world).2 in
  bal w (callerAccountKey long_caller) = 0 /\ bal w long_caller = 10 ^ 18.
Proof. vm_compute. done. Qed.

(** The cooldown is kept under the first twenty hexadecimal characters, ten of
    the address's twenty bytes: another address that shares them is refused. *)
Lemma cooldown_is_shared :
  let w := (faucetPrecompile drip_call (replicate 40 97) 5 drip_world).2 in
  (faucetPrecompile drip_call (replicate 20 97 ++ replicate 20 98) 6 w).1 = Ok [0].
Proof. vm_compute. reflexivity. Qed.

(** The last drip is written under hexadecimal characters and read under raw
    bytes: [getLastDrip] always answers zero. *)
Lemma last_drip_is_invisible :
  let w := (faucetPrecompile drip_call (fmt_x (be_enc 20 77)) 5 drip_world).2 in
  (faucetPrecompile (be_enc 4 0x1DECB48C ++ be_enc 20 77) (fmt_x (be_enc 20 77)) 6 w).1 = Ok (zeros 8).
Proof. vm_compute. reflexivity. Qed.

(** ** Witness *)

Lemma faucet_drip_spec_witness :
  bal (faucetPrecompile drip_call long_caller 5 drip_world).2 long_caller = 10 ^ 18.
Proof.
  pose proof (faucet_drip_spec drip_call long_caller 5 drip_world) as H. cbv zeta in H.
  destruct (faucetPrecompile drip_call long_caller 5 drip_world) as [r w'].
  cbn [snd]. apply proj2, proj1 in H.
  - rewrite H. vm_compute. reflexivity.
  - reflexivity.
  - apply Nat.leb_le. vm_compute. reflexivity.
  - vm_compute. discriminate.
  - vm_compute. discriminate.
  - apply collision_free_nodup. vm_compute. reflexivity.
  - lia.
  - vm_compute. discriminate.
  - vm_compute. discriminate.
  - vm_compute. reflexivity.
Defined.
