(* ===== verification/StabilityPool.v ===== *)
(** The 2WAY stability pool precompile (evm/stability_pool.go, address 0x19):
    deposits, reward buckets, absorption of vault debt, and the lock that keeps a
    2WAY minter from providing liquidity.  The vault's debt slot, which the pool
    reads (evm/two_way.go), is here too. *)

From Stdlib Require Import ZArith Lia.
From S2P Require Import Prelude Sha256 Collections StateDB.
From stdpp Require Import gmap list.
Local Open Scope Z_scope.
Local Open Scope go_scope.

Definition StabilitySlotDeposits : Z := 2.
Definition StabilitySlotRewards : Z := 3.
Definition StabilitySlotLastDeposit : Z := 4.
Definition StabilitySlotMintedDebt : Z := 5.

Definition vault_addr : bytes := PrecompileAddrHex 24.
Definition pool_addr : bytes := PrecompileAddrHex 25.

Definition stabilityDepositKey (user : bytes) : bytes := storageKey (StabilitySlotDeposits :: user).
Definition stabilityRewardKey (user : bytes) : bytes := storageKey (StabilitySlotRewards :: user).
(** The key [stabilityClaimRewards] and [twoWayMint] build in place. *)
Definition lpFeeKey (user : bytes) : bytes := storageKey (StabilitySlotLastDeposit :: user).
Definition stabilityMintedDebtKey (user : bytes) : bytes := storageKey (StabilitySlotMintedDebt :: user).
Definition totalDepositsKey : bytes := storageKey (lit "totalDeposits").
Definition twoWayBalanceKey : bytes := storageKey (lit "twoWayBalance").
Definition wayRewardsKey : bytes := storageKey (lit "wayRewards").
Definition swayRewardsKey : bytes := storageKey (lit "swayRewards").
Definition totalRewardsKey : bytes := storageKey (lit "totalRewards").

(** The debt slot of a vault: one prefix byte and 31 bytes of its identifier. *)
Definition TwoWaySlotDebt : Z := 3.
Definition debtKey (vaultID : bytes) : bytes := TwoWaySlotDebt :: take 31 vaultID.
Definition getVaultDebt (vaultID : bytes) : HM Z :=
  touch vault_addr ;;; sread vault_addr (debtKey vaultID).

(** [acc.Storage[k] = writeSlot(readBigInt(acc.Storage[k]) + v)]. *)
Definition sadd (a k : bytes) (v : Z) : HM unit :=
  let* cur := sread a k in sstore_big a k (cur + v).

Definition stabilityMintedDebt (user : bytes) : HM Z :=
  touch pool_addr ;;; sread pool_addr (stabilityMintedDebtKey user).
Definition addStabilityMintedDebt (user : bytes) (amount : Z) : HM unit :=
  touch pool_addr ;;; sadd pool_addr (stabilityMintedDebtKey user) amount.
Definition reduceStabilityMintedDebt (user : bytes) (amount : Z) : HM unit :=
  touch pool_addr ;;;
  let* current := sread pool_addr (stabilityMintedDebtKey user) in
  let newVal := current - amount in
  sstore_big pool_addr (stabilityMintedDebtKey user) (if newVal <? 0 then 0 else newVal).

Definition stabilityDeposit (input caller : bytes) (blockNum : Z) : HM bytes :=
  guard_err (length input <? 4 + 32)%nat "2WAY StabilityPool: deposit input too short" ;;;
  let amount := readBigInt (readSlot input 4) in
  guard_err (amount <=? 0) "2WAY StabilityPool: deposit must be > 0" ;;;
  touch pool_addr ;;;
  let* minted := stabilityMintedDebt caller in
  guard_err (0 <? minted)
    "2WAY StabilityPool: caller has active 2WAY debt and cannot LP at the same time" ;;;
  sadd pool_addr (stabilityDepositKey caller) amount ;;;
  sadd pool_addr totalDepositsKey amount ;;;
  sadd pool_addr twoWayBalanceKey amount ;;;
  addlog pool_addr [storageKey (lit "Deposited"); callerHash caller] (big_bytes amount) blockNum ;;;
  must (fill_bytes 32 amount).

Definition stabilityWithdraw (input caller : bytes) (blockNum : Z) : HM bytes :=
  guard_err (length input <? 4 + 32)%nat "2WAY StabilityPool: withdraw input too short" ;;;
  let amount := readBigInt (readSlot input 4) in
  guard_err (amount <=? 0) "2WAY StabilityPool: withdraw must be > 0" ;;;
  touch pool_addr ;;;
  let* currentDeposit := sread pool_addr (stabilityDepositKey caller) in
  guard_err (currentDeposit <? amount) "2WAY StabilityPool: withdraw exceeds deposit" ;;;
  sstore_big pool_addr (stabilityDepositKey caller) (currentDeposit - amount) ;;;
  sadd pool_addr totalDepositsKey (- amount) ;;;
  sadd pool_addr twoWayBalanceKey (- amount) ;;;
  addlog pool_addr [storageKey (lit "Withdrawn"); callerHash caller] (big_bytes amount) blockNum ;;;
  must (fill_bytes 32 amount).

Definition stabilityClaimRewards (caller : bytes) (blockNum : Z) : HM bytes :=
  touch pool_addr ;;;
  let* pending := sread pool_addr (stabilityRewardKey caller) in
  let* mintLp := sread pool_addr (lpFeeKey caller) in
  let pendingRewards := pending + mintLp in
  guard_err (pendingRewards <=? 0) "2WAY StabilityPool: no rewards to claim" ;;;
  sstore_big pool_addr (stabilityRewardKey caller) 0 ;;;
  sstore_big pool_addr (lpFeeKey caller) 0 ;;;
  sstore_big pool_addr totalRewardsKey 0 ;;;
  sstore_big pool_addr wayRewardsKey 0 ;;;
  sstore_big pool_addr swayRewardsKey 0 ;;;
  addlog pool_addr [storageKey (lit "RewardsClaimed"); callerHash caller]
    (big_bytes pendingRewards) blockNum ;;;
  must (fill_bytes 32 pendingRewards).

Definition distributeRewards (totalDeposits reward : Z) : HM unit :=
  if (reward <=? 0) || (totalDeposits <=? 0) then mret tt else
  let wayReward := reward / 2 in
  sadd pool_addr wayRewardsKey wayReward ;;;
  sadd pool_addr swayRewardsKey (reward - wayReward) ;;;
  sadd pool_addr totalRewardsKey reward.

Definition stabilityAbsorb (input : bytes) (blockNum : Z) : HM bytes :=
  guard_err (length input <? 4 + 32)%nat "2WAY StabilityPool: absorb input too short" ;;;
  let vaultID := take 32 (drop 4 input) in
  let* vaultDebt := getVaultDebt vaultID in
  guard_err (vaultDebt <=? 0) "2WAY StabilityPool: vault has no debt" ;;;
  touch pool_addr ;;;
  let* twoWayBal := sread pool_addr twoWayBalanceKey in
  if twoWayBal <? vaultDebt then mret (zeros 32) else
  sstore_big pool_addr twoWayBalanceKey (twoWayBal - vaultDebt) ;;;
  let* totalDeposits := sread pool_addr totalDepositsKey in
  (if 0 <? totalDeposits then distributeRewards totalDeposits (vaultDebt * 1000 / 10000)
   else mret tt) ;;;
  addlog pool_addr [storageKey (lit "Absorbed"); stringToHash vaultID] (big_bytes vaultDebt) blockNum ;;;
  mret (zeros 31 ++ [1]).

(** The user is named by the hexadecimal of 32 bytes. *)
Definition stabilityGetDeposit (input : bytes) : HM bytes :=
  guard_err (length input <? 4 + 32)%nat "2WAY StabilityPool: getDeposit input too short" ;;;
  let userAddr := fmt_x (take 32 (drop 4 input)) in
  touch pool_addr ;;;
  let* deposit := sread pool_addr (stabilityDepositKey userAddr) in
  must (fill_bytes 32 deposit).

Definition stabilityGetPoolStats : HM bytes :=
  touch pool_addr ;;;
  let* totalDeposits := sread pool_addr totalDepositsKey in
  let* twoWayBalance := sread pool_addr twoWayBalanceKey in
  let* wayRewards := sread pool_addr wayRewardsKey in
  let* swayRewards := sread pool_addr swayRewardsKey in
  let* a := must (fill_bytes 32 totalDeposits) in
  let* b := must (fill_bytes 32 twoWayBalance) in
  let* c := must (fill_bytes 32 (wayRewards + swayRewards)) in
  mret (a ++ b ++ c).

Definition stabilityPoolPrecompile : Handler := fun input caller blockNum =>
  guard_err (length input <? 4)%nat "2WAY StabilityPool: input too short" ;;;
  let sel := selectorBytes input in
  if sel =? 0x4E26609A then stabilityDeposit input caller blockNum
  else if sel =? 0x2E1A7DDD then stabilityWithdraw input caller blockNum
  else if sel =? 0x6B6F4360 then stabilityClaimRewards caller blockNum
  else if sel =? 0x3C5F5F80 then stabilityGetDeposit input
  else if sel =? 0x8C5F41D0 then stabilityGetPoolStats
  else if sel =? 0x91B78CB4 then stabilityAbsorb input blockNum
  else fail "2WAY StabilityPool: unknown selector 0x%08X".
