(* ===== verification/TwoWay.v ===== *)
(** The 2WAY vault precompile (evm/two_way.go, address 0x18): collateral slots,
    minting against a collateral ratio, burning, liquidation and the price
    oracle. *)

From Stdlib Require Import ZArith Lia.
From S2P Require Import Prelude Sha256 Collections StateDB StabilityPool.
From stdpp Require Import gmap list.
Local Open Scope Z_scope.
Local Open Scope go_scope.

(** ** Data *)

Definition TwoWaySlotCollateral : Z := 2.
Definition TwoWaySlotParams : Z := 4.

Record CollateralParam := mkParam {
  cp_MinCRatio : Z; cp_LiquidationRatio : Z; cp_StabilityFee : Z;
  cp_MaxDebtPercent : Z; cp_DebtFloor : Z;
}.

Fixpoint drop_zeros (b : bytes) : bytes :=
  match b with 0 :: b => drop_zeros b | _ => b end.
Definition trimRightZeros (b : bytes) : bytes := reverse (drop_zeros (reverse b)).

Definition hasPrefix (b prefix : bytes) : bool :=
  if (length b <? length prefix)%nat then false
  else bool_decide (take (length prefix) b = prefix).

(** [collateralKey]: prefix, 20 bytes of the vault, 11 bytes of the name. *)
Definition collateralKey (vaultID stablecoin : bytes) : bytes :=
  TwoWaySlotCollateral :: take 20 vaultID ++ copy_at 0 (take 11 stablecoin) (zeros 11).
Definition paramKey (key : bytes) : bytes := storageKey (TwoWaySlotParams :: key).
Definition priceKey (name : bytes) : bytes := storageKey (lit "price:" ++ name).
Definition totalDebtKey : bytes := storageKey (lit "totalDebt").
Definition vaultCountKey : bytes := storageKey (lit "vaultCount").

Definition readUint16 (slot : bytes) (defaultVal : Z) : Z :=
  let v := big_u64 (be_dec slot) in if v =? 0 then defaultVal else u16 v.

Section TwoWay.
Context {MR : MapRange}.

(** ** State getters *)

(** The storage scan of [getVaultCollaterals]. *)
Definition scan_slot (vaultID : bytes) (result : gmap bytes Z) (e : bytes * bytes) : gmap bytes Z :=
  if negb (byte_at e.1 0 =? TwoWaySlotCollateral) then result
  else if hasPrefix (take 20 (drop 1 e.1)) (take 20 vaultID) then
    let collName := trimRightZeros (drop 21 e.1) in
    if bool_decide (collName = []) then result else <[collName := readBigInt e.2]> result
  else result.
Definition vault_collaterals (vaultID : bytes) (w : World) : gmap bytes Z :=
  fold_left (scan_slot vaultID) (map_range (Storage (acct w vault_addr))) ∅.
Definition getVaultCollaterals (vaultID : bytes) : HM (gmap bytes Z) :=
  touch vault_addr ;;; gets (vault_collaterals vaultID).

Definition price_of (w : World) (name : bytes) : Z :=
  let price := readBigInt (slot w vault_addr (priceKey name)) in
  if price =? 0 then 100000000 else price.
(** One collateral in the loop of [getVaultCollateralValueUSD]. *)
Definition usd_value (w : World) (e : bytes * Z) : Z :=
  if e.2 <=? 0 then 0 else e.2 * price_of w e.1 / 100000000.
Definition getVaultCollateralValueUSD (vaultID : bytes) : HM Z :=
  let* collaterals := getVaultCollaterals vaultID in
  gets (fun w => fold_left (fun t e => t + usd_value w e) (map_range collaterals) 0).

Definition collateral_param (w : World) (stablecoin : bytes) : CollateralParam :=
  let read k d := readUint16 (slot w vault_addr (paramKey (stablecoin ++ lit k))) d in
  mkParam (read ":minCRatio"%string 15000) (read ":liqRatio"%string 14000) (read ":fee"%string 150)
    (read ":maxDebt"%string 3000) (10 ^ 18).
Definition getCollateralParam (stablecoin : bytes) : HM CollateralParam :=
  touch vault_addr ;;; gets (fun w => collateral_param w stablecoin).

Definition DefaultCollateralParam (stablecoin : bytes) : CollateralParam :=
  if bool_decide (stablecoin = lit "USDC") || bool_decide (stablecoin = lit "USDT")
  then mkParam 15000 14000 150 3000 (10 ^ 18) else mkParam 13000 12000 150 3000 (10 ^ 18).

Definition accepted (w : World) (stablecoin : bytes) : bool :=
  match Storage (acct w vault_addr) !! paramKey (stablecoin ++ lit ":minCRatio") with
  | Some _ => true | None => false
  end.
Definition isAcceptedCollateral (stablecoin : bytes) : HM bool :=
  touch vault_addr ;;; gets (fun w => accepted w stablecoin).

(** ** Collateral ratios *)

Definition sum_values (m : gmap bytes Z) : Z := fold_left (fun t e => t + e.2) (map_range m) 0.

Definition isAboveMinCRatio (collaterals : gmap bytes Z) (debt additionalDebt : Z) : bool :=
  let totalDebt := debt + additionalDebt in
  if totalDebt =? 0 then true else 13000 <=? sum_values collaterals * 10000 / totalDebt.

Definition isAboveMinCRatioWithVault (vaultID : bytes) (debt additionalDebt : Z) : HM bool :=
  let* totalCollateral := getVaultCollateralValueUSD vaultID in
  let totalDebt := debt + additionalDebt in
  mret (if totalDebt =? 0 then true else 13000 <=? totalCollateral * 10000 / totalDebt).

Definition isAboveLiquidationRatio (vaultID : bytes) (debt : Z) : HM bool :=
  let* totalCollateralUSD := getVaultCollateralValueUSD vaultID in
  mret (if debt =? 0 then true else 14000 <? totalCollateralUSD * 10000 / debt).

(** ** Total debt *)

Definition addTotalDebt (amount : Z) : HM unit :=
  touch vault_addr ;;; sadd vault_addr totalDebtKey amount.
Definition reduceTotalDebt (amount : Z) : HM unit :=
  touch vault_addr ;;;
  let* current := sread vault_addr totalDebtKey in
  let newDebt := current - amount in
  sstore_big vault_addr totalDebtKey (if newDebt <? 0 then 0 else newDebt).

(** ** Operations *)

Definition vault_log (event : string) (vaultID caller : bytes) (amount blockNum : Z) : HM unit :=
  addlog vault_addr [storageKey (lit event); stringToHash vaultID; callerHash caller]
    (big_bytes amount) blockNum.

Definition vault_arg (input : bytes) : bytes := take 32 (drop 4 input).
Definition coll_arg (input : bytes) : bytes := trimRightZeros (take 20 (drop 36 input)).

Definition twoWayDeposit (input caller : bytes) (blockNum : Z) : HM bytes :=
  guard_err (length input <? 4 + 32 + 20 + 32)%nat "2WAY: deposit input too short (%d bytes)" ;;;
  let vaultID := vault_arg input in
  let collAmount := readBigInt (readSlot input 56) in
  let* ok := isAcceptedCollateral (coll_arg input) in
  guard_err (negb ok) "2WAY: collateral %s not accepted" ;;;
  touch vault_addr ;;;
  sstore_big vault_addr (collateralKey vaultID (coll_arg input)) collAmount ;;;
  vault_log "Deposited" vaultID caller collAmount blockNum ;;;
  mret vaultID.

(** The fee of the first collateral, in range order, that sets one. *)
Fixpoint fee_of (w : World) (names : list bytes) : Z :=
  match names with
  | [] => 150
  | name :: names =>
      let fee := cp_StabilityFee (collateral_param w name) in
      if 0 <? fee then fee else fee_of w names
  end.

(** The reward split of [twoWayMint], on the pool's account. *)
Definition route_fee (caller : bytes) (protocolFee : Z) : HM unit :=
  if 0 <? protocolFee then
    let wayReward := protocolFee / 2 in
    sadd pool_addr wayRewardsKey wayReward ;;;
    sadd pool_addr swayRewardsKey (protocolFee - wayReward) ;;;
    sadd pool_addr totalRewardsKey protocolFee ;;;
    sadd pool_addr (lpFeeKey caller) protocolFee
  else mret tt.

Definition twoWayMint (input caller : bytes) (blockNum : Z) : HM bytes :=
  guard_err (length input <? 4 + 32 + 32)%nat "2WAY: mint input too short" ;;;
  let vaultID := vault_arg input in
  let amount := readBigInt (readSlot input 36) in
  let* minted := stabilityMintedDebt caller in
  guard_err (0 <? minted) "2WAY: caller has active 2WAY debt and cannot mint more until repaid" ;;;
  touch pool_addr ;;;
  let* deposit := sread pool_addr (stabilityDepositKey caller) in
  guard_err (0 <? deposit)
    "2WAY: caller is already providing LP liquidity and cannot mint 2WAY at the same time" ;;;
  let* collaterals := getVaultCollaterals vaultID in
  let* vaultDebt := getVaultDebt vaultID in
  guard_err (sum_values collaterals =? 0) "2WAY: vault has no collateral" ;;;
  let* feeBps := gets (fun w => fee_of w (map_range collaterals).*1) in
  route_fee caller (amount * feeBps / 10000) ;;;
  let newDebt := vaultDebt + amount in
  guard_err (negb (isAboveMinCRatio collaterals newDebt 0))
    "2WAY: mint would violate minimum collateral ratio" ;;;
  touch vault_addr ;;;
  sstore_big vault_addr (debtKey vaultID) newDebt ;;;
  addTotalDebt amount ;;;
  addStabilityMintedDebt caller amount ;;;
  vault_log "Minted" vaultID caller amount blockNum ;;;
  mret vaultID.

Definition twoWayWithdraw (input caller : bytes) (blockNum : Z) : HM bytes :=
  guard_err (length input <? 4 + 32 + 20 + 32)%nat "2WAY: withdraw input too short" ;;;
  let vaultID := vault_arg input in
  let collateralID := coll_arg input in
  let collAmount := readBigInt (readSlot input 56) in
  let* collaterals := getVaultCollaterals vaultID in
  let* vaultDebt := getVaultDebt vaultID in
  match collaterals !! collateralID with
  | None => fail "2WAY: withdraw amount exceeds deposit"
  | Some currentColl =>
      guard_err (currentColl <? collAmount) "2WAY: withdraw amount exceeds deposit" ;;;
      let newCollValue := currentColl - collAmount in
      guard_err (negb (isAboveMinCRatio (<[collateralID := newCollValue]> collaterals) vaultDebt 0))
        "2WAY: withdraw would violate minimum collateral ratio" ;;;
      touch vault_addr ;;;
      sstore_big vault_addr (collateralKey vaultID collateralID) newCollValue ;;;
      vault_log "Withdrawn" vaultID caller collAmount blockNum ;;;
      mret vaultID
  end.

Definition twoWayBurn (input caller : bytes) (blockNum : Z) : HM bytes :=
  guard_err (length input <? 4 + 32 + 32)%nat "2WAY: burn input too short" ;;;
  let vaultID := vault_arg input in
  let amount := readBigInt (readSlot input 36) in
  touch vault_addr ;;;
  let* currentDebt := sread vault_addr (debtKey vaultID) in
  let newDebt := currentDebt - amount in
  sstore_big vault_addr (debtKey vaultID) (if newDebt <? 0 then 0 else newDebt) ;;;
  reduceStabilityMintedDebt caller amount ;;;
  reduceTotalDebt amount ;;;
  vault_log "Burned" vaultID caller amount blockNum ;;;
  mret vaultID.

Definition twoWayLiquidate (input caller : bytes) (blockNum : Z) : HM bytes :=
  guard_err (length input <? 4 + 32)%nat "2WAY: liquidate input too short" ;;;
  let vaultID := vault_arg input in
  let* collaterals := getVaultCollaterals vaultID in
  let* vaultDebt := getVaultDebt vaultID in
  let* above := isAboveLiquidationRatio vaultID vaultDebt in
  guard_err above "2WAY: vault is above liquidation ratio" ;;;
  touch vault_addr ;;;
  sstore_big vault_addr (debtKey vaultID) 0 ;;;
  reduceTotalDebt vaultDebt ;;;
  vault_log "Liquidated" vaultID caller vaultDebt blockNum ;;;
  mret vaultID.

Definition twoWayGetVault (input : bytes) : HM bytes :=
  guard_err (length input <? 4 + 32)%nat "2WAY: getVault input too short" ;;;
  let* collaterals := getVaultCollaterals (vault_arg input) in
  let* debt := getVaultDebt (vault_arg input) in
  let* a := must (fill_bytes 32 (sum_values collaterals)) in
  let* b := must (fill_bytes 32 debt) in
  mret (a ++ b).

Definition twoWayVaultCount : HM bytes :=
  touch vault_addr ;;;
  let* count := sread vault_addr vaultCountKey in
  must (fill_bytes 32 count).

Definition twoWayGetStablecoinPrice (input : bytes) : HM bytes :=
  guard_err (length input <? 4 + 32)%nat "2WAY: getPrice input too short" ;;;
  let stablecoinID := trimRightZeros (take 32 (drop 4 input)) in
  touch vault_addr ;;;
  let* price := gets (fun w => price_of w stablecoinID) in
  must (fill_bytes 32 price).

(** [twoWaySetStablecoinPrice]; no selector dispatches to it. *)
Definition twoWaySetStablecoinPrice (input caller : bytes) : HM bytes :=
  guard_err (length input <? 4 + 32 + 32)%nat "2WAY: setPrice input too short" ;;;
  let stablecoinID := trimRightZeros (take 32 (drop 4 input)) in
  let price := readBigInt (readSlot input 36) in
  let* callerAcc := gets (fun w => GetAccount w caller) in
  guard_err (match callerAcc with None => true | Some acc => DoxDevLevel acc <? 2 end)
    "2WAY: caller is not a verified oracle (Dox_Dev L2+ required)" ;;;
  touch vault_addr ;;;
  sstore_big vault_addr (priceKey stablecoinID) price ;;;
  addlog vault_addr [storageKey (lit "PriceUpdated"); stringToHash stablecoinID] (big_bytes price) 0 ;;;
  must (fill_bytes 32 price).

Definition twoWayVaultPrecompile : Handler := fun input caller blockNum =>
  guard_err (length input <? 4)%nat "2WAY: input too short" ;;;
  let sel := selectorBytes input in
  if sel =? 0xFBB35030 then twoWayDeposit input caller blockNum
  else if sel =? 0xD185E07F then twoWayMint input caller blockNum
  else if sel =? 0xE9C4B112 then twoWayWithdraw input caller blockNum
  else if sel =? 0x0E0C59BE then twoWayBurn input caller blockNum
  else if sel =? 0x5C8B7698 then twoWayLiquidate input caller blockNum
  else if sel =? 0x9EB29EF0 then twoWayGetVault input
  else if sel =? 0x67A9F0F5 then twoWayVaultCount
  else if sel =? 0x7A3B4F00 then twoWayGetStablecoinPrice input
  else fail "2WAY: unknown selector 0x%08X".

End TwoWay.

(** ** Lemmas: the pool's numbers *)

(** The number the pool stores under the preimage [x]. *)
Definition pv (w : World) (x : bytes) : Z := readBigInt (slot w pool_addr (storageKey x)).

Definition deposit_of (w : World) (u : bytes) : Z := pv w (StabilitySlotDeposits :: u).
Definition minted_of (w : World) (u : bytes) : Z := pv w (StabilitySlotMintedDebt :: u).
Definition total_deposits (w : World) : Z := pv w (lit "totalDeposits").

(** The preimages of the keys the callers [U] can reach. *)
Definition user_preimages (u : bytes) : list bytes :=
  [StabilitySlotDeposits :: u; StabilitySlotRewards :: u; StabilitySlotLastDeposit :: u;
   StabilitySlotMintedDebt :: u].
Definition pool_preimages (U : list bytes) : list bytes :=
  [lit "totalDeposits"; lit "twoWayBalance"; lit "wayRewards"; lit "swayRewards"; lit "totalRewards"]
  ++ (U ≫= user_preimages).

Section Pool.
Context (U : list bytes) (HU : collision_free (pool_preimages U)).

Lemma pool_pre_global x : x ∈ take 5 (pool_preimages U) -> x ∈ pool_preimages U.
Proof. intros H. apply elem_of_app. by left. Qed.
Lemma pool_pre_user u x : u ∈ U -> x ∈ user_preimages u -> x ∈ pool_preimages U.
Proof. intros Hu Hx. apply elem_of_app. right. apply list_elem_of_bind. by exists u. Qed.

Lemma pv_set x y s w :
  x ∈ pool_preimages U -> y ∈ pool_preimages U ->
  pv (set_slot pool_addr (storageKey x) s w) y = if decide (x = y) then readBigInt s else pv w y.
Proof using HU.
  intros Hx Hy. unfold pv. case_decide as E.
  - subst y. by rewrite slot_set_eq.
  - rewrite slot_set_ne; [done|]. right. by apply (collision_free_ne _ _ _ HU).
Qed.

Lemma pv_set_vault k s w y : pv (set_slot vault_addr k s w) y = pv w y.
Proof. unfold pv. rewrite slot_set_ne; [done|]. left. discriminate. Qed.
Lemma pv_touch a w y : pv (GetOrCreateAccount a w) y = pv w y.
Proof. unfold pv. by rewrite slot_touch. Qed.

(** The numbers under [xs] are kept. *)
Definition keeps (xs : list bytes) (w w' : World) : Prop := forall x, x ∈ xs -> pv w' x = pv w x.

Lemma sadd_cases x v w :
  (exists s, readBigInt s = Z.abs (pv w x + v) /\ wf_bytes s /\
     sadd pool_addr (storageKey x) v w = (Ok tt, set_slot pool_addr (storageKey x) s w)) \/
  sadd pool_addr (storageKey x) v w = (Panic, w).
Proof.
  unfold sadd, sread. run_go. fold (pv w x).
  destruct (sstore_big_cases pool_addr (storageKey x) (pv w x + v) w) as [(s & R & _ & W & E)|E];
    rewrite E; [left; by exists s|by right].
Qed.

(** What the joint invariant reads. *)
Definition guarded : list bytes :=
  lit "totalDeposits" :: (U ≫= fun u => [StabilitySlotDeposits :: u; StabilitySlotMintedDebt :: u]).
Abbreviation kept := (same_slots pool_addr (map storageKey guarded)).

Lemma guarded_pre x : x ∈ guarded -> x ∈ pool_preimages U.
Proof.
  intros [->|H]%elem_of_cons; [apply pool_pre_global; pre_mem|].
  apply list_elem_of_bind in H as (u & Hx & Hu). apply (pool_pre_user u); [done|].
  repeat (apply elem_of_cons in Hx as [->|Hx]; [pre_mem|]). by apply elem_of_nil in Hx.
Qed.

Lemma kept_pv w w' x : kept w w' -> x ∈ guarded -> pv w' x = pv w x.
Proof. intros H Hx. unfold pv. f_equal. apply H. by apply list_elem_of_fmap_2. Qed.

(** A key that is not guarded. *)
Lemma free_key x : x ∈ pool_preimages U -> x ∉ guarded -> storageKey x ∉ map storageKey guarded.
Proof using HU.
  intros Hx Hg Hin. apply list_elem_of_fmap in Hin as (y & Hy & Hin).
  destruct (decide (x = y)) as [->|Hne]; [done|].
  revert Hy. apply (collision_free_ne _ _ _ HU); [done|by apply guarded_pre|done].
Qed.

Lemma free_head x : match x with h :: _ => h <> 2 /\ h <> 5 | [] => True end ->
  x <> lit "totalDeposits" -> x ∉ guarded.
Proof.
  intros Hh Ht [H|H]%elem_of_cons; [done|]. apply list_elem_of_bind in H as (u & Hx & _).
  repeat (apply elem_of_cons in Hx as [->|Hx]; [cbn in Hh; unfold StabilitySlotDeposits, StabilitySlotMintedDebt in Hh; lia|]).
  by apply elem_of_nil in Hx.
Qed.

Lemma kept_sstore x v : x ∈ pool_preimages U -> x ∉ guarded -> respects kept (sstore pool_addr (storageKey x) v).
Proof using HU. intros Hx Hg. apply frame_sstore. right. by apply free_key. Qed.
Lemma kept_vault k v : respects kept (sstore vault_addr k v).
Proof. apply frame_sstore. left. discriminate. Qed.
Lemma kept_big x v : x ∈ pool_preimages U -> x ∉ guarded -> respects kept (sstore_big pool_addr (storageKey x) v).
Proof using HU. intros. unfold sstore_big. apply respects_bind_must; [apply _|]. intros. by apply kept_sstore. Qed.
Lemma kept_sadd x v : x ∈ pool_preimages U -> x ∉ guarded -> respects kept (sadd pool_addr (storageKey x) v).
Proof using HU.
  intros. unfold sadd. apply respects_bind; [apply _|apply respects_gets; apply _|]. intros.
  by apply kept_big.
Qed.
Lemma kept_vault_big k v : respects kept (sstore_big vault_addr k v).
Proof. unfold sstore_big. apply respects_bind_must; [apply _|]. intros. apply kept_vault. Qed.
Lemma kept_vault_sadd k v : respects kept (sadd vault_addr k v).
Proof.
  unfold sadd. apply respects_bind; [apply _|apply respects_gets; apply _|]. intros. apply kept_vault_big.
Qed.
End Pool.

(** [kept_auto]: handlers that leave the guarded numbers alone. *)
Ltac pre_auto :=
  first [ apply pool_pre_global; pre_mem
        | eapply pool_pre_user; [eassumption|pre_mem] ].
Ltac pool_key k :=
  eval cbv delta [stabilityDepositKey stabilityRewardKey lpFeeKey stabilityMintedDebtKey totalDepositsKey
    twoWayBalanceKey wayRewardsKey swayRewardsKey totalRewardsKey] beta in k.
Ltac kept_step HU :=
  lazymatch goal with
  | |- respects _ (sstore vault_addr _ _) => apply kept_vault
  | |- respects _ (sstore_big vault_addr _ _) => apply kept_vault_big
  | |- respects _ (sadd vault_addr _ _) => apply kept_vault_sadd
  | |- respects _ (sstore_big pool_addr ?k ?v) =>
      let k := pool_key k in
      lazymatch k with storageKey ?x => apply (kept_big _ HU x v); [pre_auto|apply free_head; done] end
  | |- respects _ (sadd pool_addr ?k ?v) =>
      let k := pool_key k in
      lazymatch k with storageKey ?x => apply (kept_sadd _ HU x v); [pre_auto|apply free_head; done] end
  | |- _ => frame_step
  end.
Ltac kept_auto HU := repeat kept_step HU.

Section Steps.
Context (U : list bytes) (HU : collision_free (pool_preimages U)).
Context {MR : MapRange}.
Abbreviation kept := (same_slots pool_addr (map storageKey (guarded U))).

Lemma kept_claim caller n : caller ∈ U -> respects kept (stabilityClaimRewards caller n).
Proof using HU. intros Hc. unfold stabilityClaimRewards. kept_auto HU. Qed.
Lemma kept_distribute t r : respects kept (distributeRewards t r).
Proof using HU. unfold distributeRewards. kept_auto HU. Qed.
Lemma kept_absorb input n : respects kept (stabilityAbsorb input n).
Proof using HU. unfold stabilityAbsorb, getVaultDebt. kept_auto HU. apply kept_distribute. Qed.
Lemma kept_pool_reads input : respects kept (stabilityGetDeposit input) /\ respects kept stabilityGetPoolStats.
Proof. unfold stabilityGetDeposit, stabilityGetPoolStats. split; kept_auto HU. Qed.
Lemma kept_route caller fee : caller ∈ U -> respects kept (route_fee caller fee).
Proof using HU. intros Hc. unfold route_fee. kept_auto HU. Qed.

Lemma kept_vault_ops input caller n :
  respects kept (twoWayDeposit input caller n) /\ respects kept (twoWayWithdraw input caller n) /\
  respects kept (twoWayLiquidate input caller n) /\ respects kept (twoWayGetVault input) /\
  respects kept twoWayVaultCount /\ respects kept (twoWayGetStablecoinPrice input).
Proof.
  unfold twoWayDeposit, twoWayWithdraw, twoWayLiquidate, twoWayGetVault, twoWayVaultCount,
    twoWayGetStablecoinPrice, vault_log, isAcceptedCollateral, getVaultCollaterals, getVaultDebt,
    isAboveLiquidationRatio, getVaultCollateralValueUSD, getVaultCollaterals, reduceTotalDebt.
  split_and!; kept_auto HU.
  all: match goal with |- context [match ?x with _ => _ end] => destruct x end; kept_auto HU.
Qed.

(** ** The joint invariant of vault and pool *)

Record pool_ok (w : World) : Prop := {
  po_deposit : forall u, u ∈ U -> 0 <= deposit_of w u;
  po_minted : forall u, u ∈ U -> 0 <= minted_of w u;
  po_excl : forall u, u ∈ U -> deposit_of w u = 0 \/ minted_of w u = 0;
  po_total : total_deposits w = sumZ (map (deposit_of w) U);
}.

Lemma guarded_deposit u : u ∈ U -> StabilitySlotDeposits :: u ∈ guarded U.
Proof. intros H. right. apply list_elem_of_bind. exists u. split; [pre_mem|done]. Qed.
Lemma guarded_minted u : u ∈ U -> StabilitySlotMintedDebt :: u ∈ guarded U.
Proof. intros H. right. apply list_elem_of_bind. exists u. split; [pre_mem|done]. Qed.

Lemma pool_ok_kept w w' : kept w w' -> pool_ok w -> pool_ok w'.
Proof.
  intros Hk [H1 H2 H3 H4].
  assert (Hd : forall u, u ∈ U -> deposit_of w' u = deposit_of w u)
    by (intros; apply (kept_pv U); [done|by apply guarded_deposit]).
  assert (Hm : forall u, u ∈ U -> minted_of w' u = minted_of w u)
    by (intros; apply (kept_pv U); [done|by apply guarded_minted]).
  split.
  - intros u Hu. rewrite Hd by done. auto.
  - intros u Hu. rewrite Hm by done. auto.
  - intros u Hu. rewrite Hd, Hm by done. auto.
  - unfold total_deposits. rewrite (kept_pv U w w') by (done || left). fold (total_deposits w).
    rewrite H4. f_equal. apply map_ext_in. intros u Hu. symmetry. apply Hd. by apply list_elem_of_In.
Qed.

(** The three writes of a deposit or a withdrawal of [d]. *)
Lemma move_deposit caller d w w' :
  NoDup U -> caller ∈ U -> pool_ok w -> minted_of w caller = 0 -> 0 <= deposit_of w caller + d ->
  (forall x, x ∈ guarded U -> pv w' x =
     if decide (x = StabilitySlotDeposits :: caller) then deposit_of w caller + d
     else if decide (x = lit "totalDeposits") then total_deposits w + d else pv w x) ->
  pool_ok w'.
Proof.
  intros Hnd Hc Hok Hm Hpos Hw. pose proof Hok as [H1 H2 H3 H4].
  assert (Hd : forall u, u ∈ U -> deposit_of w' u = if decide (u = caller) then deposit_of w u + d else deposit_of w u).
  { intros u Hu. unfold deposit_of at 1. rewrite Hw by by apply guarded_deposit.
    destruct (decide (u = caller)) as [->|Hne]; [by rewrite decide_True|].
    rewrite decide_False by congruence. by rewrite decide_False by done. }
  assert (Hmm : forall u, u ∈ U -> minted_of w' u = minted_of w u).
  { intros u Hu. unfold minted_of. rewrite Hw by by apply guarded_minted.
    rewrite decide_False by done. by rewrite decide_False by done. }
  split.
  - intros u Hu. rewrite Hd by done. case_decide; [by subst|auto].
  - intros u Hu. rewrite Hmm by done. auto.
  - intros u Hu. rewrite Hd, Hmm by done. case_decide; [subst; by right|auto].
  - unfold total_deposits. rewrite Hw by left. rewrite decide_False by done. rewrite decide_True by done.
    rewrite H4. rewrite <- (sumZ_update (deposit_of w)
      (fun u => if decide (u = caller) then deposit_of w u + d else deposit_of w u) caller d U Hnd Hc) by done.
    f_equal. apply map_ext_in. intros u Hu. symmetry. apply Hd. by apply list_elem_of_In.
Qed.

Lemma deposit_tail (k : HM bytes) caller d w :
  NoDup U -> caller ∈ U -> pool_ok w -> minted_of w caller = 0 -> 0 <= deposit_of w caller + d ->
  0 <= total_deposits w + d -> respects kept k ->
  let r := (sadd pool_addr (stabilityDepositKey caller) d ;;; sadd pool_addr totalDepositsKey d ;;;
            sadd pool_addr twoWayBalanceKey d ;;; k) w in
  r.1 <> Panic -> pool_ok r.2.
Proof using HU.
  intros Hnd Hc Hok Hm Hpos Htot Hk. cbv zeta. unfold mbind, M_bind.
  assert (G1 : StabilitySlotDeposits :: caller ∈ pool_preimages U) by (apply guarded_pre, guarded_deposit, Hc).
  assert (G2 : lit "totalDeposits" ∈ pool_preimages U) by (apply pool_pre_global; pre_mem).
  unfold stabilityDepositKey, totalDepositsKey.
  destruct (sadd_cases (StabilitySlotDeposits :: caller) d w) as [(s1 & R1 & _ & ->)| ->]; [|done].
  cbv beta iota. set (w1 := set_slot _ _ s1 w).
  assert (T1 : pv w1 (lit "totalDeposits") = total_deposits w).
  { subst w1. rewrite (pv_set U HU) by done. by rewrite decide_False. }
  destruct (sadd_cases (lit "totalDeposits") d w1) as [(s2 & R2 & _ & ->)| ->]; [|done].
  cbv beta iota. set (w2 := set_slot _ _ s2 w1).
  assert (Hw2 : pool_ok w2).
  { apply (move_deposit caller d w w2 Hnd Hc Hok Hm Hpos). intros x Hx. subst w2 w1.
    rewrite !(pv_set U HU) by (try done; by apply guarded_pre).
    destruct (decide (x = StabilitySlotDeposits :: caller)) as [->|N1].
    - rewrite decide_False by done. rewrite decide_True by done. rewrite R1. apply Z.abs_eq. exact Hpos.
    - destruct (decide (x = lit "totalDeposits")) as [->|N2].
      + rewrite decide_True by done. rewrite R2, T1. by apply Z.abs_eq.
      + rewrite decide_False by congruence. by rewrite decide_False by congruence. }
  assert (F : respects kept (sadd pool_addr twoWayBalanceKey d)) by kept_auto HU.
  specialize (F w2). destruct (sadd pool_addr twoWayBalanceKey d w2) as [[u|e|] w3]; [|intros _; by apply (pool_ok_kept w2)|done].
  intros _. apply (pool_ok_kept w2); [|done]. etrans; [exact F|apply Hk].
Qed.

Lemma deposit_le_total w u : pool_ok w -> u ∈ U -> deposit_of w u <= total_deposits w.
Proof. intros H Hu. rewrite (po_total w H). apply sumZ_elem; [apply (po_deposit w H)|done]. Qed.

Lemma kept_touch_ok a w : pool_ok w -> pool_ok (GetOrCreateAccount a w).
Proof. apply pool_ok_kept, frame_touch. Qed.

Lemma stabilityDeposit_ok input caller n w :
  NoDup U -> caller ∈ U -> pool_ok w ->
  let r := stabilityDeposit input caller n w in r.1 <> Panic -> pool_ok r.2.
Proof using HU.
  intros Hnd Hc Hok. unfold stabilityDeposit, stabilityMintedDebt. cbv zeta.
  unfold mbind at 1, M_bind at 1, guard_err. destruct (length input <? 4 + 32)%nat; [done|].
  set (amount := readBigInt (readSlot input 4)). run_go.
  destruct (Z.leb_spec amount 0) as [|Hpos]; [done|]. cbv beta iota.
  set (w1 := GetOrCreateAccount pool_addr (GetOrCreateAccount pool_addr w)).
  assert (Hok1 : pool_ok w1) by (by do 2 apply kept_touch_ok).
  change (readBigInt (slot w1 pool_addr (stabilityMintedDebtKey caller))) with (minted_of w1 caller).
  destruct (Z.ltb_spec 0 (minted_of w1 caller)) as [|Hm]; [done|]. cbv beta iota.
  apply deposit_tail; try done.
  - pose proof (po_minted w1 Hok1 caller Hc). lia.
  - pose proof (po_deposit w1 Hok1 caller Hc). lia.
  - pose proof (deposit_le_total w1 caller Hok1 Hc). pose proof (po_deposit w1 Hok1 caller Hc). lia.
  - intros s x Hx. by destruct (fill_bytes 32 amount).
Qed.

Lemma stabilityWithdraw_ok input caller n w :
  NoDup U -> caller ∈ U -> pool_ok w ->
  let r := stabilityWithdraw input caller n w in r.1 <> Panic -> pool_ok r.2.
Proof using HU.
  intros Hnd Hc Hok. unfold stabilityWithdraw. cbv zeta.
  unfold mbind at 1, M_bind at 1, guard_err. destruct (length input <? 4 + 32)%nat; [done|].
  set (amount := readBigInt (readSlot input 4)). run_go.
  destruct (Z.leb_spec amount 0) as [|Hpos]; [done|]. cbv beta iota.
  set (w1 := GetOrCreateAccount pool_addr w).
  assert (Hok1 : pool_ok w1) by (by apply kept_touch_ok).
  change (readBigInt (slot w1 pool_addr (stabilityDepositKey caller))) with (deposit_of w1 caller).
  destruct (Z.ltb_spec (deposit_of w1 caller) amount) as [|Hle]; [done|]. cbv beta iota.
  pose proof (deposit_le_total w1 caller Hok1 Hc).
  apply (deposit_tail _ caller (- amount)); try done.
  - destruct (po_excl w1 Hok1 caller Hc); [lia|done].
  - lia.
  - lia.
  - intros s x Hx. by destruct (fill_bytes 32 amount).
Qed.

Lemma put_minted caller s w :
  caller ∈ U -> pool_ok w -> 0 <= readBigInt s ->
  deposit_of w caller = 0 \/ readBigInt s <= minted_of w caller ->
  pool_ok (set_slot pool_addr (stabilityMintedDebtKey caller) s w).
Proof using HU.
  intros Hc [H1 H2 H3 H4] Hs Hor. unfold stabilityMintedDebtKey. set (w' := set_slot _ _ s w).
  assert (G : StabilitySlotMintedDebt :: caller ∈ pool_preimages U) by (apply guarded_pre, guarded_minted, Hc).
  assert (Hd : forall u, u ∈ U -> deposit_of w' u = deposit_of w u).
  { intros u Hu. unfold deposit_of, w'. rewrite (pv_set U HU) by (try done; by apply guarded_pre, guarded_deposit).
    by rewrite decide_False. }
  assert (Hm : forall u, u ∈ U -> minted_of w' u = if decide (u = caller) then readBigInt s else minted_of w u).
  { intros u Hu. unfold minted_of, w'. rewrite (pv_set U HU) by (try done; by apply guarded_pre, guarded_minted).
    destruct (decide (u = caller)) as [->|Hne]; [by rewrite decide_True|by rewrite decide_False by congruence]. }
  split.
  - intros u Hu. rewrite Hd by done. auto.
  - intros u Hu. rewrite Hm by done. case_decide; auto.
  - intros u Hu. rewrite Hd, Hm by done. case_decide; [subst u|auto].
    destruct Hor as [|Hor]; [by left|]. destruct (H3 caller Hc); [by left|right; lia].
  - unfold total_deposits, w'. rewrite (pv_set U HU) by (done || (apply pool_pre_global; pre_mem)).
    rewrite decide_False by done. fold (total_deposits w). rewrite H4. f_equal. apply map_ext_in.
    intros u Hu. symmetry. apply Hd. by apply list_elem_of_In.
Qed.

Lemma addMinted_ok caller amount w :
  caller ∈ U -> pool_ok w -> deposit_of w caller = 0 -> 0 <= amount ->
  let r := addStabilityMintedDebt caller amount w in r.1 <> Panic -> pool_ok r.2.
Proof using HU.
  intros Hc Hok Hd Ha. unfold addStabilityMintedDebt. run_go. set (w1 := GetOrCreateAccount pool_addr w).
  assert (Hok1 : pool_ok w1) by by apply kept_touch_ok.
  destruct (sadd_cases (StabilitySlotMintedDebt :: caller) amount w1) as [(s & R & _ & E)| E];
    unfold stabilityMintedDebtKey; rewrite E; [|done].
  intros _. apply put_minted; [done|done|rewrite R; lia|left].
  rewrite <- Hd. unfold deposit_of, w1. by rewrite pv_touch.
Qed.

Lemma reduceMinted_ok caller amount w :
  caller ∈ U -> pool_ok w -> 0 <= amount ->
  let r := reduceStabilityMintedDebt caller amount w in r.1 <> Panic -> pool_ok r.2.
Proof using HU.
  intros Hc Hok Ha. unfold reduceStabilityMintedDebt. run_go. cbv zeta.
  set (w1 := GetOrCreateAccount pool_addr w). assert (Hok1 : pool_ok w1) by by apply kept_touch_ok.
  change (readBigInt (slot w1 pool_addr (stabilityMintedDebtKey caller))) with (minted_of w1 caller).
  pose proof (po_minted w1 Hok1 caller Hc) as Hm.
  match goal with |- context [sstore_big _ ?k ?v ?w] =>
    destruct (sstore_big_cases pool_addr k v w) as [(s & R & _ & _ & E)| E]; rewrite E end; [|done].
  intros _. apply put_minted; [done|done|rewrite R; lia|right]. rewrite R.
  destruct (Z.ltb_spec (minted_of w1 caller - amount) 0); lia.
Qed.

Lemma kept_totalDebt amount : respects kept (addTotalDebt amount) /\ respects kept (reduceTotalDebt amount).
Proof. unfold addTotalDebt, reduceTotalDebt. split; kept_auto HU. Qed.

(** [safe P m]: from [P], a run that does not panic ends in the invariant. *)
Definition safe {A} (P : World -> Prop) (m : HM A) : Prop :=
  forall w, P w -> (m w).1 <> Panic -> pool_ok (m w).2.
Definition stable (P : World -> Prop) : Prop :=
  (forall w, P w -> pool_ok w) /\ forall w w', kept w w' -> P w -> P w'.

Lemma safe_kept {A} P (m : HM A) : stable P -> respects kept m -> safe P m.
Proof. intros [H1 H2] Hm w Hw _. apply H1, (H2 w); [apply Hm|done]. Qed.
Lemma safe_bind {A B} P (m : HM A) (k : A -> HM B) :
  stable P -> respects kept m -> (forall a, safe P (k a)) -> safe P (mbind (M := M World) k m).
Proof.
  intros [H1 H2] Hm Hk w Hw. unfold mbind, M_bind. specialize (Hm w).
  destruct (m w) as [[a|e|] w1]; cbn [snd] in Hm; [apply Hk; by apply (H2 w)|intros _|done].
  by apply H1, (H2 w).
Qed.
(** A step that is not a frame, at the end of a handler. *)
Lemma safe_last {A} P (m : HM unit) (k : HM A) :
  safe P m -> respects kept k -> safe P (m ;;; k).
Proof.
  intros Hm Hk w Hw. specialize (Hm w Hw). unfold mbind, M_bind.
  destruct (m w) as [[[]|e|] w1]; cbn [fst snd] in *; [|intros _; by apply Hm|done].
  intros _. apply (pool_ok_kept w1); [apply Hk|by apply Hm].
Qed.

Lemma safe_gets {A B} P (f : World -> A) (k : A -> HM B) :
  (forall a, safe (fun w => P w /\ f w = a) (k a)) -> safe P (mbind (M := M World) k (gets f)).
Proof. intros Hk w Hw. by apply (Hk (f w) w). Qed.
Lemma safe_guard {B} P c e (k : unit -> HM B) :
  (forall w, P w -> pool_ok w) -> (c = false -> safe P (k tt)) ->
  safe P (mbind (M := M World) k (guard_err c e)).
Proof. intros Hp Hk w Hw. destruct c; [intros _; by apply Hp|by apply Hk]. Qed.
Lemma safe_weaken {A} (P Q : World -> Prop) (m : HM A) : (forall w, P w -> Q w) -> safe Q m -> safe P m.
Proof. intros H Hm w Hw. by apply Hm, H. Qed.

Lemma stable_ok : stable pool_ok.
Proof. split; [done|intros w w'; apply pool_ok_kept]. Qed.
Definition unlocked (caller : bytes) (w : World) : Prop := pool_ok w /\ deposit_of w caller = 0.
Lemma stable_unlocked caller : caller ∈ U -> stable (unlocked caller).
Proof.
  intros Hc. split; [by intros w []|]. intros w w' Hk [Hok Hd]. split; [by apply (pool_ok_kept w)|].
  rewrite <- Hd. apply (kept_pv U); [done|by apply guarded_deposit].
Qed.

Lemma kept_reads : (forall u, respects kept (stabilityMintedDebt u)) /\
  (forall v, respects kept (getVaultCollaterals v)) /\ (forall v, respects kept (getVaultDebt v)).
Proof. unfold stabilityMintedDebt, getVaultCollaterals, getVaultDebt. split_and!; intros; kept_auto HU. Qed.

Lemma twoWayMint_ok input caller n :
  caller ∈ U -> wf_bytes input -> safe pool_ok (twoWayMint input caller n).
Proof using HU.
  intros Hc Hwf. pose proof (readSlot_nonneg input 36 Hwf) as Ha. unfold twoWayMint. cbv zeta.
  set (amount := readBigInt (readSlot input 36)) in *.
  destruct kept_reads as (R1 & R2 & R3).
  apply safe_bind; [apply stable_ok|kept_auto HU|intros _].
  apply safe_bind; [apply stable_ok|apply R1|intros minted].
  apply safe_bind; [apply stable_ok|kept_auto HU|intros _].
  apply safe_bind; [apply stable_ok|kept_auto HU|intros _].
  apply safe_gets. intros deposit. apply safe_guard; [by intros w []|intros Hd%Z.ltb_ge].
  apply (safe_weaken _ (unlocked caller)).
  { intros w [Hok E]. split; [done|]. pose proof (po_deposit w Hok caller Hc).
    change (deposit_of w caller = deposit) in E. lia. }
  pose proof (stable_unlocked caller Hc) as Hst.
  apply safe_bind; [done|apply R2|intros colls].
  apply safe_bind; [done|apply R3|intros debt].
  apply safe_bind; [done|kept_auto HU|intros _].
  apply safe_bind; [done|kept_auto HU|intros fee].
  apply safe_bind; [done|by apply kept_route|intros _].
  apply safe_bind; [done|kept_auto HU|intros _].
  apply safe_bind; [done|kept_auto HU|intros _].
  apply safe_bind; [done|kept_auto HU|intros _].
  apply safe_bind; [done|apply (proj1 (kept_totalDebt amount))|intros _].
  apply safe_last; [|unfold vault_log; kept_auto HU].
  intros w [Hok Hd0]. by apply addMinted_ok.
Qed.

Lemma twoWayBurn_ok input caller n :
  caller ∈ U -> wf_bytes input -> safe pool_ok (twoWayBurn input caller n).
Proof using HU.
  intros Hc Hwf. pose proof (readSlot_nonneg input 36 Hwf) as Ha. unfold twoWayBurn. cbv zeta.
  do 4 (apply safe_bind; [apply stable_ok|kept_auto HU|intros ?]).
  apply safe_last; [|unfold vault_log, reduceTotalDebt; kept_auto HU].
  intros w Hok. by apply reduceMinted_ok.
Qed.

(** A call of either precompile. *)
Lemma vault_call_ok input caller n :
  caller ∈ U -> wf_bytes input -> safe pool_ok (twoWayVaultPrecompile input caller n).
Proof using HU.
  intros Hc Hwf. unfold twoWayVaultPrecompile. apply safe_bind; [apply stable_ok|kept_auto HU|intros _].
  cbv zeta. destruct (kept_vault_ops input caller n) as (K1 & K2 & K3 & K4 & K5 & K6).
  repeat match goal with |- safe _ (if ?b then _ else _) => destruct b end;
    try (apply safe_kept; [apply stable_ok|assumption || (apply respects_fail; apply _)]).
  - by apply twoWayMint_ok.
  - by apply twoWayBurn_ok.
Qed.

Lemma pool_call_ok input caller n :
  NoDup U -> caller ∈ U -> safe pool_ok (stabilityPoolPrecompile input caller n).
Proof using HU.
  intros Hnd Hc. unfold stabilityPoolPrecompile. apply safe_bind; [apply stable_ok|kept_auto HU|intros _].
  cbv zeta. destruct (kept_pool_reads input) as [K1 K2].
  repeat match goal with |- safe _ (if ?b then _ else _) => destruct b end.
  - intros w Hw. by apply stabilityDeposit_ok.
  - intros w Hw. by apply stabilityWithdraw_ok.
  - apply safe_kept; [apply stable_ok|by apply kept_claim].
  - apply safe_kept; [apply stable_ok|done].
  - apply safe_kept; [apply stable_ok|done].
  - apply safe_kept; [apply stable_ok|apply kept_absorb].
  - apply safe_kept; [apply stable_ok|apply respects_fail; apply _].
Qed.

(** The states of vault and pool under calls of [U] that do not panic, from an
    empty pool. *)
Inductive liquidity_reachable : World -> Prop :=
| liq_fresh w : Storage (acct w pool_addr) = ∅ -> liquidity_reachable w
| liq_vault input caller n w :
    liquidity_reachable w -> caller ∈ U -> wf_bytes input ->
    (twoWayVaultPrecompile input caller n w).1 <> Panic ->
    liquidity_reachable (twoWayVaultPrecompile input caller n w).2
| liq_pool input caller n w :
    liquidity_reachable w -> caller ∈ U -> (stabilityPoolPrecompile input caller n w).1 <> Panic ->
    liquidity_reachable (stabilityPoolPrecompile input caller n w).2.

Lemma fresh_ok w : Storage (acct w pool_addr) = ∅ -> pool_ok w.
Proof.
  intros H. assert (H0 : forall x, pv w x = 0).
  { intros x. unfold pv, slot. rewrite H, lookup_empty. reflexivity. }
  split; [intros u _; unfold deposit_of; by rewrite H0|intros u _; unfold minted_of; by rewrite H0|intros u _; left; apply H0|].
  unfold total_deposits. rewrite H0. clear HU. induction U as [|u l IH]; [done|].
  cbn [map]. unfold deposit_of at 1. rewrite H0. unfold sumZ in *. cbn [foldr]. lia.
Qed.

(** C37 (liquidity or debt).  Whatever calls of whichever users reach the vault
    and the stability pool, no user is a depositor and a minter at once, and the
    pool's total is exactly the sum of the deposits, each of them within it. *)
Theorem liquidity_or_debt w :
  NoDup U -> liquidity_reachable w ->
  (forall u, u ∈ U -> deposit_of w u = 0 \/ minted_of w u = 0) /\
  total_deposits w = sumZ (map (deposit_of w) U) /\
  (forall u, u ∈ U -> 0 <= deposit_of w u <= total_deposits w).
Proof using HU.
  intros Hnd Hr. assert (Hok : pool_ok w).
  { induction Hr as [w Hf|input caller n w _ IH Hc Hwf Hp|input caller n w _ IH Hc Hp].
    - by apply fresh_ok.
    - by apply vault_call_ok.
    - by apply pool_call_ok. }
  split_and!; [apply (po_excl w Hok)|apply (po_total w Hok)|].
  intros u Hu. split; [by apply (po_deposit w Hok)|by apply deposit_le_total].
Qed.

End Steps.

(** ** Lemmas: the collateral scan *)

Lemma drop_zeros_spec b : exists n, b = zeros n ++ drop_zeros b.
Proof.
  induction b as [|x b [n IH]]; [by exists O|]. cbn [drop_zeros].
  destruct (decide (x = 0)) as [->|Hx]; [exists (S n); cbn; by f_equal|].
  exists O. by destruct x.
Qed.

Lemma trim_spec b : exists n, b = trimRightZeros b ++ zeros n.
Proof.
  unfold trimRightZeros. destruct (drop_zeros_spec (reverse b)) as [n E]. exists n.
  rewrite <- (reverse_involutive b) at 1. rewrite E at 1. rewrite reverse_app. f_equal.
  unfold zeros. apply reverse_replicate.
Qed.

Lemma drop_zeros_head b : match drop_zeros b with x :: _ => x <> 0 | [] => True end.
Proof. induction b as [|x b IH]; [done|]. cbn [drop_zeros]. destruct x; done. Qed.

Lemma drop_zeros_idem b : drop_zeros (drop_zeros b) = drop_zeros b.
Proof. pose proof (drop_zeros_head b) as H. destruct (drop_zeros b) as [|x l]; [done|]. by destruct x. Qed.

Lemma trim_idem b : trimRightZeros (trimRightZeros b) = trimRightZeros b.
Proof. unfold trimRightZeros. by rewrite reverse_involutive, drop_zeros_idem. Qed.

Lemma drop_zeros_app n b : drop_zeros (zeros n ++ b) = drop_zeros b.
Proof. by induction n. Qed.

Lemma trim_zeros b n : trimRightZeros (b ++ zeros n) = trimRightZeros b.
Proof.
  unfold trimRightZeros. rewrite reverse_app. unfold zeros. rewrite reverse_replicate.
  fold (zeros n). by rewrite drop_zeros_app.
Qed.

Lemma trim_length b : (length (trimRightZeros b) <= length b)%nat.
Proof. destruct (trim_spec b) as [n E]. rewrite E at 2. rewrite length_app. lia. Qed.

(** Names a slot can carry. *)
Definition slot_name (name : bytes) : Prop :=
  name <> [] /\ (length name <= 11)%nat /\ trimRightZeros name = name.

#[export] Instance slot_name_dec name : Decision (slot_name name).
Proof. unfold slot_name. apply _. Defined.

Lemma collateralKey_name vid name :
  (20 <= length vid)%nat -> slot_name name ->
  collateralKey vid name = TwoWaySlotCollateral :: take 20 vid ++ name ++ zeros (11 - length name).
Proof.
  intros Hv (_ & Hl & _). unfold collateralKey, copy_at. rewrite (take_ge name) by lia.
  rewrite (take_ge name) by (unfold zeros; rewrite length_replicate; lia).
  unfold zeros at 1 2. rewrite drop_replicate. done.
Qed.

Lemma collateralKey_inj vid a b :
  (20 <= length vid)%nat -> slot_name a -> slot_name b -> collateralKey vid a = collateralKey vid b -> a = b.
Proof.
  intros Hv Ha Hb H. rewrite !collateralKey_name in H by done. injection H as H.
  apply app_inv_head in H. destruct Ha as (_ & _ & Ta), Hb as (_ & _ & Tb).
  rewrite <- Ta, <- Tb, <- (trim_zeros a (11 - length a)), <- (trim_zeros b (11 - length b)). by rewrite H.
Qed.

(** A slot either carries one name of the vault or is skipped. *)
Lemma scan_slot_spec vid m k v :
  length k = 32%nat -> (20 <= length vid)%nat ->
  (exists name, slot_name name /\ k = collateralKey vid name /\
     scan_slot vid m (k, v) = <[name := readBigInt v]> m) \/
  ((forall name, slot_name name -> k <> collateralKey vid name) /\ scan_slot vid m (k, v) = m).
Proof.
  intros Hk Hv. unfold scan_slot. cbn [fst snd]. destruct k as [|h k]; [discriminate Hk|].
  unfold byte_at. cbn [nth]. injection Hk as Hk.
  change (drop 1 (h :: k)) with (drop 0 k). change (drop 21 (h :: k)) with (drop 20 k). rewrite drop_0.
  assert (Hp : hasPrefix (take 20 k) (take 20 vid) = bool_decide (take 20 k = take 20 vid)).
  { unfold hasPrefix. rewrite !length_take, Hk, !Nat.min_l by lia. rewrite Nat.ltb_irrefl.
    by rewrite take_take, Nat.min_id. }
  destruct (Z.eqb_spec h TwoWaySlotCollateral) as [->|Hh]; cbn [negb].
  2: { right. split; [|done]. intros name Hn. rewrite collateralKey_name by done. congruence. }
  rewrite Hp. destruct (bool_decide_reflect (take 20 k = take 20 vid)) as [He|He].
  2: { right. split; [|done]. intros name Hn. rewrite collateralKey_name by done. intros [= ->].
       apply He. rewrite take_app_le by (rewrite length_take; lia). by rewrite take_take, Nat.min_id. }
  set (name := trimRightZeros (drop 20 k)).
  destruct (trim_spec (drop 20 k)) as [n En]. fold name in En.
  assert (Hdl : length (drop 20 k) = 11%nat) by (rewrite length_drop; lia).
  destruct (bool_decide_reflect (name = [])) as [E0|E0].
  - right. split; [|done]. intros nm Hn. rewrite collateralKey_name by done. intros [= Ek].
    destruct Hn as (Hne & Hl & Ht). apply Hne. rewrite <- E0. subst name.
    rewrite Ek. rewrite drop_app_length' by (rewrite length_take; lia).
    by rewrite trim_zeros.
  - left. exists name. assert (Hn : slot_name name).
    { split_and!; [done| |apply trim_idem]. pose proof (trim_length (drop 20 k)). subst name. lia. }
    split_and!; [done| |done]. rewrite collateralKey_name by done. f_equal.
    rewrite <- (take_drop 20 k) at 1. rewrite He. f_equal. rewrite En. f_equal. f_equal.
    rewrite En, length_app in Hdl. unfold zeros in Hdl. rewrite length_replicate in Hdl. lia.
Qed.

Lemma scan_fold vid l m name :
  (20 <= length vid)%nat -> NoDup l.*1 -> Forall (fun e => length e.1 = 32%nat) l ->
  fold_left (scan_slot vid) l m !! name =
    if decide (slot_name name)
    then match list_to_map (M := gmap bytes bytes) l !! collateralKey vid name with
         | Some v => Some (readBigInt v) | None => m !! name end
    else m !! name.
Proof.
  intros Hv. revert m. induction l as [|[k v] l IH]; intros m Hnd Hf.
  { cbn. rewrite lookup_empty. by case_decide. }
  apply NoDup_cons in Hnd as [Hni Hnd]. apply Forall_cons in Hf as [Hk Hf]. cbn [fst] in Hk.
  cbn [fold_left]. rewrite IH by done.
  change (list_to_map ((k, v) :: l)) with (<[k:=v]> (list_to_map (M := gmap bytes bytes) l)).
  destruct (scan_slot_spec vid m k v Hk Hv) as [(nm & Hnm & -> & ->)|[Hno ->]].
  - destruct (decide (slot_name name)) as [Hn|Hn].
    + destruct (decide (nm = name)) as [->|Hne].
      * rewrite !lookup_insert_eq. by rewrite not_elem_of_list_to_map_1.
      * by rewrite !lookup_insert_ne by (done || (intros E; by apply collateralKey_inj in E)).
    + rewrite lookup_insert_ne; [done|]. by intros ->.
  - destruct (decide (slot_name name)) as [Hn|Hn]; [|done].
    rewrite lookup_insert_ne; [done|]. by apply Hno.
Qed.

(** The scan reads exactly the vault's slots, whatever the range order. *)
Lemma vault_collaterals_lookup {MR : MapRange} vid w name :
  slots_typed vault_addr w -> (20 <= length vid)%nat ->
  vault_collaterals vid w !! name =
    if decide (slot_name name)
    then readBigInt <$> Storage (acct w vault_addr) !! collateralKey vid name else None.
Proof.
  intros Ht Hv. unfold vault_collaterals. set (st := Storage (acct w vault_addr)) in *.
  rewrite scan_fold; [|done|apply map_range_nodup|].
  - rewrite lookup_empty. case_decide; [|done].
    rewrite (list_to_map_proper (map_range st) (map_to_list st)), list_to_map_to_list;
      [by destruct (st !! _)|apply map_range_nodup|apply map_range_perm].
  - rewrite Forall_forall. intros [k v] Hin. apply map_range_elem in Hin. cbn. by apply (Ht k v).
Qed.

(** ** The collateral ratio *)

Definition debt_of (w : World) (vid : bytes) : Z := readBigInt (slot w vault_addr (debtKey vid)).
Definition collateral_of {MR : MapRange} (w : World) (vid : bytes) : Z := sum_values (vault_collaterals vid w).

Section Ratio.
Context {MR : MapRange}.
Abbreviation untouched := (same_storage vault_addr).

Lemma sum_values_map m : sum_values m = map_sum (fun z => z) m.
Proof. apply (fold_sum_range (fun z => z)). Qed.

Lemma untouched_route caller fee : respects untouched (route_fee caller fee).
Proof.
  unfold route_fee, sadd, sstore_big.
  repeat (frame_step || (apply same_storage_sstore; discriminate)).
Qed.
Lemma untouched_add_minted caller n : respects untouched (addStabilityMintedDebt caller n).
Proof.
  unfold addStabilityMintedDebt, sadd, sstore_big.
  repeat (frame_step || apply same_storage_touch || (apply same_storage_sstore; discriminate)).
Qed.

Lemma totalDebtKey_head : byte_at totalDebtKey 0 <> TwoWaySlotCollateral /\ byte_at totalDebtKey 0 <> TwoWaySlotDebt.
Proof. vm_compute. split; discriminate. Qed.

(** Writing a slot that is no collateral slot keeps the collaterals; writing one
    replaces its entry. *)
Lemma vault_collaterals_set k s w vid :
  slots_typed vault_addr w -> length k = 32%nat -> length s = 32%nat -> wf_bytes s -> (20 <= length vid)%nat ->
  byte_at k 0 <> TwoWaySlotCollateral ->
  vault_collaterals vid (set_slot vault_addr k s w) = vault_collaterals vid w.
Proof.
  intros Ht Hk Hs Hw Hv Hh. apply map_eq. intros name.
  rewrite !vault_collaterals_lookup by (done || by apply slots_typed_set). case_decide as Hn; [|done].
  unfold set_slot. rewrite acct_upd, decide_True by done. cbn [Storage with_storage].
  rewrite lookup_insert_ne; [done|]. intros ->. by apply Hh.
Qed.

Lemma vault_collaterals_put name s w vid :
  slots_typed vault_addr w -> length s = 32%nat -> wf_bytes s -> length vid = 32%nat -> slot_name name ->
  vault_collaterals vid (set_slot vault_addr (collateralKey vid name) s w) =
    <[name := readBigInt s]> (vault_collaterals vid w).
Proof.
  intros Ht Hs Hw Hv Hname. assert (Hlen : length (collateralKey vid name) = 32%nat).
  { destruct Hname as (_ & Hl & _). unfold collateralKey. cbn [length]. rewrite length_app, copy_at_length by lia.
    rewrite length_take. unfold zeros. rewrite length_replicate. lia. }
  apply map_eq. intros nm.
  destruct (decide (name = nm)) as [<-|Hne].
  - rewrite lookup_insert_eq, vault_collaterals_lookup by (lia || by apply slots_typed_set).
    rewrite decide_True by done. unfold set_slot. rewrite acct_upd, decide_True by done.
    cbn [Storage with_storage]. by rewrite lookup_insert_eq.
  - rewrite lookup_insert_ne by done.
    rewrite !vault_collaterals_lookup by (done || lia || by apply slots_typed_set).
    case_decide as Hn; [|done]. unfold set_slot. rewrite acct_upd, decide_True by done.
    cbn [Storage with_storage]. rewrite lookup_insert_ne; [done|].
    intros E. apply collateralKey_inj in E; [by apply Hne|lia|done|done].
Qed.

Lemma collateral_nonneg vid w name z :
  slots_typed vault_addr w -> (20 <= length vid)%nat -> vault_collaterals vid w !! name = Some z ->
  0 <= z /\ slot_name name.
Proof.
  intros Ht Hv. rewrite vault_collaterals_lookup by done. case_decide as Hn; [|done].
  destruct (Storage _ !! _) as [v|] eqn:E; [|done]. intros [= <-]. split; [|done].
  apply readBigInt_nonneg. by apply (Ht (collateralKey vid name) v).
Qed.

(** The integer ratio test is exact. *)
Lemma ratio_exact colls debt :
  (forall name z, colls !! name = Some z -> 0 <= z) -> 0 <= debt ->
  isAboveMinCRatio colls debt 0 = true -> 13 * debt <= 10 * sum_values colls.
Proof.
  intros Hc Hd. unfold isAboveMinCRatio. rewrite Z.add_0_r. cbv zeta.
  assert (0 <= sum_values colls) by (rewrite sum_values_map; by apply map_sum_nonneg).
  destruct (Z.eqb_spec debt 0) as [->|Hne]; [lia|]. intros Hr%Z.leb_le.
  pose proof (Z.mul_div_le (sum_values colls * 10000) debt ltac:(lia)). nia.
Qed.

Lemma vault_arg_length input : (36 <= length input)%nat -> length (vault_arg input) = 32%nat.
Proof. intros H. unfold vault_arg. rewrite length_take, length_drop. lia. Qed.
Lemma debtKey_length vid : length vid = 32%nat -> length (debtKey vid) = 32%nat.
Proof. intros H. unfold debtKey. cbn [length]. rewrite length_take. lia. Qed.

Lemma add_debt_writes amount w u w' :
  addTotalDebt amount w = (Ok u, w') ->
  exists s, length s = 32%nat /\ wf_bytes s /\ w' = set_slot vault_addr totalDebtKey s (GetOrCreateAccount vault_addr w).
Proof.
  unfold addTotalDebt, sadd. run_go. intros H.
  destruct (sstore_big_inv _ _ _ _ _ _ H) as (s & -> & _ & L & W). by exists s.
Qed.

Lemma untouched_collaterals w w' vid : untouched w w' -> vault_collaterals vid w' = vault_collaterals vid w.
Proof. unfold same_storage, vault_collaterals. by intros ->. Qed.
Lemma untouched_debt w w' vid : untouched w w' -> debt_of w' vid = debt_of w vid.
Proof. intros H. unfold debt_of. by rewrite (same_storage_slot _ _ _ _ H). Qed.
Lemma touch_untouched a w : untouched w (GetOrCreateAccount a w).
Proof. apply same_storage_touch. Qed.

(** The debt write of a mint, between touches. *)
Lemma debt_write vid x w :
  slots_typed vault_addr w -> length vid = 32%nat -> length x = 32%nat -> wf_bytes x ->
  let w' := set_slot vault_addr (debtKey vid) x w in
  slots_typed vault_addr w' /\ debt_of w' vid = readBigInt x /\
  vault_collaterals vid w' = vault_collaterals vid w.
Proof.
  intros Ht Hv Hx Hwx w'. subst w'. pose proof (debtKey_length vid Hv) as Hk.
  split_and!; [by apply slots_typed_set|unfold debt_of; by rewrite slot_set_eq|].
  apply vault_collaterals_set; try done; lia.
Qed.
Lemma total_write vid x w :
  slots_typed vault_addr w -> length vid = 32%nat -> length x = 32%nat -> wf_bytes x ->
  let w' := set_slot vault_addr totalDebtKey x w in
  debt_of w' vid = debt_of w vid /\ vault_collaterals vid w' = vault_collaterals vid w.
Proof.
  intros Ht Hv Hx Hwx w'. subst w'. destruct totalDebtKey_head as [H1 H2]. split.
  - unfold debt_of. rewrite slot_set_ne; [done|]. right. intros E. apply H2. by rewrite E.
  - apply vault_collaterals_set; (assumption || apply Sha256.sum256_length || lia).
Qed.

Lemma mint_success input caller n w out w' :
  slots_typed vault_addr w -> wf_bytes input -> twoWayMint input caller n w = (Ok out, w') ->
  let vid := vault_arg input in
  debt_of w' vid = debt_of w vid + readBigInt (readSlot input 36) /\
  vault_collaterals vid w' = vault_collaterals vid w /\
  13 * debt_of w' vid <= 10 * collateral_of w' vid.
Proof.
  intros Ht Hwf H vid. pose proof (readSlot_nonneg input 36 Hwf) as Ha.
  unfold twoWayMint, stabilityMintedDebt, getVaultCollaterals, getVaultDebt, vault_log, sread, touch, addlog in H.
  cbv zeta in H. set (amount := readBigInt (readSlot input 36)) in *. set (lit' := lit "Minted") in H.
  inv_go H. fold vid in Hm2, Hm3, Hm4, Hm5.
  apply Nat.ltb_ge in Hm. pose proof (vault_arg_length input ltac:(lia)) as Hv. fold vid in Hv.
  apply negb_false_iff in Hm4. pose proof (respects_run _ _ _ _ _ (untouched_route _ _) Hm3) as Hr.
  pose proof (respects_run _ _ _ _ _ (untouched_add_minted _ _) Hm7) as Hadd.
  match type of Hm4 with isAboveMinCRatio (_ _ ?wa) (readBigInt (slot ?wb _ _) + _) 0 = true =>
    assert (Ua : untouched w wa) by (do 3 (etrans; [|apply touch_untouched]); done);
    assert (Ub : untouched w wb) by (do 4 (etrans; [|apply touch_untouched]); done) end.
  rewrite (untouched_collaterals _ _ vid Ua) in Hm4. rewrite (same_storage_slot _ _ _ _ Ub) in Hm4, Hm5.
  fold (debt_of w vid) in Hm4, Hm5.
  assert (Hd : 0 <= debt_of w vid) by by apply slot_nonneg.
  destruct (sstore_big_inv _ _ _ _ _ _ Hm5) as (x1 & -> & R1 & L1 & W1). rewrite Z.abs_eq in R1 by lia.
  destruct (add_debt_writes _ _ _ _ Hm6) as (x2 & L2 & W2 & ->).
  assert (Us : untouched w (GetOrCreateAccount vault_addr s))
    by (etrans; [exact Ub|]; etrans; [exact Hr|apply touch_untouched]).
  destruct (debt_write vid x1 _ (same_storage_typed _ _ _ Us Ht) Hv L1 W1) as (T1 & D1 & C1).
  set (wd := set_slot vault_addr (debtKey vid) x1 _) in *.
  assert (Ud : untouched wd (GetOrCreateAccount vault_addr wd)) by apply touch_untouched.
  destruct (total_write vid x2 _ (same_storage_typed _ _ _ Ud T1) Hv L2 W2) as (D2 & C2).
  match goal with |- debt_of ?wl _ = _ /\ _ => assert (Ul : untouched s2 wl) by done end.
  unfold collateral_of.
  rewrite !(untouched_debt _ _ vid Ul), !(untouched_debt _ _ vid Hadd), !(untouched_collaterals _ _ vid Ul),
    !(untouched_collaterals _ _ vid Hadd), D2, C2, (untouched_debt _ _ vid Ud), (untouched_collaterals _ _ vid Ud),
    D1, C1, (untouched_collaterals _ _ vid Us), R1.
  split_and!; [done|done|]. apply ratio_exact; [|lia|done].
  intros name z Hz. by apply (collateral_nonneg vid w name z Ht ltac:(lia)).
Qed.

Lemma withdraw_success input caller n w out w' :
  slots_typed vault_addr w -> wf_bytes input -> twoWayWithdraw input caller n w = (Ok out, w') ->
  let vid := vault_arg input in
  let amount := readBigInt (readSlot input 56) in
  debt_of w' vid = debt_of w vid /\
  (exists held, vault_collaterals vid w !! coll_arg input = Some held /\ amount <= held /\
     vault_collaterals vid w' = <[coll_arg input := held - amount]> (vault_collaterals vid w)) /\
  13 * debt_of w' vid <= 10 * collateral_of w' vid.
Proof.
  intros Ht Hwf H vid amount. pose proof (readSlot_nonneg input 56 Hwf) as Ha. fold amount in Ha.
  unfold twoWayWithdraw, getVaultCollaterals, getVaultDebt, vault_log, sread, touch, addlog in H.
  cbv zeta in H. fold amount in H. set (lit' := lit "Withdrawn") in H. inv_go H. fold vid in H.
  apply Nat.ltb_ge in Hm. pose proof (vault_arg_length input ltac:(lia)) as Hv. fold vid in Hv.
  set (wa := GetOrCreateAccount vault_addr w) in *. set (wb := GetOrCreateAccount vault_addr wa) in *.
  assert (Ua : untouched w wa) by apply touch_untouched.
  assert (Ub : untouched w wb) by (etrans; [exact Ua|apply touch_untouched]).
  rewrite (untouched_collaterals _ _ vid Ua) in H. rewrite (same_storage_slot _ _ _ _ Ub) in H.
  fold (debt_of w vid) in H.
  destruct (vault_collaterals vid w !! coll_arg input) as [held|] eqn:Eh; [|discriminate].
  destruct (collateral_nonneg vid w _ _ Ht ltac:(lia) Eh) as [Hh Hname]. inv_go H.
  apply Z.ltb_ge in Hm0. apply negb_false_iff in Hm1.
  destruct (sstore_big_inv _ _ _ _ _ _ Hm2) as (x & -> & R & L & W). rewrite Z.abs_eq in R by lia.
  set (wc := GetOrCreateAccount vault_addr wb) in *.
  assert (Uc : untouched w wc) by (etrans; [exact Ub|apply touch_untouched]).
  match goal with |- debt_of ?wl _ = _ /\ _ =>
    assert (Ul : untouched (set_slot vault_addr (collateralKey vid (coll_arg input)) x wc) wl) by done end.
  unfold collateral_of. rewrite !(untouched_debt _ _ vid Ul), !(untouched_collaterals _ _ vid Ul).
  rewrite (vault_collaterals_put _ x wc vid (same_storage_typed _ _ _ Uc Ht)) by done.
  rewrite (untouched_collaterals _ _ vid Uc), R.
  assert (Hd : debt_of (set_slot vault_addr (collateralKey vid (coll_arg input)) x wc) vid = debt_of w vid).
  { unfold debt_of. rewrite slot_set_ne by (right; discriminate). by rewrite (same_storage_slot _ _ _ _ Uc). }
  rewrite Hd. split_and!; [done|exists held; split_and!; [done|lia|done]|].
  apply ratio_exact; [|by apply slot_nonneg|done].
  intros nm z. destruct (decide (coll_arg input = nm)) as [->|Hne].
  - rewrite lookup_insert_eq. intros [= <-]. lia.
  - rewrite lookup_insert_ne by done. intros Hz. by apply (collateral_nonneg vid w nm z Ht ltac:(lia)).
Qed.

(** C4 (collateral ratio).  A mint that succeeds adds its amount to the debt and
    keeps the collateral; a withdrawal that succeeds takes its amount from one
    collateral and keeps the debt; after either the vault's collateral, at face
    value, is at least 130% of its debt, exactly. *)
Theorem ratio_kept input caller n w out w' :
  slots_typed vault_addr w -> wf_bytes input ->
  let vid := vault_arg input in
  (twoWayMint input caller n w = (Ok out, w') ->
   debt_of w' vid = debt_of w vid + readBigInt (readSlot input 36) /\
   vault_collaterals vid w' = vault_collaterals vid w /\
   13 * debt_of w' vid <= 10 * collateral_of w' vid) /\
  (twoWayWithdraw input caller n w = (Ok out, w') ->
   debt_of w' vid = debt_of w vid /\
   (exists held, vault_collaterals vid w !! coll_arg input = Some held /\
      readBigInt (readSlot input 56) <= held /\
      vault_collaterals vid w' =
        <[coll_arg input := held - readBigInt (readSlot input 56)]> (vault_collaterals vid w)) /\
   13 * debt_of w' vid <= 10 * collateral_of w' vid).
Proof.
  intros Ht Hwf vid. split; intros H; [exact (mint_success _ _ _ _ _ _ Ht Hwf H)|].
  exact (withdraw_success _ _ _ _ _ _ Ht Hwf H).
Qed.

End Ratio.

(** ** What the code does that its comments do not say *)

Definition the_vault : bytes := replicate 32 7.
Definition usdc : bytes := lit "USDC".
(** A vault account that accepts USDC and a twenty-byte name. *)
Definition long_name : bytes := replicate 20 65.
Definition open_world : World :=
  set_slot vault_addr (paramKey (long_name ++ lit ":minCRatio")) (be_enc 32 15000)
    (set_slot vault_addr (paramKey (usdc ++ lit ":minCRatio")) (be_enc 32 15000) NewStateDB).
Definition deposit_call (name : bytes) (amount : Z) : bytes :=
  be_enc 4 0xFBB35030 ++ the_vault ++ copy_at 0 name (zeros 20) ++ be_enc 32 amount.
Definition withdraw_call (name : bytes) (amount : Z) : bytes :=
  be_enc 4 0xE9C4B112 ++ the_vault ++ copy_at 0 name (zeros 20) ++ be_enc 32 amount.
Definition mint_call (amount : Z) : bytes := be_enc 4 0xD185E07F ++ the_vault ++ be_enc 32 amount.
Definition burn_call (amount : Z) : bytes := be_enc 4 0x0E0C59BE ++ the_vault ++ be_enc 32 amount.
Definition pool_call (sel amount : Z) : bytes := be_enc 4 sel ++ be_enc 32 amount.
Definition run_vault (caller input : bytes) (w : World) := twoWayVaultPrecompile input caller 1 w.
Definition alice : bytes := lit "alice".
Definition bob : bytes := lit "bob".
Definition funded_vault : World := (run_vault alice (deposit_call usdc 1300) open_world).2.
Definition indebted : World := (run_vault alice (mint_call 1000) funded_vault).2.

(** A deposit replaces the collateral: depositing one unit leaves one unit, below
    any ratio. *)
Lemma deposit_replaces_collateral :
  let w := (run_vault bob (deposit_call usdc 1) indebted).2 in
  collateral_of w the_vault = 1 /\ debt_of w the_vault = 1000.
Proof. vm_compute. done. Qed.

(** Names are cut at eleven bytes in the key: a longer one is never found again. *)
Lemma long_names_are_locked :
  let w := (run_vault alice (deposit_call long_name 5) open_world).2 in
  (run_vault alice (withdraw_call long_name 5) w).1 = Err "2WAY: withdraw amount exceeds deposit".
Proof. vm_compute. reflexivity. Qed.

(** A mint may reach 130%, and a vault at 140% or below is liquidated: a fresh
    mint can be cleared by anyone at once. *)
Lemma fresh_mint_is_liquidated :
  let '(r, w) := run_vault bob (be_enc 4 0x5C8B7698 ++ the_vault) indebted in
  is_ok r = true /\ debt_of w the_vault = 0 /\ collateral_of w the_vault = 1300.
Proof. vm_compute. done. Qed.

(** The fee of a refused mint is credited all the same, and can be claimed. *)
Lemma refused_mint_earns :
  let w := (run_vault bob (mint_call 100000) funded_vault).2 in
  (run_vault bob (mint_call 100000) funded_vault).1 = Err "2WAY: mint would violate minimum collateral ratio" /\
  (stabilityPoolPrecompile (pool_call 0x6B6F4360 0) bob 1 w).1 = Ok (be_enc 32 1500).
Proof. vm_compute. done. Qed.

(** Burning takes nothing from the caller: anyone clears any debt, and the excess
    is taken from the total of the others. *)
Lemma burning_is_free :
  let w := (run_vault bob (burn_call 5000) indebted).2 in
  debt_of w the_vault = 0 /\ readBigInt (slot w vault_addr totalDebtKey) = 0 /\ minted_of w alice = 1000.
Proof. vm_compute. done. Qed.

(** A depositor who withdraws after an absorption drives the pool's balance below
    zero, which is stored as its magnitude. *)
Lemma absorbed_balance_wraps :
  let p input caller w := (stabilityPoolPrecompile input caller 1 w).2 in
  let w := p (pool_call 0x4E26609A 1200) bob indebted in
  let w := p (be_enc 4 0x91B78CB4 ++ the_vault) bob w in
  let w := p (pool_call 0x2E1A7DDD 1200) bob w in
  readBigInt (slot w pool_addr twoWayBalanceKey) = 1000 /\ total_deposits w = 0.
Proof. vm_compute. done. Qed.

(** A claim pays the caller's share and clears the buckets of everyone. *)
Lemma claim_clears_all_buckets :
  let w := (stabilityPoolPrecompile (pool_call 0x6B6F4360 0) alice 1
              (run_vault bob (mint_call 100000) indebted).2).2 in
  readBigInt (slot w pool_addr totalRewardsKey) = 0 /\ pv w (StabilitySlotLastDeposit :: bob) = 1500.
Proof. vm_compute. done. Qed.

(** ** Witnesses *)

Lemma liquidity_or_debt_witness : minted_of indebted alice = 1000 /\ deposit_of indebted alice = 0.
Proof.
  assert (Hr : liquidity_reachable [alice; bob] indebted).
  { unfold indebted, funded_vault. apply liq_vault; [apply liq_vault; [apply liq_fresh| | |]| | |];
      first [by left|vm_compute; discriminate|vm_compute; reflexivity
            |apply (bool_decide_unpack _); vm_compute; exact I]. }
  assert (Hn : NoDup [alice; bob]) by (apply (bool_decide_unpack _); vm_compute; exact I).
  assert (Hc : collision_free (pool_preimages [alice; bob]))
    by (apply collision_free_nodup; vm_compute; reflexivity).
  assert (Hm : minted_of indebted alice = 1000) by (vm_compute; reflexivity).
  split; [exact Hm|].
  destruct (proj1 (liquidity_or_debt [alice; bob] Hc indebted Hn Hr) alice ltac:(left)) as [H|H]; [exact H|].
  rewrite Hm in H. discriminate H.
Defined.

Lemma ratio_kept_witness : 13 * debt_of indebted the_vault <= 10 * collateral_of indebted the_vault.
Proof.
  assert (Ht : slots_typed vault_addr funded_vault) by (apply slots_typed_check; vm_compute; reflexivity).
  assert (Hwf : wf_bytes (mint_call 1000)) by (apply (bool_decide_unpack _); vm_compute; exact I).
  assert (Hr : twoWayMint (mint_call 1000) alice 1 funded_vault =
    (Ok the_vault, (twoWayMint (mint_call 1000) alice 1 funded_vault).2))
    by (apply ok_run; vm_compute; reflexivity).
  destruct (proj1 (ratio_kept (mint_call 1000) alice 1 funded_vault the_vault _ Ht Hwf) Hr) as (_ & _ & H).
  exact H.
Defined.
