(* ===== verification/StateRent.v ===== *)
(** The state rent precompile (evm/state_rent.go, address 0x1E): payments, the
    status flag and the amount due. *)

From Stdlib Require Import ZArith Lia.
From S2P Require Import Prelude Sha256 Collections StateDB Econo.
From stdpp Require Import gmap list.
Local Open Scope Z_scope.
Local Open Scope go_scope.

Definition StateRentSlotState : Z := 1.
Definition StateRentBurnPercent : Z := 60.
Definition StateRentValidatorPercent : Z := 30.
Definition StateRentTreasuryPercent : Z := 10.
Definition GracePeriod : Z := 2592000.
Definition RentPerByteYear : Z := 5000000000000.
Definition BaseAccountFee : Z := 10000000000000000.

Definition rent_addr : bytes := PrecompileAddrHex 30.

(** [rune(blockNum)]: the low 32 bits, signed. *)
Definition rune (n : Z) : Z := (n + 2 ^ 31) mod 2 ^ 32 - 2 ^ 31.
(** [string(r)]: the UTF-8 encoding; a value that is no code point gives U+FFFD. *)
Definition string_of_rune (r : Z) : bytes :=
  if (r <? 0) || (0x10FFFF <? r) || ((0xD800 <=? r) && (r <=? 0xDFFF)) then [239; 191; 189]
  else if r <? 0x80 then [r]
  else if r <? 0x800 then [192 + r / 64; 128 + r mod 64]
  else if r <? 0x10000 then [224 + r / 4096; 128 + r / 64 mod 64; 128 + r mod 64]
  else [240 + r / 262144; 128 + r / 4096 mod 64; 128 + r / 64 mod 64; 128 + r mod 64].

Definition rentNormalizeAddress (addr : bytes) : bytes := copy_at 0 addr (zeros 20).
Definition rentStateKey (accountAddr : bytes) : bytes :=
  storageKey (StateRentSlotState :: rentNormalizeAddress accountAddr).
Definition rentDistributionKey (accountAddr : bytes) (blockNum : Z) : bytes :=
  storageKey (0x10 :: rentNormalizeAddress accountAddr).

(** The slot after [FillBytes] and the three byte writes of [rentPay]. *)
Definition rent_record (filled : bytes) (blockNum : Z) : bytes :=
  <[29%nat := 0]> (<[31%nat := u8 blockNum]> (<[30%nat := u8 (Z.shiftr blockNum 8)]> filled)).
Definition dist_record (blockNum : Z) : bytes :=
  copy_at 4 (be_enc 8 blockNum)
    (copy_at 0 [StateRentBurnPercent; StateRentValidatorPercent; StateRentTreasuryPercent] zero32).

Definition rentPay (input caller : bytes) (blockNum : Z) : HM bytes :=
  guard_err (length input <? 4 + 32)%nat "StateRent: pay input too short" ;;;
  let amount := readBigInt (readSlot input 4) in
  guard_err (amount <=? 0) "StateRent: amount must be > 0" ;;;
  touch rent_addr ;;;
  let* rentSlot := sload rent_addr (rentStateKey caller) in
  let rentPaid := readBigInt (readSlot rentSlot 0) in
  let* filled := must (fill_bytes 32 (rentPaid + amount)) in
  sstore rent_addr (rentStateKey caller) (rent_record filled blockNum) ;;;
  sstore rent_addr (rentDistributionKey caller blockNum) (dist_record blockNum) ;;;
  addlog rent_addr
    [storageKey (lit "RentPaid"); Sha256.sum256 (caller ++ string_of_rune (rune blockNum))]
    (big_bytes amount) blockNum ;;;
  modify (EconoAccrueRent (big_u64 amount) blockNum) ;;;
  mret (boolResult true).

Definition rentGetStatus (input : bytes) : HM bytes :=
  guard_err (length input <? 4 + 32)%nat "StateRent: getStatus input too short" ;;;
  touch rent_addr ;;;
  let* rentSlot := sload rent_addr (rentStateKey (take 32 (drop 4 input))) in
  if bool_decide (rentSlot = zero32) then mret [0] else mret [byte_at rentSlot 29].

(** The account is looked up under its raw bytes. *)
Definition estimateAccountSize (w : World) (accountAddr : bytes) : Z :=
  match GetAccount w accountAddr with
  | None => 0
  | Some acc =>
      let size := i64 (Z.of_nat (size (Storage acc)) * 64) in
      if (0 <? length (Code acc))%nat then i64 (size + Z.of_nat (length (Code acc))) else size
  end.

Definition rentGetDue (input : bytes) (blockNum : Z) : HM bytes :=
  guard_err (length input <? 4 + 20)%nat "StateRent: getDue input too short" ;;;
  let accountAddr := take 20 (drop 4 input) in
  touch rent_addr ;;;
  let rentKey := rentStateKey accountAddr in
  let* rentSlot := sload rent_addr rentKey in
  if bool_decide (rentSlot = zero32) then must (fill_bytes 32 1000000000000000000) else
  let lastRentBlock := Z.lor (Z.shiftl (byte_at rentSlot 30) 8) (byte_at rentSlot 31) in
  let blocksElapsed := u64 (blockNum - lastRentBlock) in
  let* accountSize := gets (fun w => estimateAccountSize w accountAddr) in
  let yearsElapsed := blocksElapsed / 31536000 in
  let dueAmount := if 1024 <? accountSize
    then BaseAccountFee + accountSize * RentPerByteYear * yearsElapsed else BaseAccountFee in
  if GracePeriod <? blocksElapsed then
    let* slot := sload rent_addr rentKey in
    sstore rent_addr rentKey (<[29%nat := 1]> slot) ;;;
    mret (255 :: zeros 31)
  else must (fill_bytes 32 dueAmount).

Definition stateRentPrecompile : Handler := fun input caller blockNum =>
  guard_err (length input <? 4)%nat "StateRent: input too short" ;;;
  let sel := selectorBytes input in
  if sel =? 0xE1F2A3B4 then rentPay input caller blockNum
  else if sel =? 0xF2A3B4C5 then rentGetStatus input
  else if sel =? 0xA3B4C5D6 then rentGetDue input blockNum
  else fail "StateRent: unknown selector 0x%08X".

(** ** The amount due *)

(** What the two last bytes of a slot say: the block of the payment modulo 2^16. *)
Definition last_rent (s : bytes) : Z := byte_at s 30 * 256 + byte_at s 31.

Lemma lor_bytes a b : is_byte a -> is_byte b -> Z.lor (Z.shiftl a 8) b = a * 256 + b.
Proof.
  intros Ha Hb. unfold is_byte in *. rewrite Z.shiftl_mul_pow2 by lia.
  assert (Z.land (a * 2 ^ 8) b = 0) as Hl.
  { apply Z.bits_inj'. intros i Hi. rewrite Z.land_spec, Z.bits_0.
    destruct (Z.lt_ge_cases i 8).
    - by rewrite Z.mul_pow2_bits_low.
    - rewrite <- (Z.mod_small b (2 ^ 8)) by lia. by rewrite Z.mod_pow2_bits_high, andb_false_r by lia. }
  pose proof (Z.add_lor_land (a * 2 ^ 8) b). lia.
Qed.

Lemma rent_record_length s n : length (rent_record s n) = length s.
Proof. unfold rent_record. by rewrite !length_insert. Qed.

Lemma rent_record_last s n :
  length s = 32%nat -> last_rent (rent_record s n) = n mod 2 ^ 16.
Proof.
  intros Hs. unfold last_rent, byte_at, rent_record.
  do 32 (destruct s as [|? s]; [discriminate Hs|]). destruct s; [|discriminate Hs].
  cbn [insert list_insert nth]. unfold u8. rewrite Z.shiftr_div_pow2 by lia.
  change (2 ^ 16) with (2 ^ 8 * 2 ^ 8). rewrite (Z.rem_mul_r n (2 ^ 8) (2 ^ 8)) by lia. lia.
Qed.

(** The word a query returns. *)
Definition due_word (s : bytes) (blockNum : Z) : bytes :=
  if bool_decide (s = zero32) then be_enc 32 1000000000000000000
  else if GracePeriod <? u64 (blockNum - last_rent s) then 255 :: zeros 31
  else be_enc 32 BaseAccountFee.

Lemma years_in_grace d : 0 <= d <= GracePeriod -> d / 31536000 = 0.
Proof. unfold GracePeriod. intros. apply Z.div_small. lia. Qed.

(** The amount due depends only on the last payment: one coin before any
    payment, the freeze marker once the grace period has passed since the
    payment's block modulo 2^16, and the flat account fee otherwise, whatever the
    account stores. *)
Lemma rentGetDue_flat input n w :
  (24 <= length input)%nat -> slots_typed rent_addr w ->
  (rentGetDue input n w).1 = Ok (due_word (slot w rent_addr (rentStateKey (take 20 (drop 4 input)))) n).
Proof.
  intros Hl Ht. set (s := slot w rent_addr (rentStateKey (take 20 (drop 4 input)))).
  unfold rentGetDue. rewrite (proj2 (Nat.ltb_ge _ _)) by lia. run_go.
  rewrite slot_touch. fold s. unfold due_word.
  case_bool_decide as Hz; [by vm_compute|].
  pose proof (slot_wf _ _ (rentStateKey (take 20 (drop 4 input))) Ht) as Hwf. fold s in Hwf.
  rewrite lor_bytes by (by apply byte_at_wf). fold (last_rent s).
  destruct (Z.ltb_spec GracePeriod (u64 (n - last_rent s))) as [Hg|Hg]; [done|].
  rewrite (years_in_grace (u64 (n - last_rent s)))
    by (pose proof (u64_range (n - last_rent s)) as [? ?]; lia).
  rewrite Z.mul_0_r, Z.add_0_r. by destruct (1024 <? _).
Qed.

(** ** Payments *)

Lemma normalize_take a : rentNormalizeAddress (take 20 a) = rentNormalizeAddress a.
Proof.
  unfold rentNormalizeAddress, copy_at. f_equal. rewrite length_take. f_equal.
  - rewrite take_take. by f_equal.
  - destruct (Nat.le_ge_cases (length a) 20).
    + by rewrite Nat.min_r.
    + rewrite Nat.min_l by lia. by rewrite !drop_ge by (cbn; lia).
Qed.

Lemma rent_record_wf s n : wf_bytes s -> wf_bytes (rent_record s n).
Proof.
  intros H. unfold rent_record.
  assert (forall z, is_byte (u8 z)) by (intros z; unfold is_byte, u8; apply Z.mod_pos_bound; lia).
  apply Forall_insert; [|unfold is_byte; lia]. apply Forall_insert; [|done]. by apply Forall_insert.
Qed.

Lemma dist_record_typed n : length (dist_record n) = 32%nat /\ wf_bytes (dist_record n).
Proof.
  split; [done|]. unfold dist_record.
  repeat apply copy_at_wf; [apply be_enc_wf| |apply zeros_wf].
  repeat constructor; unfold is_byte; cbv; done.
Qed.

(** A successful payment: the caller's slot, and the account stays well typed. *)
Lemma rentPay_slot input caller n w out w' :
  rentStateKey caller <> rentDistributionKey caller n ->
  slots_typed rent_addr w -> rentPay input caller n w = (Ok out, w') ->
  slot w' rent_addr (rentStateKey caller) =
    rent_record (be_enc 32 (readBigInt (slot w rent_addr (rentStateKey caller))
                            + readBigInt (readSlot input 4))) n /\
  slots_typed rent_addr w'.
Proof.
  intros Hk Ht H. unfold rentPay in H. inv_run H.
  rewrite slot_touch in *. rewrite readSlot_whole in * by (by apply slot_length).
  match goal with E : fill_bytes _ _ = Some _ |- _ => rename E into Hf end.
  match goal with E : (_ <=? 0) = false |- _ => apply Z.leb_gt in E; rename E into Hpos end.
  pose proof (slot_nonneg _ _ (rentStateKey caller) Ht) as Hn.
  unfold fill_bytes in Hf. rewrite Z.abs_eq in Hf by lia. case_match; [|done].
  apply (inj Some) in Hf. subst.
  unfold EconoAccrueRent, on_econo. rewrite slot_econo, slot_log.
  rewrite slot_set_ne by (by right). rewrite slot_set_eq. split; [done|].
  intros k v. rewrite acct_econo, acct_log. revert k v.
  apply slots_typed_set; [apply Sha256.sum256_length|apply dist_record_typed..|].
  apply slots_typed_set; [apply Sha256.sum256_length|by rewrite rent_record_length, be_enc_length
                         |apply rent_record_wf, be_enc_wf|].
  intros k v. rewrite acct_touch. apply Ht.
Qed.

(** Rent.  After a successful payment at block [n], a query at block [m] for
    the account named by the caller's first twenty bytes answers from the record
    the payment left: the sum paid so far with its three low bytes replaced by
    the flag and the block; the amount due is the flat fee, the freeze marker or,
    when that record is zero, the fee of an account that never paid. *)
Theorem rent_paid_then_due input caller n w out w' query m :
  rentStateKey caller <> rentDistributionKey caller n -> slots_typed rent_addr w ->
  rentPay input caller n w = (Ok out, w') ->
  (24 <= length query)%nat -> take 20 (drop 4 query) = take 20 caller ->
  let r := rent_record (be_enc 32 (readBigInt (slot w rent_addr (rentStateKey caller))
                                   + readBigInt (readSlot input 4))) n in
  last_rent r = n mod 2 ^ 16 /\
  (rentGetDue query m w').1 = Ok (due_word r m).
Proof.
  intros Hk Ht H Hl Hq r. destruct (rentPay_slot _ _ _ _ _ _ Hk Ht H) as [Hs Ht'].
  split; [apply rent_record_last, be_enc_length|].
  rewrite (rentGetDue_flat query m w' Hl Ht'), Hq. unfold rentStateKey at 1.
  rewrite normalize_take. fold (rentStateKey caller). by rewrite Hs.
Qed.

(** ** Examples *)

Definition payer : bytes := lit "00000000000000000000000000000000000000aa".
Definition pay_call (amount : Z) : bytes := be_enc 4 0xE1F2A3B4 ++ be_enc 32 amount.
Definition due_call : bytes := be_enc 4 0xA3B4C5D6 ++ take 20 payer.
Definition paid (amount n : Z) : World := (rentPay (pay_call amount) payer n NewStateDB).2.

Lemma rent_paid_then_due_witness :
  (rentGetDue due_call 5000 (paid 1000000000 1000)).1 = Ok (be_enc 32 BaseAccountFee).
Proof.
  refine (eq_trans (proj2 (rent_paid_then_due (pay_call 1000000000) payer 1000 NewStateDB (boolResult true)
    (paid 1000000000 1000) due_call 5000 _ _ _ _ _)) _).
  - by vm_compute.
  - by apply slots_typed_check.
  - apply (ok_run (rentPay _ _ _ _)). by vm_compute.
  - cbn. lia.
  - by vm_compute.
  - by vm_compute.
Defined.

(** The recorded sum loses its low bytes to the flag and the block number. *)
Lemma payments_are_overwritten :
  readBigInt (slot (paid 0xFFFFFF 5) rent_addr (rentStateKey payer)) = 5.
Proof. by vm_compute. Qed.

(** A small payment in a block that is a multiple of 2^16 leaves a zero record. *)
Lemma zero_record_never_paid :
  (rentGetDue due_call 70000 (paid 1000 65536)).1 = Ok (be_enc 32 1000000000000000000).
Proof. by vm_compute. Qed.

(** The block of a payment is kept modulo 2^16, so late payments are frozen at
    once. *)
Lemma late_payment_is_frozen :
  (rentGetDue due_call 2700001 (paid 1000000000 2700000)).1 = Ok (255 :: zeros 31).
Proof. by vm_compute. Qed.

(** A block number outside the range of code points is hashed as U+FFFD. *)
Lemma string_of_rune_saturates : string_of_rune (rune 0x110000) = string_of_rune (rune 0xFFFFFFFF).
Proof. done. Qed.
