(* ===== verification/TemplateRegistry.v ===== *)
(** The template registry precompile (evm/template_registry.go, address 0x26):
    registration, deployment and the queries. *)

From Stdlib Require Import ZArith Lia.
From S2P Require Import Prelude Sha256 Collections StateDB.
From stdpp Require Import gmap list.
Local Open Scope Z_scope.
Local Open Scope go_scope.

Definition trSlotRegistrar : Z := 1.
Definition trTemplatePrefix : Z := 16.
Definition TemplateTypeAttestation : Z := 1.
Definition TemplateTypeTrustlessLock : Z := 2.
Definition TemplateTypeDeadMansSwitch : Z := 3.
Definition TemplateTypeStorageEndowment : Z := 4.

Definition tr_addr : bytes := PrecompileAddrHex 38.
(** The template counter lives at the zero key. *)
Definition tr_countKey : bytes := zero32.
Definition tr_registrarKey (addr20 : bytes) : bytes := Sha256.sum256 (trSlotRegistrar :: addr20).
Definition templateKey (templateID : bytes) : bytes := storageKey (trTemplatePrefix :: templateID).

(** Type, active flag, sixteen bytes of the registrar, fourteen of the identifier. *)
Definition template_record (templateType : Z) (caller templateID : bytes) : bytes :=
  copy_at 18 (take 14 templateID) (copy_at 2 (take 16 caller) (copy_at 0 [templateType; 1] zero32)).

Definition trRegisterTemplate (input caller : bytes) (blockNum : Z) : HM bytes :=
  touch tr_addr ;;;
  let* registrar := sload tr_addr (tr_registrarKey (copy_at 0 caller (zeros 20))) in
  let* callerAcc := gets (fun w => GetAccount w caller) in
  guard_err ((readUint64 registrar =? 0) &&
             match callerAcc with None => true | Some a => DoxDevLevel a <? 2 end)
    "TemplateRegistry: only registrars or L2+ can register templates" ;;;
  guard_err (length input <? 37)%nat "TemplateRegistry: registerTemplate input too short" ;;;
  let templateID := take 32 (drop 4 input) in
  let* existing := sload tr_addr (templateKey templateID) in
  guard_err (negb (byte_at existing 0 =? 0)) "TemplateRegistry: template already exists" ;;;
  let* count := sload tr_addr tr_countKey in
  sstore tr_addr tr_countKey (writeUint64 (u64 (readUint64 count + 1))) ;;;
  sstore tr_addr (templateKey templateID) (template_record (byte_at input 36) caller templateID) ;;;
  mret [1].

Definition requiredLevel (templateType : Z) : Z :=
  if templateType =? TemplateTypeAttestation then 1
  else if templateType =? TemplateTypeTrustlessLock then 1
  else if templateType =? TemplateTypeDeadMansSwitch then 2
  else if templateType =? TemplateTypeStorageEndowment then 3
  else 0.

Definition generateContractAddress (caller : bytes) (nonce : Z) : bytes :=
  take 20 (Sha256.sum256 (caller ++ fmt_d nonce)).

Definition trDeployTemplate (input caller : bytes) (blockNum : Z) : HM bytes :=
  guard_err (length input <? 36)%nat "TemplateRegistry: deployTemplate input too short" ;;;
  let templateID := take 32 (drop 4 input) in
  touch tr_addr ;;;
  let* templateData := sload tr_addr (templateKey templateID) in
  guard_err ((byte_at templateData 0 =? 0) || negb (byte_at templateData 1 =? 1))
    "TemplateRegistry: template not found or inactive" ;;;
  let* callerAcc := gets (fun w => GetAccount w caller) in
  match callerAcc with
  | None => fail "TemplateRegistry: caller has no account"
  | Some a =>
      guard_err (DoxDevLevel a <? requiredLevel (byte_at templateData 0))
        "TemplateRegistry: insufficient Dox_Dev level (need %d, have %d)" ;;;
      let* count := sload tr_addr tr_countKey in
      sstore tr_addr tr_countKey (writeUint64 (u64 (readUint64 count + 1))) ;;;
      mret (generateContractAddress caller blockNum)
  end.

Definition trGetTemplate (input : bytes) : HM bytes :=
  guard_err (length input <? 36)%nat "TemplateRegistry: getTemplate input too short" ;;;
  touch tr_addr ;;;
  let* templateData := sload tr_addr (templateKey (take 32 (drop 4 input))) in
  guard_err (byte_at templateData 0 =? 0) "TemplateRegistry: template not found" ;;;
  mret [byte_at templateData 0; byte_at templateData 1].

Definition trIsRegistrar (input : bytes) : HM bytes :=
  touch tr_addr ;;;
  let* v := sload tr_addr (tr_registrarKey (readAddress input 4)) in
  mret [bool_byte (negb (readUint64 v =? 0))].

Definition templateRegistryPrecompile : Handler := fun input caller blockNum =>
  guard_err (length input <? 4)%nat "TemplateRegistry: input too short" ;;;
  let sel := selectorBytes input in
  if sel =? 0x7cbd749e then trRegisterTemplate input caller blockNum
  else if sel =? 0x1de26edf then trDeployTemplate input caller blockNum
  else if sel =? 0x8ecfe43a then trGetTemplate input
  else if sel =? 0x47b4d00d then trIsRegistrar input
  else fail "TemplateRegistry: unknown selector 0x%08X".

(** ** Templates are final *)

Section Final.
Context (id : bytes) (Hid : templateKey id <> tr_countKey).

Definition registered (w : World) : Prop := byte_at (slot w tr_addr (templateKey id)) 0 <> 0.

(** What a call may do to the template's record: nothing once it is registered. *)
Definition final (w w' : World) : Prop :=
  registered w -> slot w' tr_addr (templateKey id) = slot w tr_addr (templateKey id).

#[local] Instance final_preorder : PreOrder final.
Proof.
  split; [by intros w ?|]. intros x y z H1 H2 Hr. specialize (H1 Hr).
  rewrite H2; [done|]. unfold registered. by rewrite H1.
Qed.

Lemma final_kept w w' : same_slots tr_addr [templateKey id] w w' -> final w w'.
Proof. intros H _. apply H. by left. Qed.

Lemma final_frame {A} (m : HM A) : respects (same_slots tr_addr [templateKey id]) m -> respects final m.
Proof. apply respects_weaken. apply final_kept. Qed.

Lemma count_frame v : respects (same_slots tr_addr [templateKey id]) (sstore tr_addr tr_countKey v).
Proof. apply frame_sstore. right. rewrite list_elem_of_singleton. auto. Qed.

Lemma final_register input caller n : respects final (trRegisterTemplate input caller n).
Proof.
  unfold trRegisterTemplate.
  apply respects_bind; [apply _|apply final_frame, frame_touch|intros _].
  apply respects_bind; [apply _|apply respects_gets, _|intros reg].
  apply respects_bind; [apply _|apply respects_gets, _|intros acc].
  apply respects_bind; [apply _|apply respects_guard, _|intros _].
  apply respects_bind; [apply _|apply respects_guard, _|intros _].
  set (tid := take 32 (drop 4 input)).
  destruct (decide (templateKey tid = templateKey id)) as [E|Hne].
  - intros w Hr. unfold sload. run_go. rewrite E. unfold registered in Hr.
    destruct (Z.eqb_spec (byte_at (slot w tr_addr (templateKey id)) 0) 0); [contradiction|].
    cbn [negb snd]. reflexivity.
  - apply final_frame. frame_auto; 
      lazymatch goal with
      | |- respects _ (sstore _ tr_countKey _) => apply count_frame
      | |- _ => apply frame_sstore; right; rewrite list_elem_of_singleton; congruence
      end.
Qed.

Lemma final_deploy input caller n : respects final (trDeployTemplate input caller n).
Proof.
  apply final_frame. unfold trDeployTemplate. frame_auto.
  all: apply count_frame.
Qed.

Lemma final_call input caller n : respects final (templateRegistryPrecompile input caller n).
Proof.
  unfold templateRegistryPrecompile.
  apply respects_bind; [apply _|apply respects_guard, _|intros _]. cbv zeta.
  repeat lazymatch goal with
  | |- respects _ (if _ then _ else _) => apply respects_if
  | |- respects _ (trRegisterTemplate _ _ _) => apply final_register
  | |- respects _ (trDeployTemplate _ _ _) => apply final_deploy
  | |- respects _ (trGetTemplate _) => apply final_frame; unfold trGetTemplate; frame_auto
  | |- respects _ (trIsRegistrar _) => apply final_frame; unfold trIsRegistrar; frame_auto
  | |- respects _ (fail _) => apply respects_fail, _
  end.
Qed.

(** States reachable from [w] by calls of anybody with any input. *)
Inductive calls_from (w : World) : World -> Prop :=
| calls_refl : calls_from w w
| calls_step input caller n w1 :
    calls_from w w1 -> calls_from w (templateRegistryPrecompile input caller n w1).2.

Lemma calls_final w w' : calls_from w w' -> final w w'.
Proof.
  induction 1 as [|input caller n w1 _ IH]; [reflexivity|].
  etrans; [exact IH|apply final_call].
Qed.

End Final.

Lemma register_slot input caller n w out w' :
  let tid := take 32 (drop 4 input) in
  templateKey tid <> tr_countKey -> trRegisterTemplate input caller n w = (Ok out, w') ->
  slot w' tr_addr (templateKey tid) = template_record (byte_at input 36) caller tid.
Proof.
  intros tid Hne H. unfold trRegisterTemplate in H. fold tid in H. inv_run H.
  by rewrite slot_set_eq.
Qed.

Lemma template_record_head t c tid : byte_at (template_record t c tid) 0 = t /\ byte_at (template_record t c tid) 1 = 1.
Proof. done. Qed.

Lemma registered_touch id w : registered id w -> GetOrCreateAccount tr_addr w = w.
Proof.
  unfold registered, slot, acct, GetOrCreateAccount. by destruct (accounts w !! tr_addr).
Qed.

(** The level check of a deployment, from the record. *)
Definition may_deploy (w : World) (caller : bytes) (t : Z) : bool :=
  match GetAccount w caller with Some a => requiredLevel t <=? DoxDevLevel a | None => false end.

(** C40 (templates are final).  Once a template of a non-zero type is registered,
    then after any calls by anybody it is still reported with its type and as
    active, it cannot be registered again, and it deploys exactly for the callers
    whose account has the level of its type, at the address derived from the
    caller and the block. *)
Theorem template_final input caller n w out w1 w' input' caller' n' :
  let tid := take 32 (drop 4 input) in
  let t := byte_at input 36 in
  templateKey tid <> tr_countKey -> t <> 0 ->
  trRegisterTemplate input caller n w = (Ok out, w1) -> calls_from w1 w' ->
  (37 <= length input')%nat -> take 32 (drop 4 input') = tid ->
  (trGetTemplate input' w').1 = Ok [t; 1] /\
  is_ok (trRegisterTemplate input' caller' n' w').1 = false /\
  (if may_deploy w' caller' t
   then (trDeployTemplate input' caller' n' w').1 = Ok (generateContractAddress caller' n')
   else is_ok (trDeployTemplate input' caller' n' w').1 = false).
Proof.
  intros tid t Hne Ht0 H Hc Hl Hid. pose proof (register_slot _ _ _ _ _ _ Hne H) as Hs. fold tid t in Hs.
  pose proof (calls_final tid Hne _ _ Hc) as Hf. unfold final, registered in Hf. rewrite Hs in Hf.
  specialize (Hf Ht0).
  assert (H0 : byte_at (slot w' tr_addr (templateKey tid)) 0 = t) by (rewrite Hf; done).
  assert (H1 : byte_at (slot w' tr_addr (templateKey tid)) 1 = 1) by (rewrite Hf; done).
  assert (Hr : registered tid w') by (unfold registered; by rewrite H0).
  apply Z.eqb_neq in Ht0. unfold trGetTemplate, trRegisterTemplate, trDeployTemplate. rewrite Hid.
  rewrite !(proj2 (Nat.ltb_ge _ _)) by lia. run_go.
  rewrite !(registered_touch tid _ Hr), H0, H1, Ht0. cbn [negb orb Z.eqb Pos.eqb].
  split_and!; [reflexivity| |].
  { match goal with |- context [if ?c then (fun _ => (Err _, _)) else _] => destruct c end; [done|].
    cbv beta iota. by rewrite H0, Ht0. }
  unfold may_deploy. destruct (GetAccount w' caller') as [a|]; [|reflexivity].
  rewrite Z.ltb_antisym. by destruct (_ <=? _).
Qed.

(** ** Examples *)

Definition registrar : bytes := lit "curator".
Definition template_call (sel t : Z) : bytes := be_enc 4 sel ++ replicate 32 7 ++ [t].
Definition registrar_world : World := upd_acct registrar (with_level 2) NewStateDB.
Definition after_register (t : Z) : World :=
  (trRegisterTemplate (template_call 0x7cbd749e t) registrar 1 registrar_world).2.

Lemma template_final_witness :
  (trDeployTemplate (template_call 0x1de26edf 0) registrar 9 (after_register 3)).1 =
    Ok (generateContractAddress registrar 9).
Proof.
  refine (proj2 (proj2 (template_final (template_call 0x7cbd749e 3) registrar 1 registrar_world [1]
    (after_register 3) (after_register 3) (template_call 0x1de26edf 0) registrar 9 _ _ _ _ _ _))).
  - by vm_compute.
  - by vm_compute.
  - apply (ok_run (trRegisterTemplate _ _ _ _)). by vm_compute.
  - apply calls_refl.
  - cbn. lia.
  - reflexivity.
Defined.

(** A template of type zero is accepted, never found, and can be registered again. *)
Lemma type_zero_is_lost :
  (trGetTemplate (template_call 0x8ecfe43a 0) (after_register 0)).1 =
    Err "TemplateRegistry: template not found" /\
  (trRegisterTemplate (template_call 0x7cbd749e 0) registrar 2 (after_register 0)).1 = Ok [1].
Proof. by vm_compute. Qed.

(** The counter of templates also counts deployments. *)
Lemma deploy_counts_as_template :
  readUint64 (slot (trDeployTemplate (template_call 0x1de26edf 0) registrar 9 (after_register 1)).2
    tr_addr tr_countKey) = 2.
Proof. by vm_compute. Qed.

(** A type the table does not list needs no level. *)
Lemma unknown_type_needs_no_level : requiredLevel 5 = 0.
Proof. done. Qed.
