(* ===== verification/TrustlessLock.v ===== *)
(** The trustless lock precompile (evm/trustless_lock.go, address 0x1A): time,
    vesting and multi-signature locks, their release and their extension. *)

From Stdlib Require Import ZArith Lia.
From S2P Require Import Prelude Sha256 Collections StateDB.
From stdpp Require Import gmap list.
Local Open Scope Z_scope.
Local Open Scope go_scope.

(** ** Keys and records *)

Definition TrustlessSlotLocks : Z := 1.
Definition LockTypeTime : Z := 0.
Definition LockTypeVesting : Z := 1.
Definition LockTypeMultiSig : Z := 2.

Definition lock_addr : bytes := PrecompileAddrHex 26.
Definition trustlessLockKey (lockID : bytes) : bytes := storageKey (TrustlessSlotLocks :: lockID).
Definition trustlessVestingDataKey (lockID : bytes) : bytes := storageKey (4 :: lockID).
Definition lockCountKey : bytes := storageKey (lit "lockCount").

Definition encodeUnlockBlock (slot : bytes) (val : Z) : bytes := copy_at 1 (be_enc 8 val) slot.
Definition decodeUnlockBlock (slot : bytes) : Z := be_dec (take 8 (drop 1 slot)).

(** Type, unlock block, pool, one byte of the recipient, two of the block. *)
Definition encodeLockHeader (poolAddr : bytes) (lockType : Z) (recipient : bytes)
    (unlockBlock createdBlock : Z) : bytes :=
  let slot := encodeUnlockBlock (<[0%nat := lockType]> zero32) unlockBlock in
  let slot := copy_at 9 poolAddr slot in
  <[31%nat := u8 createdBlock]> (<[30%nat := u8 (Z.shiftr createdBlock 8)]>
    (<[29%nat := byte_at recipient 19]> slot)).

Definition encodeVestingData (vestingEnd vestingCliff : Z) : bytes :=
  copy_at 8 (be_enc 8 vestingCliff) (copy_at 0 (be_enc 8 vestingEnd) zero32).
Definition decodeVestingEnd (slot : bytes) : Z := be_dec (take 8 slot).
Definition decodeVestingCliff (slot : bytes) : Z := be_dec (take 8 (drop 8 slot)).

(** The amount is written with its minimal bytes, the block in decimal. *)
Definition generateLockID (poolAddr token0 token1 : bytes) (amount blockNum : Z) : bytes :=
  Sha256.sum256 (poolAddr ++ token0 ++ token1 ++ big_bytes amount ++ fmt_d blockNum).

Definition lock_param_key (key : string) : bytes := storageKey (lit "param:" ++ lit key).
Definition getTrustlessParam (key : string) (defaultVal : Z) : HM Z :=
  touch lock_addr ;;;
  let* val := sread lock_addr (lock_param_key key) in
  mret (if val =? 0 then defaultVal else val).

Definition readUint64FromBytes (input : bytes) (offset : nat) : Z :=
  if (length input <? offset + 8)%nat then 0 else be_dec (take 8 (drop offset input)).

(** ** Creation: the three creators read pool, tokens and amount at the same
    offsets and derive the identifier from them. *)

Definition arg20 (input : bytes) (offset : nat) : bytes := take 20 (drop offset input).
Definition lock_amount (input : bytes) : Z := readBigInt (readSlot input 64).
Definition created_id (input : bytes) (blockNum : Z) : bytes :=
  generateLockID (arg20 input 4) (arg20 input 24) (arg20 input 44) (lock_amount input) blockNum.

(** The common tail: count, event, identifier. *)
Definition lock_created (event : string) (input : bytes) (blockNum : Z) : HM bytes :=
  let* count := sread lock_addr lockCountKey in
  sstore_big lock_addr lockCountKey (count + 1) ;;;
  addlog lock_addr [storageKey (lit event); created_id input blockNum]
    (big_bytes (lock_amount input)) blockNum ;;;
  mret (created_id input blockNum).

Definition trustlessCreateTimeLock (input caller : bytes) (blockNum : Z) : HM bytes :=
  guard_err (length input <? 4 + 20 + 20 + 20 + 32 + 32 + 20)%nat
    "TrustlessLock: createTimeLock input too short" ;;;
  let lockPeriod := readBigInt (readSlot input 96) in
  let recipient := arg20 input 128 in
  let* minLockPeriod := getTrustlessParam "minLockPeriod" 2592000 in
  guard_err (lockPeriod <? minLockPeriod) "TrustlessLock: lock period %s below minimum %s" ;;;
  touch lock_addr ;;;
  let unlockBlock := u64 (blockNum + big_u64 lockPeriod) in
  sstore lock_addr (trustlessLockKey (created_id input blockNum))
    (encodeLockHeader (arg20 input 4) LockTypeTime recipient unlockBlock blockNum) ;;;
  lock_created "TimeLockCreated" input blockNum.

Definition trustlessCreateVestingLock (input caller : bytes) (blockNum : Z) : HM bytes :=
  guard_err (length input <? 4 + 20 + 20 + 20 + 32 + 8 + 8 + 8 + 20)%nat
    "TrustlessLock: createVestingLock input too short" ;;;
  let vestingStart := readUint64FromBytes input 96 in
  let vestingEnd := readUint64FromBytes input 104 in
  let vestingCliff := readUint64FromBytes input 112 in
  let recipient := arg20 input 120 in
  guard_err (vestingEnd <=? vestingStart) "TrustlessLock: vesting end must be after start" ;;;
  touch lock_addr ;;;
  let lockID := created_id input blockNum in
  sstore lock_addr (trustlessLockKey lockID)
    (encodeLockHeader (arg20 input 4) LockTypeVesting recipient vestingStart blockNum) ;;;
  sstore lock_addr (trustlessVestingDataKey lockID) (encodeVestingData vestingEnd vestingCliff) ;;;
  lock_created "VestingLockCreated" input blockNum.

Definition trustlessCreateMultiSigLock (input caller : bytes) (blockNum : Z) : HM bytes :=
  guard_err (length input <? 4 + 20 + 20 + 20 + 32 + 1 + 20)%nat
    "TrustlessLock: createMultiSigLock input too short" ;;;
  let threshold := byte_at input 96 in
  let recipient := arg20 input 97 in
  guard_err (threshold =? 0) "TrustlessLock: threshold must be > 0" ;;;
  touch lock_addr ;;;
  sstore lock_addr (trustlessLockKey (created_id input blockNum))
    (encodeLockHeader (arg20 input 4) LockTypeMultiSig recipient threshold blockNum) ;;;
  lock_created "MultiSigLockCreated" input blockNum.

(** ** Queries, release, extension *)

Definition lock_arg (input : bytes) : bytes := take 32 (drop 4 input).

Definition trustlessGetLock (input : bytes) : HM bytes :=
  guard_err (length input <? 4 + 32)%nat "TrustlessLock: getLock input too short" ;;;
  touch lock_addr ;;;
  let* headerSlot := sload lock_addr (trustlessLockKey (lock_arg input)) in
  guard_err (bool_decide (headerSlot = zero32)) "TrustlessLock: lock not found" ;;;
  mret (<[41%nat := 1]> (copy_at 1 (take 8 (drop 1 headerSlot)) (byte_at headerSlot 0 :: zeros 41))).

(** The amount [trustlessReleasableAmount] computes from the two records. *)
Definition releasable (headerSlot vestingSlot : bytes) (blockNum : Z) : Z :=
  let lockType := byte_at headerSlot 0 in
  if bool_decide (headerSlot = zero32) then 0
  else if lockType =? LockTypeTime then
    if decodeUnlockBlock headerSlot <=? blockNum then 1 else 0
  else if lockType =? LockTypeVesting then
    let vestingEnd := decodeVestingEnd vestingSlot in
    if vestingEnd <=? blockNum then 1
    else if decodeVestingCliff vestingSlot <=? blockNum then
      let vestingStart := decodeUnlockBlock headerSlot in
      let elapsed := u64 (blockNum - vestingStart) in
      let total := u64 (vestingEnd - vestingStart) in
      if 0 <? total then i64 (u64 (elapsed * 1000) / total) else 0
    else 0
  else 0.

Definition trustlessReleasableAmount (input : bytes) (blockNum : Z) : HM bytes :=
  guard_err (length input <? 4 + 32)%nat "TrustlessLock: releasableAmount input too short" ;;;
  touch lock_addr ;;;
  let* headerSlot := sload lock_addr (trustlessLockKey (lock_arg input)) in
  let* vestingSlot := sload lock_addr (trustlessVestingDataKey (lock_arg input)) in
  must (fill_bytes 32 (releasable headerSlot vestingSlot blockNum)).

Definition trustlessRelease (input caller : bytes) (blockNum : Z) : HM bytes :=
  guard_err (length input <? 4 + 32)%nat "TrustlessLock: release input too short" ;;;
  let lockID := lock_arg input in
  let* out := trustlessReleasableAmount ([0xE5; 0xF6; 0xA7; 0xB8] ++ lockID) blockNum in
  let amount := readBigInt (readSlot out 0) in
  guard_err (amount <=? 0) "TrustlessLock: nothing to release" ;;;
  touch lock_addr ;;;
  let* headerSlot := sload lock_addr (trustlessLockKey lockID) in
  sstore lock_addr (trustlessLockKey lockID) (<[0%nat := 0]> headerSlot) ;;;
  addlog lock_addr [storageKey (lit "LockReleased"); lockID] (big_bytes amount) blockNum ;;;
  must (fill_bytes 32 amount).

Definition trustlessExtend (input caller : bytes) (blockNum : Z) : HM bytes :=
  guard_err (length input <? 4 + 32 + 32)%nat "TrustlessLock: extend input too short" ;;;
  let lockID := lock_arg input in
  let additionalBlocks := readBigInt (readSlot input 36) in
  guard_err (additionalBlocks <=? 0) "TrustlessLock: additional blocks must be > 0" ;;;
  touch lock_addr ;;;
  let* headerSlot := sload lock_addr (trustlessLockKey lockID) in
  guard_err (negb (byte_at headerSlot 0 =? LockTypeTime)) "TrustlessLock: only time locks can be extended" ;;;
  let newUnlock := u64 (decodeUnlockBlock headerSlot + big_u64 additionalBlocks) in
  sstore lock_addr (trustlessLockKey lockID) (encodeUnlockBlock headerSlot newUnlock) ;;;
  addlog lock_addr [storageKey (lit "LockExtended"); lockID] (big_bytes additionalBlocks) blockNum ;;;
  mret (zeros 31 ++ [1]).

Definition trustlessCreateTimeLockSelector : Z := 0xA1B2C3D4.

Definition trustlessLockPrecompile : Handler := fun input caller blockNum =>
  guard_err (length input <? 4)%nat "TrustlessLock: input too short" ;;;
  let sel := selectorBytes input in
  if sel =? trustlessCreateTimeLockSelector then trustlessCreateTimeLock input caller blockNum
  else if sel =? 0xB2C3D4E5 then trustlessCreateVestingLock input caller blockNum
  else if sel =? 0xC3D4E5F6 then trustlessCreateMultiSigLock input caller blockNum
  else if sel =? 0xD4E5F6A7 then trustlessGetLock input
  else if sel =? 0xE5F6A7B8 then trustlessReleasableAmount input blockNum
  else if sel =? 0xF6A7B8C9 then trustlessRelease input caller blockNum
  else if sel =? 0xA7B8C9D0 then trustlessExtend input caller blockNum
  else fail "TrustlessLock: unknown selector 0x%08X".

(** ** Records *)

Lemma encodeUnlockBlock_length slot v : length slot = 32%nat -> length (encodeUnlockBlock slot v) = 32%nat.
Proof. intros L. unfold encodeUnlockBlock. rewrite copy_at_length; lia. Qed.

Lemma decode_encode_unlock slot v :
  length slot = 32%nat -> is_u64 v -> decodeUnlockBlock (encodeUnlockBlock slot v) = v.
Proof.
  intros L Hv. unfold decodeUnlockBlock, encodeUnlockBlock.
  pose proof (copy_at_read 1 (be_enc 8 v) slot) as H. rewrite be_enc_length in H.
  rewrite H by lia. by apply be_dec_enc_small.
Qed.

Lemma encodeUnlockBlock_type slot v :
  length slot = 32%nat -> byte_at (encodeUnlockBlock slot v) 0 = byte_at slot 0.
Proof. intros L. by destruct slot. Qed.

(** A header keeps its type and its unlock block. *)
Lemma encodeLockHeader_spec pool t rcpt u c :
  length pool = 20%nat -> is_u64 u ->
  byte_at (encodeLockHeader pool t rcpt u c) 0 = t /\
  decodeUnlockBlock (encodeLockHeader pool t rcpt u c) = u /\
  length (encodeLockHeader pool t rcpt u c) = 32%nat.
Proof.
  intros L Hu. unfold encodeLockHeader.
  set (s := encodeUnlockBlock _ u). assert (Ls : length s = 32%nat) by done.
  split_and!.
  - by do 20 (destruct pool as [|? pool]; [discriminate L|]).
  - trans (decodeUnlockBlock s); [|by apply decode_encode_unlock].
    reflexivity.
  - rewrite !length_insert, copy_at_length; [done|lia].
Qed.

(** ** A time lock holds *)

Section Lock.
Context (id : bytes) (Hcount : lockCountKey <> trustlessLockKey id).

Definition header (w : World) : bytes := slot w lock_addr (trustlessLockKey id).
Definition locked_until (U : Z) (w : World) : Prop :=
  length (header w) = 32%nat /\ byte_at (header w) 0 = LockTypeTime /\ U <= decodeUnlockBlock (header w).

(** A call that does not derive the same identifier, and an extension that does
    not wrap around. *)
Definition harmless (input : bytes) (n : Z) (w : World) : Prop :=
  let sel := selectorBytes input in
  (sel ∈ [trustlessCreateTimeLockSelector; 0xB2C3D4E5; 0xC3D4E5F6] ->
   trustlessLockKey (created_id input n) <> trustlessLockKey id /\
   trustlessVestingDataKey (created_id input n) <> trustlessLockKey id) /\
  (sel = 0xA7B8C9D0 -> trustlessLockKey (lock_arg input) = trustlessLockKey id ->
   0 <= decodeUnlockBlock (header w) + big_u64 (readBigInt (readSlot input 36)) < 2 ^ 64).

Definition untouched_header := same_slots lock_addr [trustlessLockKey id].

Lemma locked_kept U w w' : untouched_header w w' -> locked_until U w -> locked_until U w'.
Proof. intros H. unfold locked_until, header. rewrite (H (trustlessLockKey id)) by (by left). done. Qed.

Lemma other_key k v :
  k <> trustlessLockKey id -> respects untouched_header (sstore lock_addr k v).
Proof. intros H. apply frame_sstore. right. rewrite list_elem_of_singleton. congruence. Qed.

Lemma keep_created e input n : respects untouched_header (lock_created e input n).
Proof.
  unfold lock_created, sstore_big, untouched_header. frame_auto. by apply other_key.
Qed.

(** [lock_frame]: frame goals of the handlers that write other keys. *)
Ltac lock_frame :=
  unfold untouched_header; frame_auto;
  lazymatch goal with
  | |- respects _ (sstore _ _ _) => apply other_key; assumption
  | |- respects _ (lock_created _ _ _) => apply keep_created
  end.

Lemma keep_creators input caller n :
  trustlessLockKey (created_id input n) <> trustlessLockKey id ->
  trustlessVestingDataKey (created_id input n) <> trustlessLockKey id ->
  respects untouched_header (trustlessCreateTimeLock input caller n) /\
  respects untouched_header (trustlessCreateVestingLock input caller n) /\
  respects untouched_header (trustlessCreateMultiSigLock input caller n).
Proof.
  intros H1 H2.
  unfold trustlessCreateTimeLock, trustlessCreateVestingLock, trustlessCreateMultiSigLock, getTrustlessParam.
  split_and!; lock_frame.
Qed.

Lemma keep_queries input n :
  respects untouched_header (trustlessGetLock input) /\
  respects untouched_header (trustlessReleasableAmount input n).
Proof. unfold trustlessGetLock, trustlessReleasableAmount. split; unfold untouched_header; frame_auto. Qed.

(** Writing back a time lock's header with its type cleared changes nothing. *)
Lemma release_write U w :
  locked_until U w -> <[0%nat := 0]> (header w) = header w.
Proof.
  intros (L & T & _). apply list_insert_id. destruct (header w) as [|x h]; [discriminate L|].
  unfold byte_at, LockTypeTime in T. cbn in T. by rewrite T.
Qed.

Lemma locked_release U input caller n w :
  locked_until U w -> locked_until U (trustlessRelease input caller n w).2.
Proof.
  intros HU. unfold trustlessRelease.
  unfold mbind at 1, M_bind at 1. destruct (guard_err _ _ w) as [[[]|e|] w0] eqn:E0; cbn [snd];
    (assert (w0 = w) as -> by (unfold guard_err in E0; case_match; cbv in E0; congruence)); try done.
  pose proof (proj2 (keep_queries ([229; 246; 167; 184] ++ lock_arg input) n) w) as Hq.
  unfold mbind at 1, M_bind at 1.
  destruct (trustlessReleasableAmount _ n w) as [[out|e|] w1]; cbn [snd] in *;
    pose proof (locked_kept U _ _ Hq HU) as HU1; try done.
  run_go. destruct (readBigInt (readSlot out 0) <=? 0); [done|]. rewrite slot_touch.
  unfold must. set (w2 := set_slot _ _ _ _).
  assert (HU2 : locked_until U w2).
  { destruct (decide (trustlessLockKey (lock_arg input) = trustlessLockKey id)) as [E|Hne].
    - unfold w2. rewrite E. unfold locked_until, header. rewrite slot_set_eq.
      fold (header w1). rewrite (release_write U w1 HU1). exact HU1.
    - eapply locked_kept; [|exact HU1]. intros k Hk. apply list_elem_of_singleton in Hk as ->.
      unfold w2. rewrite slot_set_ne by (by right). by rewrite slot_touch. }
  by destruct (fill_bytes _ _).
Qed.

Lemma locked_extend U input caller n w :
  (trustlessLockKey (lock_arg input) = trustlessLockKey id ->
   0 <= decodeUnlockBlock (header w) + big_u64 (readBigInt (readSlot input 36)) < 2 ^ 64) ->
  locked_until U w -> locked_until U (trustlessExtend input caller n w).2.
Proof.
  intros Hw HU. unfold trustlessExtend. run_go. destruct (_ <? _)%nat; [done|].
  destruct (readBigInt (readSlot input 36) <=? 0); [done|]. rewrite slot_touch.
  destruct (negb _) eqn:Ht; cbn [snd].
  { eapply locked_kept; [|exact HU]. intros k Hk. by rewrite slot_touch. }
  destruct (decide (trustlessLockKey (lock_arg input) = trustlessLockKey id)) as [E|Hne].
  - specialize (Hw E). rewrite E. unfold locked_until, header. rewrite slot_log, slot_set_eq.
    fold (header w). destruct HU as (L & T & HU). rewrite u64_small by exact Hw.
    rewrite decode_encode_unlock by (done || exact Hw).
    split_and!; [by apply encodeUnlockBlock_length|by rewrite encodeUnlockBlock_type|].
    pose proof (u64_range (Z.abs (readBigInt (readSlot input 36)))) as [? _].
    unfold big_u64 in *. lia.
  - eapply locked_kept; [|exact HU]. intros k Hk. apply list_elem_of_singleton in Hk as ->.
    rewrite slot_log, slot_set_ne by (by right). by rewrite slot_touch.
Qed.

Lemma locked_call U input caller n w :
  harmless input n w -> locked_until U w -> locked_until U (trustlessLockPrecompile input caller n w).2.
Proof.
  intros [Hc He] HU. unfold trustlessLockPrecompile.
  unfold mbind, M_bind. destruct (guard_err _ _ w) as [[[]|e|] w0] eqn:E0; cbn [snd];
    (assert (w0 = w) as -> by (unfold guard_err in E0; case_match; cbv in E0; congruence)); try done.
  cbv zeta.
  assert (Hk : forall m : HM bytes, respects untouched_header m -> locked_until U (m w).2).
  { intros m Hm. eapply locked_kept; [apply Hm|done]. }
  assert (Hcr : selectorBytes input ∈ [trustlessCreateTimeLockSelector; 0xB2C3D4E5; 0xC3D4E5F6] ->
    respects untouched_header (trustlessCreateTimeLock input caller n) /\
    respects untouched_header (trustlessCreateVestingLock input caller n) /\
    respects untouched_header (trustlessCreateMultiSigLock input caller n)).
  { intros Hin. destruct (Hc Hin) as [H1 H2]. exact (keep_creators input caller n H1 H2). }
  destruct (Z.eqb_spec (selectorBytes input) trustlessCreateTimeLockSelector) as [E|_].
  { apply Hk. refine (proj1 (Hcr _)). rewrite E. by left. }
  destruct (Z.eqb_spec (selectorBytes input) 0xB2C3D4E5) as [E|_].
  { apply Hk. refine (proj1 (proj2 (Hcr _))). rewrite E. right. by left. }
  destruct (Z.eqb_spec (selectorBytes input) 0xC3D4E5F6) as [E|_].
  { apply Hk. refine (proj2 (proj2 (Hcr _))). rewrite E. right. right. by left. }
  destruct (_ =? _); [apply Hk; exact (proj1 (keep_queries input n))|].
  destruct (_ =? _); [apply Hk; exact (proj2 (keep_queries input n))|].
  destruct (_ =? _); [by apply locked_release|].
  destruct (Z.eqb_spec (selectorBytes input) 0xA7B8C9D0) as [E|_].
  - apply locked_extend; auto.
  - apply Hk. apply respects_fail, _.
Qed.

(** States reached from [w] by harmless calls of anybody. *)
Inductive lock_calls (w : World) : World -> Prop :=
| lc_refl : lock_calls w w
| lc_step input caller n w1 :
    lock_calls w w1 -> harmless input n w1 -> lock_calls w (trustlessLockPrecompile input caller n w1).2.

Lemma lock_calls_locked U w w' : lock_calls w w' -> locked_until U w -> locked_until U w'.
Proof. induction 1 as [|input caller n w1 _ IH Hh]; [done|]. intros HU. by apply locked_call, IH. Qed.

(** A locked header releases nothing before its block. *)
Lemma locked_refuses U input caller n w :
  lock_arg input = id -> locked_until U w -> n < U -> is_ok (trustlessRelease input caller n w).1 = false.
Proof.
  intros Hid (L & T & HU) Hn. unfold trustlessRelease. run_go.
  destruct (_ <? _)%nat eqn:Hl; [done|]. apply Nat.ltb_ge in Hl.
  unfold trustlessReleasableAmount. run_go.
  assert (Ll : length (lock_arg input) = 32%nat) by (unfold lock_arg; rewrite length_take, length_drop; lia).
  assert (La : lock_arg ([229; 166 + 80; 167; 184] ++ lock_arg input) = lock_arg input).
  { unfold lock_arg at 1. change (drop 4 (?a ++ ?b)) with b. apply take_ge. lia. }
  change (166 + 80) with 246 in La.
  rewrite length_app, Ll. cbn [length Nat.add Nat.ltb Nat.leb]. rewrite La, Hid, !slot_touch.
  fold (header w). unfold releasable. rewrite T. cbn [Z.eqb LockTypeTime].
  rewrite (proj2 (Z.leb_gt _ _)) by lia.
  assert (Hr : (if bool_decide (header w = zero32) then 0 else 0) = 0) by (by case_match). 
  change (LockTypeTime =? LockTypeTime) with true. cbv iota. rewrite Hr. reflexivity.
Qed.
End Lock.

(** ** Creation *)

Lemma create_time_lock input caller n w out w' :
  let id := created_id input n in
  let period := readBigInt (readSlot input 96) in
  lockCountKey <> trustlessLockKey id -> 0 <= n -> 0 <= period -> n + period < 2 ^ 64 ->
  trustlessCreateTimeLock input caller n w = (Ok out, w') ->
  out = id /\ locked_until id (n + period) w' /\
  (let m := readBigInt (slot w lock_addr (lock_param_key "minLockPeriod")) in
   (if m =? 0 then 2592000 else m) <= period).
Proof.
  intros id period Hc Hn Hp Hw H. unfold trustlessCreateTimeLock, getTrustlessParam in H. inv_run H.
  rewrite !slot_touch in *. fold period id in H |- *. zbool.
  match type of H with lock_created _ _ _ ?s = _ => set (w1 := s) in * end.
  assert (out = id) as ->.
  { unfold lock_created in H. inv_run H. done. }
  split_and!; [done| |exact Hm0].
  apply (locked_kept id (n + period) w1).
  { apply (respects_run _ _ _ _ _ (keep_created id Hc _ _ _) H). }
  unfold locked_until, header, w1. rewrite slot_set_eq.
  assert (Hu : u64 (n + big_u64 period) = n + period).
  { rewrite big_u64_small by (unfold is_u64; lia). apply u64_small. unfold is_u64; lia. }
  rewrite Hu. destruct (encodeLockHeader_spec (arg20 input 4) LockTypeTime (arg20 input 128) (n + period) n)
    as (T & U & L); [|unfold is_u64; lia|].
  - apply Nat.ltb_ge in Hm. unfold arg20. rewrite length_take, length_drop. lia.
  - rewrite T, U. split_and!; [exact L|done|lia].
Qed.

(** C25 (time locks hold).  A time lock that is created has at least the minimum
    period; and whatever anybody calls afterwards - releases, extensions that do
    not wrap around, other locks - nobody can release it before its block. *)
Theorem time_lock_holds input caller n w out w1 w' rel caller' m :
  let id := created_id input n in
  let period := readBigInt (readSlot input 96) in
  lockCountKey <> trustlessLockKey id -> 0 <= n -> wf_bytes input -> n + period < 2 ^ 64 ->
  trustlessCreateTimeLock input caller n w = (Ok out, w1) -> lock_calls id w1 w' ->
  lock_arg rel = id -> m < n + period ->
  out = id /\
  (let min := readBigInt (slot w lock_addr (lock_param_key "minLockPeriod")) in
   (if min =? 0 then 2592000 else min) <= period) /\
  is_ok (trustlessRelease rel caller' m w').1 = false.
Proof.
  intros id period Hc Hn Hwf Hw H Hcalls Hrel Hm.
  destruct (create_time_lock input caller n w out w1 Hc Hn (readSlot_nonneg _ _ Hwf) Hw H) as (Ho & HL & Hmin).
  split_and!; [exact Ho|exact Hmin|].
  apply (locked_refuses id (n + period)); [done| |done].
  exact (lock_calls_locked id Hc _ _ _ Hcalls HL).
Qed.

(** ** Examples *)

Definition time_lock_call (amount period : Z) : bytes :=
  be_enc 4 0xA1B2C3D4 ++ zeros 60 ++ be_enc 32 amount ++ be_enc 32 period ++ zeros 20.
Definition vesting_lock_call (amount start finish cliff : Z) : bytes :=
  be_enc 4 0xB2C3D4E5 ++ zeros 60 ++ be_enc 32 amount ++ be_enc 8 start ++ be_enc 8 finish ++
  be_enc 8 cliff ++ zeros 20.
Definition release_call (id : bytes) : bytes := be_enc 4 0xF6A7B8C9 ++ id.
Definition extend_call (id : bytes) (n : Z) : bytes := be_enc 4 0xA7B8C9D0 ++ id ++ be_enc 32 n.
Definition owner : bytes := lit "owner".
Definition thief : bytes := lit "thief".
Definition call_lock (input caller : bytes) (n : Z) (w : World) : World :=
  (trustlessLockPrecompile input caller n w).2.
Definition lock_500 : bytes := created_id (time_lock_call 500 2592000) 100.
Definition locked : World := call_lock (time_lock_call 500 2592000) owner 100 NewStateDB.

Lemma time_lock_holds_witness :
  is_ok (trustlessRelease (release_call lock_500) thief 2592099 (call_lock (extend_call lock_500 5) thief 200 locked)).1
    = false.
Proof.
  refine (proj2 (proj2 (time_lock_holds (time_lock_call 500 2592000) owner 100 NewStateDB lock_500 locked
    _ _ _ 2592099 _ _ _ _ _ _ _ _))).
  - by vm_compute.
  - lia.
  - apply (bool_decide_unpack _). vm_compute. exact I.
  - by vm_compute.
  - apply (ok_run (trustlessCreateTimeLock _ _ _ _)). by vm_compute.
  - apply lc_step; [apply lc_refl|]. split; [by vm_compute|]. intros _ _.
    by vm_compute.
  - by vm_compute.
  - by vm_compute.
Defined.

(** ** What the code does that its comments do not say *)

(** Anybody extends a lock by a number of blocks that wraps around, and releases
    it. *)
Lemma extension_unlocks :
  (trustlessRelease (release_call lock_500) thief 201
     (call_lock (extend_call lock_500 (2 ^ 64 - 2592100)) thief 200 locked)).1 = Ok (zeros 31 ++ [1]).
Proof. by vm_compute. Qed.

(** A released lock is a time lock that can be released again. *)
Lemma released_twice :
  let w := call_lock (release_call lock_500) thief 2592100 locked in
  (trustlessRelease (release_call lock_500) thief 2592101 w).1 = Ok (zeros 31 ++ [1]) /\
  (trustlessGetLock (be_enc 4 0 ++ lock_500) w).1 = (trustlessGetLock (be_enc 4 0 ++ lock_500) locked).1.
Proof. by vm_compute. Qed.

(** A partly vested lock becomes a time lock from its vesting start when it is
    released, so all of it is releasable. *)
Lemma vesting_ends_at_first_release :
  let w := call_lock (vesting_lock_call 500 100 1100 200) owner 100 NewStateDB in
  (trustlessRelease (release_call lock_500) thief 300 w).1 = Ok (be_enc 32 200) /\
  (trustlessReleasableAmount (release_call lock_500) 301 w).1 = Ok (be_enc 32 201) /\
  (trustlessReleasableAmount (release_call lock_500) 301
     (call_lock (release_call lock_500) thief 300 w)).1 = Ok (be_enc 32 1).
Proof. by vm_compute. Qed.

(** In the block of its creation a lock can be replaced by a vesting lock of the
    same pool and amount, with any schedule. *)
Lemma lock_replaced_in_its_block :
  (trustlessRelease (release_call lock_500) thief 100
     (call_lock (vesting_lock_call 500 1 2 1) thief 100 locked)).1 = Ok (zeros 31 ++ [1]).
Proof. by vm_compute. Qed.

(** The identifier is not injective: the last byte of the amount can be read as
    the first digit of the block. *)
Lemma lock_id_ambiguous p t0 t1 :
  generateLockID p t0 t1 (7 * 256 + 53) 100 = generateLockID p t0 t1 7 5100.
Proof. unfold generateLockID. do 4 f_equal. Qed.

(** A multi-signature lock is never released. *)
Lemma multisig_is_never_releasable h v n : byte_at h 0 = LockTypeMultiSig -> releasable h v n = 0.
Proof. unfold releasable. intros ->. by case_bool_decide. Qed.
