(* ===== verification/SwapRoute.v ===== *)
(** The swap route precompile (evm/swap_route.go, address 0x25): pairs, swaps at
    the constant product price, liquidity and its SWAY reward and lock. *)

From Stdlib Require Import ZArith Lia.
From S2P Require Import Prelude Sha256 Collections StateDB Ledger Sway TrustlessLock.
From stdpp Require Import gmap list.
Local Open Scope Z_scope.
Local Open Scope go_scope.

Definition srSlotPairPrefix : Z := 16.
Definition swap_addr : bytes := PrecompileAddrHex 37.
(** [countKey]: the zero key, since the prefix byte is zero. *)
Definition sr_countKey : bytes := zero32.
Definition pair_id (token0 token1 : bytes) : bytes := take 20 (Sha256.sum256 (token0 ++ token1)).
Definition pairStorageKey (pairID : bytes) : bytes := storageKey (srSlotPairPrefix :: pairID).
Definition liquidityKey : bytes := storageKey (lit "swaproute:liquidity").
Definition reserve0Key : bytes := storageKey (lit "swaproute:reserve0").
Definition reserve1Key : bytes := storageKey (lit "swaproute:reserve1").

Definition token0 (input : bytes) : bytes := take 20 (drop 4 input).
Definition token1 (input : bytes) : bytes := take 20 (drop 24 input).

Definition srCreatePair (input caller : bytes) : HM bytes :=
  let* callerAcc := gets (fun w => GetAccount w caller) in
  guard_err (match callerAcc with None => true | Some a => DoxDevLevel a <? 2 end)
    "SwapRoute: createPair requires Dox_Dev Level 2+" ;;;
  guard_err (length input <? 44)%nat "SwapRoute: createPair input too short" ;;;
  touch swap_addr ;;;
  let pairID := pair_id (token0 input) (token1 input) in
  let* existing := sload swap_addr (pairStorageKey pairID) in
  if negb (byte_at existing 0 =? 0) then mret pairID else
  let* count := sload swap_addr sr_countKey in
  sstore swap_addr sr_countKey (writeUint64 (u64 (readUint64 count + 1))) ;;;
  sstore swap_addr (pairStorageKey pairID)
    (copy_at 20 (token1 input) (copy_at 0 (token0 input) zero32)) ;;;
  mret pairID.

Definition srGetPair (input : bytes) : HM bytes :=
  guard_err (length input <? 44)%nat "SwapRoute: getPair input too short" ;;;
  let pairID := pair_id (token0 input) (token1 input) in
  touch swap_addr ;;;
  let* existing := sload swap_addr (pairStorageKey pairID) in
  mret (if byte_at existing 0 =? 0 then zeros 20 else pairID).

Definition selectorToBytes (sel : Z) : bytes := be_enc 4 sel.

(** A call whose error is dropped; a panic still ends the run. *)
Definition ignore_err {A} (m : HM A) : HM unit := fun w =>
  match m w with
  | (Ok _, w') => (Ok tt, w')
  | (Err _, w') => (Ok tt, w')
  | (Panic, w') => (Panic, w')
  end.

(** The call of the trustless lock: zero pool and tokens, the liquidity, thirty
    days, and at most twenty bytes of the caller. *)
Definition lock_input (liquiditySlot periodSlot caller : bytes) : bytes :=
  selectorToBytes trustlessCreateTimeLockSelector ++ zeros 20 ++ zeros 40 ++
  liquiditySlot ++ periodSlot ++ take 20 caller.

Definition srAddLiquidity (input caller : bytes) (blockNum : Z) : HM bytes :=
  guard_err (length input <? 68)%nat "SwapRoute: addLiquidity input too short" ;;;
  let amount0 := readBigInt (readSlot input 4) in
  let amount1 := readBigInt (readSlot input 36) in
  touch swap_addr ;;;
  let* totalLiq := sread swap_addr liquidityKey in
  let liquidity := amount0 + amount1 in
  sstore_big swap_addr liquidityKey (totalLiq + liquidity) ;;;
  ignore_err (swayMintInternal caller 100 dexLP) ;;;
  let* amountSlot := must (writeSlot liquidity) in
  let* periodSlot := must (writeSlot 2592000) in
  ignore_err (trustlessLockPrecompile (lock_input amountSlot periodSlot caller) caller blockNum) ;;;
  must (writeBigInt liquidity).

Definition srRemoveLiquidity : HM bytes :=
  fail "SwapRoute: removeLiquidity requires TrustlessLock integration - check lock status at 0x1A".

Definition reserve (w : World) (key : bytes) : Z :=
  let r := readBigInt (slot w swap_addr key) in if r =? 0 then 1000000 else r.

(** The price: the fee is 0.3% of what comes in. *)
Definition quote (r0 r1 amountIn : Z) : Z :=
  let amountInWithFee := amountIn * 997 in
  amountInWithFee * r1 / (r0 * 1000 + amountInWithFee).

Definition srSwap (input caller : bytes) : HM bytes :=
  guard_err (length input <? 68)%nat "SwapRoute: swap input too short" ;;;
  let amountIn := readBigInt (readSlot input 4) in
  let amountOutMin := readBigInt (readSlot input 36) in
  touch swap_addr ;;;
  let* r0 := gets (fun w => reserve w reserve0Key) in
  let* r1 := gets (fun w => reserve w reserve1Key) in
  let amountOut := quote r0 r1 amountIn in
  guard_err (amountOut <? amountOutMin) "SwapRoute: insufficient output amount" ;;;
  ignore_err (swayMintInternal caller (amountIn * 3 / 1000) dexLP) ;;;
  must (writeBigInt amountOut).

Definition srGetReserves : HM bytes := mret (zeros 64).

Definition swapRoutePrecompile : Handler := fun input caller blockNum =>
  guard_err (length input <? 4)%nat "SwapRoute: input too short" ;;;
  let sel := selectorBytes input in
  if sel =? 0x1a2b3c4d then srCreatePair input caller
  else if (sel =? 0x2e878dc0) || (sel =? 0x38ed1739) then srSwap input caller
  else if sel =? 0xe868b10b then srAddLiquidity input caller blockNum
  else if sel =? 0xbaa2abde then srRemoveLiquidity
  else if sel =? 0xe6a537a4 then srGetPair input
  else if sel =? 0x23312f44 then srGetReserves
  else fail "SwapRoute: unknown selector 0x%08X".

(** ** The price *)

(** Nothing drains a reserve, and the product of the reserves, counting what
    came in after the fee, does not fall. *)
Lemma quote_product r0 r1 a :
  0 < r0 -> 0 < r1 -> 0 <= a ->
  0 <= quote r0 r1 a < r1 /\ 1000 * r0 * r1 <= (r1 - quote r0 r1 a) * (1000 * r0 + 997 * a).
Proof.
  intros H0 H1 Ha. unfold quote. set (d := r0 * 1000 + a * 997). assert (Hd : 0 < d) by (subst d; lia).
  pose proof (Z.div_mod (a * 997 * r1) d ltac:(lia)) as E.
  pose proof (Z.mod_pos_bound (a * 997 * r1) d Hd) as M.
  set (q := a * 997 * r1 / d) in *.
  assert (0 <= q) by (apply Z.div_pos; nia).
  assert (q < r1) by (apply Z.div_lt_upper_bound; [done|subst d; nia]).
  split; [lia|]. replace (1000 * r0 + 997 * a) with d by (subst d; lia).
  replace (1000 * r0 * r1) with (r1 * d - a * 997 * r1) by (subst d; lia). nia.
Qed.

(** More in, more out. *)
Lemma quote_mono r0 r1 a b : 0 < r0 -> 0 < r1 -> 0 <= a <= b -> quote r0 r1 a <= quote r0 r1 b.
Proof.
  intros H0 H1 Ha. unfold quote.
  pose proof (Z.mul_div_le (a * 997 * r1) (r0 * 1000 + a * 997) ltac:(lia)) as Hl.
  set (q := a * 997 * r1 / (r0 * 1000 + a * 997)) in *.
  apply Z.div_le_lower_bound; [lia|].
  assert (q <= r1).
  { apply Z.div_le_upper_bound; nia. }
  nia.
Qed.

(** ** The SWAY ledger behind the exchange *)

Definition keeps_ledger (w w' : World) : Prop := sway_ok w -> sway_ok w'.
#[local] Instance keeps_ledger_preorder : PreOrder keeps_ledger.
Proof. split; [by intros w ?|]. intros x y z H1 H2 H. by apply H2, H1. Qed.

(** A slot that is no balance of its account, outside the SWAY account. *)
Lemma sway_ok_set a k v w :
  a <> sway_addr -> k <> swayBalanceKey a -> sway_ok w -> sway_ok (set_slot a k v w).
Proof.
  intros Ha Hk [H1 H2 H3 H4 H5 H6].
  assert (Hh : sway_held (set_slot a k v w) = sway_held w) by (by apply held_set).
  split; unfold sway_supply, sway_bucket in *; rewrite ?Hh, ?slot_set_ne by (by left); try done.
  intros b. specialize (H2 b). rewrite holding_slot in H2 |- *. rewrite slot_set.
  case_decide as E; [|done]. by destruct E as [-> ?].
Qed.

Lemma ledger_touch a : respects keeps_ledger (touch a).
Proof. intros w H. by apply sway_ok_touch. Qed.
Lemma ledger_store a k v :
  a <> sway_addr -> k <> swayBalanceKey a -> respects keeps_ledger (sstore a k v).
Proof. intros Ha Hk w H. by apply sway_ok_set. Qed.
Lemma ledger_log a t d n : respects keeps_ledger (addlog a t d n).
Proof. by intros w [H1 H2 H3 H4 H5 H6]. Qed.
Lemma ledger_ignore {A} (m : HM A) : respects keeps_ledger m -> respects keeps_ledger (ignore_err m).
Proof. intros H w. specialize (H w). unfold ignore_err. by destruct (m w) as [[]?]. Qed.
Lemma ledger_mint to n b :
  b ∈ [dexLP; futureTasks] -> swayBalanceKey to ∉ admin_keys ->
  respects keeps_ledger (swayMintInternal to n b).
Proof. intros Hb Hto w H. by apply mint_ok. Qed.

Ltac ledger_step :=
  lazymatch goal with
  | |- respects keeps_ledger (touch _) => apply ledger_touch
  | |- respects keeps_ledger (addlog _ _ _ _) => apply ledger_log
  | |- respects keeps_ledger (sstore_big _ _ _) => unfold sstore_big
  | |- _ => frame_step
  end.

Lemma swap_lock_apart : swap_addr <> sway_addr /\ lock_addr <> sway_addr.
Proof. split; concrete. Qed.

(** The lock that protects added liquidity. *)
Lemma ledger_time_lock input caller n :
  trustlessLockKey (created_id input n) <> swayBalanceKey lock_addr ->
  respects keeps_ledger (trustlessCreateTimeLock input caller n).
Proof.
  intros Hk. assert (Hc : lockCountKey <> swayBalanceKey lock_addr) by concrete.
  unfold trustlessCreateTimeLock, lock_created, getTrustlessParam.
  repeat ledger_step; (apply ledger_store; [exact (proj2 swap_lock_apart)|assumption]).
Qed.

Lemma selector_be_enc z rest : 0 <= z < 2 ^ 32 -> selectorBytes (be_enc 4 z ++ rest) = z.
Proof.
  intros Hz. unfold selectorBytes. rewrite length_app, be_enc_length.
  rewrite (proj2 (Nat.ltb_ge _ _)) by lia. rewrite take_app_length' by (by rewrite be_enc_length).
  apply be_dec_enc_small. change (256 ^ Z.of_nat 4) with (2 ^ 32). lia.
Qed.

Lemma lock_call_is_create s p caller n w :
  trustlessLockPrecompile (lock_input s p caller) caller n w =
  trustlessCreateTimeLock (lock_input s p caller) caller n w.
Proof.
  unfold trustlessLockPrecompile. unfold mbind at 1, M_bind at 1.
  assert (E : (length (lock_input s p caller) <? 4)%nat = false).
  { apply Nat.ltb_ge. unfold lock_input, selectorToBytes. rewrite length_app, be_enc_length. lia. }
  rewrite E. unfold guard_err, mret, M_ret. cbv beta iota zeta.
  unfold lock_input at 1, selectorToBytes. rewrite selector_be_enc by done.
  by rewrite Z.eqb_refl.
Qed.

Section Call.
Context (input caller : bytes) (n : Z).
Context (Hcaller : swayBalanceKey caller ∉ admin_keys).
Context (Hpair : pairStorageKey (pair_id (token0 input) (token1 input)) <> swayBalanceKey swap_addr).
Context (Hlock : forall s p,
  writeSlot (readBigInt (readSlot input 4) + readBigInt (readSlot input 36)) = Some s ->
  writeSlot 2592000 = Some p ->
  trustlessLockKey (created_id (lock_input s p caller) n) <> swayBalanceKey lock_addr).

Lemma ledger_pairs : respects keeps_ledger (srCreatePair input caller) /\ respects keeps_ledger (srGetPair input).
Proof.
  assert (Hc : sr_countKey <> swayBalanceKey swap_addr) by concrete.
  unfold srCreatePair, srGetPair. cbv zeta.
  split; repeat ledger_step; (apply ledger_store; [exact (proj1 swap_lock_apart)|assumption]).
Qed.

Lemma ledger_swap : respects keeps_ledger (srSwap input caller).
Proof.
  unfold srSwap. cbv zeta. repeat ledger_step.
  apply ledger_ignore, ledger_mint; [by left|exact Hcaller].
Qed.

Lemma ledger_add : respects keeps_ledger (srAddLiquidity input caller n).
Proof.
  assert (Hl : liquidityKey <> swayBalanceKey swap_addr) by concrete.
  unfold srAddLiquidity. cbv zeta. repeat ledger_step.
  - apply ledger_store; [exact (proj1 swap_lock_apart)|assumption].
  - apply ledger_ignore, ledger_mint; [by left|exact Hcaller].
  - apply ledger_ignore. intros w. rewrite lock_call_is_create. apply ledger_time_lock. by apply Hlock.
Qed.

Lemma ledger_call : respects keeps_ledger (swapRoutePrecompile input caller n).
Proof.
  unfold swapRoutePrecompile. cbv zeta.
  apply respects_bind; [apply _|apply respects_guard, _|intros _].
  destruct (_ =? _); [exact (proj1 ledger_pairs)|].
  destruct (_ || _); [exact ledger_swap|].
  destruct (_ =? _); [exact ledger_add|].
  destruct (_ =? _); [apply respects_fail, _|].
  destruct (_ =? _); [exact (proj2 ledger_pairs)|].
  destruct (_ =? _); [apply respects_ret, _|apply respects_fail, _].
Qed.
End Call.

Lemma reserve_pos w k : slots_typed swap_addr w -> 0 < reserve w k < 2 ^ 256.
Proof.
  intros Ht. unfold reserve. pose proof (slot_nonneg _ _ k Ht) as H.
  destruct (Z.eqb_spec (readBigInt (slot w swap_addr k)) 0); [done|].
  pose proof (be_dec_bound _ (slot_wf _ _ k Ht)) as Hb. rewrite (slot_length _ _ k Ht) in Hb.
  unfold readBigInt in *. change (256 ^ Z.of_nat 32) with (2 ^ 256) in Hb. lia.
Qed.

(** The outcome of a swap, on every branch. *)
Lemma swap_outcome input caller w :
  sway_ok w -> swayBalanceKey caller ∉ admin_keys -> slots_typed swap_addr w -> wf_bytes input ->
  (68 <= length input)%nat ->
  let out := quote (reserve w reserve0Key) (reserve w reserve1Key) (readBigInt (readSlot input 4)) in
  if out <? readBigInt (readSlot input 36)
  then (srSwap input caller w).1 = Err "SwapRoute: insufficient output amount"
  else exists s, (srSwap input caller w).1 = Ok s /\ readBigInt s = out.
Proof.
  intros Hok Hc Ht Hwf Hl out. unfold srSwap. rewrite (proj2 (Nat.ltb_ge _ _)) by lia. run_go.
  unfold reserve. rewrite !slot_touch. fold (reserve w reserve0Key) (reserve w reserve1Key). fold out.
  destruct (out <? _); [done|].
  destruct (mint_cases caller (readBigInt (readSlot input 4) * 3 / 1000) dexLP
    (GetOrCreateAccount swap_addr w) (sway_ok_touch _ _ Hok) ltac:(by left) Hc) as (w' & _ & _ & Hm).
  assert (Hn : exists w'', ignore_err (swayMintInternal caller (readBigInt (readSlot input 4) * 3 / 1000) dexLP)
    (GetOrCreateAccount swap_addr w) = (Ok tt, w'')).
  { unfold ignore_err. destruct (swayMintInternal _ _ _ _) as [[]?]; [by eexists..|].
    by destruct Hm as [(? & ? & _)|(? & _)]. }
  destruct Hn as [w'' ->].
  pose proof (reserve_pos w reserve0Key Ht). pose proof (reserve_pos w reserve1Key Ht).
  pose proof (quote_product (reserve w reserve0Key) (reserve w reserve1Key)
    (readBigInt (readSlot input 4)) ltac:(lia) ltac:(lia) (readSlot_nonneg _ _ Hwf)) as [Hq _].
  fold out in Hq. destruct (writeBigInt_some out ltac:(lia)) as [s Hs].
  exists s. rewrite Hs. split; [done|]. by apply (readBigInt_writeBigInt out s); [lia|].
Qed.

(** Exchange.  Every call of the exchange keeps the SWAY ledger, whatever it
    mints and locks; a swap gives the constant product price or, when that is
    below the caller's limit, refuses; the price never empties a reserve and never
    lowers the product of the reserves. *)
Theorem exchange_spec input caller n w :
  sway_ok w -> slots_typed swap_addr w -> wf_bytes input ->
  swayBalanceKey caller ∉ admin_keys ->
  pairStorageKey (pair_id (token0 input) (token1 input)) <> swayBalanceKey swap_addr ->
  (forall s p, writeSlot (readBigInt (readSlot input 4) + readBigInt (readSlot input 36)) = Some s ->
     writeSlot 2592000 = Some p ->
     trustlessLockKey (created_id (lock_input s p caller) n) <> swayBalanceKey lock_addr) ->
  sway_ok (swapRoutePrecompile input caller n w).2 /\
  ((68 <= length input)%nat ->
   let a := readBigInt (readSlot input 4) in
   let r0 := reserve w reserve0Key in
   let r1 := reserve w reserve1Key in
   let out := quote r0 r1 a in
   0 <= out < r1 /\ 1000 * r0 * r1 <= (r1 - out) * (1000 * r0 + 997 * a) /\
   if out <? readBigInt (readSlot input 36)
   then (srSwap input caller w).1 = Err "SwapRoute: insufficient output amount"
   else exists s, (srSwap input caller w).1 = Ok s /\ readBigInt s = out).
Proof.
  intros Hok Ht Hwf Hc Hp Hl. split; [exact (ledger_call input caller n Hc Hp Hl w Hok)|].
  intros Hlen a r0 r1 out.
  pose proof (reserve_pos w reserve0Key Ht). pose proof (reserve_pos w reserve1Key Ht).
  destruct (quote_product r0 r1 a) as [H1 H2]; [subst r0; lia|subst r1; lia|by apply readSlot_nonneg|].
  split_and!; [apply H1|apply H1|exact H2|]. by apply swap_outcome.
Qed.

(** ** Examples *)

Definition trader : bytes := lit "00000000000000000000000000000000000000dd".
Definition swap_call (sel a b : Z) : bytes := be_enc 4 sel ++ be_enc 32 a ++ be_enc 32 b.
Definition traded : World :=
  (swapRoutePrecompile (swap_call 0x38ed1739 1000000 0) trader 7 genesis_sway).2.

Lemma genesis_sway_ok : sway_ok genesis_sway.
Proof. apply init_fresh_ok. split; [vm_compute; reflexivity|]. intros a. reflexivity. Qed.

Lemma exchange_spec_witness :
  sway_ok (swapRoutePrecompile (swap_call 0xe868b10b 5 6) trader 7 genesis_sway).2 /\
  exists s, (srSwap (swap_call 0x38ed1739 1000000 0) trader genesis_sway).1 = Ok s /\ readBigInt s = 499248.
Proof.
  assert (Ht : slots_typed swap_addr genesis_sway).
  { apply slots_typed_check. vm_compute. reflexivity. }
  assert (Hlock : forall a b s p, writeSlot (a + b) = Some s -> writeSlot 2592000 = Some p -> a = 5 /\ b = 6 \/ a = 1000000 /\ b = 0 ->
    trustlessLockKey (created_id (lock_input s p trader) 7) <> swayBalanceKey lock_addr).
  { intros a b s p Hs Hp [[-> ->]|[-> ->]]; vm_compute in Hs, Hp; injection Hs as <-; injection Hp as <-; concrete. }
  split.
  - refine (proj1 (exchange_spec (swap_call 0xe868b10b 5 6) trader 7 genesis_sway genesis_sway_ok Ht _ _ _ _)).
    + apply (bool_decide_unpack _). vm_compute. exact I.
    + concrete.
    + concrete.
    + intros s p Hs Hp. apply (Hlock 5 6 s p); [exact Hs|exact Hp|by left].
  - refine (proj2 (proj2 (proj2 (exchange_spec (swap_call 0x38ed1739 1000000 0) trader 7 genesis_sway genesis_sway_ok Ht _ _ _ _) _))).
    + apply (bool_decide_unpack _). vm_compute. exact I.
    + concrete.
    + concrete.
    + intros s p Hs Hp. apply (Hlock 1000000 0 s p); [exact Hs|exact Hp|by right].
    + cbn. lia.
Defined.

(** ** What the code does that its comments do not say *)

(** A swap moves no token: it mints SWAY to its caller, and the price stays. *)
Lemma swap_mints_to_anybody :
  readBigInt (slot traded trader (swayBalanceKey trader)) = 3000 /\
  bal traded trader = bal genesis_sway trader /\
  quote (reserve traded reserve0Key) (reserve traded reserve1Key) 5000 =
  quote (reserve genesis_sway reserve0Key) (reserve genesis_sway reserve1Key) 5000.
Proof. by vm_compute. Qed.

(** So does adding no liquidity at all, any number of times. *)
Lemma empty_liquidity_is_rewarded :
  readBigInt (slot (swapRoutePrecompile (swap_call 0xe868b10b 0 0) trader 7 genesis_sway).2
    trader (swayBalanceKey trader)) = 100.
Proof. by vm_compute. Qed.

(** A caller of fewer than twenty characters gets liquidity without a lock. *)
Lemma short_caller_is_not_locked :
  let w := (swapRoutePrecompile (swap_call 0xe868b10b 5 6) (lit "bob") 7 genesis_sway).2 in
  readBigInt (slot w swap_addr liquidityKey) = 11 /\ readBigInt (slot w lock_addr lockCountKey) = 0.
Proof. by vm_compute. Qed.

Definition pair_call (sel : Z) : bytes := be_enc 4 sel ++ (0 :: replicate 19 7) ++ replicate 20 9.
Definition listed : World :=
  let w := upd_acct trader (with_level 2) NewStateDB in
  (swapRoutePrecompile (pair_call 0x1a2b3c4d) trader 7 w).2.

(** A pair whose first token begins with a zero byte is never found and is
    counted again. *)
Lemma zero_token_pair_is_lost :
  (swapRoutePrecompile (pair_call 0xe6a537a4) trader 8 listed).1 = Ok (zeros 20) /\
  readUint64 (slot (swapRoutePrecompile (pair_call 0x1a2b3c4d) trader 8 listed).2 swap_addr sr_countKey) = 2.
Proof. by vm_compute. Qed.
