(* ===== verification/WayStablecoin.v ===== *)
(** The 1WAY stablecoin precompile (evm/way_stablecoin.go, address 0x22) and the
    deposit proof it accepts (evm/btcwallet.go). *)

From Stdlib Require Import ZArith Lia.
From S2P Require Import Prelude Sha256 Collections StateDB TrustlessLock.
From stdpp Require Import gmap list.
Local Open Scope Z_scope.
Local Open Scope go_scope.

(** ** The deposit proof *)

Definition WayChainMasterPub : bytes := replicate 64 48.
Definition VaultBTCDomain : bytes := lit "waychain:vault:btc:v1".
Definition DerivedVaultBTCAddress (vaultID : bytes) : bytes :=
  lit "bc1v" ++ fmt_x (Sha256.sum256 (WayChainMasterPub ++ VaultBTCDomain ++ vaultID)).

Record BTCTxProof := mkProof {
  pf_TxID : bytes; pf_OutIndex : Z; pf_Amount : Z; pf_ToAddr : bytes;
}.

(** The amount pointer is never nil at the one call. *)
Definition VerifyBTCDeposit (vaultID : bytes) (proof : BTCTxProof) : HM Z :=
  guard_err (negb (bool_decide (pf_ToAddr proof = DerivedVaultBTCAddress vaultID)))
    "1WAY: BTC proof pays %s, not vault address %s" ;;;
  guard_err (pf_Amount proof <=? 0) "1WAY: BTC proof amount must be > 0" ;;;
  guard_err (negb (length (pf_TxID proof) =? 32)%nat) "1WAY: BTC proof txid must be 32 bytes" ;;;
  mret (pf_Amount proof).

(** ** Keys *)

Definition WaySlotVaultBTC : Z := 1.
Definition WaySlotVault1Way : Z := 2.
Definition WaySlotUserHasVault : Z := 3.
Definition WaySlotVaultCreator : Z := 6.
Definition WayMintRatio : Z := 7000.

Definition way_addr : bytes := PrecompileAddrHex 34.
Definition btcKey (vaultID : bytes) : bytes := storageKey (WaySlotVaultBTC :: vaultID).
Definition way_debtKey (vaultID : bytes) : bytes := storageKey (WaySlotVault1Way :: vaultID).
Definition usrVaultKey (user : bytes) : bytes := storageKey (WaySlotUserHasVault :: user).
Definition creatorKey (vaultID : bytes) : bytes := storageKey (WaySlotVaultCreator :: vaultID).
Definition way_priceKey : bytes := storageKey (lit "price:btc:usd").
Definition totalCommittedKey : bytes := storageKey (lit "total:committed").
Definition way_vault (input : bytes) : bytes := take 32 (drop 4 input).

(** ** Access *)

Definition dms_addr : bytes := PrecompileAddrHex 21.
Definition dead_man_slot (w : World) (vaultID : bytes) : bytes :=
  slot w dms_addr (storageKey (0x10 :: vaultID)).
Definition deadManActiveForVault (vaultID : bytes) : HM bool :=
  touch dms_addr ;;; gets (fun w => byte_at (dead_man_slot w vaultID) 0 =? 1).

(** The recorded creator is a string of 32 characters, never the empty one. *)
Definition requireCallerIsCreatorOrDeadMan (vaultID caller : bytes) : HM unit :=
  touch way_addr ;;;
  let* creator := sload way_addr (creatorKey vaultID) in
  if bool_decide (creator = caller) then mret tt else
  let* active := (if negb (bool_decide (creator = [])) then deadManActiveForVault vaultID else mret false) in
  guard_err (negb active) "1WAY: caller is not vault creator or authorized dead-man's-switch".

(** ** Operations *)

Definition wayCreateVault (input caller : bytes) : HM bytes :=
  guard_err (length input <? 36)%nat "1WAY: createVault input too short" ;;;
  let vaultID := way_vault input in
  touch way_addr ;;;
  let* callerAcc := gets (fun w => GetAccount w caller) in
  guard_err (match callerAcc with None => true | Some a => DoxDevLevel a <? 2 end)
    "1WAY: caller must have Dox_Dev Level 2+" ;;;
  let* has := sload way_addr (usrVaultKey caller) in
  guard_err (negb (readUint64 has =? 0)) "1WAY: user already has vault" ;;;
  sstore_big way_addr (btcKey vaultID) 0 ;;;
  sstore_big way_addr (way_debtKey vaultID) 0 ;;;
  sstore way_addr (creatorKey vaultID) (copy_at 0 caller zero32) ;;;
  sstore way_addr (usrVaultKey caller) (writeUint64 1) ;;;
  mret vaultID.

Definition wayDepositBTC (input caller : bytes) : HM bytes :=
  guard_err (length input <? 100)%nat
    "1WAY: depositBTC needs vaultID+amount+txid+outIndex+toAddr (>=100 bytes)" ;;;
  let vaultID := way_vault input in
  let amount := readUint256 input 36 in
  requireCallerIsCreatorOrDeadMan vaultID caller ;;;
  let* toAddr := must (slice input 108 (Z.of_nat (length input))) in
  let* verified := VerifyBTCDeposit vaultID
    (mkProof (take 32 (drop 68 input)) (readUint64FromBytes input 100) amount toAddr) in
  touch way_addr ;;;
  let* currentBTC := sread way_addr (btcKey vaultID) in
  sstore_big way_addr (btcKey vaultID) (currentBTC + verified) ;;;
  let* totalBTC := sread way_addr totalCommittedKey in
  sstore_big way_addr totalCommittedKey (totalBTC + verified) ;;;
  mret [1].

Definition btc_price (w : World) : Z :=
  let p := readBigInt (slot w way_addr way_priceKey) in
  if p =? 0 then 68000000000000000000 else p.
(** Whole coins at the price, times 70%. *)
Definition mint_amount (btcAmount btcPrice : Z) : Z :=
  btcAmount / 100000000 * btcPrice * WayMintRatio / 10000.

Definition wayMint1Way (input caller : bytes) : HM bytes :=
  guard_err (length input <? 36)%nat "1WAY: mint input too short" ;;;
  let vaultID := way_vault input in
  touch way_addr ;;;
  requireCallerIsCreatorOrDeadMan vaultID caller ;;;
  let* btcAmount := sread way_addr (btcKey vaultID) in
  guard_err (btcAmount =? 0) "1WAY: no BTC deposited" ;;;
  let* btcPrice := gets btc_price in
  let mintAmount := mint_amount btcAmount btcPrice in
  let* currentDebt := sread way_addr (way_debtKey vaultID) in
  sstore_big way_addr (way_debtKey vaultID) (currentDebt + mintAmount) ;;;
  mret (big_bytes mintAmount).

Definition wayBurn1Way (input caller : bytes) : HM bytes :=
  guard_err (length input <? 68)%nat "1WAY: burn input too short" ;;;
  let vaultID := way_vault input in
  let amount := readUint256 input 36 in
  touch way_addr ;;;
  requireCallerIsCreatorOrDeadMan vaultID caller ;;;
  let* currentDebt := sread way_addr (way_debtKey vaultID) in
  let newDebt := currentDebt - amount in
  sstore_big way_addr (way_debtKey vaultID) (if newDebt <? 0 then 0 else newDebt) ;;;
  mret [1].

Definition wayGetUserVault (input : bytes) : HM bytes :=
  guard_err (length input <? 24)%nat "1WAY: getUserVault input too short" ;;;
  touch way_addr ;;;
  let* hasVault := sload way_addr (usrVaultKey (readAddress input 4)) in
  mret (bool_byte (negb (bool_decide (hasVault = zero32))) :: zeros 31).

Definition wayGetVault (input : bytes) : HM bytes :=
  guard_err (length input <? 36)%nat "1WAY: getVault input too short" ;;;
  let vaultID := way_vault input in
  touch way_addr ;;;
  let* btc := sread way_addr (btcKey vaultID) in
  let* debt := sread way_addr (way_debtKey vaultID) in
  let* creator := sload way_addr (creatorKey vaultID) in
  let* a := must (fill_bytes 32 btc) in
  let* b := must (fill_bytes 32 debt) in
  mret (a ++ b ++ writeUint64 (bool_byte (negb (bool_decide (creator = zero32))))).

Definition wayGetPrice : HM bytes :=
  touch way_addr ;;;
  let* price := gets btc_price in
  must (fill_bytes 32 price).

Definition wayUpdateBTCPrice (input caller : bytes) : HM bytes :=
  guard_err (length input <? 36)%nat "1WAY: updatePrice input too short" ;;;
  let price := readUint256 input 4 in
  touch way_addr ;;;
  let* callerAcc := gets (fun w => GetAccount w caller) in
  guard_err (match callerAcc with None => true | Some a => DoxDevLevel a <? 2 end)
    "1WAY: only verified oracles can update price" ;;;
  sstore_big way_addr way_priceKey price ;;;
  mret [1].

Section Way.
Context {MR : MapRange}.

(** The scan of the storage map; a key always has 32 bytes. *)
Definition way_supply (w : World) : Z :=
  fold_left (fun total e =>
    if (length e.1 =? 32)%nat && (byte_at e.1 0 =? WaySlotVault1Way) then total + readBigInt e.2 else total)
    (map_range (Storage (acct w way_addr))) 0.
Definition wayGetTotalSupply : HM bytes :=
  touch way_addr ;;;
  let* total := gets way_supply in
  must (fill_bytes 32 total).

Definition wayStablecoinPrecompile : Handler := fun input caller _ =>
  guard_err (length input <? 4)%nat "1WAY: input too short" ;;;
  let sel := selectorBytes input in
  if sel =? 0xA2B1C3D4 then wayCreateVault input caller
  else if sel =? 0xB3C2D4E5 then wayDepositBTC input caller
  else if sel =? 0xC4D3E5F6 then wayMint1Way input caller
  else if sel =? 0xD5E4F6A7 then wayBurn1Way input caller
  else if sel =? 0xA8B7C9D0 then wayGetUserVault input
  else if sel =? 0x9EB29EF0 then wayGetVault input
  else if sel =? 0xB9C8D0E1 then wayGetPrice
  else if sel =? 0xCAD9E0F2 then wayGetTotalSupply
  else if sel =? 0xDBC0F1A2 then wayUpdateBTCPrice input caller
  else fail "1WAY: unknown selector 0x%08X".
End Way.

(** ** Access control *)

Definition authorized (w : World) (vaultID caller : bytes) : bool :=
  bool_decide (slot w way_addr (creatorKey vaultID) = caller) ||
  (negb (bool_decide (slot w way_addr (creatorKey vaultID) = [])) &&
   (byte_at (dead_man_slot w vaultID) 0 =? 1)).

Definition same_world (w w' : World) : Prop := forall a, acct w' a = acct w a.

Lemma same_world_slot w w' a k : same_world w w' -> slot w' a k = slot w a k.
Proof. intros H. unfold slot. by rewrite H. Qed.

(** The check: it answers by the recorded creator and the switch, and changes no
    account. *)
Lemma require_spec vaultID caller w :
  exists w', same_world w w' /\
    requireCallerIsCreatorOrDeadMan vaultID caller w =
      (if authorized w vaultID caller then Ok tt
       else Err "1WAY: caller is not vault creator or authorized dead-man's-switch", w').
Proof.
  unfold requireCallerIsCreatorOrDeadMan, deadManActiveForVault, authorized, dead_man_slot. run_go.
  rewrite slot_touch. set (c := slot w way_addr (creatorKey vaultID)).
  destruct (bool_decide (c = caller)) eqn:E1; cbn [orb].
  { eexists. split; [|reflexivity]. intros a. by rewrite acct_touch. }
  destruct (bool_decide (c = [])) eqn:E2; cbn [negb andb].
  { eexists. split; [|reflexivity]. intros a. by rewrite acct_touch. }
  rewrite !slot_touch. destruct (byte_at _ 0 =? 1); cbn [negb];
    (eexists; split; [|reflexivity]; intros a; by rewrite !acct_touch).
Qed.

Definition vault_ops : list Z := [0xB3C2D4E5; 0xC4D3E5F6; 0xD5E4F6A7].

Section Access.
Context {MR : MapRange}.

Lemma unauthorized_refused input caller n w :
  selectorBytes input ∈ vault_ops -> authorized w (way_vault input) caller = false ->
  exists e, (wayStablecoinPrecompile input caller n w).1 = Err e /\
            same_world w (wayStablecoinPrecompile input caller n w).2.
Proof.
  intros Hs Ha. unfold wayStablecoinPrecompile.
  unfold mbind at 1 2, M_bind at 1 2. unfold guard_err at 1 2.
  destruct (length input <? 4)%nat; [by eexists|]. unfold mret at 1 2, M_ret at 1 2. cbv beta iota zeta.
  assert (Ht : forall a, same_world w (GetOrCreateAccount a w)) by (intros a b; by rewrite acct_touch).
  assert (Ha' : authorized (GetOrCreateAccount way_addr w) (way_vault input) caller = false).
  { unfold authorized, dead_man_slot in *. by rewrite !slot_touch. }
  destruct (require_spec (way_vault input) caller w) as (w1 & S1 & R1).
  destruct (require_spec (way_vault input) caller (GetOrCreateAccount way_addr w)) as (w2 & S2 & R2).
  rewrite Ha in R1. rewrite Ha' in R2.
  assert (S3 : same_world w w2) by (intros a; rewrite (S2 a); apply acct_touch).
  unfold vault_ops in Hs. rewrite !elem_of_cons in Hs.
  destruct Hs as [E|[E|[E|Hs]]]; [..|destruct (not_elem_of_nil _ Hs)]; rewrite E; cbn [Z.eqb Pos.eqb];
    unfold wayDepositBTC, wayMint1Way, wayBurn1Way, mbind, M_bind, guard_err, touch, modify, fail, mret, M_ret;
    (destruct (_ <? _)%nat; [by eexists|]); cbv beta iota zeta; rewrite ?R1, ?R2; by eexists.
Qed.

(** The three writes of the operations that pass the check. *)
Lemma mint_writes_debt input caller w w0 :
  (36 <= length input)%nat -> same_world w w0 ->
  authorized w (way_vault input) caller = true ->
  let vid := way_vault input in
  let btc := readBigInt (slot w way_addr (btcKey vid)) in
  let m := mint_amount btc (btc_price w) in
  let debt := readBigInt (slot w way_addr (way_debtKey vid)) in
  0 <= debt -> 0 <= m -> btc <> 0 -> debt + m < 2 ^ 256 ->
  exists w', wayMint1Way input caller w0 = (Ok (big_bytes m), w') /\
    readBigInt (slot w' way_addr (way_debtKey vid)) = debt + m /\
    forall k, k <> way_debtKey vid -> slot w' way_addr k = slot w way_addr k.
Proof.
  intros Hl Hw0 Ha vid btc m debt Hd Hm Hb Hov. unfold wayMint1Way.
  unfold mbind, M_bind, guard_err, touch, modify, mret, M_ret, sread, gets.
  rewrite (proj2 (Nat.ltb_ge _ _)) by lia. cbv beta iota zeta. fold vid.
  destruct (require_spec vid caller (GetOrCreateAccount way_addr w0)) as (w1 & S1 & ->).
  assert (S2 : forall k, slot w1 way_addr k = slot w way_addr k).
  { intros k. unfold slot. by rewrite (S1 way_addr), acct_touch, (Hw0 way_addr). }
  assert (Hau : authorized (GetOrCreateAccount way_addr w0) vid caller = true).
  { rewrite <- Ha. unfold authorized, dead_man_slot. rewrite !slot_touch.
    by rewrite !(same_world_slot w w0 _ _ Hw0). }
  assert (Hp : btc_price w1 = btc_price w) by (unfold btc_price; by rewrite S2).
  rewrite Hau, (S2 (btcKey vid)). fold btc. rewrite (proj2 (Z.eqb_neq btc 0)) by done.
  cbv beta iota. rewrite Hp, (S2 (way_debtKey vid)). fold m debt.
  destruct (sstore_big_run way_addr (way_debtKey vid) (debt + m) w1) as (s & R & E); [lia|].
  rewrite E. eexists. split; [reflexivity|]. split.
  - by rewrite slot_set_eq.
  - intros k Hk. rewrite slot_set_ne by (right; congruence). apply S2.
Qed.


End Access.

(** ** Examples *)


Definition creator32 : bytes := replicate 32 97.
Definition vault7 : bytes := replicate 32 7.
Definition way_call (sel : Z) : bytes := be_enc 4 sel ++ vault7 ++ be_enc 32 0.
Definition way_deposit (amount : Z) : bytes :=
  be_enc 4 0xB3C2D4E5 ++ vault7 ++ be_enc 32 amount ++ zeros 32 ++ zeros 8 ++ DerivedVaultBTCAddress vault7.
Definition run_way (input caller : bytes) (w : World) : outcome bytes * World :=
  wayStablecoinPrecompile input caller 1 w.
Definition verified_world (who : bytes) : World := upd_acct who (with_level 2) NewStateDB.
Definition vault_world : World :=
  (run_way (way_deposit 200000000) creator32 (run_way (way_call 0xA2B1C3D4) creator32 (verified_world creator32)).2).2.


(** ** What the code does that its comments do not say *)

(** The creator is recorded as 32 characters, so a creator whose address string
    has another length is refused by the vault it created. *)
Lemma creator_is_locked_out w vaultID caller :
  slots_typed way_addr w -> length caller <> 32%nat -> byte_at (dead_man_slot w vaultID) 0 <> 1 ->
  authorized w vaultID caller = false.
Proof.
  intros Ht Hl Hd. unfold authorized. rewrite bool_decide_eq_false_2.
  - apply Z.eqb_neq in Hd. by rewrite Hd, andb_false_r.
  - intros E. apply Hl. rewrite <- E. by apply slot_length.
Qed.

(** Minting again adds the same amount again: the debt has no bound. *)
Lemma minting_repeats :
  let w := (run_way (way_call 0xC4D3E5F6) creator32 (run_way (way_call 0xC4D3E5F6) creator32 vault_world).2).2 in
  readBigInt (slot w way_addr (way_debtKey vault7)) = 2 * 95200000000000000000.
Proof. by vm_compute. Qed.

(** A verified account without a vault takes over an existing vault and clears
    its coins and its debt. *)
Definition taker : bytes := replicate 32 98.
Lemma vault_is_taken_over :
  let w := (run_way (way_call 0xA2B1C3D4) taker (upd_acct taker (with_level 2) vault_world)).2 in
  authorized w vault7 taker = true /\ authorized w vault7 creator32 = false /\
  readBigInt (slot w way_addr (btcKey vault7)) = 0 /\
  readBigInt (slot w way_addr totalCommittedKey) = 200000000.
Proof. by vm_compute. Qed.

(** Less than one whole coin mints nothing. *)
Lemma fractions_mint_nothing p : mint_amount 99999999 p = 0.
Proof. done. Qed.

(** The proof names no transaction: any 32 bytes deposit any amount. *)
Lemma proof_is_not_checked :
  readBigInt (slot (run_way (way_deposit (10 ^ 30)) creator32 vault_world).2 way_addr (btcKey vault7)) =
    200000000 + 10 ^ 30.
Proof. by vm_compute. Qed.

(** The supply is summed over hashed keys that happen to begin with the prefix, so
    the debt of this vault is not counted. *)
Lemma supply_misses_debt :
  let w := (run_way (way_call 0xC4D3E5F6) creator32 vault_world).2 in
  (run_way (be_enc 4 0xCAD9E0F2) creator32 w).1 = Ok (zeros 32).
Proof. by vm_compute. Qed.
