(* ===== verification/AccountManager.v ===== *)
(** The account manager precompile (evm/account_manager.go, address 0x1B):
    stages, keys, sessions, guardians and freezing. *)

From Stdlib Require Import ZArith Lia.
From S2P Require Import Prelude Sha256 Collections StateDB.
From stdpp Require Import gmap list.
Local Open Scope Z_scope.
Local Open Scope go_scope.

Definition AccountSlotStage : Z := 1.
Definition AccountSlotSessionKeys : Z := 2.
Definition AccountSlotGuardians : Z := 3.
Definition StageOnboarding : Z := 0.
Definition StageStandard : Z := 1.
Definition StageSelfCustody : Z := 2.
Definition Stage1WaitingPeriod : Z := 2592000.

Definition am_addr : bytes := PrecompileAddrHex 27.
Definition accountStageKey (a : bytes) : bytes := storageKey (AccountSlotStage :: a).
Definition accountKeyKey (a : bytes) : bytes := storageKey (5 :: a).
Definition accountSessionKey (a keyID : bytes) : bytes := storageKey ((AccountSlotSessionKeys :: a) ++ keyID).
Definition accountGuardianKey (a : bytes) (idx : Z) : bytes := storageKey ((AccountSlotGuardians :: a) ++ [idx]).
Definition accountGuardianCountKey (a : bytes) : bytes := storageKey (6 :: a).

(** The slot is a Go array, passed by value: the result is the callee's copy, which
    the caller of [encodeBlockNumber] never sees. *)
Definition encodeBlockNumber (slot : bytes) (startByte : nat) (val : Z) : bytes :=
  copy_at startByte (be_enc 8 val) slot.
Definition decodeBlockNumber (slot : bytes) (startByte : nat) : Z := be_dec (take 8 (drop startByte slot)).

(** The first byte of a slot, zero for an empty one. *)
Definition head_byte (slot : bytes) : Z :=
  if bool_decide (slot = zero32) then 0 else byte_at slot 0.
Definition am_arg (input : bytes) : bytes := take 32 (drop 4 input).
Definition am_log (event : string) (caller data : bytes) (blockNum : Z) : HM unit :=
  addlog am_addr [storageKey (lit event); stringToHash caller] data blockNum.

Definition accountGetStage (input : bytes) : HM bytes :=
  guard_err (length input <? 4 + 32)%nat "AccountManager: getStage input too short" ;;;
  touch am_addr ;;;
  let* stageSlot := sload am_addr (accountStageKey (am_arg input)) in
  mret [head_byte stageSlot].

Definition accountGraduate (caller : bytes) (blockNum : Z) : HM bytes :=
  touch am_addr ;;;
  let* stageSlot := sload am_addr (accountStageKey caller) in
  guard_err (negb (head_byte stageSlot =? StageOnboarding)) "AccountManager: can only graduate from Stage 0" ;;;
  let stageSlot := <[0%nat := StageStandard]> stageSlot in
  let _ := encodeBlockNumber stageSlot 1 blockNum in
  sstore am_addr (accountStageKey caller) stageSlot ;;;
  am_log "StageGraduated" caller [StageStandard] blockNum ;;;
  mret (boolResult true).

Definition accountAdvance (caller : bytes) (blockNum : Z) : HM bytes :=
  touch am_addr ;;;
  let* stageSlot := sload am_addr (accountStageKey caller) in
  guard_err (negb (head_byte stageSlot =? StageStandard)) "AccountManager: can only advance from Stage 1" ;;;
  let stageSince := decodeBlockNumber stageSlot 1 in
  guard_err (blockNum <? u64 (stageSince + Stage1WaitingPeriod))
    "AccountManager: must wait 30 days in Stage 1" ;;;
  sstore am_addr (accountStageKey caller) (<[0%nat := StageSelfCustody]> stageSlot) ;;;
  am_log "StageAdvanced" caller [StageSelfCustody] blockNum ;;;
  mret (boolResult true).

Definition accountRotateKey (input caller : bytes) (blockNum : Z) : HM bytes :=
  guard_err (length input <? 4 + 32)%nat "AccountManager: rotateKey input too short" ;;;
  touch am_addr ;;;
  sstore am_addr (accountKeyKey caller) (am_arg input) ;;;
  am_log "KeyRotated" caller (am_arg input) blockNum ;;;
  mret (boolResult true).

(** The expiry is read after two words the length check does not cover. *)
Definition accountCreateSession (input caller : bytes) : HM bytes :=
  guard_err (length input <? 4 + 32 + 32 + 4)%nat "AccountManager: createSession input too short" ;;;
  let keyID := am_arg input in
  let sessionPubKey := take 32 (drop 36 input) in
  let* b0 := must (index input 132) in
  let* b1 := must (index input 133) in
  let* b2 := must (index input 134) in
  let* b3 := must (index input 135) in
  let expiryBlock := be_dec [b0; b1; b2; b3] in
  touch am_addr ;;;
  sstore am_addr (accountSessionKey caller keyID)
    (<[31%nat := u8 expiryBlock]> (<[30%nat := u8 (Z.shiftr expiryBlock 8)]>
       (copy_at 1 (take 31 sessionPubKey) zero32))) ;;;
  mret (boolResult true).

Definition accountRevokeSession (input caller : bytes) : HM bytes :=
  guard_err (length input <? 4 + 32)%nat "AccountManager: revokeSession input too short" ;;;
  touch am_addr ;;;
  let* sessionSlot := sload am_addr (accountSessionKey caller (am_arg input)) in
  guard_err (bool_decide (sessionSlot = zero32)) "AccountManager: session key not found" ;;;
  sstore am_addr (accountSessionKey caller (am_arg input)) (<[0%nat := 255]> sessionSlot) ;;;
  mret (boolResult true).

Definition accountGetSession (input caller : bytes) : HM bytes :=
  guard_err (length input <? 4 + 32)%nat "AccountManager: getSession input too short" ;;;
  touch am_addr ;;;
  let* sessionSlot := sload am_addr (accountSessionKey caller (am_arg input)) in
  guard_err (bool_decide (sessionSlot = zero32)) "AccountManager: session key not found" ;;;
  mret (<[32%nat := byte_at sessionSlot 0]> (copy_at 0 (drop 1 sessionSlot) (zeros 33))).

Definition accountSetGuardian (input caller : bytes) : HM bytes :=
  guard_err (length input <? 4 + 20 + 1)%nat "AccountManager: setGuardian input too short" ;;;
  let guardianAddr := take 20 (drop 4 input) in
  let weight := byte_at input 24 in
  touch am_addr ;;;
  let* countSlot := sload am_addr (accountGuardianCountKey caller) in
  let guardianCount := head_byte countSlot in
  guard_err (10 <=? guardianCount) "AccountManager: max 10 guardians" ;;;
  sstore am_addr (accountGuardianKey caller guardianCount)
    (<[20%nat := weight]> (copy_at 0 guardianAddr zero32)) ;;;
  sstore am_addr (accountGuardianCountKey caller) (<[0%nat := u8 (guardianCount + 1)]> countSlot) ;;;
  mret (boolResult true).

Definition accountGetGuardianCount (input : bytes) : HM bytes :=
  guard_err (length input <? 4 + 32)%nat "AccountManager: getGuardianCount input too short" ;;;
  touch am_addr ;;;
  let* countSlot := sload am_addr (accountGuardianCountKey (am_arg input)) in
  mret [head_byte countSlot].

Definition accountFreeze (caller : bytes) (blockNum : Z) : HM bytes :=
  touch am_addr ;;;
  let* stageSlot := sload am_addr (accountStageKey caller) in
  sstore am_addr (accountStageKey caller) (<[31%nat := 1]> stageSlot) ;;;
  am_log "AccountFrozen" caller [1] blockNum ;;;
  mret (boolResult true).

Definition accountUnfreeze (caller : bytes) : HM bytes :=
  touch am_addr ;;;
  let* stageSlot := sload am_addr (accountStageKey caller) in
  guard_err (negb (byte_at stageSlot 31 =? 1)) "AccountManager: account not frozen" ;;;
  sstore am_addr (accountStageKey caller) (<[31%nat := 0]> stageSlot) ;;;
  mret (boolResult true).

Definition accountManagerPrecompile : Handler := fun input caller blockNum =>
  guard_err (length input <? 4)%nat "AccountManager: input too short" ;;;
  let sel := selectorBytes input in
  if sel =? 0xB1C2D3E4 then accountGetStage input
  else if sel =? 0xC2D3E4F5 then accountGraduate caller blockNum
  else if sel =? 0xD3E4F5A6 then accountAdvance caller blockNum
  else if sel =? 0xE4F5A6B7 then accountRotateKey input caller blockNum
  else if sel =? 0xF5A6B7C8 then accountCreateSession input caller
  else if sel =? 0xA6B7C8D9 then accountRevokeSession input caller
  else if sel =? 0xB7C8D9E0 then accountGetSession input caller
  else if sel =? 0xC8D9E0F1 then accountSetGuardian input caller
  else if sel =? 0xD9E0F1A2 then accountGetGuardianCount input
  else if sel =? 0xE0F1A2B3 then accountFreeze caller blockNum
  else if sel =? 0xF1A2B3C4 then accountUnfreeze caller
  else fail "AccountManager: unknown selector 0x%08X".

(** ** The stage machine

    What the contract keeps of an account is a stage and a frozen flag. *)

Record AccState := mkAcc { as_stage : Z; as_frozen : bool }.

(** The specification: the transitions of an account by the calls of its owner, with
    the block of its graduation.  When an account may advance is left open: the code
    compares the block number with the waiting period, while its message speaks of
    thirty days in Stage 1 (see [waiting_period_is_global]). *)
Inductive stage_step (n : Z) : Z -> AccState * Z -> AccState * Z -> Prop :=
| graduates f g : stage_step n 0xC2D3E4F5 (mkAcc 0 f, g) (mkAcc 1 f, n)
| advances f g : stage_step n 0xD3E4F5A6 (mkAcc 1 f, g) (mkAcc 2 f, g)
| freezes s f g : stage_step n 0xE0F1A2B3 (mkAcc s f, g) (mkAcc s true, g)
| unfreezes s g : stage_step n 0xF1A2B3C4 (mkAcc s true, g) (mkAcc s false, g).

(** The effect of an owner's call as the code has it; [None] is a refusal. *)
Definition owner_effect (sel n : Z) (a : AccState) : option AccState :=
  if sel =? 0xC2D3E4F5 then if as_stage a =? 0 then Some (mkAcc 1 (as_frozen a)) else None
  else if sel =? 0xD3E4F5A6 then
    if (as_stage a =? 1) && (Stage1WaitingPeriod <=? n) then Some (mkAcc 2 (as_frozen a)) else None
  else if sel =? 0xE0F1A2B3 then Some (mkAcc (as_stage a) true)
  else if sel =? 0xF1A2B3C4 then if as_frozen a then Some (mkAcc (as_stage a) false) else None
  else Some a.

Definition encode_acc (a : AccState) : bytes := as_stage a :: zeros 30 ++ [bool_byte (as_frozen a)].
Definition holds (w : World) (x : bytes) (a : AccState) : Prop :=
  slot w am_addr (accountStageKey x) = encode_acc a.

Lemma encode_head a : head_byte (encode_acc a) = as_stage a.
Proof.
  unfold head_byte. case_bool_decide as E; [|done]. unfold encode_acc in E. by injection E.
Qed.
Lemma encode_stage a z : <[0%nat := z]> (encode_acc a) = encode_acc (mkAcc z (as_frozen a)).
Proof. done. Qed.
Lemma encode_frozen a f : <[31%nat := bool_byte f]> (encode_acc a) = encode_acc (mkAcc (as_stage a) f).
Proof. done. Qed.
Lemma encode_since a : decodeBlockNumber (encode_acc a) 1 = 0.
Proof. done. Qed.
Lemma encode_flag a : byte_at (encode_acc a) 31 = bool_byte (as_frozen a).
Proof. done. Qed.

(** An owner's stage call does what the machine says. *)
Definition stage_ops : list Z := [0xC2D3E4F5; 0xD3E4F5A6; 0xE0F1A2B3; 0xF1A2B3C4].

Lemma graduate_step caller n w a :
  holds w caller a ->
  match owner_effect 0xC2D3E4F5 n a with
  | Some a' => (accountGraduate caller n w).1 = Ok (boolResult true) /\ holds (accountGraduate caller n w).2 caller a'
  | None => is_ok (accountGraduate caller n w).1 = false /\ holds (accountGraduate caller n w).2 caller a
  end.
Proof.
  unfold holds. intros H. unfold accountGraduate, am_log, StageOnboarding. run_go. rewrite slot_touch, H, encode_head.
  cbn [owner_effect Z.eqb Pos.eqb]. destruct (as_stage a =? 0); cbn [negb fst snd is_ok].
  - split; [done|]. by rewrite slot_log, slot_set_eq.
  - by rewrite slot_touch.
Qed.
Lemma advance_step caller n w a :
  holds w caller a ->
  match owner_effect 0xD3E4F5A6 n a with
  | Some a' => (accountAdvance caller n w).1 = Ok (boolResult true) /\ holds (accountAdvance caller n w).2 caller a'
  | None => is_ok (accountAdvance caller n w).1 = false /\ holds (accountAdvance caller n w).2 caller a
  end.
Proof.
  unfold holds. intros H. unfold accountAdvance, am_log. run_go. rewrite slot_touch, H, encode_head, encode_since.
  change (u64 (0 + Stage1WaitingPeriod)) with Stage1WaitingPeriod. rewrite Z.ltb_antisym.
  cbn [owner_effect Z.eqb Pos.eqb]. unfold StageStandard.
  destruct (as_stage a =? 1), (Stage1WaitingPeriod <=? n); cbn [negb fst snd is_ok andb];
    rewrite ?slot_log, ?slot_set_eq, ?slot_touch; by split_and!.
Qed.
Lemma freeze_step caller n w a :
  holds w caller a ->
  match owner_effect 0xE0F1A2B3 n a with
  | Some a' => (accountFreeze caller n w).1 = Ok (boolResult true) /\ holds (accountFreeze caller n w).2 caller a'
  | None => is_ok (accountFreeze caller n w).1 = false /\ holds (accountFreeze caller n w).2 caller a
  end.
Proof.
  unfold holds. intros H. unfold accountFreeze, am_log. run_go. rewrite slot_touch, H.
  cbn [owner_effect Z.eqb Pos.eqb fst snd]. split; [done|]. by rewrite slot_log, slot_set_eq.
Qed.
Lemma unfreeze_step caller n w a :
  holds w caller a ->
  match owner_effect 0xF1A2B3C4 n a with
  | Some a' => (accountUnfreeze caller w).1 = Ok (boolResult true) /\ holds (accountUnfreeze caller w).2 caller a'
  | None => is_ok (accountUnfreeze caller w).1 = false /\ holds (accountUnfreeze caller w).2 caller a
  end.
Proof.
  unfold holds. intros H. unfold accountUnfreeze. run_go. rewrite slot_touch, H, encode_flag.
  cbn [owner_effect Z.eqb Pos.eqb]. destruct (as_frozen a); cbn [negb bool_byte Z.eqb Pos.eqb fst snd is_ok].
  - split; [done|]. by rewrite slot_set_eq.
  - by rewrite slot_touch.
Qed.

(** ** Other keys *)

Section Frame.
Context (x : bytes).

(** The preimages of the keys a call can write, next to the stage key of [x]. *)
Definition call_preimages (input caller : bytes) (w : World) : list bytes :=
  [AccountSlotStage :: x; AccountSlotStage :: caller; 5 :: caller;
   (AccountSlotSessionKeys :: caller) ++ am_arg input; 6 :: caller;
   (AccountSlotGuardians :: caller) ++ [head_byte (slot w am_addr (accountGuardianCountKey caller))]].

Definition same_stage := same_slots am_addr [accountStageKey x].

Lemma stage_kept w w' a : same_stage w w' -> holds w x a -> holds w' x a.
Proof. unfold holds. intros H <-. apply H. by left. Qed.

Lemma stage_store k v : k <> accountStageKey x -> respects same_stage (sstore am_addr k v).
Proof. intros H. apply frame_sstore. right. rewrite list_elem_of_singleton. congruence. Qed.

Ltac stage_frame :=
  unfold same_stage, am_log; frame_auto;
  lazymatch goal with
  | |- respects _ (sstore _ _ _) => apply stage_store; assumption
  | |- respects _ (addlog _ _ _ _) => apply frame_addlog
  end.

Lemma guardian_frame input caller w :
  accountGuardianKey caller (head_byte (slot w am_addr (accountGuardianCountKey caller))) <> accountStageKey x ->
  accountGuardianCountKey caller <> accountStageKey x ->
  same_stage w (accountSetGuardian input caller w).2.
Proof.
  intros H1 H2 k Hk. apply list_elem_of_singleton in Hk as ->.
  unfold accountSetGuardian. run_go. destruct (_ <? _)%nat; [done|].
  rewrite slot_touch. destruct (10 <=? _); cbn [snd]; [by rewrite slot_touch|].
  rewrite slot_set_ne by (right; congruence). rewrite slot_set_ne by (right; congruence).
  by rewrite slot_touch.
Qed.

(** Every operation but the caller's stage operations leaves [x]'s stage alone. *)
Lemma other_ops input caller n w :
  collision_free (call_preimages input caller w) ->
  selectorBytes input ∉ stage_ops \/ caller <> x ->
  same_stage w (accountManagerPrecompile input caller n w).2.
Proof.
  intros Hc Hs.
  assert (K1 : accountKeyKey caller <> accountStageKey x) by (unfold call_preimages in Hc; key_ne Hc).
  assert (K2 : accountSessionKey caller (am_arg input) <> accountStageKey x)
    by (unfold call_preimages in Hc; key_ne Hc).
  assert (K3 : accountGuardianCountKey caller <> accountStageKey x)
    by (unfold call_preimages in Hc; key_ne Hc).
  assert (K4 : accountGuardianKey caller (head_byte (slot w am_addr (accountGuardianCountKey caller))) <> accountStageKey x)
    by (unfold call_preimages in Hc; key_ne Hc).
  assert (K5 : caller <> x -> accountStageKey caller <> accountStageKey x).
  { intros Hne. apply (collision_free_ne _ _ _ Hc); unfold call_preimages; [pre_mem|pre_mem|congruence]. }
  assert (Hop : forall m : HM bytes, (caller <> x -> respects same_stage m) ->
                selectorBytes input ∈ stage_ops -> same_stage w (m w).2).
  { intros m Hm Hin. destruct Hs as [Hs|Hs]; [by destruct (Hs Hin)|]. by apply Hm. }
  assert (R : forall m : HM bytes, respects same_stage m -> same_stage w (m w).2) by (intros m Hm; apply Hm).
  unfold accountManagerPrecompile. unfold mbind, M_bind, guard_err.
  destruct (length input <? 4)%nat; [done|]. unfold mret, M_ret. cbv beta iota zeta.
  destruct (_ =? _). { apply R. unfold accountGetStage. unfold same_stage; frame_auto. }
  destruct (Z.eqb_spec (selectorBytes input) 0xC2D3E4F5) as [E|_].
  { apply Hop; [|rewrite E; by left]. intros Hne. specialize (K5 Hne). unfold accountGraduate. stage_frame. }
  destruct (Z.eqb_spec (selectorBytes input) 0xD3E4F5A6) as [E|_].
  { apply Hop; [|rewrite E; right; by left]. intros Hne. specialize (K5 Hne). unfold accountAdvance. stage_frame. }
  destruct (_ =? _). { apply R. unfold accountRotateKey. stage_frame. }
  destruct (_ =? _). { apply R. unfold accountCreateSession. stage_frame. }
  destruct (_ =? _). { apply R. unfold accountRevokeSession. stage_frame. }
  destruct (_ =? _). { apply R. unfold accountGetSession. unfold same_stage; frame_auto. }
  destruct (_ =? _); [by apply guardian_frame|].
  destruct (_ =? _). { apply R. unfold accountGetGuardianCount. unfold same_stage; frame_auto. }
  destruct (Z.eqb_spec (selectorBytes input) 0xE0F1A2B3) as [E|_].
  { apply Hop; [|rewrite E; right; right; by left]. intros Hne. specialize (K5 Hne). unfold accountFreeze. stage_frame. }
  destruct (Z.eqb_spec (selectorBytes input) 0xF1A2B3C4) as [E|_].
  { apply Hop; [|rewrite E; right; right; right; by left]. intros Hne. specialize (K5 Hne). unfold accountUnfreeze. stage_frame. }
  done.
Qed.
End Frame.

(** ** Refinement *)

Lemma own_call input caller n w a :
  holds w caller a -> selectorBytes input ∈ stage_ops ->
  match owner_effect (selectorBytes input) n a with
  | Some a' => (accountManagerPrecompile input caller n w).1 = Ok (boolResult true) /\
               holds (accountManagerPrecompile input caller n w).2 caller a'
  | None => is_ok (accountManagerPrecompile input caller n w).1 = false /\
            holds (accountManagerPrecompile input caller n w).2 caller a
  end.
Proof.
  intros H Hs. unfold accountManagerPrecompile, mbind, M_bind, guard_err.
  destruct (length input <? 4)%nat eqn:El.
  { exfalso. unfold selectorBytes in Hs. rewrite El in Hs. unfold stage_ops in Hs.
    rewrite !elem_of_cons in Hs. destruct Hs as [|[|[|[|Hs]]]]; try done. by apply not_elem_of_nil in Hs. }
  unfold mret, M_ret. cbv beta iota zeta. unfold stage_ops in Hs. rewrite !elem_of_cons in Hs.
  destruct Hs as [E|[E|[E|[E|Hs]]]]; [..|destruct (not_elem_of_nil _ Hs)];
    rewrite E; cbn [Z.eqb Pos.eqb].
  - by apply graduate_step.
  - by apply advance_step.
  - by apply freeze_step.
  - by apply unfreeze_step.
Qed.

(** A successful call of the owner to one of the four operations is a step of the
    machine; every other call, and every refusal, leaves the account alone. *)
Definition follows (x input caller : bytes) (n : Z) (ok : bool) (s s' : AccState * Z) : Prop :=
  if bool_decide (caller = x /\ selectorBytes input ∈ stage_ops) && ok
  then stage_step n (selectorBytes input) s s' else s' = s.

(** Calls of anybody, next to the run of [x]'s machine from an unused account. *)
Inductive account_run (x : bytes) (w0 : World) : World -> AccState * Z -> Prop :=
| run_nil : account_run x w0 w0 (mkAcc 0 false, 0)
| run_call input caller n w s r w' s' :
    account_run x w0 w s -> collision_free (call_preimages x input caller w) -> 0 <= n ->
    accountManagerPrecompile input caller n w = (r, w') ->
    follows x input caller n (is_ok r) s s' -> account_run x w0 w' s'.

Lemma stage_step_det n sel s s1 s2 : stage_step n sel s s1 -> stage_step n sel s s2 -> s1 = s2.
Proof. intros H1 H2. destruct H1; inversion H2; subst; done. Qed.

Lemma owner_stage_step sel n a g a' :
  sel ∈ stage_ops -> owner_effect sel n a = Some a' -> exists g', stage_step n sel (a, g) (a', g').
Proof.
  intros Hs. destruct a as [z f]. unfold stage_ops in Hs. rewrite !elem_of_cons in Hs.
  destruct Hs as [->|[->|[->|[->|Hs]]]]; [..|destruct (not_elem_of_nil _ Hs)];
    unfold owner_effect; cbn [Z.eqb Pos.eqb as_stage as_frozen].
  - destruct (Z.eqb_spec z 0) as [->|]; [|done]. intros [= <-]. eexists. constructor.
  - destruct (Z.eqb_spec z 1) as [->|]; cbn [andb]; [|done]. destruct (_ <=? _); [|done].
    intros [= <-]. eexists. constructor.
  - intros [= <-]. eexists. constructor.
  - destruct f; [|done]. intros [= <-]. eexists. constructor.
Qed.

(** Every call is followed by the machine, and the record with it. *)
Lemma call_follows x input caller n w a g r w' :
  collision_free (call_preimages x input caller w) -> holds w x a ->
  accountManagerPrecompile input caller n w = (r, w') ->
  exists s', follows x input caller n (is_ok r) (a, g) s' /\ holds w' x s'.1.
Proof.
  intros Hc H E. unfold follows. case_bool_decide as Hb; cbn [andb].
  - destruct Hb as [-> Hin]. pose proof (own_call input x n w a H Hin) as Hown. rewrite E in Hown.
    cbn [fst snd] in Hown. destruct (owner_effect (selectorBytes input) n a) as [a'|] eqn:Es.
    + destruct Hown as [-> Hh]. destruct (owner_stage_step _ _ _ g _ Hin Es) as [g' Hg].
      by exists (a', g').
    + destruct Hown as [-> Hh]. by exists (a, g).
  - exists (a, g). split; [done|]. cbn [fst].
    replace w' with (accountManagerPrecompile input caller n w).2 by (by rewrite E).
    apply (stage_kept x w); [|done]. apply other_ops; [done|]. destruct (decide (caller = x)) as [->|]; [left; intros Hin; by apply Hb|by right].
Qed.

Lemma follows_det x input caller n ok s s1 s2 :
  follows x input caller n ok s s1 -> follows x input caller n ok s s2 -> s1 = s2.
Proof.
  unfold follows. destruct (_ && _); [|congruence]. apply stage_step_det.
Qed.

Lemma account_run_inv x w0 w s :
  slot w0 am_addr (accountStageKey x) = zero32 -> account_run x w0 w s ->
  holds w x s.1 /\ as_stage s.1 ∈ [0; 1; 2] /\ 0 <= s.2.
Proof.
  intros H0. induction 1 as [|input caller n w [a g] r w' s' _ (IH1 & IH2 & IH3) Hc Hn E Hf].
  { split_and!; [exact H0|by left|done]. }
  cbn [fst snd] in *. destruct (call_follows _ _ _ _ _ _ g _ _ Hc IH1 E) as (s2 & Hf2 & Hh).
  rewrite (follows_det _ _ _ _ _ _ _ _ Hf Hf2). split; [done|]. clear Hf.
  unfold follows in Hf2. destruct (_ && _); [|by subst].
  inversion Hf2; subst; cbn [fst snd as_stage] in *; (split; [|lia]); try done;
    rewrite !elem_of_cons; tauto.
Qed.

(** C24 (account stages).  From an account that was never used, after any calls of
    anybody, the contract's record of an account is the state of its stage machine.
    Whatever call comes next, the machine follows it: only a successful call of the
    owner moves the account, from onboarding to standard or from standard to
    self-custody and never back, and freezing touches only the flag.  Graduating
    succeeds exactly in stage 0, freezing always, unfreezing exactly when frozen.
    Advancing succeeds only in stage 1 and not before block 2,592,000, and an account
    that has been in stage 1 for 2,592,000 blocks is not refused; between the two the
    code and its error message disagree, and nothing is claimed. *)
Theorem account_stage_refines x w0 w s input caller n r w' :
  slot w0 am_addr (accountStageKey x) = zero32 -> account_run x w0 w s ->
  collision_free (call_preimages x input caller w) -> 0 <= n ->
  accountManagerPrecompile input caller n w = (r, w') ->
  holds w x s.1 /\ as_stage s.1 ∈ [0; 1; 2] /\
  (exists s', follows x input caller n (is_ok r) s s' /\ holds w' x s'.1) /\
  (caller = x ->
     (selectorBytes input = 0xC2D3E4F5 -> (is_ok r = true <-> as_stage s.1 = 0)) /\
     (selectorBytes input = 0xD3E4F5A6 ->
        (is_ok r = true -> as_stage s.1 = 1 /\ Stage1WaitingPeriod <= n) /\
        (as_stage s.1 = 1 -> Stage1WaitingPeriod <= n - s.2 -> is_ok r = true)) /\
     (selectorBytes input = 0xE0F1A2B3 -> is_ok r = true) /\
     (selectorBytes input = 0xF1A2B3C4 -> (is_ok r = true <-> as_frozen s.1 = true))).
Proof.
  intros H0 Hr Hc Hn E. destruct (account_run_inv _ _ _ _ H0 Hr) as (Hh & Hst & Hg).
  destruct s as [a g]. cbn [fst snd] in *.
  split_and!; [done|done|by apply (call_follows x input caller n w a g r w')|]. intros ->.
  assert (Hown : selectorBytes input ∈ stage_ops ->
    is_ok r = match owner_effect (selectorBytes input) n a with Some _ => true | None => false end).
  { intros Hin. pose proof (own_call input x n w a Hh Hin) as Ho. rewrite E in Ho. cbn [fst snd] in Ho.
    destruct (owner_effect _ _ _); destruct Ho as [-> _]; done. }
  unfold stage_ops in Hown. rewrite !elem_of_cons in Hown. unfold owner_effect in Hown.
  split_and!; intros Es; rewrite Es in Hown; rewrite Hown by tauto; cbn [Z.eqb Pos.eqb].
  - destruct (Z.eqb_spec (as_stage a) 0); by split.
  - destruct (Z.eqb_spec (as_stage a) 1), (Z.leb_spec Stage1WaitingPeriod n); cbn [andb];
      split; try done; lia.
  - done.
  - by destruct (as_frozen a).
Qed.

(** ** Examples *)

Definition holder : bytes := lit "00000000000000000000000000000000000000ee".
Definition am_call (sel : Z) : bytes := be_enc 4 sel ++ zeros 32.
Definition run_am (sel : Z) (caller : bytes) (n : Z) (w : World) : World :=
  (accountManagerPrecompile (am_call sel) caller n w).2.
Definition graduated : World := run_am 0xC2D3E4F5 holder 2592000 NewStateDB.

(** A graduation at block 5, and an advance thirty days of blocks later. *)
Definition waited : World := run_am 0xC2D3E4F5 holder 5 NewStateDB.

Lemma account_stage_refines_witness :
  holds waited holder (mkAcc 1 false) /\
  is_ok (accountManagerPrecompile (am_call 0xD3E4F5A6) holder 2592005 waited).1 = true.
Proof.
  assert (Hr : account_run holder NewStateDB waited (mkAcc 1 false, 5)).
  { eapply (run_call _ _ (am_call 0xC2D3E4F5) holder 5 NewStateDB); [apply run_nil| | |apply surjective_pairing|].
    - apply collision_free_check. by vm_compute.
    - done.
    - apply (graduates 5 false 0). }
  destruct (account_stage_refines holder NewStateDB waited (mkAcc 1 false, 5) (am_call 0xD3E4F5A6) holder 2592005
    (accountManagerPrecompile (am_call 0xD3E4F5A6) holder 2592005 waited).1
    (accountManagerPrecompile (am_call 0xD3E4F5A6) holder 2592005 waited).2 eq_refl Hr)
    as (H1 & _ & _ & H2).
  - apply collision_free_check. by vm_compute.
  - done.
  - apply surjective_pairing.
  - split; [exact H1|]. destruct (H2 eq_refl) as (_ & Hadv & _). by apply (Hadv eq_refl).
Defined.

(** ** What the code does that its comments do not say *)

(** The block of the graduation is written to a copy, so the waiting period runs
    from block zero: the two stages can be passed in one block. *)
Lemma waiting_period_is_global :
  head_byte (slot (run_am 0xD3E4F5A6 holder 2592000 graduated) am_addr (accountStageKey holder)) = 2.
Proof. by vm_compute. Qed.

(** A frozen account still graduates and advances. *)
Lemma frozen_account_advances :
  let w := run_am 0xE0F1A2B3 holder 2592000 NewStateDB in
  head_byte (slot (run_am 0xD3E4F5A6 holder 2592000 (run_am 0xC2D3E4F5 holder 2592000 w)) am_addr
    (accountStageKey holder)) = 2.
Proof. by vm_compute. Qed.

(** A session call of the length that is checked panics. *)
Lemma short_session_panics :
  (accountManagerPrecompile (be_enc 4 0xF5A6B7C8 ++ zeros 68) holder 1 NewStateDB).1 = Panic.
Proof. by vm_compute. Qed.

(** The query names an account by 32 bytes, the operations by the caller's string
    of 40 or 64 characters: the stage of a graduated account reads as zero. *)
Lemma stage_query_misses :
  (accountManagerPrecompile (be_enc 4 0xB1C2D3E4 ++ take 32 holder) holder 1 graduated).1 = Ok [0].
Proof. by vm_compute. Qed.
