(* ===== verification/Privacy.v ===== *)
(** The privacy precompile (evm/privacy.go, address 0x1C): commitments, the
    structural checks that stand for proofs, and revocation. *)

From Stdlib Require Import ZArith Lia.
From S2P Require Import Prelude Sha256 Collections StateDB.
From stdpp Require Import gmap list.
Local Open Scope Z_scope.
Local Open Scope go_scope.

Definition PrivacySlotCommitments : Z := 1.
Definition PrivacySlotProofs : Z := 2.
Definition ProofTypeRange : Z := 0.
Definition privacy_addr : bytes := PrecompileAddrHex 28.
Definition privacyCommitKey (commitmentHash : bytes) : bytes := storageKey (PrivacySlotCommitments :: commitmentHash).
Definition privacyProofKey (proofHash : bytes) : bytes := storageKey (PrivacySlotProofs :: proofHash).

(** ** The structural checks *)

Definition hasNonZero (proof : bytes) : bool := existsb (fun b => negb (b =? 0)) proof.
Definition verifyRangeProof (minVal maxVal : Z) (proof : bytes) : bool :=
  if (length proof <? 32)%nat then false else hasNonZero proof && (minVal <? maxVal).
Definition verifyMembershipProof (merkleRoot proof : bytes) : bool :=
  if (length proof <? 32)%nat || negb (length merkleRoot =? 32)%nat then false else hasNonZero proof.
Definition verifyIdentityProof (attributeType : Z) (proof : bytes) : bool :=
  if (length proof <? 32)%nat then false
  else if 5 <? attributeType then false else hasNonZero proof.

(** ** Operations *)

(** Type, eight characters of the caller, the block. *)
Definition commit_record (proofType : Z) (caller : bytes) (blockNum : Z) : bytes :=
  copy_at 9 (be_enc 8 blockNum) (copy_at 1 (take 8 caller) (<[0%nat := proofType]> zero32)).
(** Only the first character of the caller enters the hash. *)
Definition commitment_hash (c : Z) (data : bytes) (proofType blockNum : Z) : bytes :=
  Sha256.sum256 (c :: data ++ [proofType] ++ fmt_d blockNum).

Definition privacyCommit (input caller : bytes) (blockNum : Z) : HM bytes :=
  guard_err (length input <? 4 + 1 + 32)%nat "Privacy: commit input too short" ;;;
  let proofType := byte_at input 4 in
  let data := take 32 (drop 5 input) in
  let* c := must (index caller 0) in
  let commitmentHash := commitment_hash c data proofType blockNum in
  touch privacy_addr ;;;
  sstore privacy_addr (privacyCommitKey commitmentHash) (commit_record proofType caller blockNum) ;;;
  addlog privacy_addr [storageKey (lit "CommitmentCreated"); commitmentHash] [proofType] blockNum ;;;
  mret commitmentHash.

Definition pv_commitment (input : bytes) : bytes := take 32 (drop 4 input).
Definition pv_log (event : string) (input : bytes) (data : bytes) : HM unit :=
  addlog privacy_addr [storageKey (lit event); pv_commitment input] data 0.

Definition privacyVerifyRange (input : bytes) : HM bytes :=
  guard_err (length input <? 4 + 32 + 32 + 32)%nat "Privacy: verifyRange input too short" ;;;
  let commitmentHash := pv_commitment input in
  let minVal := readBigInt (readSlot input 36) in
  let maxVal := readBigInt (readSlot input 68) in
  let proof := drop 100 input in
  touch privacy_addr ;;;
  let* commitSlot := sload privacy_addr (privacyCommitKey commitmentHash) in
  if bool_decide (commitSlot = zero32) then mret (boolResult false) else
  if negb (byte_at commitSlot 0 =? ProofTypeRange) then mret (boolResult false) else
  let valid := verifyRangeProof minVal maxVal proof in
  let proofHash := Sha256.sum256 (commitmentHash ++ proof) in
  sstore privacy_addr (privacyProofKey proofHash) (<[31%nat := bool_byte valid]> zero32) ;;;
  pv_log "RangeProofVerified" input (boolToBytes valid) ;;;
  mret (boolResult valid).

(** The buffer of the call after [append(commitmentHash, proof...)]: the slice
    has room for the proof, so the bytes after the commitment are overwritten. *)
Definition range_input_after (w : World) (input : bytes) : bytes :=
  let commitSlot := slot w privacy_addr (privacyCommitKey (pv_commitment input)) in
  if (length input <? 100)%nat || bool_decide (commitSlot = zero32)
     || negb (byte_at commitSlot 0 =? ProofTypeRange)
  then input else copy_at 36 (drop 100 input) input.

Definition privacyVerifyMembership (input : bytes) : HM bytes :=
  guard_err (length input <? 4 + 32 + 32)%nat "Privacy: verifyMembership input too short" ;;;
  let merkleRoot := take 32 (drop 36 input) in
  let proof := drop 68 input in
  touch privacy_addr ;;;
  let* commitSlot := sload privacy_addr (privacyCommitKey (pv_commitment input)) in
  if bool_decide (commitSlot = zero32) then mret (boolResult false) else
  let valid := verifyMembershipProof merkleRoot proof in
  pv_log "MembershipProofVerified" input (boolToBytes valid) ;;;
  mret (boolResult valid).

Definition privacyVerifyIdentity (input : bytes) : HM bytes :=
  guard_err (length input <? 4 + 32 + 1)%nat "Privacy: verifyIdentity input too short" ;;;
  let attributeType := byte_at input 36 in
  let proof := drop 37 input in
  touch privacy_addr ;;;
  let* commitSlot := sload privacy_addr (privacyCommitKey (pv_commitment input)) in
  if bool_decide (commitSlot = zero32) then mret (boolResult false) else
  let valid := verifyIdentityProof attributeType proof in
  pv_log "IdentityProofVerified" input (boolToBytes valid) ;;;
  mret (boolResult valid).

Definition privacyVerifyBalance (input : bytes) : HM bytes :=
  guard_err (length input <? 4 + 32 + 32)%nat "Privacy: verifyBalance input too short" ;;;
  let minBalance := readBigInt (readSlot input 36) in
  let proof := drop 68 input in
  let valid := (0 <? length proof)%nat && (0 <=? minBalance) in
  addlog privacy_addr [storageKey (lit "BalanceProofVerified")] (boolToBytes valid) 0 ;;;
  mret (boolResult valid).

Definition privacyGetCommitment (input : bytes) : HM bytes :=
  guard_err (length input <? 4 + 32)%nat "Privacy: getCommitment input too short" ;;;
  touch privacy_addr ;;;
  let* commitSlot := sload privacy_addr (privacyCommitKey (pv_commitment input)) in
  guard_err (bool_decide (commitSlot = zero32)) "Privacy: commitment not found" ;;;
  mret (byte_at commitSlot 0 :: take 8 (drop 9 commitSlot) ++ [bool_byte (byte_at commitSlot 0 =? 0)]).

Definition privacyRevoke (input : bytes) : HM bytes :=
  guard_err (length input <? 4 + 32)%nat "Privacy: revoke input too short" ;;;
  touch privacy_addr ;;;
  let* commitSlot := sload privacy_addr (privacyCommitKey (pv_commitment input)) in
  guard_err (bool_decide (commitSlot = zero32)) "Privacy: commitment not found" ;;;
  sstore privacy_addr (privacyCommitKey (pv_commitment input)) (<[0%nat := 0]> commitSlot) ;;;
  pv_log "CommitmentRevoked" input [0] ;;;
  mret (boolResult true).

Definition privacyPrecompile : Handler := fun input caller blockNum =>
  guard_err (length input <? 4)%nat "Privacy: input too short" ;;;
  let sel := selectorBytes input in
  if sel =? 0xC1D2E3F4 then privacyCommit input caller blockNum
  else if sel =? 0xD2E3F4A5 then privacyVerifyRange input
  else if sel =? 0xE3F4A5B6 then privacyVerifyMembership input
  else if sel =? 0xF4A5B6C7 then privacyVerifyIdentity input
  else if sel =? 0xA5B6C7D8 then privacyVerifyBalance input
  else if sel =? 0xB6C7D8E9 then privacyGetCommitment input
  else if sel =? 0xC7D8E9F0 then privacyRevoke input
  else fail "Privacy: unknown selector 0x%08X".

(** ** The record of a commitment *)

(** What a query answers from a record. *)
Definition commitment_view (s : bytes) : bytes :=
  byte_at s 0 :: take 8 (drop 9 s) ++ [bool_byte (byte_at s 0 =? 0)].

Lemma commit_record_fields t c rest n :
  let s := commit_record t (c :: rest) n in
  byte_at s 0 = t /\ byte_at s 1 = c /\ take 8 (drop 9 s) = be_enc 8 n /\ length s = 32%nat.
Proof.
  intros s. assert (L : length (copy_at 1 (take 8 (c :: rest)) (<[0%nat := t]> zero32)) = 32%nat).
  { rewrite copy_at_length; [done|]. cbn. lia. }
  subst s. unfold commit_record. set (b := copy_at 1 _ _) in *.
  assert (Hb : byte_at b 0 = t /\ byte_at b 1 = c) by done.
  split_and!.
  - destruct b as [|x b]; [discriminate L|]. apply Hb.
  - destruct b as [|x [|y b]]; [discriminate L..|]. apply Hb.
  - pose proof (copy_at_read 9 (be_enc 8 n) b) as H. rewrite be_enc_length in H. apply H. lia.
  - rewrite copy_at_length; lia.
Qed.

Lemma commit_record_nonzero t c rest n : c <> 0 -> commit_record t (c :: rest) n <> zero32.
Proof.
  intros Hc E. destruct (commit_record_fields t c rest n) as (_ & H1 & _). rewrite E in H1. by cbn in H1.
Qed.

Lemma pv_get input w :
  (36 <= length input)%nat ->
  let s := slot w privacy_addr (privacyCommitKey (pv_commitment input)) in
  (privacyGetCommitment input w).1 =
    (if bool_decide (s = zero32) then Err "Privacy: commitment not found" else Ok (commitment_view s)).
Proof.
  intros Hl s. unfold privacyGetCommitment. rewrite (proj2 (Nat.ltb_ge _ _)) by lia. run_go.
  rewrite slot_touch. fold s. by destruct (bool_decide _).
Qed.

(** Verification of a range: the verdict depends on the record's type and on the
    shape of the proof. *)
Lemma range_verdict input w :
  (100 <= length input)%nat ->
  let s := slot w privacy_addr (privacyCommitKey (pv_commitment input)) in
  (privacyVerifyRange input w).1 =
    Ok (boolResult (negb (bool_decide (s = zero32)) && (byte_at s 0 =? 0) &&
        verifyRangeProof (readBigInt (readSlot input 36)) (readBigInt (readSlot input 68)) (drop 100 input))).
Proof.
  intros Hl s. unfold privacyVerifyRange, pv_log, ProofTypeRange. rewrite (proj2 (Nat.ltb_ge _ _)) by lia. run_go.
  rewrite slot_touch. fold s. destruct (bool_decide _); [done|]. cbn [negb andb].
  by destruct (byte_at s 0 =? 0).
Qed.

(** Commitments.  A commitment can be queried by the hash that creation
    returns, with its type, its block and the revoked flag, which a range
    commitment carries from the start; a range proof for it is accepted exactly
    when its type is range, the bounds are in order and the proof has 32 bytes
    that are not all zero; after a revocation, by anybody, the query shows the
    same block, type zero and the flag. *)
Theorem commitment_roundtrip input c rest n w h w1 query rev :
  c <> 0 -> privacyCommit input (c :: rest) n w = (Ok h, w1) ->
  (100 <= length query)%nat -> pv_commitment query = h -> (36 <= length rev)%nat -> pv_commitment rev = h ->
  let t := byte_at input 4 in
  (privacyGetCommitment query w1).1 = Ok (t :: be_enc 8 n ++ [bool_byte (t =? 0)]) /\
  (privacyVerifyRange query w1).1 =
    Ok (boolResult ((t =? 0) &&
      verifyRangeProof (readBigInt (readSlot query 36)) (readBigInt (readSlot query 68)) (drop 100 query))) /\
  (privacyGetCommitment query (privacyRevoke rev w1).2).1 = Ok (0 :: be_enc 8 n ++ [1]).
Proof.
  intros Hc H Hl Hq Hlr Hrev t. unfold privacyCommit in H. inv_run H. fold t in Hq, Hrev |- *.
  match goal with E : index _ 0 = Some _ |- _ => cbn in E; injection E as <- end.
  destruct (commit_record_fields t c rest n) as (F1 & F2 & F3 & F4).
  pose proof (commit_record_nonzero t c rest n Hc) as Hnz.
  set (r := commit_record t (c :: rest) n) in *.
  set (w1 := AddLog _ _ _ _ _).
  assert (Hs : slot w1 privacy_addr (privacyCommitKey (pv_commitment query)) = r).
  { unfold w1. rewrite Hq, slot_log. fold r. apply slot_set_eq. }
  split_and!.
  - rewrite pv_get by lia. rewrite Hs, bool_decide_eq_false_2 by done. unfold commitment_view. by rewrite F1, F3.
  - rewrite range_verdict by lia. by rewrite Hs, bool_decide_eq_false_2, F1 by done.
  - rewrite pv_get by lia. unfold privacyRevoke, pv_log. rewrite (proj2 (Nat.ltb_ge _ _)) by lia. run_go.
    rewrite slot_touch, Hrev, <- Hq, Hs, (bool_decide_eq_false_2 (r = zero32)) by done. cbn [fst snd].
    rewrite slot_log, slot_set_eq.
    clearbody r. destruct r as [|x [|y r]]; [discriminate F4..|]. cbn [insert list_insert].
    rewrite bool_decide_eq_false_2; [|intros E; injection E as E1 E2; cbn in F2; congruence].
    unfold commitment_view. change (drop 9 (0 :: y :: r)) with (drop 9 (x :: y :: r)). by rewrite F3.
Qed.

(** ** Examples *)

Definition discloser : bytes := lit "d1".
Definition commit_call (t : Z) : bytes := be_enc 4 0xC1D2E3F4 ++ [t] ++ replicate 32 5.
Definition committed (t : Z) : World := (privacyPrecompile (commit_call t) discloser 9 NewStateDB).2.
Definition hash_of (t : Z) : bytes := commitment_hash 100 (replicate 32 5) t 9.
Definition range_call (t lo hi : Z) : bytes :=
  be_enc 4 0xD2E3F4A5 ++ hash_of t ++ be_enc 32 lo ++ be_enc 32 hi ++ replicate 32 1.
Definition revoke_call (t : Z) : bytes := be_enc 4 0xC7D8E9F0 ++ hash_of t.

Lemma commitment_roundtrip_witness :
  (privacyGetCommitment (range_call 0 1 2) (committed 0)).1 = Ok (0 :: be_enc 8 9 ++ [1]).
Proof.
  refine (proj1 (commitment_roundtrip (commit_call 0) 100 (lit "1") 9 NewStateDB (hash_of 0) (committed 0)
    (range_call 0 1 2) (revoke_call 0) _ _ _ _ _ _)).
  - done.
  - apply (ok_run (privacyCommit _ _ _ _)). by vm_compute.
  - apply Nat.leb_le. by vm_compute.
  - by vm_compute.
  - apply Nat.leb_le. by vm_compute.
  - by vm_compute.
Defined.

(** ** What the code does that its comments do not say *)

(** Any 32 bytes that are not all zero prove that a value lies in any range. *)
Lemma any_range_is_proved :
  (privacyVerifyRange (range_call 0 0 1) (committed 0)).1 = Ok (boolResult true) /\
  (privacyVerifyRange (range_call 0 (10 ^ 30) (10 ^ 31)) (committed 0)).1 = Ok (boolResult true).
Proof. by vm_compute. Qed.

(** Revocation writes the type of a range commitment: a revoked commitment of any
    other type then accepts range proofs. *)
Lemma revocation_enables_ranges :
  (privacyVerifyRange (range_call 2 1 2) (committed 2)).1 = Ok (boolResult false) /\
  (privacyVerifyRange (range_call 2 1 2) (privacyPrecompile (revoke_call 2) (lit "eve") 10 (committed 2)).2).1
    = Ok (boolResult true).
Proof. by vm_compute. Qed.

(** Two callers whose names begin alike share the commitment of the same data. *)
Lemma commitment_ignores_the_rest_of_the_caller :
  (privacyCommit (commit_call 2) (lit "d1") 9 NewStateDB).1 = (privacyCommit (commit_call 2) (lit "d2") 9 NewStateDB).1.
Proof. by vm_compute. Qed.

(** A call without a caller panics. *)
Lemma empty_caller_panics : (privacyPrecompile (commit_call 2) [] 9 NewStateDB).1 = Panic.
Proof. by vm_compute. Qed.

(** Verifying a range overwrites the bounds in the caller's buffer. *)
Lemma range_overwrites_input :
  range_input_after (committed 0) (range_call 0 1 2) =
    be_enc 4 0xD2E3F4A5 ++ hash_of 0 ++ replicate 32 1 ++ be_enc 32 2 ++ replicate 32 1.
Proof. by vm_compute. Qed.
