(* ===== verification/CrossChain.v ===== *)
(** The cross-chain attestation precompile (evm/cross_chain_attestation.go,
    address 0x1F): witnesses, challenges and the queries. *)

From Stdlib Require Import ZArith Lia.
From S2P Require Import Prelude Sha256 Collections StateDB.
From stdpp Require Import gmap list.
Local Open Scope Z_scope.
Local Open Scope go_scope.

Definition MaxAttestersPerEvent : Z := 20.
Definition ChallengeWindow : Z := 100.
Definition ccSlotAttestation : Z := 1.
Definition cc_addr : bytes := PrecompileAddrHex 31.

(** ** Keys *)

Definition ccAttestationKey (sourceChain : bytes) (sourceBlock : Z) (sourceTxHash : bytes) : bytes :=
  storageKey (ccSlotAttestation :: sourceChain ++ be_enc 8 sourceBlock ++ sourceTxHash).
(** The attester's mark is an account, named by eight bytes of the event key. *)
Definition ccAttesterKey (attKey attester : bytes) : bytes :=
  lit "cc_att_" ++ fmt_x (take 8 attKey) ++ lit "_" ++ attester.

Definition isVerifiedOracle (caller : bytes) (w : World) : bool :=
  match GetAccount w caller with Some a => 2 <=? DoxDevLevel a | None => false end.

(** ** The event of a call and its record *)

Definition sourceChain (input : bytes) : bytes := take 32 (drop 4 input).
Definition sourceBlock (input : bytes) : Z := big_u64 (be_dec (take 32 (drop 36 input))).
Definition sourceTxHash (input : bytes) : bytes := take 32 (drop 68 input).
Definition att_key (input : bytes) : bytes :=
  ccAttestationKey (sourceChain input) (sourceBlock input) (sourceTxHash input).

Definition att_count (slot : bytes) : Z := be_dec (take 2 slot).
Definition first_block (slot : bytes) : Z := be_dec (take 8 (drop 2 slot)).
Definition confidence_of (attCount : Z) : Z :=
  if 10 <=? attCount then 100
  else if 5 <=? attCount then 75
  else if 3 <=? attCount then 50
  else if 1 <=? attCount then 25
  else 0.
(** Count, first block, confidence, no challenge, twenty bytes of the hash of the
    attester's mark. *)
Definition att_record (attCount firstAttBlock : Z) (attesterKey : bytes) : bytes :=
  be_enc 2 attCount ++ be_enc 8 firstAttBlock ++ [confidence_of attCount; 0] ++
  take 20 (Sha256.sum256 attesterKey).

(** ** Operations *)

Definition ccWitnessEvent (input caller : bytes) (blockNum : Z) : HM bytes :=
  guard_err (length input <? 4 + 32 + 32 + 32)%nat "CrossChainAttestation: witness input too short" ;;;
  let* verified := gets (isVerifiedOracle caller) in
  guard_err (negb verified) "CrossChainAttestation: caller not verified (need Dox_Dev 2+)" ;;;
  let attKey := att_key input in
  touch cc_addr ;;;
  let* existing := sload cc_addr attKey in
  let fresh := bool_decide (existing = zero32) in
  let attCount := if fresh then 0 else att_count existing in
  let firstAttBlock := if fresh then blockNum else first_block existing in
  let attesterKey := ccAttesterKey attKey caller in
  let* seen := gets (fun w => Exist w attesterKey) in
  guard_err seen "CrossChainAttestation: attester already witnessed this event" ;;;
  guard_err ((0 <? attCount) && (u64 (firstAttBlock + ChallengeWindow) <? blockNum))
    "CrossChainAttestation: challenge window expired" ;;;
  let attCount := if MaxAttestersPerEvent <? attCount + 1 then MaxAttestersPerEvent else attCount + 1 in
  touch attesterKey ;;;
  modify (upd_acct attesterKey (with_level 1)) ;;;
  sstore cc_addr attKey (att_record attCount firstAttBlock attesterKey) ;;;
  let eventHash := Sha256.sum256 (sourceChain input ++ sourceTxHash input) in
  let commitHash := Sha256.sum256 (caller ++ lit ":" ++ fmt_d blockNum ++ lit ":" ++ fmt_x eventHash) in
  addlog cc_addr [storageKey (lit "Witnessed"); commitHash] [u8 attCount] blockNum ;;;
  mret (be_enc 2 attCount ++ [confidence_of attCount] ++ be_enc 8 firstAttBlock).

Definition ccGetAttestation (input : bytes) : HM bytes :=
  guard_err (length input <? 4 + 32 + 32 + 32)%nat "CrossChainAttestation: getAttestation input too short" ;;;
  touch cc_addr ;;;
  let* slot := sload cc_addr (att_key input) in
  guard_err (bool_decide (slot = zero32)) "CrossChainAttestation: no attestation found" ;;;
  mret (be_enc 2 (att_count slot) ++ [byte_at slot 10] ++ be_enc 8 (first_block slot) ++
        be_enc 8 (first_block slot) ++ [byte_at slot 11]).

Definition ccChallengeAttestation (input caller : bytes) (blockNum : Z) : HM bytes :=
  guard_err (length input <? 4 + 32 + 32 + 32)%nat "CrossChainAttestation: challenge input too short" ;;;
  touch cc_addr ;;;
  let* slot := sload cc_addr (att_key input) in
  guard_err (bool_decide (slot = zero32)) "CrossChainAttestation: no attestation to challenge" ;;;
  let attCount := att_count slot in
  if u64 (first_block slot + ChallengeWindow) <? blockNum then mret (zeros 5) else
  if byte_at slot 11 =? 1 then mret (zeros 5) else
  sstore cc_addr (att_key input) (<[11%nat := 1]> slot) ;;;
  sstore cc_addr (att_key input) (<[10%nat := 0]> (<[11%nat := 1]> slot)) ;;;
  let challengeHash := Sha256.sum256
    (lit "challenge:" ++ caller ++ lit ":" ++ fmt_d blockNum ++ lit ":" ++ fmt_x (sourceTxHash input)) in
  addlog cc_addr [storageKey (lit "Challenged"); challengeHash] [u8 attCount] blockNum ;;;
  mret ([1] ++ be_enc 2 attCount ++ [0]).

Definition ccGetAttestationCount (input : bytes) : HM bytes :=
  guard_err (length input <? 4 + 32 + 32 + 32)%nat "CrossChainAttestation: getCount input too short" ;;;
  touch cc_addr ;;;
  let* slot := sload cc_addr (att_key input) in
  mret (if bool_decide (slot = zero32) then [0; 0] else be_enc 2 (att_count slot)).

Definition crossChainAttestationPrecompile : Handler := fun input caller blockNum =>
  guard_err (length input <? 4)%nat "CrossChainAttestation: input too short" ;;;
  let sel := selectorBytes input in
  if sel =? 0xC1A2B3D4 then ccWitnessEvent input caller blockNum
  else if sel =? 0xD2B3C4E5 then ccGetAttestation input
  else if sel =? 0xE3C4D5F6 then ccChallengeAttestation input caller blockNum
  else if sel =? 0xF4D5E6A7 then ccGetAttestationCount input
  else fail "CrossChainAttestation: unknown selector 0x%08X".

(** ** Records *)

(** Every slot of the account is empty or a record: between one and twenty
    attesters, with the confidence of their number, or none once challenged. *)
Definition record_ok (s : bytes) : Prop :=
  s = zero32 \/
  exists c fb conf flag rest,
    s = be_enc 2 c ++ be_enc 8 fb ++ [conf; flag] ++ rest /\ length rest = 20%nat /\
    1 <= c <= MaxAttestersPerEvent /\
    ((flag = 0 /\ conf = confidence_of c) \/ (flag = 1 /\ conf = 0)).
Definition records_ok (w : World) : Prop := forall k, record_ok (slot w cc_addr k).

Lemma record_count c fb tail : 0 <= c < 2 ^ 16 -> att_count (be_enc 2 c ++ be_enc 8 fb ++ tail) = c.
Proof.
  intros Hc. unfold att_count. rewrite take_app_length' by (by rewrite be_enc_length).
  by apply be_dec_enc_small.
Qed.

Lemma att_record_ok c fb a : 1 <= c <= MaxAttestersPerEvent -> record_ok (att_record c fb a).
Proof.
  intros Hc. right. exists c, fb, (confidence_of c), 0, (take 20 (Sha256.sum256 a)).
  split_and!; [done| |apply Hc|apply Hc|by left]. rewrite length_take, Sha256.sum256_length. lia.
Qed.

Lemma challenge_ok s : record_ok s -> s <> zero32 -> record_ok (<[10%nat := 0]> (<[11%nat := 1]> s)).
Proof.
  intros [->|(c & fb & conf & flag & rest & -> & Hl & Hc & _)] Hz; [done|].
  right. exists c, fb, 0, 1, rest. by split_and!; [..|apply Hc|apply Hc|right].
Qed.

Lemma next_count_ok s :
  record_ok s ->
  let c := if bool_decide (s = zero32) then 0 else att_count s in
  1 <= (if MaxAttestersPerEvent <? c + 1 then MaxAttestersPerEvent else c + 1) <= MaxAttestersPerEvent.
Proof.
  intros Hs c. assert (0 <= c).
  { subst c. case_bool_decide as E; [lia|].
    destruct Hs as [->|(c & fb & conf & flag & rest & -> & _ & Hc & _)]; [done|].
    unfold MaxAttestersPerEvent in Hc. rewrite record_count by lia. lia. }
  unfold MaxAttestersPerEvent in *. destruct (Z.ltb_spec 20 (c + 1)); lia.
Qed.

Lemma records_ok_set k v w : record_ok v -> records_ok w -> records_ok (set_slot cc_addr k v w).
Proof. intros Hv H k'. rewrite slot_set. case_decide; [done|apply H]. Qed.
Lemma records_ok_touch a w : records_ok w -> records_ok (GetOrCreateAccount a w).
Proof. intros H k. rewrite slot_touch. apply H. Qed.
Lemma records_ok_level a l w : records_ok w -> records_ok (upd_acct a (with_level l) w).
Proof.
  intros H k. replace (slot (upd_acct a (with_level l) w) cc_addr k) with (slot w cc_addr k); [apply H|].
  unfold slot. rewrite acct_upd. by case_decide as E; [rewrite E|].
Qed.

(** ** Marks: an account is never removed *)

Definition keeps_accounts (w w' : World) : Prop := forall a, Exist w a = true -> Exist w' a = true.
#[local] Instance keeps_accounts_preorder : PreOrder keeps_accounts.
Proof. split; [by intros w a|]. intros x y z H1 H2 a H. by apply H2, H1. Qed.

Lemma exist_upd a f w b : Exist (upd_acct a f w) b = bool_decide (a = b) || Exist w b.
Proof.
  unfold Exist, upd_acct. cbn [accounts with_accounts]. rewrite lookup_insert.
  by case_decide; case_bool_decide.
Qed.
Lemma exist_touch a w b : Exist (GetOrCreateAccount a w) b = bool_decide (a = b) || Exist w b.
Proof.
  unfold Exist, GetOrCreateAccount. destruct (accounts w !! a) as [x|] eqn:E.
  - case_bool_decide as Hab; [subst; by rewrite E|done].
  - cbn [accounts with_accounts]. rewrite lookup_insert. by case_decide; case_bool_decide.
Qed.

Lemma exist_log a t d n w b : Exist (AddLog a t d n w) b = Exist w b.
Proof. done. Qed.

Lemma keeps_touch a : respects keeps_accounts (touch a).
Proof. intros w b H. unfold touch, modify. cbn [snd]. by rewrite exist_touch, H, orb_true_r. Qed.
Lemma keeps_upd a f : respects keeps_accounts (modify (upd_acct a f)).
Proof. intros w b H. unfold modify. cbn [snd]. by rewrite exist_upd, H, orb_true_r. Qed.
Lemma keeps_log a t d n : respects keeps_accounts (addlog a t d n).
Proof. by intros w b H. Qed.

Lemma keeps_call input caller n : respects keeps_accounts (crossChainAttestationPrecompile input caller n).
Proof.
  unfold crossChainAttestationPrecompile, ccWitnessEvent, ccGetAttestation, ccChallengeAttestation,
    ccGetAttestationCount. cbv zeta.
  repeat lazymatch goal with
  | |- respects _ (touch _) => apply keeps_touch
  | |- respects _ (sstore _ _ _) => apply keeps_upd
  | |- respects _ (modify (upd_acct _ _)) => apply keeps_upd
  | |- respects _ (addlog _ _ _ _) => apply keeps_log
  | |- _ => frame_step
  end.
Qed.

(** ** Calls *)

Lemma records_witness input caller n w : records_ok w -> records_ok (ccWitnessEvent input caller n w).2.
Proof.
  intros H. pose proof (records_ok_touch cc_addr w H) as H1.
  unfold ccWitnessEvent. run_go. destruct (_ <? _)%nat; [done|]. destruct (negb _); [done|].
  rewrite slot_touch. pose proof (next_count_ok _ (H (att_key input))) as Hc. cbv zeta in Hc.
  destruct (Exist _ _); [done|]. destruct (_ && _); [done|]. cbn [snd].
  intros k. rewrite slot_log. revert k. apply records_ok_set; [by apply att_record_ok|].
  by apply records_ok_level, records_ok_touch.
Qed.

Lemma records_challenge input caller n w :
  records_ok w -> records_ok (ccChallengeAttestation input caller n w).2.
Proof.
  intros H. pose proof (records_ok_touch cc_addr w H) as H1.
  unfold ccChallengeAttestation. run_go. destruct (_ <? _)%nat; [done|].
  rewrite slot_touch. destruct (bool_decide _) eqn:Ez; [done|]. apply bool_decide_eq_false in Ez.
  destruct (_ <? n); [done|]. destruct (_ =? 1); [done|]. cbn [snd].
  intros k. rewrite slot_log. rewrite !slot_set. case_decide.
  - by apply challenge_ok.
  - apply H1.
Qed.

Lemma records_call input caller n w :
  records_ok w -> records_ok (crossChainAttestationPrecompile input caller n w).2.
Proof.
  intros H. unfold crossChainAttestationPrecompile, mbind, M_bind, guard_err.
  destruct (_ <? _)%nat; [done|]. unfold mret, M_ret. cbv beta iota zeta.
  destruct (_ =? _); [by apply records_witness|].
  destruct (_ =? _).
  { unfold ccGetAttestation. run_go. destruct (_ <? _)%nat; [done|]. destruct (bool_decide _); by apply records_ok_touch. }
  destruct (_ =? _); [by apply records_challenge|].
  destruct (_ =? _); [|done].
  unfold ccGetAttestationCount. run_go. destruct (_ <? _)%nat; [done|]. by apply records_ok_touch.
Qed.

Inductive cc_calls (w : World) : World -> Prop :=
| cc_refl : cc_calls w w
| cc_step input caller n w1 :
    cc_calls w w1 -> cc_calls w (crossChainAttestationPrecompile input caller n w1).2.

Lemma cc_calls_keep w w' : cc_calls w w' -> keeps_accounts w w' /\ (records_ok w -> records_ok w').
Proof.
  induction 1 as [|input caller n w1 _ [IH1 IH2]]; [by split|]. split.
  - etrans; [exact IH1|apply keeps_call].
  - intros H. by apply records_call, IH2.
Qed.

Lemma witness_marks input caller n w out w' :
  ccWitnessEvent input caller n w = (Ok out, w') -> Exist w' (ccAttesterKey (att_key input) caller) = true.
Proof.
  intros H. unfold ccWitnessEvent in H. inv_run H. rewrite exist_log. unfold set_slot.
  rewrite !exist_upd. set (k := ccAttesterKey _ _).
  rewrite (bool_decide_eq_true_2 (k = k)) by reflexivity. apply orb_true_r.
Qed.

Lemma witnessed_refused input caller n w :
  Exist w (ccAttesterKey (att_key input) caller) = true -> is_ok (ccWitnessEvent input caller n w).1 = false.
Proof.
  intros H. unfold ccWitnessEvent. run_go. destruct (_ <? _)%nat; [done|]. destruct (negb _); [done|].
  by rewrite exist_touch, H, orb_true_r.
Qed.

(** C38 (attestations).  From a contract without records, after any calls of
    anybody, every record counts between one and twenty attesters and carries
    their confidence, or none once it is challenged; and whoever has witnessed an
    event cannot witness it again, whatever is called in between. *)
Theorem attestation_sound w0 w input caller n out w1 w' input' n' :
  (forall k, slot w0 cc_addr k = zero32) -> cc_calls w0 w ->
  ccWitnessEvent input caller n w = (Ok out, w1) -> cc_calls w1 w' -> att_key input' = att_key input ->
  records_ok w' /\
  is_ok (ccWitnessEvent input' caller n' w').1 = false.
Proof.
  intros H0 Hc H Hc' Hk.
  assert (Hok : records_ok w) by (apply (cc_calls_keep w0 w Hc); intros k; left; apply H0).
  pose proof (records_witness input caller n w Hok) as Hok1. rewrite H in Hok1.
  destruct (cc_calls_keep w1 w' Hc') as [Hkeep Hrec]. split; [by apply Hrec|].
  apply witnessed_refused. rewrite Hk. by apply Hkeep, (witness_marks _ _ _ _ _ _ H).
Qed.

(** ** Examples *)

Definition attester : bytes := lit "00000000000000000000000000000000000000a7".
Definition cc_call (sel : Z) : bytes := be_enc 4 sel ++ replicate 32 1 ++ be_enc 32 77 ++ replicate 32 2.
Definition oracle_world : World := upd_acct attester (with_level 2) NewStateDB.
Definition witnessed : World := (crossChainAttestationPrecompile (cc_call 0xC1A2B3D4) attester 5 oracle_world).2.
Definition challenged : World :=
  (crossChainAttestationPrecompile (cc_call 0xE3C4D5F6) (lit "eve") 6 witnessed).2.

Lemma attestation_sound_witness :
  is_ok (ccWitnessEvent (cc_call 0) attester 7 challenged).1 = false.
Proof.
  refine (proj2 (attestation_sound oracle_world oracle_world (cc_call 0xC1A2B3D4) attester 5
    (be_enc 2 1 ++ [25] ++ be_enc 8 5) witnessed challenged (cc_call 0) 7 _ _ _ _ _)).
  - intros k. reflexivity.
  - apply cc_refl.
  - apply (ok_run (ccWitnessEvent _ _ _ _)). by vm_compute.
  - apply (cc_step witnessed (cc_call 0xE3C4D5F6) (lit "eve") 6 witnessed). apply cc_refl.
  - by vm_compute.
Defined.

(** ** What the code does that its comments do not say *)

Definition second_oracle : bytes := lit "00000000000000000000000000000000000000a8".
Definition attested_after_challenge : World :=
  (crossChainAttestationPrecompile (cc_call 0xC1A2B3D4) second_oracle 7
     (upd_acct second_oracle (with_level 2) challenged)).2.

(** The next attestation clears a challenge and its slashed confidence. *)
Lemma challenge_is_forgotten :
  let k := att_key (cc_call 0) in
  byte_at (slot challenged cc_addr k) 11 = 1 /\
  byte_at (slot attested_after_challenge cc_addr k) 11 = 0 /\
  byte_at (slot attested_after_challenge cc_addr k) 10 = 25.
Proof. by vm_compute. Qed.

(** Anybody challenges, without a bond. *)
Lemma challenge_is_free :
  bal challenged (lit "eve") = 0 /\ byte_at (slot challenged cc_addr (att_key (cc_call 0))) 10 = 0.
Proof. by vm_compute. Qed.

(** An account that happens to carry the name of an attester's mark keeps the
    attester out. *)
Lemma mark_can_be_squatted :
  let mark := ccAttesterKey (att_key (cc_call 0)) attester in
  (ccWitnessEvent (cc_call 0) attester 5 (GetOrCreateAccount mark oracle_world)).1 =
    Err "CrossChainAttestation: attester already witnessed this event".
Proof. by vm_compute. Qed.

(** A refused challenge answers five bytes, an accepted one four. *)
Lemma challenge_results_differ :
  (ccChallengeAttestation (cc_call 0) (lit "eve") 7 challenged).1 = Ok (zeros 5) /\
  (ccChallengeAttestation (cc_call 0) (lit "eve") 6 witnessed).1 = Ok [1; 0; 1; 0].
Proof. by vm_compute. Qed.
