(* ===== verification/MineralRights.v ===== *)
(** The mineral rights precompile (evm/mineral_rights.go, address 0x20): claims,
    their verification, reserves, issuance, monitoring and transfer, and the
    encoding of a claim in ten storage slots. *)

From Stdlib Require Import ZArith Lia.
From S2P Require Import Prelude Sha256 Collections StateDB Econo TwoWay.
From stdpp Require Import gmap list.
Local Open Scope Z_scope.
Local Open Scope go_scope.

(** ** Data *)

Definition RoleLawyer : Z := 1.
Definition RoleSurveyor : Z := 2.
Definition TierInferred : Z := 1.
Definition TierIndicated : Z := 2.
Definition TierMeasured : Z := 3.
Definition ClaimStatusPending : Z := 1.
Definition ClaimStatusVerified : Z := 2.
Definition ClaimStatusReserved : Z := 3.
Definition ClaimStatusIssued : Z := 4.
Definition ClaimStatusActive : Z := 5.
Definition ClaimStatusFrozen : Z := 6.
Definition ClaimStatusCancelled : Z := 7.

Record MineralClaim := mkClaim {
  mc_DeedHash : bytes; mc_ClaimOwner : bytes; mc_Transferee : bytes;
  mc_TotalOunces : Z; mc_TokenSupply : Z; mc_VerifiedDate : Z; mc_IssueDate : Z;
  mc_Status : Z; mc_ConfidenceTier : Z; mc_EnvCheckBlock : Z; mc_VerifierCount : Z;
  mc_SpotPrice : Z;
}.
Definition empty_claim : MineralClaim := mkClaim zero32 [] [] 0 0 0 0 0 0 0 0 0.

Definition mrt_addr : bytes := PrecompileAddrHex 32.
Definition claim_slot (i : Z) (claimID : bytes) : bytes := storageKey (i :: claimID).
Definition mrtVerifierKey (claimID verifier : bytes) : bytes := storageKey (11 :: claimID ++ verifier).
Definition mrtBalanceKey (claimID owner : bytes) : bytes := storageKey (12 :: claimID ++ owner).
Definition verifierCountKey (claimID : bytes) : bytes := storageKey (13 :: claimID).
Definition claimCountKey : bytes := storageKey [1].

(** ** The slots of a claim *)

(** A slot read as a string ends at its first zero byte. *)
Fixpoint until_zero (s : bytes) : bytes :=
  match s with [] => [] | x :: s => if x =? 0 then [] else x :: until_zero s end.
Definition slot_u64 (w : World) (k : bytes) : Z := big_u64 (be_dec (slot w mrt_addr k)).

Definition mrtGetClaimStorage (w : World) (claimID : bytes) : MineralClaim :=
  let s0 := slot w mrt_addr (claim_slot 1 claimID) in
  let s3 := slot w mrt_addr (claim_slot 4 claimID) in
  if bool_decide (s0 = zero32) then empty_claim else
  mkClaim s0
    (until_zero (slot w mrt_addr (claim_slot 2 claimID)))
    (until_zero (slot w mrt_addr (claim_slot 3 claimID)))
    (slot_u64 w (claim_slot 5 claimID)) (slot_u64 w (claim_slot 6 claimID))
    (slot_u64 w (claim_slot 7 claimID)) (slot_u64 w (claim_slot 8 claimID))
    (byte_at s3 0) (byte_at s3 1)
    (slot_u64 w (claim_slot 9 claimID)) (byte_at s3 2)
    (slot_u64 w (claim_slot 10 claimID)).

(** The writes of [mrtSetClaimStorage], in order: an empty owner or transferee is
    not written. *)
Definition string_slot (i : Z) (claimID s : bytes) : list (bytes * bytes) :=
  if bool_decide (s = []) then [] else [(claim_slot i claimID, copy_at 0 s zero32)].
Definition claim_writes (claimID : bytes) (c : MineralClaim) : list (bytes * bytes) :=
  [(claim_slot 1 claimID, copy_at 0 (mc_DeedHash c) zero32)] ++
  string_slot 2 claimID (mc_ClaimOwner c) ++ string_slot 3 claimID (mc_Transferee c) ++
  [(claim_slot 4 claimID, [mc_Status c; mc_ConfidenceTier c; mc_VerifierCount c] ++ zeros 29);
   (claim_slot 5 claimID, be_enc 32 (mc_TotalOunces c));
   (claim_slot 6 claimID, be_enc 32 (mc_TokenSupply c));
   (claim_slot 7 claimID, be_enc 32 (mc_VerifiedDate c));
   (claim_slot 8 claimID, be_enc 32 (mc_IssueDate c));
   (claim_slot 9 claimID, be_enc 32 (mc_EnvCheckBlock c));
   (claim_slot 10 claimID, be_enc 32 (mc_SpotPrice c))].
Definition set_slots (a : bytes) (l : list (bytes * bytes)) (w : World) : World :=
  fold_left (fun w kv => set_slot a kv.1 kv.2 w) l w.
Definition mrtSetClaimStorage (claimID : bytes) (c : MineralClaim) : HM unit :=
  modify (set_slots mrt_addr (claim_writes claimID c)).

(** ** Counters and roles *)

Definition mrtCountVerifiers (w : World) (claimID : bytes) : Z :=
  byte_at (slot w mrt_addr (verifierCountKey claimID)) 0.
Definition mrtIncrementVerifierCount (claimID : bytes) : HM unit :=
  let* s := sload mrt_addr (verifierCountKey claimID) in
  sstore mrt_addr (verifierCountKey claimID) (<[0%nat := u8 (byte_at s 0 + 1)]> s).
Definition mrtIncrementClaimCount : HM unit :=
  let* n := sread mrt_addr claimCountKey in
  sstore_fill mrt_addr claimCountKey (n + 1).

Definition is_l2 (w : World) (caller : bytes) : bool :=
  match GetAccount w caller with None => false | Some a => 2 <=? DoxDevLevel a end.
Definition claim_arg (input : bytes) : bytes := take 32 (drop 4 input).
Definition mrt_log (topics : list bytes) (data : bytes) (blockNum : Z) : HM unit :=
  addlog mrt_addr topics data blockNum.

Definition with_status (s : Z) (c : MineralClaim) : MineralClaim :=
  mkClaim (mc_DeedHash c) (mc_ClaimOwner c) (mc_Transferee c) (mc_TotalOunces c) (mc_TokenSupply c)
    (mc_VerifiedDate c) (mc_IssueDate c) s (mc_ConfidenceTier c) (mc_EnvCheckBlock c)
    (mc_VerifierCount c) (mc_SpotPrice c).

(** ** Operations *)

Definition new_claim_id (input caller : bytes) (blockNum : Z) : bytes :=
  Sha256.sum256 (caller ++ lit ":" ++ fmt_x (take 32 (drop 4 input)) ++ lit ":" ++ fmt_d blockNum).
Definition claim_owner (input caller : bytes) : bytes :=
  let owner := trimRightZeros (take 32 (drop 68 input)) in
  if bool_decide (owner = []) then caller else owner.

Definition mrtRegisterClaim (input caller : bytes) (blockNum : Z) : HM bytes :=
  guard_err (length input <? 4 + 32 + 32 + 32)%nat "MRT: registerClaim input too short" ;;;
  let deedHash := take 32 (drop 4 input) in
  let* ok := gets (fun w => is_l2 w caller) in
  guard_err (negb ok) "MRT: caller not verified (need Dox_Dev 2+)" ;;;
  let claimID := new_claim_id input caller blockNum in
  touch mrt_addr ;;;
  let* existing := sload mrt_addr (claim_slot 1 claimID) in
  guard_err (negb (bool_decide (existing = zero32))) "MRT: claim already exists" ;;;
  mrtSetClaimStorage claimID
    (mkClaim deedHash (claim_owner input caller) [] 0 0 0 0 ClaimStatusPending 0 0 0 0) ;;;
  mrtIncrementClaimCount ;;;
  mrt_log [claimID; deedHash] [ClaimStatusPending] blockNum ;;;
  mret claimID.

Definition claimStatusName (status : Z) : string :=
  if status =? 1 then "PENDING" else if status =? 2 then "VERIFIED"
  else if status =? 3 then "RESERVED" else if status =? 4 then "ISSUED"
  else if status =? 5 then "ACTIVE" else if status =? 6 then "FROZEN"
  else if status =? 7 then "CANCELLED" else "UNKNOWN".

Definition mrtApproveReserve (input caller : bytes) (blockNum : Z) : HM bytes :=
  guard_err (length input <? 4 + 32 + 32 + 32)%nat "MRT: approveReserve input too short" ;;;
  let claimID := claim_arg input in
  let tierBytes := take 32 (drop 36 input) in
  let ouncesBytes := take 32 (drop 68 input) in
  let tier := byte_at tierBytes 31 in
  let ounces := big_u64 (be_dec ouncesBytes) in
  let* ok := gets (fun w => is_l2 w caller) in
  guard_err (negb ok) "MRT: caller not verified (need Dox_Dev 2+ geologist/lab)" ;;;
  touch mrt_addr ;;;
  let* claim := gets (fun w => mrtGetClaimStorage w claimID) in
  guard_err (mc_Status claim =? 0) "MRT: claim not found" ;;;
  guard_err (mc_Status claim <? ClaimStatusVerified) "MRT: claim must be verified first" ;;;
  guard_err (ClaimStatusReserved <=? mc_Status claim) "MRT: reserves already approved" ;;;
  let* verifierCount := gets (fun w => mrtCountVerifiers w claimID) in
  (if tier =? TierMeasured then guard_err (verifierCount <? 3) "MRT: Measured tier requires 3+ verifiers"
   else if tier =? TierIndicated then guard_err (verifierCount <? 3) "MRT: Indicated tier requires 3+ verifiers"
   else if tier =? TierInferred then guard_err (verifierCount <? 2) "MRT: Inferred tier requires 2+ verifiers"
   else fail "MRT: invalid tier %d") ;;;
  mrtSetClaimStorage claimID
    (mkClaim (mc_DeedHash claim) (mc_ClaimOwner claim) (mc_Transferee claim) ounces (mc_TokenSupply claim)
       blockNum (mc_IssueDate claim) ClaimStatusReserved tier (mc_EnvCheckBlock claim) verifierCount
       (mc_SpotPrice claim)) ;;;
  mrt_log [claimID; tierBytes] (take 8 ouncesBytes) blockNum ;;;
  mret (1 :: be_enc 8 ounces).

Definition issuance_rate (tier : Z) : option Z :=
  if tier =? TierMeasured then Some 800000
  else if tier =? TierIndicated then Some 600000
  else if tier =? TierInferred then Some 400000 else None.

Definition mrtIssueTokens (input caller : bytes) (blockNum : Z) : HM bytes :=
  guard_err (length input <? 4 + 32)%nat "MRT: issueTokens input too short" ;;;
  let claimID := claim_arg input in
  touch mrt_addr ;;;
  let* claim := gets (fun w => mrtGetClaimStorage w claimID) in
  guard_err (mc_Status claim =? 0) "MRT: claim not found" ;;;
  guard_err (mc_Status claim <? ClaimStatusReserved) "MRT: reserves must be approved first" ;;;
  guard_err (ClaimStatusIssued <=? mc_Status claim) "MRT: tokens already issued" ;;;
  match issuance_rate (mc_ConfidenceTier claim) with
  | None => fail "MRT: invalid confidence tier"
  | Some issuanceRate =>
      let tokenSupply := mc_TotalOunces claim in
      let issuanceValue := u64 (tokenSupply * issuanceRate) / 1000000 in
      mrtSetClaimStorage claimID
        (mkClaim (mc_DeedHash claim) (mc_ClaimOwner claim) (mc_Transferee claim) (mc_TotalOunces claim)
           tokenSupply (mc_VerifiedDate claim) blockNum ClaimStatusIssued (mc_ConfidenceTier claim)
           (mc_EnvCheckBlock claim) (mc_VerifierCount claim) 20000000000) ;;;
      let* prevBal := sread mrt_addr (mrtBalanceKey claimID (mc_ClaimOwner claim)) in
      sstore_fill mrt_addr (mrtBalanceKey claimID (mc_ClaimOwner claim)) (prevBal + tokenSupply) ;;;
      mrt_log [claimID] (take 8 (be_enc 32 tokenSupply)) blockNum ;;;
      mret (1 :: be_enc 8 tokenSupply ++ be_enc 8 issuanceValue)
  end.

Definition mrtGetClaim (input : bytes) : HM bytes :=
  guard_err (length input <? 4 + 32)%nat "MRT: getClaim input too short" ;;;
  touch mrt_addr ;;;
  let* claim := gets (fun w => mrtGetClaimStorage w (claim_arg input)) in
  guard_err (mc_Status claim =? 0) "MRT: claim not found" ;;;
  mret (mc_Status claim :: be_enc 8 (mc_TotalOunces claim) ++ be_enc 8 (mc_TokenSupply claim) ++
        [mc_ConfidenceTier claim; mc_VerifierCount claim]).

Definition mrtGetTokens (input : bytes) : HM bytes :=
  guard_err (length input <? 4 + 32 + 32)%nat "MRT: getTokens input too short" ;;;
  let claimID := claim_arg input in
  let owner := trimRightZeros (take 32 (drop 36 input)) in
  touch mrt_addr ;;;
  let* balance := sload mrt_addr (mrtBalanceKey claimID owner) in
  let* claim := gets (fun w => mrtGetClaimStorage w claimID) in
  mret (take 8 (drop 24 balance) ++ be_enc 8 (mc_TotalOunces claim)).

Definition mrtEnvironmentalCheck (input caller : bytes) (blockNum : Z) : HM bytes :=
  guard_err (length input <? 4 + 32 + 32)%nat "MRT: environmentalCheck input too short" ;;;
  let claimID := claim_arg input in
  let blockBytes := take 32 (drop 36 input) in
  let checkBlock := big_u64 (be_dec blockBytes) in
  let* ok := gets (fun w => is_l2 w caller) in
  guard_err (negb ok) "MRT: caller not verified (need Dox_Dev 2+ inspector)" ;;;
  touch mrt_addr ;;;
  let* claim := gets (fun w => mrtGetClaimStorage w claimID) in
  guard_err (mc_Status claim =? 0) "MRT: claim not found" ;;;
  guard_err (mc_Status claim <? ClaimStatusIssued) "MRT: claim not yet active" ;;;
  mrtSetClaimStorage claimID
    (mkClaim (mc_DeedHash claim) (mc_ClaimOwner claim) (mc_Transferee claim) (mc_TotalOunces claim)
       (mc_TokenSupply claim) (mc_VerifiedDate claim) (mc_IssueDate claim) ClaimStatusActive
       (mc_ConfidenceTier claim) checkBlock (mc_VerifierCount claim) (mc_SpotPrice claim)) ;;;
  mrt_log [claimID; blockBytes] [1] blockNum ;;;
  mret [1; 1].

Definition current_holder (claim : MineralClaim) : bytes :=
  if bool_decide (mc_Transferee claim <> []) then mc_Transferee claim else mc_ClaimOwner claim.

Definition mrtTransferRights (input caller : bytes) (blockNum : Z) : HM bytes :=
  guard_err (length input <? 4 + 32 + 32)%nat "MRT: transferRights input too short" ;;;
  let claimID := claim_arg input in
  let newOwnerBytes := take 32 (drop 36 input) in
  let newOwner := trimRightZeros newOwnerBytes in
  touch mrt_addr ;;;
  let* claim := gets (fun w => mrtGetClaimStorage w claimID) in
  guard_err (mc_Status claim =? 0) "MRT: claim not found" ;;;
  guard_err (negb (bool_decide (caller = current_holder claim))) "MRT: only current rights holder can transfer" ;;;
  mrtSetClaimStorage claimID
    (mkClaim (mc_DeedHash claim) (mc_ClaimOwner claim) newOwner (mc_TotalOunces claim)
       (mc_TokenSupply claim) (mc_VerifiedDate claim) (mc_IssueDate claim) (mc_Status claim)
       (mc_ConfidenceTier claim) (mc_EnvCheckBlock claim) (mc_VerifierCount claim) (mc_SpotPrice claim)) ;;;
  mrt_log [claimID; newOwnerBytes] [1] blockNum ;;;
  mret [1].

Section Roles.
Context {MR : MapRange}.

(** The scan of [mrtGetVerifierRoles] over every slot of the account. *)
Definition role_of (claimID : bytes) (val : bytes) : option Z :=
  if (1 <=? byte_at val 0) && (byte_at val 0 <=? 5) && bool_decide (take 30 (drop 2 val) = take 30 claimID)
  then Some (byte_at val 0) else None.
Definition mrtGetVerifierRoles (w : World) (claimID : bytes) : list Z :=
  omap (fun e => role_of claimID e.2) (map_range (Storage (acct w mrt_addr))).

Definition mrtVerifyClaim (input caller : bytes) (blockNum : Z) : HM bytes :=
  guard_err (length input <? 4 + 32 + 32 + 1)%nat "MRT: verifyClaim input too short" ;;;
  let claimID := claim_arg input in
  let approved := byte_at input 68 in
  let role := byte_at input 67 in
  let* ok := gets (fun w => is_l2 w caller) in
  guard_err (negb ok) "MRT: caller not verified (need Dox_Dev 2+)" ;;;
  touch mrt_addr ;;;
  let* claim := gets (fun w => mrtGetClaimStorage w claimID) in
  guard_err (mc_Status claim =? 0) "MRT: claim not found" ;;;
  guard_err ((mc_Status claim =? ClaimStatusCancelled) || (mc_Status claim =? ClaimStatusFrozen))
    "MRT: claim is %s" ;;;
  let* seen := sload mrt_addr (mrtVerifierKey claimID caller) in
  guard_err (negb (bool_decide (seen = zero32))) "MRT: verifier already attested" ;;;
  sstore mrt_addr (mrtVerifierKey claimID caller) ([role; approved] ++ take 30 claimID) ;;;
  mrtIncrementVerifierCount claimID ;;;
  let* verifierCount := gets (fun w => mrtCountVerifiers w claimID) in
  let* roles := gets (fun w => mrtGetVerifierRoles w claimID) in
  let advance := (mc_Status claim =? ClaimStatusPending) && (approved =? 1) && (2 <=? verifierCount) &&
    bool_decide (RoleLawyer ∈ roles) && bool_decide (RoleSurveyor ∈ roles) in
  let claim' := if advance then with_status ClaimStatusVerified claim else claim in
  (if advance then mrtSetClaimStorage claimID claim' else mret tt) ;;;
  mrt_log [claimID; zeros 31 ++ [role]] [approved] blockNum ;;;
  (if (mc_Status claim' =? ClaimStatusVerified) && (approved =? 1)
   then modify (EconoAccrueMRT (mc_TokenSupply claim') blockNum) else mret tt) ;;;
  mret [1; verifierCount].

Definition mineralRightsPrecompile : Handler := fun input caller blockNum =>
  guard_err (length input <? 4)%nat "MRT: input too short" ;;;
  let sel := selectorBytes input in
  if sel =? 0xA1B2C3D4 then mrtRegisterClaim input caller blockNum
  else if sel =? 0xB2C3D4E5 then mrtVerifyClaim input caller blockNum
  else if sel =? 0xC3D4E5A6 then mrtApproveReserve input caller blockNum
  else if sel =? 0xD4E5A6B7 then mrtIssueTokens input caller blockNum
  else if sel =? 0xE5A6B7C8 then mrtGetClaim input
  else if sel =? 0xF6B7C8D9 then mrtGetTokens input
  else if sel =? 0xA7B8C9D0 then mrtEnvironmentalCheck input caller blockNum
  else if sel =? 0xB8C9D0E1 then mrtTransferRights input caller blockNum
  else fail "MRT: unknown selector 0x%08X".
End Roles.

(** ** Lists of writes *)

Lemma set_slots_out a l w b k :
  a <> b \/ k ∉ l.*1 -> slot (set_slots a l w) b k = slot w b k.
Proof.
  unfold set_slots. revert w. induction l as [|[k1 v1] l IH]; intros w H; [done|]. cbn [fold_left fst snd].
  rewrite IH by (destruct H as [H|H]; [by left|right; set_solver]).
  apply slot_set_ne. destruct H as [H|H]; [by left|right]. set_solver.
Qed.

Lemma set_slots_in a l w k v :
  NoDup l.*1 -> (k, v) ∈ l -> slot (set_slots a l w) a k = v.
Proof.
  unfold set_slots. revert w. induction l as [|[k1 v1] l IH]; intros w Hn Hin; [by apply not_elem_of_nil in Hin|].
  cbn [fold_left fst snd fmap list_fmap] in *. apply NoDup_cons in Hn as [Hk Hn].
  apply elem_of_cons in Hin as [[= <- <-]|Hin]; [|by apply IH].
  change (fold_left _ l (set_slot a k v w)) with (set_slots a l (set_slot a k v w)).
  rewrite set_slots_out by (by right). apply slot_set_eq.
Qed.

Lemma set_slots_typed a l w b :
  Forall (fun kv => length kv.1 = 32%nat /\ length kv.2 = 32%nat /\ wf_bytes kv.2) l ->
  slots_typed b w -> slots_typed b (set_slots a l w).
Proof.
  unfold set_slots. intros Hl. revert w. induction Hl as [|[k v] l (Hk & Hv & Hw) Hl IH]; intros w Ht; [done|].
  apply IH. by apply slots_typed_set.
Qed.

(** ** Strings in slots *)

Lemma until_zero_app s t :
  Forall (fun x => x <> 0) s -> (t = [] \/ exists t', t = 0 :: t') -> until_zero (s ++ t) = s.
Proof.
  intros Hs Ht. induction Hs as [|x s Hx Hs IH].
  - by destruct Ht as [->|[t' ->]].
  - cbn. apply Z.eqb_neq in Hx. by rewrite Hx, IH.
Qed.

Lemma string_slot_read s :
  Forall (fun x => x <> 0) s -> (length s <= 32)%nat -> until_zero (copy_at 0 s zero32) = s.
Proof.
  intros Hs Hl. unfold copy_at, zeros. rewrite length_replicate, drop_replicate, (take_ge s) by lia.
  rewrite take_0. cbn [app]. apply until_zero_app; [done|].
  destruct (32 - (0 + length s))%nat; [by left|right; by eexists].
Qed.

Lemma slot_u64_enc z : is_u64 z -> big_u64 (be_dec (be_enc 32 z)) = z.
Proof.
  intros Hz. unfold is_u64 in Hz. rewrite be_dec_enc_small; [by apply big_u64_small|].
  change (256 ^ Z.of_nat 32) with (2 ^ 256). lia.
Qed.

(** ** Claims are stored and read back *)

Definition claim_indices : list Z := [1; 2; 3; 4; 5; 6; 7; 8; 9; 10].
Definition claim_preimages (claimID : bytes) : list bytes := map (fun i => i :: claimID) claim_indices.

Definition slot_string (s : bytes) : Prop := Forall (fun x => x <> 0) s /\ (length s <= 32)%nat.
Record claim_wf (c : MineralClaim) : Prop := {
  cw_deed : length (mc_DeedHash c) = 32%nat /\ mc_DeedHash c <> zero32;
  cw_words : Forall is_u64 [mc_TotalOunces c; mc_TokenSupply c; mc_VerifiedDate c; mc_IssueDate c;
                            mc_EnvCheckBlock c; mc_SpotPrice c];
}.

(** What a claim reads as after it is stored over an older one: an empty string
    keeps the older string, and a string ends at its first zero byte or after
    32 bytes. *)
Definition stored_string (old s : bytes) : bytes :=
  if bool_decide (s = []) then old else until_zero (copy_at 0 s zero32).
Definition stored_over (old c : MineralClaim) : MineralClaim :=
  mkClaim (mc_DeedHash c) (stored_string (mc_ClaimOwner old) (mc_ClaimOwner c))
    (stored_string (mc_Transferee old) (mc_Transferee c))
    (mc_TotalOunces c) (mc_TokenSupply c) (mc_VerifiedDate c) (mc_IssueDate c) (mc_Status c)
    (mc_ConfidenceTier c) (mc_EnvCheckBlock c) (mc_VerifierCount c) (mc_SpotPrice c).

(** The strings in the slots, whether or not the claim exists. *)
Definition old_strings (w : World) (claimID : bytes) : MineralClaim :=
  mkClaim [] (until_zero (slot w mrt_addr (claim_slot 2 claimID)))
    (until_zero (slot w mrt_addr (claim_slot 3 claimID))) 0 0 0 0 0 0 0 0 0.

Section Claim.
Context (claimID : bytes) (Hid : collision_free (claim_preimages claimID)).

Lemma claim_slot_inj i j :
  i ∈ claim_indices -> j ∈ claim_indices -> claim_slot i claimID = claim_slot j claimID -> i = j.
Proof.
  intros Hi Hj E. destruct (decide (i = j)) as [|Hne]; [done|]. exfalso.
  apply (collision_free_ne _ (i :: claimID) (j :: claimID) Hid); [..|congruence|exact E];
    apply list_elem_of_In, in_map_iff; eexists; (split; [reflexivity|by apply list_elem_of_In]).
Qed.

Definition written_indices (c : MineralClaim) : list Z :=
  [1] ++ (if bool_decide (mc_ClaimOwner c = []) then [] else [2]) ++
  (if bool_decide (mc_Transferee c = []) then [] else [3]) ++ [4; 5; 6; 7; 8; 9; 10].

Lemma claim_writes_keys c :
  (claim_writes claimID c).*1 = (fun i => claim_slot i claimID) <$> written_indices c.
Proof.
  unfold claim_writes, string_slot, written_indices.
  by destruct (bool_decide (mc_ClaimOwner c = [])), (bool_decide (mc_Transferee c = [])).
Qed.

Lemma written_indices_ok c : NoDup (written_indices c) /\ (forall i, i ∈ written_indices c -> i ∈ claim_indices).
Proof.
  unfold written_indices.
  destruct (bool_decide (mc_ClaimOwner c = [])), (bool_decide (mc_Transferee c = []));
    (split; [apply (bool_decide_unpack _); vm_compute; exact I|]);
    cbn [app]; intros i Hi; unfold claim_indices; set_solver.
Qed.

Lemma claim_writes_nodup c : NoDup (claim_writes claimID c).*1.
Proof.
  rewrite claim_writes_keys. destruct (written_indices_ok c) as [Hn Hin].
  apply NoDup_fmap_2_strong; [|done]. intros x y Hx Hy. apply claim_slot_inj; auto.
Qed.

Lemma claim_unwritten c i : i ∈ claim_indices -> i ∉ written_indices c ->
  claim_slot i claimID ∉ (claim_writes claimID c).*1.
Proof.
  rewrite claim_writes_keys. intros Hi Hn Hin. apply list_elem_of_fmap in Hin as (j & E & Hj).
  apply Hn. rewrite (claim_slot_inj i j); [done|done| |done]. by apply written_indices_ok in Hj.
Qed.

Lemma claim_slot1_set c w :
  length (mc_DeedHash c) = 32%nat ->
  slot (set_slots mrt_addr (claim_writes claimID c) w) mrt_addr (claim_slot 1 claimID) = mc_DeedHash c.
Proof.
  intros Ld. rewrite (set_slots_in _ _ _ _ (copy_at 0 (mc_DeedHash c) zero32)).
  - unfold copy_at. rewrite take_0. cbn [app]. unfold zeros. rewrite length_replicate, drop_replicate, Ld.
    cbn [Nat.sub Nat.add replicate]. rewrite app_nil_r. by rewrite <- Ld, firstn_all.
  - apply claim_writes_nodup.
  - apply elem_of_app. left. by left.
Qed.

(** A claim over a zero deed hash is not seen. *)
Lemma claim_get_zero c w :
  mc_DeedHash c = zero32 ->
  mrtGetClaimStorage (set_slots mrt_addr (claim_writes claimID c) w) claimID = empty_claim.
Proof.
  intros Hz. unfold mrtGetClaimStorage. rewrite claim_slot1_set, Hz by (by rewrite Hz).
  by rewrite bool_decide_eq_true_2.
Qed.

Lemma claim_get_set c w :
  claim_wf c ->
  mrtGetClaimStorage (set_slots mrt_addr (claim_writes claimID c) w) claimID =
  stored_over (old_strings w claimID) c.
Proof.
  intros [[Ld Hd] Hw]. set (w' := set_slots _ _ _).
  assert (Hin : forall k v, (k, v) ∈ claim_writes claimID c -> slot w' mrt_addr k = v)
    by (intros k v; apply set_slots_in, claim_writes_nodup).
  rewrite !Forall_cons in Hw. destruct Hw as (W1 & W2 & W3 & W4 & W5 & W6 & _).
  assert (S1 : slot w' mrt_addr (claim_slot 1 claimID) = mc_DeedHash c) by (by apply claim_slot1_set).
  assert (St : forall i s old, (i = 2 /\ s = mc_ClaimOwner c) \/ (i = 3 /\ s = mc_Transferee c) ->
    old = until_zero (slot w mrt_addr (claim_slot i claimID)) ->
    until_zero (slot w' mrt_addr (claim_slot i claimID)) = stored_string old s).
  { intros i s old Hi ->. unfold stored_string. case_bool_decide as E.
    - f_equal. apply set_slots_out. right. apply claim_unwritten.
      + destruct Hi as [[-> _]|[-> _]]; unfold claim_indices; set_solver.
      + unfold written_indices. destruct Hi as [[-> ->]|[-> ->]]; rewrite (bool_decide_eq_true_2 _ E);
          case_bool_decide; set_solver.
    - rewrite (Hin _ (copy_at 0 s zero32)); [reflexivity|].
      unfold claim_writes, string_slot. rewrite !elem_of_app. right.
      destruct Hi as [[-> ->]|[-> ->]]; rewrite (bool_decide_eq_false_2 _ E); [left|right; left]; by left. }
  assert (Sw : forall i v, (claim_slot i claimID, be_enc 32 v) ∈ claim_writes claimID c -> is_u64 v ->
                           slot_u64 w' (claim_slot i claimID) = v).
  { intros i v Hi Hv. unfold slot_u64. rewrite (Hin _ _ Hi). by apply slot_u64_enc. }
  assert (Tl : forall x l, x ∈ l -> x ∈ [(claim_slot 1 claimID, copy_at 0 (mc_DeedHash c) zero32)] ++
    string_slot 2 claimID (mc_ClaimOwner c) ++ string_slot 3 claimID (mc_Transferee c) ++ l).
  { intros x l Hx. rewrite !elem_of_app. auto. }
  unfold mrtGetClaimStorage, stored_over, old_strings. cbn [mc_ClaimOwner mc_Transferee].
  rewrite S1, bool_decide_eq_false_2 by done.
  rewrite (St 2 (mc_ClaimOwner c) _ ltac:(by left) eq_refl), (St 3 (mc_Transferee c) _ ltac:(by right) eq_refl).
  rewrite (Hin (claim_slot 4 claimID) ([mc_Status c; mc_ConfidenceTier c; mc_VerifierCount c] ++ zeros 29))
    by (apply Tl; by left).
  rewrite (Sw 5 (mc_TotalOunces c)), (Sw 6 (mc_TokenSupply c)), (Sw 7 (mc_VerifiedDate c)),
    (Sw 8 (mc_IssueDate c)), (Sw 9 (mc_EnvCheckBlock c)), (Sw 10 (mc_SpotPrice c));
    try assumption; try (apply Tl; repeat (first [apply list_elem_of_here | apply list_elem_of_further])).
  done.
Qed.
End Claim.

Lemma stored_string_same old s :
  slot_string s -> (s = [] -> old = []) -> stored_string old s = s.
Proof.
  intros [H1 H2] He. unfold stored_string. case_bool_decide as E; [by rewrite E, He|by apply string_slot_read].
Qed.

(** ** What a claim becomes *)

#[local] Arguments set_slots : simpl never.
#[local] Arguments claim_writes : simpl never.
#[local] Arguments mrtGetClaimStorage : simpl never.
#[local] Arguments be_enc : simpl never.

Lemma get_claim_slots w w' id :
  (forall i, i ∈ claim_indices -> slot w' mrt_addr (claim_slot i id) = slot w mrt_addr (claim_slot i id)) ->
  mrtGetClaimStorage w' id = mrtGetClaimStorage w id.
Proof.
  intros H. unfold mrtGetClaimStorage, slot_u64.
  rewrite !H by (unfold claim_indices; repeat (first [apply list_elem_of_here | apply list_elem_of_further])).
  done.
Qed.

Lemma get_claim_touch w a id : mrtGetClaimStorage (GetOrCreateAccount a w) id = mrtGetClaimStorage w id.
Proof. apply get_claim_slots. intros i _. apply slot_touch. Qed.

Lemma until_zero_string s : (length s <= 32)%nat -> slot_string (until_zero s).
Proof.
  intros H. assert (Hs : Forall (fun x => x <> 0) (until_zero s) /\ (length (until_zero s) <= length s)%nat).
  { clear H. induction s as [|x s [IH1 IH2]]; [split; [constructor|done]|]. cbn.
    destruct (Z.eqb_spec x 0); cbn; [split; [constructor|lia]|split; [by constructor|lia]]. }
  split; [apply Hs|lia].
Qed.

(** A claim that is found is well formed, and its strings fit their slots. *)
Lemma found_wf w id :
  slots_typed mrt_addr w -> mc_Status (mrtGetClaimStorage w id) <> 0 ->
  claim_wf (mrtGetClaimStorage w id) /\ slot_string (mc_ClaimOwner (mrtGetClaimStorage w id)) /\
  slot_string (mc_Transferee (mrtGetClaimStorage w id)).
Proof.
  intros Ht Hs. unfold mrtGetClaimStorage in *. case_bool_decide as Hz; [by destruct Hs|].
  cbn [mc_ClaimOwner mc_Transferee].
  split_and!; [|by apply until_zero_string; rewrite (slot_length _ _ _ Ht) ..].
  split; cbn [mc_DeedHash].
  - split; [by apply slot_length|done].
  - cbn. repeat (constructor; [apply u64_range|]). constructor.
Qed.

(** A write to a claim that is found. *)
Lemma update_found w id c :
  collision_free (claim_preimages id) -> mc_Status (mrtGetClaimStorage w id) <> 0 -> claim_wf c ->
  mrtGetClaimStorage (set_slots mrt_addr (claim_writes id c) w) id =
  stored_over (mrtGetClaimStorage w id) c.
Proof.
  intros Hc Hs Hwf. rewrite claim_get_set by done. unfold old_strings.
  unfold mrtGetClaimStorage in *. case_bool_decide; [by destruct Hs|done].
Qed.

Lemma stored_over_same old c :
  mc_ClaimOwner c = mc_ClaimOwner old -> mc_Transferee c = mc_Transferee old ->
  slot_string (mc_ClaimOwner old) -> slot_string (mc_Transferee old) -> stored_over old c = c.
Proof.
  intros Ho Ht H1 H2. unfold stored_over. rewrite Ho, Ht, !stored_string_same by done.
  rewrite <- Ho, <- Ht. by destruct c.
Qed.

Lemma claim_slot_other id k i :
  collision_free (claim_preimages id ++ [k]) -> i ∈ claim_indices -> i :: id <> k ->
  storageKey k <> claim_slot i id.
Proof.
  intros Hc Hi Hne. apply (collision_free_ne _ k (i :: id) Hc).
  - apply elem_of_app. right. by left.
  - apply elem_of_app. left. apply list_elem_of_In, in_map_iff. eexists.
    split; [reflexivity|by apply list_elem_of_In].
  - done.
Qed.

Lemma collision_free_sub a b : (forall x, x ∈ a -> x ∈ b) -> collision_free b -> collision_free a.
Proof.
  unfold collision_free. rewrite !Forall_forall. intros Hs H x Hx. specialize (H x (Hs x Hx)).
  rewrite Forall_forall in H |- *. intros y Hy. apply H, Hs, Hy.
Qed.

(** ** The life of a claim *)

#[local] Arguments set_slots : simpl never.
#[local] Arguments claim_writes : simpl never.
#[local] Arguments mrtGetClaimStorage : simpl never.
#[local] Arguments be_enc : simpl never.

Definition required_verifiers (tier : Z) : Z := if tier =? TierInferred then 2 else 3.
Definition with_transferee (o : bytes) (c : MineralClaim) : MineralClaim :=
  mkClaim (mc_DeedHash c) (mc_ClaimOwner c) o (mc_TotalOunces c) (mc_TokenSupply c) (mc_VerifiedDate c)
    (mc_IssueDate c) (mc_Status c) (mc_ConfidenceTier c) (mc_EnvCheckBlock c) (mc_VerifierCount c)
    (mc_SpotPrice c).

(** The steps of a claim in a call: the caller and whether it is verified, the
    block, the votes before the call, and the roles with the call's vote. *)
Inductive claim_step (l2 : bool) (caller : bytes) (n votes : Z) (roles : list Z) :
  MineralClaim -> MineralClaim -> Prop :=
| claim_kept c : claim_step l2 caller n votes roles c c
| claim_registered c c' :
    l2 = true -> mc_Status c = 0 -> mc_Status c' = ClaimStatusPending ->
    mc_TotalOunces c' = 0 -> mc_TokenSupply c' = 0 ->
    claim_step l2 caller n votes roles c c'
| claim_verified c :
    l2 = true -> mc_Status c = ClaimStatusPending -> 2 <= u8 (votes + 1) ->
    RoleLawyer ∈ roles -> RoleSurveyor ∈ roles ->
    claim_step l2 caller n votes roles c (with_status ClaimStatusVerified c)
| claim_reserved c tier ounces :
    l2 = true -> mc_Status c = ClaimStatusVerified ->
    tier ∈ [TierInferred; TierIndicated; TierMeasured] -> required_verifiers tier <= votes ->
    claim_step l2 caller n votes roles c
      (mkClaim (mc_DeedHash c) (mc_ClaimOwner c) (mc_Transferee c) ounces (mc_TokenSupply c) n
         (mc_IssueDate c) ClaimStatusReserved tier (mc_EnvCheckBlock c) votes (mc_SpotPrice c))
| claim_issued c :
    mc_Status c = ClaimStatusReserved ->
    mc_ConfidenceTier c ∈ [TierInferred; TierIndicated; TierMeasured] ->
    claim_step l2 caller n votes roles c
      (mkClaim (mc_DeedHash c) (mc_ClaimOwner c) (mc_Transferee c) (mc_TotalOunces c) (mc_TotalOunces c)
         (mc_VerifiedDate c) n ClaimStatusIssued (mc_ConfidenceTier c) (mc_EnvCheckBlock c)
         (mc_VerifierCount c) 20000000000)
| claim_monitored c b :
    l2 = true -> ClaimStatusIssued <= mc_Status c ->
    claim_step l2 caller n votes roles c
      (mkClaim (mc_DeedHash c) (mc_ClaimOwner c) (mc_Transferee c) (mc_TotalOunces c) (mc_TokenSupply c)
         (mc_VerifiedDate c) (mc_IssueDate c) ClaimStatusActive (mc_ConfidenceTier c) b
         (mc_VerifierCount c) (mc_SpotPrice c))
| claim_transferred c o :
    caller = current_holder c -> slot_string o ->
    claim_step l2 caller n votes roles c (with_transferee o c).

(** The slots besides its record that a call on a claim writes. *)
Definition side_preimages (id caller owner : bytes) : list bytes :=
  [11 :: id ++ caller; 12 :: id ++ owner; 13 :: id; [1]].

(** The state that [mrtVerifyClaim] reads its votes from. *)
Definition after_vote (input caller : bytes) (w : World) : World :=
  let id := claim_arg input in
  let w1 := set_slot mrt_addr (mrtVerifierKey id caller) ([byte_at input 67; byte_at input 68] ++ take 30 id)
              (GetOrCreateAccount mrt_addr w) in
  let s := slot w1 mrt_addr (verifierCountKey id) in
  set_slot mrt_addr (verifierCountKey id) (<[0%nat := u8 (byte_at s 0 + 1)]> s) w1.

Lemma sstore_fill_inv a k z w u w' :
  sstore_fill a k z w = (Ok u, w') -> exists v, w' = set_slot a k v w.
Proof.
  intros H. unfold sstore_fill, sstore in H. inv_run H. by eexists.
Qed.

Ltac side_key := unfold side_preimages; repeat first [apply list_elem_of_here | apply list_elem_of_further].

Section Lifecycle.
Context {MR : MapRange}.
Context (id caller : bytes) (w : World) (Ht : slots_typed mrt_addr w) (Hne : id <> []).
Abbreviation claim := (mrtGetClaimStorage w id).
Context (Hid : collision_free (claim_preimages id ++ side_preimages id caller (mc_ClaimOwner claim))).

Lemma claim_free : collision_free (claim_preimages id).
Proof using Hid. apply (collision_free_sub _ _ ltac:(intros x Hx; apply elem_of_app; by left) Hid). Qed.

(** The other slots a call writes are no slots of the claim. *)
Lemma side_apart k i :
  k ∈ side_preimages id caller (mc_ClaimOwner claim) -> i ∈ claim_indices ->
  storageKey k <> claim_slot i id.
Proof using Hid Hne.
  intros Hk Hi. apply claim_slot_other; [|done|].
  - refine (collision_free_sub _ _ _ Hid). intros x Hx. apply elem_of_app in Hx as [Hx|Hx]; apply elem_of_app;
      [by left|right]. apply list_elem_of_singleton in Hx. by rewrite Hx.
  - intros E. rewrite <- E in Hk. unfold claim_indices in Hi. rewrite !elem_of_cons in Hi.
    unfold side_preimages in Hk. rewrite !elem_of_cons in Hk.
    destruct Hk as [[= -> _]|[[= -> _]|[[= ->]|[[= _ Hk]|Hk]]]]; [..|done|by destruct (not_elem_of_nil _ Hk)];
      destruct_or! Hi; try discriminate Hi; by destruct (not_elem_of_nil _ Hi).
Qed.

Lemma get_claim_side k v w' :
  k ∈ side_preimages id caller (mc_ClaimOwner claim) ->
  mrtGetClaimStorage (set_slot mrt_addr (storageKey k) v w') id = mrtGetClaimStorage w' id.
Proof using Hid Hne.
  intros Hk. apply get_claim_slots. intros i Hi. apply slot_set_ne. right. by apply side_apart.
Qed.

Lemma get_claim_log t d b w' : mrtGetClaimStorage (AddLog mrt_addr t d b w') id = mrtGetClaimStorage w' id.
Proof. apply get_claim_slots. intros i _. apply slot_log. Qed.

Lemma updated w2 c :
  mrtGetClaimStorage w2 id = claim -> mc_Status claim <> 0 -> claim_wf c -> mc_ClaimOwner c = mc_ClaimOwner claim ->
  mrtGetClaimStorage (set_slots mrt_addr (claim_writes id c) w2) id =
  with_transferee (stored_string (mc_Transferee claim) (mc_Transferee c)) c.
Proof using Hid Ht.
  intros E Hs Hwf Ho. rewrite update_found by first [apply claim_free|by rewrite E|assumption].
  unfold stored_over, with_transferee. rewrite E.
  destruct (found_wf w id Ht Hs) as (_ & H2 & _). rewrite Ho, stored_string_same by done. rewrite <- Ho. done.
Qed.

Lemma updated_same w2 c :
  mrtGetClaimStorage w2 id = claim -> mc_Status claim <> 0 -> claim_wf c -> mc_ClaimOwner c = mc_ClaimOwner claim ->
  mc_Transferee c = mc_Transferee claim ->
  mrtGetClaimStorage (set_slots mrt_addr (claim_writes id c) w2) id = c.
Proof using Hid Ht.
  intros E Hs Hwf Ho Htr. rewrite updated by done. destruct (found_wf w id Ht Hs) as (_ & _ & H3).
  rewrite Htr, stored_string_same by done. rewrite <- Htr. by destruct c.
Qed.

Abbreviation step n votes roles := (claim_step (is_l2 w caller) caller n votes roles claim).

Lemma approve_step input n out w' roles :
  is_u64 n -> claim_arg input = id -> mrtApproveReserve input caller n w = (Ok out, w') ->
  step n (mrtCountVerifiers w id) roles (mrtGetClaimStorage w' id).
Proof using Hid Hne Ht.
  intros Hn Hi H. unfold mrtApproveReserve, mrtSetClaimStorage, mrt_log in H. rewrite Hi in H.
  set (tier := byte_at (take 32 (drop 36 input)) 31) in *.
  inv_run H. rewrite get_claim_touch in *. zbool. unfold ClaimStatusVerified, ClaimStatusReserved in *.
  assert (Hc : mrtCountVerifiers (GetOrCreateAccount mrt_addr w) id = mrtCountVerifiers w id)
    by (unfold mrtCountVerifiers; by rewrite slot_touch).
  rewrite Hc in *.
  match goal with E : (if tier =? _ then _ else _) _ = (Ok _, ?x) |- _ => rename E into Hg;
    assert (tier ∈ [TierInferred; TierIndicated; TierMeasured] /\
      required_verifiers tier <= mrtCountVerifiers w id /\ x = GetOrCreateAccount mrt_addr w) as (H1 & H2 & ->) end.
  { unfold required_verifiers, TierMeasured, TierIndicated, TierInferred in *.
    destruct (Z.eqb_spec tier 3) as [->|]; [|destruct (Z.eqb_spec tier 2) as [->|];
      [|destruct (Z.eqb_spec tier 1) as [->|]; [|done]]];
      apply guard_err_inv in Hg as [Hg ->]; zbool; (split_and!; [set_solver|cbn; lia|done]). }
  destruct (found_wf w id Ht ltac:(lia)) as ([W1 W2] & _ & _).
  rewrite get_claim_log, updated_same; [|apply get_claim_touch|..|done|done].
  - apply claim_reserved; [assumption|unfold ClaimStatusVerified; lia|done|done].
  - lia.
  - split; [done|]. rewrite !Forall_cons in W2 |- *. cbn.
    destruct W2 as (? & ? & ? & ? & ? & ? & ?). split_and!; try assumption. apply u64_range.
Qed.

Lemma issue_step input n out w' votes roles :
  is_u64 n -> claim_arg input = id -> mrtIssueTokens input caller n w = (Ok out, w') ->
  step n votes roles (mrtGetClaimStorage w' id).
Proof using Hid Hne Ht.
  intros Hn Hi H. unfold mrtIssueTokens, mrtSetClaimStorage, mrt_log in H. rewrite Hi in H.
  inv_run H. rewrite get_claim_touch in *. zbool. unfold ClaimStatusReserved, ClaimStatusIssued in *.
  destruct (issuance_rate (mc_ConfidenceTier claim)) as [r|] eqn:Er; [|discriminate H].
  inv_run H. destruct (found_wf w id Ht ltac:(lia)) as ([W1 W2] & _ & _).
  apply sstore_fill_inv in Hm3 as [v ->]. unfold mrtBalanceKey. rewrite get_claim_log, get_claim_side by side_key.
  rewrite updated_same; [|apply get_claim_touch|..|done|done].
  - apply claim_issued; [unfold ClaimStatusReserved; lia|].
    unfold issuance_rate, TierMeasured, TierIndicated, TierInferred in *.
    destruct (Z.eqb_spec (mc_ConfidenceTier claim) 3) as [->|]; [|destruct (Z.eqb_spec (mc_ConfidenceTier claim) 2) as [->|];
      [|destruct (Z.eqb_spec (mc_ConfidenceTier claim) 1) as [->|]; [|done]]]; set_solver.
  - lia.
  - split; [done|]. rewrite !Forall_cons in W2 |- *. cbn.
    destruct W2 as (? & ? & ? & ? & ? & ? & ?). split_and!; try assumption. unfold is_u64. lia.
Qed.

Lemma monitor_step input n out w' votes roles :
  claim_arg input = id -> mrtEnvironmentalCheck input caller n w = (Ok out, w') ->
  step n votes roles (mrtGetClaimStorage w' id).
Proof using Hid Hne Ht.
  intros Hi H. unfold mrtEnvironmentalCheck, mrtSetClaimStorage, mrt_log in H. rewrite Hi in H.
  inv_run H. rewrite get_claim_touch in *. zbool. unfold ClaimStatusIssued in *.
  destruct (found_wf w id Ht ltac:(lia)) as ([W1 W2] & _ & _).
  rewrite get_claim_log, updated_same; [|apply get_claim_touch|..|done|done].
  - apply claim_monitored; [assumption|unfold ClaimStatusIssued; lia].
  - lia.
  - split; [done|]. rewrite !Forall_cons in W2 |- *. cbn.
    destruct W2 as (? & ? & ? & ? & ? & ? & ?). split_and!; try assumption. apply u64_range.
Qed.

Lemma transfer_step input n out w' votes roles :
  claim_arg input = id -> mrtTransferRights input caller n w = (Ok out, w') ->
  step n votes roles (mrtGetClaimStorage w' id).
Proof using Hid Hne Ht.
  intros Hi H. unfold mrtTransferRights, mrtSetClaimStorage, mrt_log in H. rewrite Hi in H.
  inv_run H. rewrite get_claim_touch in *. zbool.
  destruct (found_wf w id Ht ltac:(lia)) as ([W1 W2] & _ & W3).
  rewrite get_claim_log, updated; [|apply get_claim_touch|lia|by split|done]. cbn [mc_Transferee].
  set (o := stored_string _ _).
  change (with_transferee o _) with (with_transferee o claim).
  apply claim_transferred.
  - match goal with E : negb _ = false |- _ => apply negb_false_iff, bool_decide_eq_true in E; exact E
    | E : bool_decide _ = true |- _ => apply bool_decide_eq_true in E; exact E end.
  - unfold o, stored_string. destruct (bool_decide (trimRightZeros _ = [])); [done|]. apply until_zero_string.
    rewrite copy_at_length; [done|apply Nat.le_0_l].
Qed.

Lemma register_step input n out w' votes roles :
  new_claim_id input caller n = id -> mrtRegisterClaim input caller n w = (Ok out, w') ->
  step n votes roles (mrtGetClaimStorage w' id).
Proof using Hid Hne Ht.
  intros Hi H. unfold mrtRegisterClaim, mrtSetClaimStorage, mrtIncrementClaimCount, mrt_log in H.
  rewrite Hi in H. inv_run H. zbool. apply bind_inv in Hm2 as (cnt & w1 & E1 & E2).
  cbv [gets] in E1. injection E1 as <- <-. apply sstore_fill_inv in E2 as [v ->].
  unfold claimCountKey. rewrite get_claim_log, get_claim_side by side_key.
  set (c := mkClaim _ _ _ _ _ _ _ _ _ _ _ _).
  apply bool_decide_eq_true in Hm1. rewrite slot_touch in Hm1.
  assert (Hc0 : claim = empty_claim) by (unfold mrtGetClaimStorage; by rewrite bool_decide_eq_true_2).
  destruct (decide (mc_DeedHash c = zero32)) as [Hz|Hz].
  - rewrite claim_get_zero, Hc0 by first [apply claim_free | exact Hz]. apply claim_kept.
  - rewrite claim_get_set; [|apply claim_free|].
    + apply claim_registered; try reflexivity; [assumption|by rewrite Hc0].
    + split; [split; [|exact Hz]|].
      * unfold c. cbn. apply Nat.ltb_ge in Hm. rewrite length_take, length_drop. lia.
      * unfold c. cbn. repeat constructor; done.
Qed.

Lemma attested_count input :
  claim_arg input = id -> mrtCountVerifiers (after_vote input caller w) id = u8 (mrtCountVerifiers w id + 1).
Proof using Hid Ht.
  intros Hi. unfold mrtCountVerifiers, after_vote. rewrite Hi. cbv zeta. rewrite slot_set_eq.
  assert (Hk : mrtVerifierKey id caller <> verifierCountKey id).
  { apply (collision_free_ne _ (11 :: id ++ caller) (13 :: id) Hid);
      [apply elem_of_app; right; side_key..|intros [=]]. }
  rewrite slot_set_ne, slot_touch by (right; exact Hk).
  pose proof (slot_length _ _ (verifierCountKey id) Ht) as Hl. unfold byte_at.
  rewrite nth_lookup, list_lookup_insert_eq; [done|]. rewrite Hl. lia.
Qed.

Lemma verify_step input n out w' :
  claim_arg input = id -> mrtVerifyClaim input caller n w = (Ok out, w') ->
  step n (mrtCountVerifiers w id) (mrtGetVerifierRoles (after_vote input caller w) id) (mrtGetClaimStorage w' id).
Proof using Hid Hne Ht.
  intros Hi H. unfold mrtVerifyClaim, mrtSetClaimStorage, mrtIncrementVerifierCount, mrt_log in H.
  rewrite Hi in H. inv_run H. rewrite get_claim_touch in *. zbool.
  assert (Ew : after_vote input caller w = after_vote input caller w) by done. unfold after_vote at 1 in Ew. rewrite Hi in Ew.
  cbv zeta in Ew. cbn [app] in Ew. rewrite Ew in *. clear Ew. set (w2 := after_vote input caller w) in *.
  assert (Eg : mrtGetClaimStorage w2 id = claim).
  { unfold w2, after_vote. rewrite Hi. cbv zeta. unfold verifierCountKey, mrtVerifierKey.
    rewrite !get_claim_side by side_key. apply get_claim_touch. }
  pose proof (attested_count input Hi) as Ev. fold w2 in Ev.
  set (adv := _ && bool_decide _) in *.
  assert (Hs : s = if adv then set_slots mrt_addr (claim_writes id (with_status ClaimStatusVerified claim)) w2 else w2).
  { clear -Hm4. destruct adv; [cbv [modify] in Hm4|cbv [mret M_ret] in Hm4]; injection Hm4 as _ <-; reflexivity. }
  assert (E0 : mrtGetClaimStorage s0 id = mrtGetClaimStorage s id).
  { destruct (_ && (byte_at input 68 =? 1)) in Hm5;
      [cbv [modify] in Hm5|cbv [mret M_ret] in Hm5]; injection Hm5 as _ <-; [|apply get_claim_log].
    etransitivity; [|apply get_claim_log]. apply get_claim_slots. intros i _. apply slot_econo. }
  rewrite E0, Hs. destruct adv eqn:Ea; [|rewrite Eg; apply claim_kept].
  destruct (found_wf w id Ht Hm1) as ([W1 W2] & _ & _).
  rewrite updated_same; [|exact Eg|exact Hm1|by split|reflexivity..].
  unfold adv in Ea. rewrite !andb_true_iff, Ev in Ea. destruct Ea as ((((A1 & _) & A2) & A3) & A4).
  apply claim_verified; [exact Hm0|by apply Z.eqb_eq|by apply Z.leb_le|by apply bool_decide_eq_true in A3|
                         by apply bool_decide_eq_true in A4].
Qed.
End Lifecycle.

(** ** Properties *)

(** The claim a call is about. *)
Definition called_claim (input caller : bytes) (n : Z) : bytes :=
  if selectorBytes input =? 0xA1B2C3D4 then new_claim_id input caller n else claim_arg input.

(** C23 (claim life cycle).  Every successful call of the mineral rights precompile moves the claim it is
    about by a step of the life cycle [claim_step], or leaves it: a verified
    caller registers a claim that did not exist (pending, no ounces, no tokens); a
    pending claim becomes verified only by a verified caller's vote that makes two,
    with a lawyer and a surveyor among the votes; a verified claim is reserved by a
    verified caller, for a known tier with the votes the tier asks for; a reserved
    claim issues as many tokens as it has ounces; an issued claim becomes active at
    an environmental check of a verified caller; and only the current holder hands
    the claim on.  The deed hash, the owner and, outside these steps, every other
    field stay as they were. *)
Theorem claim_lifecycle {MR : MapRange} input caller n w out w' :
  let id := called_claim input caller n in
  let claim := mrtGetClaimStorage w id in
  slots_typed mrt_addr w -> is_u64 n -> id <> [] ->
  collision_free (claim_preimages id ++ side_preimages id caller (mc_ClaimOwner claim)) ->
  mineralRightsPrecompile input caller n w = (Ok out, w') ->
  claim_step (is_l2 w caller) caller n (mrtCountVerifiers w id)
    (mrtGetVerifierRoles (after_vote input caller w) id) claim (mrtGetClaimStorage w' id).
Proof.
  intros id claim Ht Hn Hne Hid H. unfold mineralRightsPrecompile in H.
  apply bind_inv in H as (u & w1 & Hg & H). apply guard_err_inv in Hg as [_ ->].
  unfold id, called_claim in *. cbv zeta in H.
  destruct (selectorBytes input =? 0xA1B2C3D4); [by eapply register_step|].
  repeat case_if in H; [by apply (verify_step _ _ w Ht Hne Hid _ n out w')|by eapply approve_step|by eapply issue_step
    | | |by eapply monitor_step|by eapply transfer_step|discriminate H].
  - unfold mrtGetClaim in H. inv_run H. unfold claim. rewrite get_claim_touch. apply claim_kept.
  - unfold mrtGetTokens in H. inv_run H. unfold claim. rewrite get_claim_touch. apply claim_kept.
Qed.

(** ** Examples *)

Definition word (b : bytes) : bytes := b ++ zeros (32 - length b).
Definition deed : bytes := replicate 32 7.
Definition officials : list bytes := [lit "clerk"; lit "lawyer"; lit "surveyor"; lit "assayer"].
Definition mrt_world : World := foldr (fun a => upd_acct a (with_level 2)) NewStateDB officials.
Definition mrt_run (input caller : bytes) (n : Z) (w : World) : World :=
  (mineralRightsPrecompile input caller n w).2.
Definition register_call (owner : bytes) : bytes := be_enc 4 0xA1B2C3D4 ++ deed ++ zeros 32 ++ word owner.
Definition the_claim : bytes := new_claim_id (register_call []) (lit "clerk") 5.
Definition vote_call (role approved : Z) : bytes :=
  be_enc 4 0xB2C3D4E5 ++ the_claim ++ zeros 31 ++ [role; approved].
Definition reserve_call (tier ounces : Z) : bytes :=
  be_enc 4 0xC3D4E5A6 ++ the_claim ++ be_enc 32 tier ++ be_enc 32 ounces.
Definition issue_call : bytes := be_enc 4 0xD4E5A6B7 ++ the_claim.
Definition transfer_call (to : bytes) : bytes := be_enc 4 0xB8C9D0E1 ++ the_claim ++ word to.

Definition claimed : World := mrt_run (register_call (lit "alice")) (lit "clerk") 5 mrt_world.
Definition half_voted : World := mrt_run (vote_call RoleLawyer 1) (lit "lawyer") 6 claimed.
Definition verified : World := mrt_run (vote_call RoleSurveyor 1) (lit "surveyor") 7 half_voted.
Definition reserved : World := mrt_run (reserve_call TierInferred 500) (lit "assayer") 8 verified.
Definition issued : World := mrt_run issue_call (lit "anybody") 9 reserved.

Example claim_example :
  mc_Status (mrtGetClaimStorage issued the_claim) = ClaimStatusIssued /\
  mc_TokenSupply (mrtGetClaimStorage issued the_claim) = 500.
Proof. by vm_compute. Qed.

Lemma claim_lifecycle_witness :
  let input := vote_call RoleSurveyor 1 in
  let id := called_claim input (lit "surveyor") 7 in
  mc_Status (mrtGetClaimStorage half_voted id) = ClaimStatusPending /\
  claim_step (is_l2 half_voted (lit "surveyor")) (lit "surveyor") 7 (mrtCountVerifiers half_voted id)
    (mrtGetVerifierRoles (after_vote input (lit "surveyor") half_voted) id)
    (mrtGetClaimStorage half_voted id) (mrtGetClaimStorage verified id).
Proof.
  intros input id. split; [by vm_compute|].
  apply (claim_lifecycle input (lit "surveyor") 7 half_voted [1; 2] verified).
  - apply slots_typed_check. by vm_compute.
  - unfold is_u64. lia.
  - intros E. by vm_compute in E.
  - apply collision_free_nodup. by vm_compute.
  - unfold verified, mrt_run. apply ok_run. by vm_compute.
Defined.

(** ** What the code does that its comments do not say *)

(** The GPS boundary hash of a registration is read and dropped. *)
Lemma gps_is_ignored {MR : MapRange} deedHash gps gps' owner caller n w :
  length deedHash = 32%nat -> length gps = 32%nat -> length gps' = 32%nat ->
  mrtRegisterClaim (be_enc 4 0xA1B2C3D4 ++ deedHash ++ gps ++ owner) caller n w =
  mrtRegisterClaim (be_enc 4 0xA1B2C3D4 ++ deedHash ++ gps' ++ owner) caller n w.
Proof.
  intros Hd Hg Hg'. unfold mrtRegisterClaim, new_claim_id, claim_owner.
  assert (E : forall g, length g = 32%nat ->
    take 32 (drop 4 (be_enc 4 0xA1B2C3D4 ++ deedHash ++ g ++ owner)) = deedHash /\
    drop 68 (be_enc 4 0xA1B2C3D4 ++ deedHash ++ g ++ owner) = owner /\
    length (be_enc 4 0xA1B2C3D4 ++ deedHash ++ g ++ owner) = (68 + length owner)%nat).
  { intros g Hl. pose proof (be_enc_length 4 0xA1B2C3D4) as Hb. split_and!.
    - rewrite drop_app_length' by done. by rewrite take_app_length' by done.
    - rewrite !app_assoc. apply drop_app_length'. rewrite !length_app. lia.
    - rewrite !length_app. lia. }
  destruct (E gps Hg) as (-> & -> & ->), (E gps' Hg') as (-> & -> & ->). done.
Qed.

(** A claim over a zero deed hash is counted and logged, and is not found. *)
Definition zero_deed_call : bytes := be_enc 4 0xA1B2C3D4 ++ zeros 96.
Lemma zero_deed_is_invisible :
  let r := mineralRightsPrecompile zero_deed_call (lit "clerk") 5 mrt_world in
  is_ok r.1 = true /\
  mc_Status (mrtGetClaimStorage r.2 (new_claim_id zero_deed_call (lit "clerk") 5)) = 0 /\
  readBigInt (slot r.2 mrt_addr claimCountKey) = 1.
Proof. by vm_compute. Qed.

(** An owner with an address of 40 characters is cut to 32, and can neither
    transfer the claim nor can anybody else. *)
Definition long_owner : bytes := lit "00000000000000000000000000000000000000a7".
Definition long_claimed : World := mrt_run (register_call []) long_owner 5 (upd_acct long_owner (with_level 2) mrt_world).
Lemma address_owner_is_locked_out :
  let id := new_claim_id (register_call []) long_owner 5 in
  mc_ClaimOwner (mrtGetClaimStorage long_claimed id) = take 32 long_owner /\
  (mrtTransferRights (be_enc 4 0xB8C9D0E1 ++ id ++ word (lit "bob")) long_owner 6 long_claimed).1 =
    Err "MRT: only current rights holder can transfer".
Proof. by vm_compute. Qed.

(** A vote against the claim counts, and so does its role. *)
Lemma rejection_counts :
  let w := mrt_run (vote_call RoleLawyer 0) (lit "lawyer") 6 claimed in
  mc_Status (mrtGetClaimStorage (mrt_run (vote_call RoleSurveyor 1) (lit "surveyor") 7 w) the_claim) =
    ClaimStatusVerified.
Proof. by vm_compute. Qed.

(** The rights move, the tokens stay: the new holder's balance is empty. *)
Lemma tokens_stay_behind :
  let w := mrt_run (transfer_call (lit "bob")) (lit "alice") 10 issued in
  current_holder (mrtGetClaimStorage w the_claim) = lit "bob" /\
  readBigInt (slot w mrt_addr (mrtBalanceKey the_claim (lit "bob"))) = 0 /\
  readBigInt (slot w mrt_addr (mrtBalanceKey the_claim (lit "alice"))) = 500.
Proof. by vm_compute. Qed.

(** Anybody issues the tokens of a reserved claim. *)
Lemma anybody_issues : is_l2 reserved (lit "anybody") = false /\
  mc_Status (mrtGetClaimStorage issued the_claim) = ClaimStatusIssued.
Proof. by vm_compute. Qed.

(** The verified claim is accrued at the token supply it has not been given yet. *)
Lemma accrual_is_empty : MRTPaid (econo verified) = 0.
Proof. by vm_compute. Qed.

(** The event of an issuance carries the eight high bytes of the amount. *)
Lemma issue_event_is_empty :
  match reverse (logs issued) with l :: _ => log_data l = zeros 8 | [] => False end.
Proof. by vm_compute. Qed.
