(* ===== verification/Machine.v ===== *)
(** The opcode table (evm/opcodes.go) and the stack and memory of the interpreter
    (evm/interpreter.go).  The execution layer delegates bytecode to revm; the
    table and the two data structures are what the Go side keeps of its own
    machine. *)

From Stdlib Require Import ZArith Lia.
From S2P Require Import Prelude.
From stdpp Require Import list.
Local Open Scope Z_scope.

(** ** Opcodes *)

Record OpcodeInfo := mkOp { op_Name : string; op_Gas : Z; op_MinStack : Z; op_Result : Z }.

Definition OpcodeTable : list (Z * OpcodeInfo) :=
  [ (0x00, mkOp "STOP" 0 0 0); (0x01, mkOp "ADD" 3 2 1); (0x02, mkOp "MUL" 5 2 1);
      (0x03, mkOp "SUB" 3 2 1); (0x04, mkOp "DIV" 5 2 1); (0x05, mkOp "SDIV" 5 2 1);
      (0x06, mkOp "MOD" 5 2 1); (0x07, mkOp "SMOD" 5 2 1); (0x08, mkOp "ADDMOD" 8 3 1);
      (0x09, mkOp "MULMOD" 8 3 1); (0x0A, mkOp "EXP" 10 2 1); (0x0B, mkOp "SIGNEXTEND" 5 2 1);
      (0x10, mkOp "LT" 3 2 1); (0x11, mkOp "GT" 3 2 1); (0x12, mkOp "SLT" 3 2 1);
      (0x13, mkOp "SGT" 3 2 1); (0x14, mkOp "EQ" 3 2 1); (0x15, mkOp "ISZERO" 3 1 1);
      (0x16, mkOp "AND" 3 2 1); (0x17, mkOp "OR" 3 2 1); (0x18, mkOp "XOR" 3 2 1);
      (0x19, mkOp "NOT" 3 1 1); (0x1A, mkOp "BYTE" 3 2 1); (0x1B, mkOp "SHL" 3 2 1);
      (0x1C, mkOp "SHR" 3 2 1); (0x1D, mkOp "SAR" 3 2 1); (0x20, mkOp "SHA3" 30 2 1);
      (0x30, mkOp "ADDRESS" 2 0 1); (0x31, mkOp "BALANCE" 700 1 1); (0x32, mkOp "ORIGIN" 2 0 1);
      (0x33, mkOp "CALLER" 2 0 1); (0x34, mkOp "CALLVALUE" 2 0 1);
      (0x35, mkOp "CALLDATALOAD" 3 1 1); (0x36, mkOp "CALLDATASIZE" 2 0 1);
      (0x37, mkOp "CALLDATACOPY" 3 3 0); (0x38, mkOp "CODESIZE" 2 0 1);
      (0x39, mkOp "CODECOPY" 3 3 0); (0x3A, mkOp "GASPRICE" 2 0 1);
      (0x3B, mkOp "EXTCODESIZE" 700 1 1); (0x3D, mkOp "RETURNDATASIZE" 2 0 1);
      (0x3E, mkOp "RETURNDATACOPY" 3 3 0); (0x42, mkOp "TIMESTAMP" 2 0 1);
      (0x43, mkOp "NUMBER" 2 0 1); (0x46, mkOp "CHAINID" 2 0 1); (0x48, mkOp "BASEFEE" 2 0 1);
      (0x47, mkOp "SELFBALANCE" 5 0 1); (0x50, mkOp "POP" 2 1 0); (0x51, mkOp "MLOAD" 3 1 1);
      (0x52, mkOp "MSTORE" 3 2 0); (0x53, mkOp "MSTORE8" 3 2 0); (0x54, mkOp "SLOAD" 2100 1 1);
      (0x55, mkOp "SSTORE" 5000 2 0); (0x56, mkOp "JUMP" 8 1 0); (0x57, mkOp "JUMPI" 10 2 0);
      (0x58, mkOp "PC" 2 0 1); (0x59, mkOp "MSIZE" 2 0 1); (0x5A, mkOp "GAS" 2 0 1);
      (0x5B, mkOp "JUMPDEST" 1 0 0); (0x60, mkOp "PUSH1" 3 0 1); (0x61, mkOp "PUSH2" 3 0 1);
      (0x62, mkOp "PUSH3" 3 0 1); (0x63, mkOp "PUSH4" 3 0 1); (0x64, mkOp "PUSH5" 3 0 1);
      (0x65, mkOp "PUSH6" 3 0 1); (0x66, mkOp "PUSH7" 3 0 1); (0x67, mkOp "PUSH8" 3 0 1);
      (0x68, mkOp "PUSH9" 3 0 1); (0x69, mkOp "PUSH10" 3 0 1); (0x6A, mkOp "PUSH11" 3 0 1);
      (0x6B, mkOp "PUSH12" 3 0 1); (0x6C, mkOp "PUSH13" 3 0 1); (0x6D, mkOp "PUSH14" 3 0 1);
      (0x6E, mkOp "PUSH15" 3 0 1); (0x6F, mkOp "PUSH16" 3 0 1); (0x70, mkOp "PUSH17" 3 0 1);
      (0x71, mkOp "PUSH18" 3 0 1); (0x72, mkOp "PUSH19" 3 0 1); (0x73, mkOp "PUSH20" 3 0 1);
      (0x74, mkOp "PUSH21" 3 0 1); (0x75, mkOp "PUSH22" 3 0 1); (0x76, mkOp "PUSH23" 3 0 1);
      (0x77, mkOp "PUSH24" 3 0 1); (0x78, mkOp "PUSH25" 3 0 1); (0x79, mkOp "PUSH26" 3 0 1);
      (0x7A, mkOp "PUSH27" 3 0 1); (0x7B, mkOp "PUSH28" 3 0 1); (0x7C, mkOp "PUSH29" 3 0 1);
      (0x7D, mkOp "PUSH30" 3 0 1); (0x7E, mkOp "PUSH31" 3 0 1); (0x7F, mkOp "PUSH32" 3 0 1);
      (0x80, mkOp "DUP1" 3 1 1); (0x81, mkOp "DUP2" 3 2 1); (0x82, mkOp "DUP3" 3 3 1);
      (0x83, mkOp "DUP4" 3 4 1); (0x84, mkOp "DUP5" 3 5 1); (0x85, mkOp "DUP6" 3 6 1);
      (0x86, mkOp "DUP7" 3 7 1); (0x87, mkOp "DUP8" 3 8 1); (0x88, mkOp "DUP9" 3 9 1);
      (0x89, mkOp "DUP10" 3 10 1); (0x8A, mkOp "DUP11" 3 11 1); (0x8B, mkOp "DUP12" 3 12 1);
      (0x8C, mkOp "DUP13" 3 13 1); (0x8D, mkOp "DUP14" 3 14 1); (0x8E, mkOp "DUP15" 3 15 1);
      (0x8F, mkOp "DUP16" 3 16 1); (0x90, mkOp "SWAP1" 3 2 0); (0xA0, mkOp "LOG0" 375 2 0);
      (0xA4, mkOp "LOG4" 625 6 0); (0xF0, mkOp "CREATE" 32000 3 1); (0xF1, mkOp "CALL" 700 7 1);
      (0xF3, mkOp "RETURN" 0 2 0); (0xFD, mkOp "REVERT" 0 2 0); (0xFE, mkOp "INVALID" 0 0 0);
      (0xFF, mkOp "SELFDESTRUCT" 5000 1 0); (0xC0, mkOp "CONTRACTCLASS" 2 0 1);
      (0xC1, mkOp "DOXDEVLEVEL" 20 0 1); (0xC2, mkOp "LANETYPE" 2 0 1);
      (0xC3, mkOp "ATTEST" 20000 1 0); (0xC4, mkOp "RANDOM" 20 0 1);
      (0xC5, mkOp "RENTBALANCE" 700 1 1); (0xC6, mkOp "DEADMANSWITCH" 2000 1 1);
      (0xC7, mkOp "VERIFYBADGE" 700 2 1)].

Fixpoint op_lookup (t : list (Z * OpcodeInfo)) (op : Z) : option OpcodeInfo :=
  match t with
  | [] => None
  | (o, info) :: t => if o =? op then Some info else op_lookup t op
  end.

(** [%02X]. *)
Definition hex_upper (d : Z) : Z := if d <? 10 then 48 + d else 55 + d.
Definition OpcodeName (op : Z) : bytes :=
  match op_lookup OpcodeTable op with
  | Some info => lit (op_Name info)
  | None => lit "UNKNOWN(0x" ++ [hex_upper (op / 16); hex_upper (op mod 16)] ++ lit ")"
  end.

Definition PUSH1 : Z := 0x60.
Definition PUSH32 : Z := 0x7F.
Definition DUP1 : Z := 0x80.
Definition DUP16 : Z := 0x8F.
Definition SWAP1 : Z := 0x90.
Definition SWAP16 : Z := 0x9F.
Definition LOG0 : Z := 0xA0.
Definition LOG4 : Z := 0xA4.

Definition IsPushOp (op : Z) : bool := (PUSH1 <=? op) && (op <=? PUSH32).
Definition PushSize (op : Z) : Z := if IsPushOp op then op - PUSH1 + 1 else 0.
Definition IsDupOp (op : Z) : bool := (DUP1 <=? op) && (op <=? DUP16).
Definition DupIndex (op : Z) : Z := if IsDupOp op then op - DUP1 + 1 else 0.
Definition IsSwapOp (op : Z) : bool := (SWAP1 <=? op) && (op <=? SWAP16).
Definition SwapIndex (op : Z) : Z := if IsSwapOp op then op - SWAP1 + 1 else 0.
Definition IsLogOp (op : Z) : bool := (LOG0 <=? op) && (op <=? LOG4).
Definition LogTopicCount (op : Z) : Z := if IsLogOp op then op - LOG0 else 0.
Definition LogGasCost (topics : Z) : Z := u64 (375 + u64 (topics * 125)).

(** ** Stack: the top is the end of the slice *)

Abbreviation Stack := (list Z).
Definition NewStack : Stack := [].
Definition Push (s : Stack) (v : Z) : Stack := s ++ [v].
Definition Peek (s : Stack) : Z := default 0 (last s).
Definition Pop (s : Stack) : Z * Stack := (Peek s, take (length s - 1) s).
Definition Swap (s : Stack) (n : nat) : Stack :=
  if (n + 1 <=? length s)%nat then
    let top := nth (length s - 1) s 0 in
    let other := nth (length s - 1 - n) s 0 in
    <[(length s - 1 - n)%nat := top]> (<[(length s - 1)%nat := other]> s)
  else s.
Definition Dup (s : Stack) (n : nat) : option Stack :=
  if (n <=? length s)%nat then Push s <$> s !! (length s - n)%nat else Some s.

(** ** Memory

    The operations panic ([None]) where Go does: [make] above the allocation
    limit of 2^48 bytes, and a slice whose bounds are out of order after the
    64-bit sum of offset and size has wrapped. *)

Abbreviation Memory := (list Z).
Definition NewMemory : Memory := [].
Definition max_alloc : Z := 2 ^ 48.

Definition Resize (m : Memory) (size : Z) : option Memory :=
  if Z.of_nat (length m) <? size then
    if max_alloc <? size then None
    else Some (m ++ zeros (Z.to_nat size - length m))
  else Some m.

Definition MemSet (m : Memory) (offset : Z) (value : bytes) : option Memory :=
  match Resize m (u64 (offset + Z.of_nat (length value))) with
  | None => None
  | Some m =>
      if offset <=? Z.of_nat (length m) then Some (copy_at (Z.to_nat offset) value m) else None
  end.

(** The bytes read and the memory, which a read can grow. *)
Definition MemGet (m : Memory) (offset size : Z) : option (bytes * Memory) :=
  match Resize m (u64 (offset + size)) with
  | None => None
  | Some m =>
      if max_alloc <? size then None else
      match slice m offset (u64 (offset + size)) with
      | Some b => Some (b, m)
      | None => None
      end
  end.
Definition MemLen (m : Memory) : Z := Z.of_nat (length m).

(** ** Lemmas *)

(** The index predicates and the table agree on what an instruction needs of the
    stack. *)
Lemma dup_needs_its_index op info :
  op_lookup OpcodeTable op = Some info -> IsDupOp op = true -> op_MinStack info = DupIndex op.
Proof.
  intros Hl Hd. apply andb_prop in Hd as [H1 H2]. apply Z.leb_le in H1, H2.
  unfold DUP1, DUP16 in *.
  assert (H : forall k : nat, (k < 16)%nat ->
    (fun op => match op_lookup OpcodeTable op with
               | Some i => op_MinStack i =? DupIndex op | None => false end) (128 + Z.of_nat k) = true).
  { intros k Hk. do 16 (destruct k as [|k]; [reflexivity|]). lia. }
  specialize (H (Z.to_nat (op - 128)) ltac:(lia)). cbv beta in H.
  replace (128 + Z.of_nat (Z.to_nat (op - 128))) with op in H by lia.
  rewrite Hl in H. by apply Z.eqb_eq in H.
Qed.

Lemma Pop_Push (s : Stack) v : Pop (Push s v) = (v, s).
Proof.
  unfold Pop, Peek, Push. rewrite last_snoc. f_equal.
  rewrite length_app. cbn. rewrite Nat.add_sub. by rewrite take_app_length.
Qed.

Lemma Dup_spec (s : Stack) (n : nat) v :
  (0 < n)%nat -> s !! (length s - n)%nat = Some v -> (n <= length s)%nat ->
  Dup s n = Some (Push s v).
Proof.
  intros Hn Hv Hl. unfold Dup. destruct (Nat.leb_spec n (length s)); [|lia]. by rewrite Hv.
Qed.

Lemma Swap_length (s : Stack) n : length (Swap s n) = length s.
Proof. unfold Swap. destruct (_ <=? _)%nat; [|done]. by rewrite !length_insert. Qed.

Lemma nth_default (i : nat) (l : list Z) : nth i l 0 = default 0 (l !! i).
Proof. revert i. induction l as [|x l IH]; intros [|i]; cbn; auto. Qed.

(** Exchanging twice restores the stack. *)
Lemma Swap_involutive (s : Stack) n : Swap (Swap s n) n = s.
Proof.
  unfold Swap at 1. rewrite Swap_length. destruct (Nat.leb_spec (n + 1) (length s)) as [Hn|Hn].
  2: { unfold Swap. by destruct (Nat.leb_spec (n + 1) (length s)); [lia|]. }
  assert (Hs : Swap s n =
    <[(length s - 1 - n)%nat := nth (length s - 1) s 0]>
      (<[(length s - 1)%nat := nth (length s - 1 - n) s 0]> s)).
  { unfold Swap. by destruct (Nat.leb_spec (n + 1) (length s)); [|lia]. }
  destruct (lookup_lt_is_Some_2 s (length s - 1) ltac:(lia)) as [x Hx].
  destruct (lookup_lt_is_Some_2 s (length s - 1 - n) ltac:(lia)) as [y Hy].
  apply list_eq. intros i. rewrite Hs, !nth_default, Hx, Hy. cbn [default].
  destruct (decide (n = 0)%nat) as [->|Hn0]; [rewrite Nat.sub_0_r in *|];
    destruct (decide (i = length s - 1)%nat) as [->|N1];
    [| |..|destruct (decide (i = length s - 1 - n)%nat) as [->|N2]];
    repeat first [rewrite list_lookup_insert_eq by (rewrite ?length_insert; lia)
                 |rewrite list_lookup_insert_ne by lia]; cbn; congruence.
Qed.

Lemma Resize_spec m size :
  Z.of_nat (length m) <= max_alloc -> 0 <= size <= max_alloc ->
  exists m', Resize m size = Some m' /\ size <= Z.of_nat (length m') <= max_alloc /\
             forall i, nth i m' 0 = nth i m 0.
Proof.
  intros Hm Hs. unfold Resize. destruct (Z.ltb_spec (Z.of_nat (length m)) size) as [Hlt|Hge].
  - destruct (Z.ltb_spec max_alloc size); [lia|]. eexists. split; [done|].
    rewrite length_app. unfold zeros. rewrite length_replicate. split; [lia|].
    intros i. destruct (Nat.lt_ge_cases i (length m)).
    + by rewrite app_nth1.
    + rewrite app_nth2, (nth_overflow m) by lia. rewrite nth_default.
      destruct (replicate _ 0 !! _) as [x|] eqn:E; [|done].
      by apply lookup_replicate in E as [-> _].
  - exists m. split; [done|]. split; [lia|done].
Qed.

Lemma copy_at_mem_read off v m :
  (off + length v <= length m)%nat ->
  length (copy_at off v m) = length m /\ take (length v) (drop off (copy_at off v m)) = v /\
  forall i, (i < off \/ off + length v <= i)%nat -> nth i (copy_at off v m) 0 = nth i m 0.
Proof.
  intros H. unfold copy_at. rewrite (take_ge v) by lia.
  split_and!.
  - rewrite !length_app, length_take, length_drop. lia.
  - rewrite drop_app_length' by (rewrite length_take; lia). by rewrite take_app_length.
  - intros i Hi. rewrite !nth_default, lookup_app. rewrite length_take.
    destruct Hi as [Hi|Hi].
    + rewrite lookup_take_lt by lia. destruct (lookup_lt_is_Some_2 m i ltac:(lia)) as [x Hx].
      by rewrite Hx.
    + rewrite (lookup_ge_None_2 (take off m)) by (rewrite length_take; lia).
      rewrite lookup_app, (lookup_ge_None_2 v) by lia. rewrite lookup_drop.
      do 2 f_equal. lia.
Qed.

(** ** Properties *)

(** Memory.  Within the allocation limit a write succeeds, a read of the
    written range returns what was written without growing the memory, and every
    byte outside the range keeps its value (zero beyond the end). *)
Theorem memory_read_write m offset v :
  Z.of_nat (length m) <= max_alloc -> 0 <= offset -> offset + Z.of_nat (length v) <= max_alloc ->
  exists m', MemSet m offset v = Some m' /\
    MemGet m' offset (Z.of_nat (length v)) = Some (v, m') /\
    forall i, (Z.of_nat i < offset \/ offset + Z.of_nat (length v) <= Z.of_nat i) ->
      nth i m' 0 = nth i m 0.
Proof.
  intros Hm Ho Hv. assert (Ha : max_alloc < 2 ^ 64) by reflexivity.
  assert (Hu : u64 (offset + Z.of_nat (length v)) = offset + Z.of_nat (length v))
    by (apply u64_small; unfold is_u64; lia).
  destruct (Resize_spec m (offset + Z.of_nat (length v)) Hm ltac:(lia)) as (m1 & E1 & Hl1 & Hn1).
  destruct (copy_at_mem_read (Z.to_nat offset) v m1 ltac:(lia)) as (Hl & Hr & Hk).
  unfold MemSet. rewrite Hu, E1. rewrite (proj2 (Z.leb_le _ _)) by lia.
  eexists. split; [done|]. split.
  - unfold MemGet. rewrite Hu. unfold Resize. rewrite Hl.
    rewrite (proj2 (Z.ltb_ge _ _)) by lia. rewrite (proj2 (Z.ltb_ge _ _)) by lia.
    unfold slice. rewrite Hl.
    rewrite (proj2 (Z.leb_le 0 _)), (proj2 (Z.leb_le offset _)), (proj2 (Z.leb_le _ (Z.of_nat (length m1)))) by lia.
    cbn [andb]. replace (Z.to_nat (offset + _ - offset)) with (length v) by lia. by rewrite Hr.
  - intros i Hi. rewrite Hk by lia. apply Hn1.
Qed.

(** An offset near 2^64 wraps the size, and the copy panics. *)
Lemma wrapped_write_panics : MemSet NewMemory (2 ^ 64 - 1) [7; 8] = None.
Proof. reflexivity. Qed.

(** ** What the code does that its comments do not say *)

(** Fifteen of the sixteen exchange instructions have no table entry, although
    [SwapIndex] knows them. *)
Lemma swap2_is_unknown : OpcodeName 0x91 = lit "UNKNOWN(0x91)" /\ SwapIndex 0x91 = 2.
Proof. split; reflexivity. Qed.

(** The table and [LogGasCost] price the same instruction differently. *)
Lemma log4_has_two_prices :
  op_Gas <$> op_lookup OpcodeTable LOG4 = Some 625 /\ LogGasCost (LogTopicCount LOG4) = 875.
Proof. split; reflexivity. Qed.

(** ** Witness *)

Lemma memory_read_write_witness :
  exists m', MemSet [1; 2; 3] 2 [7; 8] = Some m' /\ MemGet m' 2 2 = Some ([7; 8], m').
Proof.
  destruct (memory_read_write [1; 2; 3] 2 [7; 8]) as (m' & H1 & H2 & _);
    [vm_compute; discriminate|vm_compute; discriminate|vm_compute; discriminate|].
  exists m'. split; [exact H1|exact H2].
Defined.
