(* ===== verification/Frames.v ===== *)
(** What no native handler touches: the nonce and the code of an account change
    only in block execution, in contract creation and in the revm bridge.  The
    fact is stated once, for every precompile the development models, and is what
    makes replay protection compositional. *)

From Stdlib Require Import ZArith Lia.
From S2P Require Import Prelude Sha256 Collections StateDB Econo Staking Scheduler.
From S2P Require Import OraclePre Badges Registries Governance TaskRegistry Sway Faucet.
From S2P Require Import StabilityPool TwoWay StateRent TemplateRegistry TrustlessLock SwapRoute.
From S2P Require Import WayStablecoin AccountManager Privacy CrossChain MineralRights.
From stdpp Require Import gmap list.
Local Open Scope Z_scope.
Local Open Scope go_scope.

(** ** The relation *)

Definition same_code (w w' : World) : Prop :=
  forall a, StateDB.Nonce (acct w' a) = StateDB.Nonce (acct w a) /\
            Code (acct w' a) = Code (acct w a) /\ CodeHash (acct w' a) = CodeHash (acct w a).

#[export] Instance same_code_preorder : PreOrder same_code.
Proof.
  split; [by intros w a|]. intros x y z H1 H2 a.
  destruct (H1 a) as (E1 & E2 & E3), (H2 a) as (F1 & F2 & F3). split_and!; congruence.
Qed.

(** An account update that keeps the three fields. *)
Lemma same_code_upd a f w :
  (forall x, StateDB.Nonce (f x) = StateDB.Nonce x /\ Code (f x) = Code x /\ CodeHash (f x) = CodeHash x) ->
  same_code w (upd_acct a f w).
Proof. intros H b. rewrite acct_upd. case_decide; [subst; apply H|done]. Qed.

Lemma same_code_touch a w : same_code w (GetOrCreateAccount a w).
Proof. intros b. by rewrite acct_touch. Qed.

Lemma same_code_add_bal a z w : same_code w (add_bal a z w).
Proof. by apply same_code_upd. Qed.

Lemma same_code_set_slot a k v w : same_code w (set_slot a k v w).
Proof. by apply same_code_upd. Qed.

Lemma same_code_accounts w w' : accounts w' = accounts w -> same_code w w'.
Proof. intros H a. unfold acct. by rewrite H. Qed.

Lemma same_code_seed w : same_code w (SeedAllGenesis w).
Proof.
  unfold SeedAllGenesis. cbn [fold_left GenesisBootstrapAccounts].
  repeat (etrans; [|apply same_code_set_slot]). etrans; [|apply same_code_touch].
  repeat (etrans; [|apply same_code_upd; intros x; unfold seed_fun, seed_level, seed_balance;
                    repeat case_match; done]).
  done.
Qed.

(** ** Automation *)

(** A loop over a list. *)
Lemma respects_prim_touch a : respects same_code (touch a).
Proof. intros w. apply same_code_touch. Qed.
Lemma respects_prim_sstore a k v : respects same_code (sstore a k v).
Proof. intros w. apply same_code_set_slot. Qed.
Lemma respects_prim_add_bal a z : respects same_code (modify (add_bal a z)).
Proof. intros w. apply same_code_add_bal. Qed.
Lemma respects_prim_modify f : (forall w, accounts (f w) = accounts w) -> respects same_code (modify f).
Proof. intros H w. apply same_code_accounts, H. Qed.

Create HintDb frames discriminated.
#[export] Hint Constants Opaque : frames.
#[export] Hint Resolve respects_prim_touch respects_prim_sstore respects_prim_add_bal : frames.

(** [code_auto]: [respects same_code] goals, through the structure of a handler;
    the lemmas about the handlers it calls are in [frames]. *)
Ltac code_step :=
  first
    [ solve [eauto 1 with frames nocore]
    | frame_step
    | lazymatch goal with
      | |- respects _ (addlog _ _ _ _) => apply respects_prim_modify; done
      | |- respects _ (modify _) => apply respects_prim_modify; done
      | |- respects _ (sstore_big _ _ _) => unfold sstore_big
      | |- respects _ (sstore_fill _ _ _) => unfold sstore_fill
      | |- respects _ (match ?x with _ => _ end) => destruct x
      end ].
Ltac code_auto := repeat code_step.

(** ** Handlers *)

Lemma code_QuestAddSupply n : respects same_code (QuestAddSupply n).
Proof. unfold QuestAddSupply, QuestTotalSupply. code_auto. Qed.
Lemma code_QuestCap : respects same_code QuestCap.
Proof. unfold QuestCap, QuestTotalSupply. code_auto. Qed.
Lemma code_move a b z : respects same_code (move a b z).
Proof. intros w. unfold move, modify. cbn [snd]. etrans; apply same_code_add_bal. Qed.
Lemma code_deref a : respects same_code (deref a).
Proof. intros w. unfold deref. by destruct (GetAccount w a). Qed.
#[export] Hint Resolve code_QuestAddSupply code_QuestCap code_move code_deref : frames.

Lemma code_verifyAndPay t c : respects same_code (verifyAndPay t c).
Proof. unfold verifyAndPay. code_auto. Qed.
#[export] Hint Resolve code_verifyAndPay : frames.

Lemma code_taskRegistry input caller n : respects same_code (taskRegistryPrecompile input caller n).
Proof.
  unfold taskRegistryPrecompile, taskClaim, taskVerify, taskAutoVerify, questSetAutopilot,
    taskStatus, taskStatusOf, getTaskReward, questPoolRemaining, questFund, giveawayClaim,
    registerBounty, claimFix, verifyFix, delegateMicroTask, createTask, escrowTask,
    verifyCommunity, getTask, SetAutopilot.
  code_auto.
Qed.

Lemma code_SetAutopilot a : respects same_code (SetAutopilot a).
Proof. unfold SetAutopilot. code_auto. Qed.

Lemma code_governance input caller n : respects same_code (governancePrecompile input caller n).
Proof.
  unfold governancePrecompile, govCreateProposal, govVote, govGetProposal, govGetVote,
    govGetCredits, govFinalize, govCreateMarket, govTradeMarket, apply_inflation.
  code_auto.
Qed.

Lemma code_badges input caller n : respects same_code (doxDevBadgePrecompile input caller n).
Proof.
  unfold doxDevBadgePrecompile, doxGetLevel, doxIsVerified, doxHasMinLevel, dox_read_counter,
    doxIssueBadge, doxRevokeBadge, doxUpgradeBadge, doxAddCurator, doxRemoveCurator, doxApply.
  code_auto.
Qed.

Lemma code_bijo input caller n : respects same_code (bijoPrecompile input caller n).
Proof. unfold bijoPrecompile. code_auto. Qed.

Lemma code_dms input caller n : respects same_code (DMS.deadManSwitchPrecompile input caller n).
Proof.
  unfold DMS.deadManSwitchPrecompile, DMS.createSwitch, DMS.heartbeat, DMS.claim, DMS.cancel,
    DMS.canClaim, DMS.timeUntilClaimable.
  code_auto.
Qed.

Lemma code_btc input caller n : respects same_code (BTC.bitcoinRegistryPrecompile input caller n).
Proof.
  unfold BTC.bitcoinRegistryPrecompile, BTC.attestCommitment, BTC.requestWithdrawal, BTC.read32.
  code_auto.
Qed.

Lemma code_se input caller n : respects same_code (SE.storageEndowmentPrecompile input caller n).
Proof.
  unfold SE.storageEndowmentPrecompile, SE.registerOperator, SE.unregisterOperator,
    SE.getOperatorInfo, SE.getCurrentEpoch, SE.calculateEpochAllocation, SE.submitProof,
    SE.getOperators.
  code_auto.
Qed.

Lemma code_sway_mint to n b : respects same_code (swayMintInternal to n b).
Proof. unfold swayMintInternal, sread. code_auto. Qed.
Lemma code_sway_burn a n : respects same_code (swayBurnInternal a n).
Proof. unfold swayBurnInternal, sread. code_auto. Qed.
Lemma code_sway_init : respects same_code SwayInit.
Proof. unfold SwayInit, sread. cbn [allocate allocations]. code_auto. Qed.
#[export] Hint Resolve code_sway_mint code_sway_burn code_sway_init : frames.

Lemma code_sway input caller n : respects same_code (swayPrecompile input caller n).
Proof.
  unfold swayPrecompile, swayMint, swayMintToCaller, swayGetBalance, swaySwapFee, sread.
  code_auto.
Qed.

Lemma code_faucet input caller n : respects same_code (faucetPrecompile input caller n).
Proof.
  unfold faucetPrecompile, faucetDrip, isFaucetAdmin. code_auto.
  intros w. apply same_code_seed.
Qed.

(** ** The other precompiles *)

Lemma respects_ignore {A} (m : HM A) : respects same_code m -> respects same_code (ignore_err m).
Proof. intros H w. specialize (H w). unfold ignore_err. by destruct (m w) as [[]]. Qed.
Lemma respects_set_slots a l : respects same_code (modify (set_slots a l)).
Proof.
  intros w. unfold modify, set_slots. cbn [snd]. revert w.
  induction l as [|kv l IH]; intros w; [done|]. cbn [fold_left]. etrans; [apply same_code_set_slot|apply IH].
Qed.
#[export] Hint Resolve respects_set_slots : frames.

Ltac code_go := repeat first [apply respects_ignore | code_step].

Section MapHandlers.
Context {MR : MapRange}.

Lemma respects_level a l : respects same_code (modify (upd_acct a (with_level l))).
Proof. intros w. by apply same_code_upd. Qed.
Lemma code_debt v : respects same_code (getVaultDebt v).
Proof. unfold getVaultDebt. code_auto. Qed.
Lemma code_sadd a k v : respects same_code (sadd a k v).
Proof. unfold sadd. code_auto. Qed.
#[local] Hint Resolve respects_level code_debt code_sadd : frames.

Lemma code_StabilityPool input caller n : respects same_code (stabilityPoolPrecompile input caller n).
Proof.
  unfold stabilityPoolPrecompile, stabilityGetPoolStats, stabilityGetDeposit, stabilityAbsorb,
    distributeRewards, stabilityClaimRewards, stabilityWithdraw, stabilityDeposit,
    reduceStabilityMintedDebt, addStabilityMintedDebt, stabilityMintedDebt, sadd, getVaultDebt.
  code_go.
Qed.

Lemma code_TwoWay input caller n : respects same_code (twoWayVaultPrecompile input caller n).
Proof.
  unfold twoWayVaultPrecompile, twoWaySetStablecoinPrice, twoWayGetStablecoinPrice,
    twoWayVaultCount, twoWayGetVault, twoWayLiquidate, twoWayBurn, twoWayWithdraw, twoWayMint,
    route_fee, twoWayDeposit, vault_log, reduceTotalDebt, addTotalDebt, isAboveLiquidationRatio,
    isAboveMinCRatioWithVault, isAcceptedCollateral, getCollateralParam,
    getVaultCollateralValueUSD, getVaultCollaterals,
    stabilityMintedDebt, addStabilityMintedDebt, reduceStabilityMintedDebt.
  code_go.
Qed.

Lemma code_StateRent input caller n : respects same_code (stateRentPrecompile input caller n).
Proof.
  unfold stateRentPrecompile, rentGetDue, rentGetStatus, rentPay.
  code_go.
Qed.

Lemma code_TemplateRegistry input caller n : respects same_code (templateRegistryPrecompile input caller n).
Proof.
  unfold templateRegistryPrecompile, trIsRegistrar, trGetTemplate, trDeployTemplate,
    trRegisterTemplate.
  code_go.
Qed.

Lemma code_TrustlessLock input caller n : respects same_code (trustlessLockPrecompile input caller n).
Proof.
  unfold trustlessLockPrecompile, trustlessExtend, trustlessRelease, trustlessReleasableAmount,
    trustlessGetLock, trustlessCreateMultiSigLock, trustlessCreateVestingLock,
    trustlessCreateTimeLock, lock_created, getTrustlessParam.
  code_go.
Qed.
#[local] Hint Resolve code_TrustlessLock : frames.

Lemma code_SwapRoute input caller n : respects same_code (swapRoutePrecompile input caller n).
Proof.
  unfold swapRoutePrecompile, srGetReserves, srSwap, srRemoveLiquidity, srAddLiquidity,
    srGetPair, srCreatePair.
  code_go.
Qed.

Lemma code_WayStablecoin input caller n : respects same_code (wayStablecoinPrecompile input caller n).
Proof.
  unfold wayStablecoinPrecompile, wayGetTotalSupply, wayUpdateBTCPrice, wayGetPrice,
    wayGetVault, wayGetUserVault, wayBurn1Way, wayMint1Way, wayDepositBTC, wayCreateVault,
    requireCallerIsCreatorOrDeadMan, deadManActiveForVault, VerifyBTCDeposit.
  code_go.
Qed.

Lemma code_AccountManager input caller n : respects same_code (accountManagerPrecompile input caller n).
Proof.
  unfold accountManagerPrecompile, accountUnfreeze, accountFreeze, accountGetGuardianCount,
    accountSetGuardian, accountGetSession, accountRevokeSession, accountCreateSession,
    accountRotateKey, accountAdvance, accountGraduate, accountGetStage, am_log.
  code_go.
Qed.

Lemma code_Privacy input caller n : respects same_code (privacyPrecompile input caller n).
Proof.
  unfold privacyPrecompile, privacyRevoke, privacyGetCommitment, privacyVerifyBalance,
    privacyVerifyIdentity, privacyVerifyMembership, privacyVerifyRange, pv_log, privacyCommit.
  code_go.
Qed.

Lemma code_CrossChain input caller n : respects same_code (crossChainAttestationPrecompile input caller n).
Proof.
  unfold crossChainAttestationPrecompile, ccGetAttestationCount, ccChallengeAttestation,
    ccGetAttestation, ccWitnessEvent.
  code_go.
Qed.

Lemma code_MineralRights input caller n : respects same_code (mineralRightsPrecompile input caller n).
Proof.
  unfold mineralRightsPrecompile, mrtVerifyClaim, mrtTransferRights, mrtEnvironmentalCheck,
    mrtGetTokens, mrtGetClaim, mrtIssueTokens, mrtApproveReserve, mrtRegisterClaim, mrt_log,
    mrtIncrementClaimCount, mrtIncrementVerifierCount, mrtSetClaimStorage.
  code_go.
Qed.
End MapHandlers.

Section OracleHandlers.
Context (verify : bytes -> bytes -> bytes -> bool) `{SortSlice}.

Lemma code_oracle_reads input caller n :
  respects same_code (oracleAggregator verify input caller n) /\
  respects same_code (oracleVerifier verify input caller n) /\
  respects same_code (tlsVerifier verify input caller n) /\
  respects same_code (blsVerify verify input caller n) /\
  respects same_code (accountRecovery verify input caller n) /\
  respects same_code (stateRentCalc input caller n).
Proof.
  unfold oracleAggregator, oracleVerifier, tlsVerifier, blsVerify, accountRecovery, stateRentCalc.
  split_and!; code_auto.
Qed.

End OracleHandlers.

Lemma code_ScheduleTask a b i s m r te :
  same_code (te_State te) (te_State (ScheduleTask a b i s m r te).2).
Proof.
  unfold ScheduleTask, incrementTaskCount, getTaskCount, on_state. case_match; [done|].
  cbn. etrans; [apply same_code_touch|]. etrans; [apply same_code_touch|].
  etrans; [apply same_code_touch|]. apply same_code_set_slot.
Qed.

Lemma code_oracleScheduler input caller n : respects same_code (oracleScheduler input caller n).
Proof.
  unfold oracleScheduler. code_auto. intros w.
  lazymatch goal with |- context [ScheduleTask ?a ?b ?c ?d ?e ?f ?te] =>
    pose proof (code_ScheduleTask a b c d e f te) as Hs;
    destruct (ScheduleTask a b c d e f te) as [r te'] end.
  cbn [snd te_State NewTimeExecution] in Hs. by destruct r as [[]| |].
Qed.

(** ** The end-of-block steps *)

Lemma code_run_task n id te : same_code (te_State te) (te_State (run_task n id te).2).
Proof.
  unfold run_task, on_state, put_task. repeat case_match; try done. cbn.
  etrans; [apply same_code_touch|apply same_code_add_bal].
Qed.

Lemma code_ExecuteDueTasks n te : same_code (te_State te) (te_State (ExecuteDueTasks n te).2).
Proof.
  unfold ExecuteDueTasks. generalize (te_TaskOrder te). intros l.
  revert te. induction l as [|id l IH]; intros te; [done|]. cbn [run_tasks].
  unfold mbind, M_bind. pose proof (code_run_task n id te) as Hr.
  destruct (run_task n id te) as [[a|e|] te1]; cbn [snd] in *; try done.
  specialize (IH te1). destruct (run_tasks n l te1) as [[b|e|] te2]; cbn [snd] in *;
    (etrans; [exact Hr|exact IH]).
Qed.

Lemma code_AccrueEcono : respects same_code AccrueEcono.
Proof.
  unfold AccrueEcono, ComputeEconoPhase, EconoVelocityBps, QuestTotalSupply. code_auto.
Qed.

Lemma code_burnTreasuryShare bps w : same_code w (burnTreasuryShare bps w).
Proof.
  unfold burnTreasuryShare. cbv zeta. repeat case_match; try done; try apply same_code_touch.
  etrans; [apply (same_code_touch treasury_addr)|].
  etrans; [|by apply same_code_accounts]. by apply same_code_upd.
Qed.

Lemma code_ApplyEconoPolicy w : same_code w (ApplyEconoPolicy w).
Proof.
  unfold ApplyEconoPolicy. cbv zeta.
  repeat case_match; try (etrans; [|apply code_burnTreasuryShare]); by apply same_code_accounts.
Qed.
