(* ===== verification/Vm.v ===== *)
(** The execution layer: precompile dispatch and [Execute] (evm/interpreter.go,
    evm/precompiles.go, evm/keccak_precompile.go), contract creation
    (evm/interpreter.go, evm/deploy.go) and the bridge to revm
    (evm/revm_bridge.go).

    revm itself is foreign code behind a C function: it is the operation of the
    class [Revm], whose laws say what the bridge relies on.  The JSON text that
    carries the request and the reply is not modelled: the operation takes the
    request and gives the reply. *)

From Stdlib Require Import ZArith Lia.
From S2P Require Import Prelude Sha256 Collections StateDB.
From S2P Require Import StabilityPool TwoWay StateRent TemplateRegistry TrustlessLock SwapRoute.
From S2P Require Import WayStablecoin AccountManager Privacy CrossChain MineralRights.
From S2P Require Import OraclePre Badges Registries Governance TaskRegistry Sway Faucet Ledger Frames.
From stdpp Require Import gmap list.
Local Open Scope Z_scope.
Local Open Scope go_scope.

(** ** Data *)

Record ExecutionResult := mkResult {
  er_ReturnData : bytes;
  er_GasUsed : Z;
  er_Logs : list LogEntry;
  er_Error : option string;
}.

Record CallContext := mkCtx {
  cc_Caller : bytes;
  cc_Address : bytes;
  cc_Value : Z;
  cc_GasLimit : Z;
  cc_Calldata : bytes;
  cc_ReadOnly : bool;
}.

Record EVM := mkEVM {
  evm_Lane : LaneType;
  evm_BlockNum : Z;
  evm_Timestamp : Z;
  evm_ChainID : Z;
  evm_GasLimit : Z;
  evm_doxDevOracle : bytes;
}.
Definition NewEVM := mkEVM.

Definition error_result (e : string) : ExecutionResult := mkResult [] 0 [] (Some e).

(** ** The revm bridge *)

Record revmAccountState := mkRevmAccount {
  ra_Nonce : Z; ra_Balance : bytes; ra_Code : bytes; ra_Storage : gmap bytes bytes;
}.

Record revmExecuteRequest := mkRequest {
  rq_Caller : bytes; rq_Address : bytes; rq_Value : bytes; rq_GasLimit : Z;
  rq_Calldata : bytes; rq_Code : bytes; rq_IsCreate : bool;
  rq_State : gmap bytes revmAccountState;
}.

Record revmExecuteResponse := mkResponse {
  rp_Success : bool; rp_ReturnData : bytes; rp_GasUsed : Z; rp_Error : bytes;
  rp_State : gmap bytes revmAccountState; rp_NewContract : bytes;
}.

(** What [C.revm_execute] can give back: a null pointer, text that does not
    parse, or a reply. *)
Inductive revm_reply := RevmNull | RevmGarbled | RevmReply (r : revmExecuteResponse).

(** The accounts of a reply and the created contract are named by the hexadecimal
    of twenty bytes, and gas is an unsigned 64-bit number. *)
Class Revm := {
  revm_execute : revmExecuteRequest -> revm_reply;
  revm_names rq rp k : revm_execute rq = RevmReply rp -> is_Some (rp_State rp !! k) ->
    (length (trim_0x k) <= 40)%nat;
  revm_gas rq rp : revm_execute rq = RevmReply rp -> is_u64 (rp_GasUsed rp);
}.

(** [decodeHexBytes]: what [hex.DecodeString] decoded before it failed. *)
Fixpoint hex_decode_prefix (s : bytes) : bytes :=
  match s with
  | a :: b :: s =>
      match hex_val a, hex_val b with
      | Some x, Some y => (x * 16 + y) :: hex_decode_prefix s
      | _, _ => []
      end
  | _ => []
  end.
Definition decodeHexBytes (s : bytes) : bytes := hex_decode_prefix (trim_0x s).

Definition toEvmAddr (addr : bytes) : bytes :=
  let addr := trim_0x addr in
  let raw := decodeHexBytes addr in
  if (length raw =? 20)%nat then lit "0x" ++ addr
  else lit "0x" ++ fmt_x (take 20 (Sha256.sum256 raw)).

(** The loop of [unpadHex]: the last character is kept. *)
Fixpoint strip_zeros (s : bytes) : bytes :=
  match s with
  | 48 :: rest => match rest with [] => s | _ => strip_zeros rest end
  | _ => s
  end.
Definition unpadHex (s : bytes) : bytes := strip_zeros (trim_0x s).

Definition pad64hex (seed : bytes) : bytes := lit "0x" ++ fmt_x seed.

(** [fmt.Sprintf("0x%x", v)] of a [big.Int]. *)
Definition fmt_hex (z : Z) : bytes := hex_digits_fuel (S (Z.to_nat (Z.log2 z / 4))) z [].
Definition fmt_0x (z : Z) : bytes :=
  lit "0x" ++ if z <? 0 then 45 :: fmt_hex (- z) else fmt_hex z.

(** [parseHexBig]: [SetString(s, 16)] reads an optional sign and at least one
    digit; anything else is zero. *)
Fixpoint hex_number (acc : Z) (s : bytes) : option Z :=
  match s with
  | [] => Some acc
  | c :: s => match hex_val c with Some d => hex_number (acc * 16 + d) s | None => None end
  end.
Definition parseHexBig (s : bytes) : Z :=
  let s := trim_0x s in
  let '(sign, digits) := match s with
                         | 43 :: d => (1, d) | 45 :: d => (-1, d) | _ => (1, s)
                         end in
  match digits with
  | [] => 0
  | _ => match hex_number 0 digits with Some n => sign * n | None => 0 end
  end.

Definition with_code (code : bytes) (acc : Account) : Account :=
  mkAccount (StateDB.Nonce acc) (Balance acc) (Sha256.sum256 code) code (Storage acc)
    (Class acc) (DoxDevLevel acc) (StateRentPaid acc) (LastRentPayment acc).

(** The account records of a request: the caller's has neither code nor storage. *)
Definition caller_state (acc : Account) : revmAccountState :=
  mkRevmAccount (StateDB.Nonce acc) (fmt_0x (Balance acc)) [] ∅.
Definition target_state (acc : Account) : revmAccountState :=
  mkRevmAccount (StateDB.Nonce acc) (fmt_0x (Balance acc)) (fmt_x (Code acc))
    (kmap pad64hex (pad64hex <$> Storage acc)).

Definition revm_request (ctx : CallContext) (code : bytes) (w : World) : revmExecuteRequest :=
  let state := {[ toEvmAddr (cc_Caller ctx) := caller_state (acct w (cc_Caller ctx)) ]} in
  let state := if bool_decide (cc_Address ctx = []) then state
               else <[toEvmAddr (cc_Address ctx) := target_state (acct w (cc_Address ctx))]> state in
  mkRequest (toEvmAddr (cc_Caller ctx)) (toEvmAddr (cc_Address ctx))
    (if 0 <? cc_Value ctx then fmt_0x (cc_Value ctx) else []) (cc_GasLimit ctx)
    (fmt_x (cc_Calldata ctx)) (fmt_x code) (bool_decide (cc_Address ctx = [])) state.

Section Vm.
Context (verify : bytes -> bytes -> bytes -> bool).
Context (keccak : bytes -> bytes).
Context {SS : SortSlice} {MR : MapRange} {RV : Revm}.

(** One account of a successful reply. *)
Definition reply_account (caller addr : bytes) (out : revmAccountState) (acc : Account) : Account :=
  let acc := if bool_decide (addr = caller) then acc else with_nonce (ra_Nonce out) acc in
  let acc := if bool_decide (ra_Balance out = []) then acc
             else with_balance (parseHexBig (ra_Balance out)) acc in
  let acc := if bool_decide (ra_Code out = []) then acc
             else with_code (decodeHexBytes (ra_Code out)) acc in
  with_storage (fold_left (fun st kv => <[copy_at 0 (decodeHexBytes kv.1) zero32 :=
                                           copy_at 0 (decodeHexBytes kv.2) zero32]> st)
                 (map_range (ra_Storage out)) (Storage acc)) acc.

Definition apply_reply (caller : bytes) (l : list (bytes * revmAccountState)) (w : World) : World :=
  fold_left (fun w kv => upd_acct (unpadHex kv.1) (reply_account caller (unpadHex kv.1) kv.2) w) l w.

(** [executeWithRevm]. *)
Definition executeWithRevm (ctx : CallContext) (code : bytes) : HM ExecutionResult :=
  touch (cc_Caller ctx) ;;;
  (if bool_decide (cc_Address ctx = []) then mret tt else touch (cc_Address ctx)) ;;;
  let* req := gets (revm_request ctx code) in
  match revm_execute req with
  | RevmNull => mret (error_result "revm: null result")
  | RevmGarbled => mret (error_result "revm: unmarshal result: %w")
  | RevmReply resp =>
      let ret := decodeHexBytes (rp_ReturnData resp) in
      if negb (rp_Success resp) then mret (mkResult ret (rp_GasUsed resp) [] (Some "revm: %s"%string))
      else
        modify (apply_reply (cc_Caller ctx) (map_range (rp_State resp))) ;;;
        if bool_decide (rp_NewContract resp = []) then mret (mkResult ret (rp_GasUsed resp) [] None)
        else
          let addr := unpadHex (rp_NewContract resp) in
          touch addr ;;;
          (if bool_decide (ret = []) then mret tt else modify (upd_acct addr (with_code ret))) ;;;
          mret (mkResult ret (rp_GasUsed resp) [mkLog addr [] addr 0] None)
  end.

(** ** Keccak precompile (0x21) *)

Definition keccakBytes (b : bytes) : bytes := keccak b.
Definition keccak256Precompile : Handler := fun input _ _ =>
  guard_err (length input <? 4)%nat "0x21: input too short" ;;;
  let sel := selectorBytes input in
  if sel =? 0x1901A39A then mret (keccakBytes (drop 4 input))
  else if sel =? 0x6963203C then mret (take 4 (keccakBytes (drop 4 input)))
  else fail "0x21: unknown selector %x".

(** ** The precompile table *)

Definition IsPrecompile (addr : Z) : bool := (0x0C <=? addr) && (addr <=? 0x27).

Definition PrecompilesTable : list (Z * (Z * Handler)) :=
  [(0x0C, (5000, oracleAggregator verify)); (0x0D, (3000, oracleScheduler));
   (0x0E, (1500, oracleVerifier verify)); (0x0F, (10000, tlsVerifier verify));
   (0x10, (15000, blsVerify verify)); (0x11, (8000, accountRecovery verify));
   (0x12, (2000, stateRentCalc)); (0x13, (5000, doxDevBadgePrecompile));
   (0x14, (5000, bijoPrecompile)); (0x15, (5000, DMS.deadManSwitchPrecompile));
   (0x16, (5000, BTC.bitcoinRegistryPrecompile));
   (0x17, (5000, SE.storageEndowmentPrecompile)); (0x18, (10000, twoWayVaultPrecompile));
   (0x19, (8000, stabilityPoolPrecompile)); (0x1A, (5000, trustlessLockPrecompile));
   (0x1B, (3000, accountManagerPrecompile)); (0x1C, (10000, privacyPrecompile));
   (0x1D, (5000, governancePrecompile)); (0x1E, (3000, stateRentPrecompile));
   (0x1F, (5000, crossChainAttestationPrecompile)); (0x20, (8000, mineralRightsPrecompile));
   (0x21, (1000, keccak256Precompile)); (0x22, (8000, wayStablecoinPrecompile));
   (0x23, (5000, taskRegistryPrecompile)); (0x24, (5000, swayPrecompile));
   (0x25, (6000, swapRoutePrecompile)); (0x26, (5000, templateRegistryPrecompile));
   (0x27, (3000, faucetPrecompile))].

Fixpoint table_lookup (t : list (Z * (Z * Handler))) (addr : Z) : option (Z * Handler) :=
  match t with
  | [] => None
  | (a, pc) :: t => if a =? addr then Some pc else table_lookup t addr
  end.

Definition PrecompileGas (addr : Z) : Z :=
  match table_lookup PrecompilesTable addr with Some pc => pc.1 | None => 0 end.

Definition ExecutePrecompile (addr : Z) (input caller : bytes) (blockNum : Z) : HM (bytes * Z) :=
  match table_lookup PrecompilesTable addr with
  | None => fail "unknown precompile 0x%02X"
  | Some (gas, fn) => let* result := fn input caller blockNum in mret (result, gas)
  end.

(** The address form test of [Execute]: hexadecimal of zeros and a precompile
    byte. *)
Definition precompile_of (address : bytes) : option Z :=
  if bool_decide (address = []) then None else
  match hex_decode (trim_0x (to_lower address)) with
  | None | Some [] => None
  | Some decoded =>
      let last := byte_at decoded (length decoded - 1) in
      if forallb (Z.eqb 0) (take (length decoded - 1) decoded) && IsPrecompile last
      then Some last else None
  end.

(** An error value instead of an error. *)
Definition attempt {A} (m : HM A) : HM (string + A) := fun w =>
  match m w with
  | (Ok a, w) => (Ok (inr a), w)
  | (Err e, w) => (Ok (inl e), w)
  | (Panic, w) => (Panic, w)
  end.

Definition deployContractWithRevm (ctx : CallContext) : HM ExecutionResult :=
  executeWithRevm ctx (cc_Calldata ctx).

(** [Execute] past the precompile routing, for a nonempty address. *)
Definition call_account (ctx : CallContext) : HM ExecutionResult :=
  touch (cc_Address ctx) ;;;
  let* code := gets (fun w => Code (acct w (cc_Address ctx))) in
  if bool_decide (code = []) && bool_decide (cc_Calldata ctx = []) then
    (if negb (bool_decide (cc_Caller ctx = cc_Address ctx)) && (0 <? cc_Value ctx)
     then modify (add_bal (cc_Address ctx) (cc_Value ctx)) else mret tt) ;;;
    mret (mkResult [] 21000 [] None)
  else if negb (bool_decide (code = [])) then executeWithRevm ctx code
  else if negb (bool_decide (cc_Calldata ctx = [])) then executeWithRevm ctx (cc_Calldata ctx)
  else mret (error_result "no code at address").

Definition Execute (evm : EVM) (ctx : CallContext) : HM ExecutionResult :=
  match precompile_of (cc_Address ctx) with
  | Some last =>
      let* r := attempt (ExecutePrecompile last (cc_Calldata ctx) (cc_Caller ctx) (evm_BlockNum evm)) in
      match r with
      | inl e => mret (error_result e)
      | inr (result, _) => mret (mkResult result (PrecompileGas last) [] None)
      end
  | None =>
      if bool_decide (cc_Address ctx = []) then deployContractWithRevm ctx
      else call_account ctx
  end.

(** ** Contract creation *)

(** [DeployContractFromCode]. *)
Definition template_address (caller : bytes) (nonce : Z) : bytes :=
  fmt_x (take 20 (Sha256.sum256 (lit "template:" ++ caller ++ lit ":" ++ fmt_d nonce))).

Definition DeployContractFromCode (caller code : bytes) (class : ContractClass) : HM bytes :=
  touch caller ;;;
  let* account := gets (fun w => acct w caller) in
  match EnforceContractClass (DoxDevLevel account) class with
  | Some e => fail e
  | None =>
      let addr := template_address caller (StateDB.Nonce account) in
      modify (upd_acct caller (with_nonce (u64 (StateDB.Nonce account + 1)))) ;;;
      modify (CreateAccount addr code) ;;;
      modify (upd_acct addr (fun acc => with_class class (with_level (DoxDevLevel account) acc))) ;;;
      mret addr
  end.

(** [deployContract] (evm/deploy.go), which nothing calls. *)
Definition deploy_rlp (caller : bytes) (nonce : Z) : bytes :=
  let deployerAddr := take 20 (Sha256.sum256 caller) in
  if nonce <? 56 then [0xc0 + 22; 0x80 + 20] ++ deployerAddr ++ [nonce]
  else
    let nonceBytes := big_bytes nonce in
    [u8 (0xc0 + (1 + 20 + 1 + Z.of_nat (length nonceBytes))); 0x80 + 20] ++ deployerAddr ++
    [u8 (0x80 + Z.of_nat (length nonceBytes))] ++ nonceBytes.

Definition deployContract (evm : EVM) (ctx : CallContext) : HM ExecutionResult :=
  touch (cc_Caller ctx) ;;;
  let* nonce := gets (fun w => StateDB.Nonce (acct w (cc_Caller ctx))) in
  let addr := fmt_x (drop 12 (keccak (deploy_rlp (cc_Caller ctx) nonce))) in
  let* result := Execute evm (mkCtx (cc_Caller ctx) addr (cc_Value ctx) (cc_GasLimit ctx)
                                (cc_Calldata ctx) false) in
  (match er_Error result with
   | None => if bool_decide (er_ReturnData result = []) then mret tt
             else modify (upd_acct addr (with_code (er_ReturnData result)))
   | Some _ => mret tt
   end) ;;;
  mret result.

End Vm.

(** ** A number survives its text *)

Lemma hex_val_digit d : 0 <= d < 16 -> hex_val (hex_digit d) = Some d.
Proof.
  intros H. unfold hex_val, hex_digit. destruct (Z.ltb_spec d 10).
  - rewrite (proj2 (Z.leb_le 48 (48 + d))), (proj2 (Z.leb_le (48 + d) 57)) by lia. cbn. f_equal. lia.
  - rewrite (proj2 (Z.leb_gt (87 + d) 57)) by lia. rewrite andb_false_r.
    rewrite (proj2 (Z.leb_le 97 (87 + d))), (proj2 (Z.leb_le (87 + d) 102)) by lia. cbn. f_equal. lia.
Qed.

(** The digits of a number below [16 ^ n], read after a prefix [a]. *)
Lemma hex_digits_read n z t :
  0 <= z < 16 ^ Z.of_nat (S n) ->
  exists m c r, hex_digits_fuel (S n) z t = c :: r /\ 48 <= c /\
    forall a, hex_number a (c :: r) = hex_number (a * m + z) t.
Proof.
  revert z t. induction n as [|n IH]; intros z t Hz;
    (destruct (Z.ltb_spec z 16);
      [ exists 16, (hex_digit z), t; split_and!;
        [ cbn [hex_digits_fuel]; by rewrite (proj2 (Z.ltb_lt z 16)) by lia
        | unfold hex_digit; case_match; lia
        | intros a; cbn [hex_number]; by rewrite hex_val_digit by lia ]
      |]); [cbn in Hz; lia|].
  destruct (IH (z / 16) (hex_digit (z mod 16) :: t)) as (m & c & r & E & Hc & Hr).
  { rewrite Nat2Z.inj_succ, Z.pow_succ_r in Hz by lia. split; [apply Z.div_pos; lia|].
    apply Z.div_lt_upper_bound; lia. }
  exists (m * 16), c, r. split_and!; [|done|].
  - rewrite <- E. cbn [hex_digits_fuel]. by rewrite (proj2 (Z.ltb_ge z 16)) by lia.
  - intros a. rewrite Hr. cbn [hex_number]. rewrite hex_val_digit by (apply Z.mod_pos_bound; lia).
    f_equal. pose proof (Z.div_mod z 16 ltac:(lia)). lia.
Qed.

(** The fuel of [fmt_hex] is enough for every number. *)
Lemma fmt_hex_read x : 0 <= x -> exists c r, fmt_hex x = c :: r /\ 48 <= c /\ hex_number 0 (c :: r) = Some x.
Proof.
  intros Hx. unfold fmt_hex. set (n := Z.to_nat (Z.log2 x / 4)).
  destruct (hex_digits_read n x []) as (m & c & r & E & Hc & Hr).
  - split; [done|]. destruct (Z.eq_dec x 0) as [->|Hx0]; [apply Z.pow_pos_nonneg; lia|].
    eapply Z.lt_le_trans; [apply Z.log2_spec; lia|].
    change 16 with (2 ^ 4). rewrite <- Z.pow_mul_r by lia. apply Z.pow_le_mono_r; [lia|].
    pose proof (Z.log2_nonneg x). unfold n. rewrite Nat2Z.inj_succ, Z2Nat.id by (apply Z.div_pos; lia).
    pose proof (Z.div_mod (Z.log2 x) 4 ltac:(lia)). pose proof (Z.mod_pos_bound (Z.log2 x) 4 ltac:(lia)). lia.
  - exists c, r. split_and!; [done|done|]. by rewrite Hr.
Qed.

(** [parseHexBig] reads back what the bridge prints. *)
Lemma parseHexBig_fmt_0x z : parseHexBig (fmt_0x z) = z.
Proof.
  unfold parseHexBig, fmt_0x. change (lit "0x") with [48; 120]. destruct (Z.ltb_spec z 0).
  - destruct (fmt_hex_read (- z) ltac:(lia)) as (c & r & E & Hc & Hr). rewrite E. cbn [app trim_0x]. rewrite Hr. lia.
  - destruct (fmt_hex_read z ltac:(lia)) as (c & r & E & Hc & Hr). rewrite E. cbn [app trim_0x].
    assert (Hs : match c :: r with 43 :: d => (1, d) | 45 :: d => (-1, d) | _ => (1, c :: r) end = (1, c :: r)).
    { clear -Hc. destruct c as [|c|c]; try lia. do 6 (destruct c as [c|c|]; try reflexivity; try lia). }
    rewrite Hs, Hr. lia.
Qed.

(** ** Lemmas: addresses *)

Lemma strip_zeros_length s : (length (strip_zeros s) <= length s)%nat.
Proof.
  induction s as [|c s IH]; [done|].
  assert (H : strip_zeros (c :: s) = c :: s \/ strip_zeros (c :: s) = strip_zeros s).
  { cbn [strip_zeros]. repeat (case_match; auto). }
  destruct H as [-> | ->]; [done|]. cbn [length]. lia.
Qed.

Lemma hex_decode_zeros n s :
  hex_decode (replicate (2 * n) 48 ++ s) = (zeros n ++.) <$> hex_decode s.
Proof.
  induction n as [|n IH].
  { cbn. by destruct (hex_decode s). }
  replace (2 * S n)%nat with (S (S (2 * n))) by lia.
  cbn [replicate app hex_decode]. rewrite IH. by destruct (hex_decode s).
Qed.

Lemma to_lower_zeros n s : to_lower (replicate n 48 ++ s) = replicate n 48 ++ to_lower s.
Proof. unfold to_lower. rewrite map_app. f_equal. induction n; [done|]. cbn. by f_equal. Qed.

Lemma zeros_forallb n : forallb (Z.eqb 0) (zeros n) = true.
Proof. unfold zeros. induction n; [done|]. cbn. done. Qed.

Lemma IsPrecompile_range b : IsPrecompile b = true <-> 12 <= b <= 39.
Proof. unfold IsPrecompile. rewrite andb_true_iff, !Z.leb_le. done. Qed.

(** The bytes of precompiles, for statements checked by evaluation. *)
Definition precompile_bytes : list Z := map (fun k => 12 + Z.of_nat k) (seq 0 28).
Lemma precompile_bytes_elem b : IsPrecompile b = true -> b ∈ precompile_bytes.
Proof.
  intros H%IsPrecompile_range. apply list_elem_of_fmap. exists (Z.to_nat (b - 12)).
  split; [lia|]. apply list_elem_of_In, in_seq. lia.
Qed.
Lemma precompile_bytes_check (P : Z -> bool) b :
  forallb P precompile_bytes = true -> IsPrecompile b = true -> P b = true.
Proof.
  intros Hf Hb. apply precompile_bytes_elem in Hb. rewrite forallb_forall in Hf.
  apply Hf. by apply list_elem_of_In.
Qed.

Lemma precompile_of_zeros n b :
  IsPrecompile b = true -> precompile_of (replicate (2 * n) 48 ++ hex_byte b) = Some b.
Proof.
  intros Hb. unfold precompile_of. rewrite bool_decide_eq_false_2 by (by destruct n).
  assert (Hl : hex_decode (to_lower (hex_byte b)) = Some [b]).
  { assert (H : forallb (fun b => bool_decide (hex_decode (to_lower (hex_byte b)) = Some [b]))
      precompile_bytes = true) by (vm_compute; reflexivity).
    apply (precompile_bytes_check _ _ H), bool_decide_eq_true_1 in Hb. done. }
  assert (Ht : forall s, hex_decode (to_lower s) <> None -> trim_0x (to_lower s) = to_lower s).
  { intros s Hs. unfold trim_0x.
    destruct (to_lower s) as [|c1 [|c2 r]]; [done|by repeat case_match|].
    destruct (decide (c1 = 48)) as [->|]; [|by repeat case_match].
    destruct (decide (c2 = 120)) as [->|]; [by destruct Hs|by repeat case_match]. }
  rewrite Ht; rewrite to_lower_zeros, hex_decode_zeros, Hl; [|done]. cbn [fmap option_fmap option_map].
  destruct (zeros n ++ [b]) as [|x r] eqn:E; [by destruct (zeros n)|].
  rewrite <- E, length_app. unfold zeros in *. rewrite length_replicate. cbn [length].
  replace (n + 1 - 1)%nat with n by lia.
  rewrite take_app_length' by (by rewrite length_replicate).
  fold (zeros n). rewrite zeros_forallb. cbn [andb]. unfold byte_at, zeros.
  rewrite app_nth2 by (rewrite length_replicate; lia). rewrite length_replicate, Nat.sub_diag.
  cbn [nth]. by rewrite Hb.
Qed.

(** ** Lemmas: dispatch *)

Section VmFacts.
Context (verify : bytes -> bytes -> bytes -> bool) (keccak : bytes -> bytes).
Context {SS : SortSlice} {MR : MapRange} {RV : Revm}.

Abbreviation table := (PrecompilesTable verify keccak).
Abbreviation execute := (Execute verify keccak).

Lemma code_keccak input caller n : respects same_code (keccak256Precompile keccak input caller n).
Proof. unfold keccak256Precompile. code_auto. Qed.

(** Every entry of the table leaves nonces and code alone. *)
Lemma table_same_code b gas fn input caller n :
  table_lookup table b = Some (gas, fn) -> respects same_code (fn input caller n).
Proof.
  pose proof (code_oracle_reads verify input caller n) as (O1 & O2 & O3 & O4 & O5 & O6).
  cbn [table_lookup PrecompilesTable]. intros Hl.
  repeat (case_match; [injection Hl as <- <-; first
    [ exact O1 | exact O2 | exact O3 | exact O4 | exact O5 | exact O6
    | apply code_oracleScheduler | apply code_badges | apply code_bijo | apply code_dms
    | apply code_btc | apply code_se | apply code_governance | apply code_keccak
    | apply code_taskRegistry | apply code_sway | apply code_faucet | apply code_TwoWay
    | apply code_StabilityPool | apply code_TrustlessLock | apply code_AccountManager | apply code_Privacy
    | apply code_StateRent | apply code_CrossChain | apply code_MineralRights | apply code_WayStablecoin
    | apply code_SwapRoute | apply code_TemplateRegistry ]|]).
  discriminate Hl.
Qed.

(** The table has an entry for every precompile byte, at its declared gas. *)
Lemma table_complete b :
  IsPrecompile b = true -> exists gas fn, table_lookup table b = Some (gas, fn) /\
    PrecompileGas verify keccak b = gas.
Proof.
  intros Hb. apply precompile_bytes_elem in Hb.
  assert (Hp : is_Some (table_lookup table b)).
  { unfold precompile_bytes in Hb. cbn in Hb.
    repeat (apply elem_of_cons in Hb as [->|Hb]; [by eexists|]). by apply elem_of_nil in Hb. }
  destruct Hp as [[gas fn] Hp]. exists gas, fn. unfold PrecompileGas. by rewrite Hp.
Qed.

Lemma precompile_of_IsPrecompile a b : precompile_of a = Some b -> IsPrecompile b = true.
Proof.
  unfold precompile_of. case_bool_decide; [done|].
  destruct (hex_decode _) as [[|x l]|]; [done| |done].
  destruct (forallb _ _ && _) eqn:E; [|done]. intros [= <-]. by apply andb_prop in E as [_ E].
Qed.

(** What [Execute] does on the address of a precompile. *)
Lemma Execute_routed evm ctx w b :
  precompile_of (cc_Address ctx) = Some b ->
  exists gas fn, table_lookup table b = Some (gas, fn) /\
    execute evm ctx w =
      match fn (cc_Calldata ctx) (cc_Caller ctx) (evm_BlockNum evm) w with
      | (Ok r, w') => (Ok (mkResult r gas [] None), w')
      | (Err e, w') => (Ok (error_result e), w')
      | (Panic, w') => (Panic, w')
      end.
Proof.
  intros Hb. destruct (table_complete b (precompile_of_IsPrecompile _ _ Hb)) as (gas & fn & Ht & Hg).
  exists gas, fn. split; [done|]. unfold Execute. rewrite Hb.
  unfold ExecutePrecompile, attempt. rewrite Ht. run_go.
  destruct (fn _ _ _ w) as [[r|e|] w']; cbn; [|done|done]. by rewrite Hg.
Qed.

(** ** Lemmas: what execution leaves alone *)

(** The nonce of [a]. *)
Definition same_nonce (a : bytes) (w w' : World) : Prop :=
  StateDB.Nonce (acct w' a) = StateDB.Nonce (acct w a).

#[local] Instance same_nonce_preorder a : PreOrder (same_nonce a).
Proof. split; [done|]. intros x y z H3 H4. unfold same_nonce in *. congruence. Qed.

Lemma same_nonce_code a w w' : same_code w w' -> same_nonce a w w'.
Proof. intros Hc. apply Hc. Qed.

Lemma same_nonce_upd a b f w :
  (b = a -> forall x, StateDB.Nonce (f x) = StateDB.Nonce x) -> same_nonce a w (upd_acct b f w).
Proof. intros Hf. unfold same_nonce. rewrite acct_upd. case_decide as E; [|done]. rewrite E. by apply Hf. Qed.

Lemma reply_account_nonce caller out acc :
  StateDB.Nonce (reply_account caller caller out acc) = StateDB.Nonce acc.
Proof.
  unfold reply_account. rewrite (bool_decide_eq_true_2 (caller = caller)) by done.
  by repeat case_match.
Qed.

(** A sender's nonce survives its own call, and a name longer than an address
    survives every call. *)
Lemma apply_reply_nonce caller a l w :
  (forall k, k ∈ l.*1 -> a = caller \/ unpadHex k <> a) ->
  same_nonce a w (apply_reply caller l w).
Proof.
  revert w. induction l as [|[k out] l IH]; intros w Hl; [done|]. cbn [apply_reply fold_left].
  etrans; [|apply IH; intros k' Hk'; apply Hl; by right].
  apply same_nonce_upd. cbn [fst snd]. intros Hk x.
  destruct (Hl k) as [->|Hne]; [by left| |done]. rewrite Hk. apply reply_account_nonce.
Qed.

Lemma revm_nonce a ctx code :
  a = cc_Caller ctx \/ (40 < length a)%nat -> respects (same_nonce a) (executeWithRevm ctx code).
Proof.
  intros Ha. unfold executeWithRevm.
  apply respects_bind; [apply _|intros w; apply same_nonce_code, same_code_touch|]. intros _.
  apply respects_bind; [apply _|case_bool_decide; [by intros w|intros w; apply same_nonce_code, same_code_touch]|].
  intros _ w. run_go. destruct (revm_execute (revm_request ctx code w)) as [| |rp] eqn:Er; [done..|].
  destruct (negb (rp_Success rp)); [done|].
  assert (Hr : same_nonce a w (apply_reply (cc_Caller ctx) (map_range (rp_State rp)) w)).
  { apply apply_reply_nonce. intros k Hk. destruct Ha as [Ha|Ha]; [by left|right]. intros <-.
    apply list_elem_of_fmap in Hk as ([k' out] & -> & Hk). apply map_range_elem in Hk.
    pose proof (revm_names _ _ _ Er (mk_is_Some _ _ Hk)) as Hn. cbn [fst] in Ha.
    pose proof (strip_zeros_length (trim_0x k')). unfold unpadHex in Ha. lia. }
  etrans; [exact Hr|]. set (w1 := apply_reply _ _ w). clearbody w1.
  case_bool_decide; [done|].
  etrans; [apply same_nonce_code, same_code_touch|].
  case_bool_decide; cbn [snd]; [done|]. by apply same_nonce_upd.
Qed.

Lemma Execute_nonce a evm ctx :
  a = cc_Caller ctx \/ (40 < length a)%nat -> respects (same_nonce a) (execute evm ctx).
Proof.
  intros Ha w. destruct (precompile_of (cc_Address ctx)) as [b|] eqn:Eb.
  - destruct (Execute_routed evm ctx w b Eb) as (gas & fn & Ht & ->).
    pose proof (table_same_code b gas fn (cc_Calldata ctx) (cc_Caller ctx) (evm_BlockNum evm) Ht w) as Hc.
    destruct (fn _ _ _ w) as [[r|e|] w']; by apply same_nonce_code.
  - unfold Execute. rewrite Eb. case_bool_decide; [by apply revm_nonce|].
    revert w. unfold call_account.
    apply respects_bind; [apply _|intros w; apply same_nonce_code, same_code_touch|]. intros _.
    apply respects_bind; [apply _|by intros w|]. intros code.
    repeat apply respects_if; try (by apply revm_nonce); [|by intros w].
    apply respects_bind; [apply _| |by intros ? w].
    apply respects_if; [|by intros w]. intros w. apply same_nonce_code, same_code_add_bal.
Qed.

(** ** Properties *)

(** Dispatch.  Any even zero-padding of the two digits of a precompile byte
    reaches that precompile's handler, with the gas of its table entry: a result
    becomes a successful execution, an error becomes an execution that used no
    gas, a panic stays a panic.  No account's nonce or code changes. *)
Theorem Execute_precompile evm ctx w n b :
  IsPrecompile b = true -> cc_Address ctx = replicate (2 * n) 48 ++ hex_byte b ->
  exists gas fn, table_lookup table b = Some (gas, fn) /\
    execute evm ctx w =
      match fn (cc_Calldata ctx) (cc_Caller ctx) (evm_BlockNum evm) w with
      | (Ok r, w') => (Ok (mkResult r gas [] None), w')
      | (Err e, w') => (Ok (error_result e), w')
      | (Panic, w') => (Panic, w')
      end /\
    same_code w (execute evm ctx w).2.
Proof.
  intros Hb Ha.
  destruct (Execute_routed evm ctx w b) as (gas & fn & Ht & E).
  { rewrite Ha. by apply precompile_of_zeros. }
  exists gas, fn. split; [done|]. split; [done|]. rewrite E.
  pose proof (table_same_code b gas fn (cc_Calldata ctx) (cc_Caller ctx) (evm_BlockNum evm) Ht w) as Hc.
  by destruct (fn _ _ _ w) as [[r|e|] w'].
Qed.

Lemma apply_reply_logs caller l w : logs (apply_reply caller l w) = logs w.
Proof.
  revert w. unfold apply_reply. induction l as [|[k out] l IH]; intros w; [done|].
  cbn [fold_left]. by rewrite IH.
Qed.
Lemma logs_touch a w : logs (GetOrCreateAccount a w) = logs w.
Proof. unfold GetOrCreateAccount. by destruct (accounts w !! a). Qed.

(** Revm failure.  A bridge call always returns a result; when it reports an
    error no account content has changed, and whatever happens the state's log is
    untouched and the caller keeps its nonce. *)
Theorem executeWithRevm_failure ctx code w :
  exists res w', executeWithRevm ctx code w = (Ok res, w') /\
    (er_Error res <> None -> forall a, acct w' a = acct w a) /\
    logs w' = logs w /\
    StateDB.Nonce (acct w' (cc_Caller ctx)) = StateDB.Nonce (acct w (cc_Caller ctx)) /\
    is_u64 (er_GasUsed res).
Proof.
  assert (Hn := revm_nonce (cc_Caller ctx) ctx code (or_introl eq_refl) w). unfold same_nonce in Hn.
  assert (Hz : is_u64 0) by (unfold is_u64; lia).
  revert Hn. unfold executeWithRevm. run_go.
  set (w1 := GetOrCreateAccount (cc_Caller ctx) w).
  destruct (bool_decide (cc_Address ctx = [])); cbv beta iota.
  1: set (w2 := w1). 2: set (w2 := GetOrCreateAccount (cc_Address ctx) w1).
  all: assert (Hacct : forall a, acct w2 a = acct w a) by (intros a; subst w2 w1; by rewrite ?acct_touch).
  all: assert (Hlogs : logs w2 = logs w) by (subst w2 w1; by rewrite ?logs_touch).
  all: clearbody w2; destruct (revm_execute (revm_request ctx code w2)) as [| |rp] eqn:Er.
  all: try (intros Hn; eexists _, w2; split; [reflexivity|]; by split_and!).
  all: pose proof (revm_gas _ _ Er) as Hg.
  all: destruct (negb (rp_Success rp));
    [intros Hn; eexists _, w2; split; [reflexivity|]; by split_and!|].
  all: assert (Hl := apply_reply_logs (cc_Caller ctx) (map_range (rp_State rp)) w2).
  all: set (w3 := apply_reply _ _ w2) in *; clearbody w3.
  all: destruct (bool_decide (rp_NewContract rp = []));
    [intros Hn; eexists _, w3; split; [reflexivity|]; split_and!; [done|congruence|exact Hn|exact Hg]|].
  all: destruct (bool_decide (decodeHexBytes (rp_ReturnData rp) = []));
    intros Hn; eexists _, _; (split; [reflexivity|]; split_and!;
      [done|cbn; rewrite ?logs_touch; congruence|exact Hn|exact Hg]).
Qed.

(** Plain transfer.  A call without calldata to an account without code costs
    21000 gas and credits exactly the value, to the recipient only, unless caller
    and recipient are the same account, which is credited nothing. *)
Theorem Execute_transfer evm ctx w :
  precompile_of (cc_Address ctx) = None -> cc_Address ctx <> [] ->
  Code (acct w (cc_Address ctx)) = [] -> cc_Calldata ctx = [] -> 0 <= cc_Value ctx ->
  exists w', execute evm ctx w = (Ok (mkResult [] 21000 [] None), w') /\
    (forall a, bal w' a = bal w a +
       if bool_decide (a = cc_Address ctx /\ cc_Caller ctx <> cc_Address ctx)
       then cc_Value ctx else 0) /\
    (forall a k, slot w' a k = slot w a k) /\ same_code w w' /\ logs w' = logs w.
Proof.
  intros Hp Ha Hc Hd Hv. unfold Execute. rewrite Hp, (bool_decide_eq_false_2 _ Ha).
  unfold call_account. run_go. rewrite acct_touch, Hc, Hd. cbn [bool_decide andb].
  rewrite !(bool_decide_eq_true_2 ([] = [])) by done. cbn [andb].
  set (w1 := GetOrCreateAccount (cc_Address ctx) w).
  assert (S1 : same_code w w1) by apply same_code_touch.
  destruct (negb (bool_decide (cc_Caller ctx = cc_Address ctx)) && (0 <? cc_Value ctx)) eqn:E.
  - apply andb_prop in E as [E1 E2]. apply negb_true_iff, bool_decide_eq_false_1 in E1.
    eexists. split; [reflexivity|]. split_and!.
    + intros a. unfold add_bal. rewrite bal_set_bal. subst w1. world_simpl.
      destruct (bool_decide_reflect (a = cc_Address ctx /\ cc_Caller ctx <> cc_Address ctx))
        as [[-> _]|Eb].
      * rewrite decide_True by done. lia.
      * rewrite decide_False by (intros <-; apply Eb; done). lia.
    + intros a k. unfold add_bal. subst w1. by world_simpl.
    + etrans; [exact S1|apply same_code_add_bal].
    + subst w1. cbn. apply logs_touch.
  - exists w1. split; [reflexivity|]. split_and!; [| |exact S1|apply logs_touch].
    + intros a. subst w1. rewrite bal_touch.
      destruct (bool_decide_reflect (a = cc_Address ctx /\ cc_Caller ctx <> cc_Address ctx))
        as [[-> Eb]|_]; [|lia].
      rewrite (bool_decide_eq_false_2 _ Eb) in E. cbn in E. apply Z.ltb_ge in E. lia.
    + intros a k. subst w1. by world_simpl.
Qed.

End VmFacts.

(** ** Concrete interfaces, for examples *)

(** A bridge whose library is missing. *)
Definition null_revm : Revm.
Proof. refine {| revm_execute := fun _ => RevmNull |}; discriminate. Defined.

(** A library that runs nothing and reports the accounts it was given. *)
Definition echo (rq : revmExecuteRequest) : revm_reply :=
  RevmReply (mkResponse true [] 0 []
    (filter (fun kv => (length (trim_0x kv.1) <= 40)%nat) (rq_State rq)) []).
Definition echo_revm : Revm.
Proof.
  refine {| revm_execute := echo |}.
  - intros rq rp k [= <-] [x Hx]. cbn in Hx. by apply map_lookup_filter_Some in Hx as [_ Hx].
  - intros rq rp [= <-]. cbn. unfold is_u64. lia.
Defined.

(** Unmodelled precompiles that refuse every call. *)
(** ** What the code does that its comments do not say *)

(** "Canonical 40-char internal format": an address with a leading zero digit comes
    back from the bridge as a shorter name, which is another account. *)
Lemma unpadHex_loses_zeros a :
  length (48 :: a) = 40%nat -> a <> [] -> unpadHex (lit "0x" ++ 48 :: a) <> 48 :: a.
Proof.
  intros Hl Hne He. unfold unpadHex in He. cbn [lit trim_0x app] in He.
  assert (Hs : strip_zeros (48 :: a) = strip_zeros a) by (cbn [strip_zeros]; by destruct a).
  change (strip_zeros (48 :: a) = 48 :: a) in He. rewrite Hs in He.
  pose proof (strip_zeros_length a). rewrite He in H. cbn [length] in H. lia.
Qed.

(** The bridge sends a sender named by its 64-digit public key under a hashed
    address and stores the reply there: a call that does nothing copies the
    sender's balance to a second account. *)
Definition pubkey_sender : bytes := replicate 64 97.
Definition contract_addr : bytes := replicate 40 98.
Definition call_world : World :=
  upd_acct contract_addr (with_code [0]) (set_bal pubkey_sender 1000 NewStateDB).
Lemma contract_call_copies_balance :
  let ctx := mkCtx pubkey_sender contract_addr 0 50000 [1] false in
  let w := (executeWithRevm (RV := echo_revm) ctx [0] call_world).2 in
  money call_world = 1000 /\ money w = 2000 /\
  bal w (unpadHex (toEvmAddr pubkey_sender)) = 1000.
Proof. vm_compute. done. Qed.

(** ** Witnesses *)

Definition example_evm : EVM := mkEVM ConsensusLane 7 0 10008 100000 [].

Lemma Execute_precompile_witness :
  let ctx := mkCtx pubkey_sender (lit "0024") 0 50000 (be_enc 4 0xD4E5A6B7) false in
  same_code NewStateDB
    (Execute (RV := null_revm) (fun _ _ _ => true) (fun b => b) example_evm ctx
       NewStateDB).2.
Proof.
  cbv zeta.
  destruct (Execute_precompile (RV := null_revm) (fun _ _ _ => true) (fun b => b)
    example_evm (mkCtx pubkey_sender (lit "0024") 0 50000 (be_enc 4 0xD4E5A6B7) false) NewStateDB 1 0x24)
    as (gas & fn & _ & _ & Hs); [reflexivity|reflexivity|]. exact Hs.
Defined.

Lemma Execute_transfer_witness :
  let ctx := mkCtx pubkey_sender contract_addr 250 50000 [] false in
  bal (Execute (RV := null_revm) (fun _ _ _ => true) (fun b => b) example_evm ctx
        NewStateDB).2 contract_addr = 250.
Proof.
  cbv zeta.
  destruct (Execute_transfer (RV := null_revm) (fun _ _ _ => true) (fun b => b)
    example_evm (mkCtx pubkey_sender contract_addr 250 50000 [] false) NewStateDB)
    as (w' & -> & Hb & _); [vm_compute; reflexivity|discriminate|reflexivity|reflexivity|vm_compute; discriminate|].
  cbn [snd]. rewrite Hb. vm_compute. reflexivity.
Defined.
