(* ===== verification/Chain.v ===== *)
(** Block production (chain.go): the lane-separated transaction pool, the chain
    with its genesis precompile state, and [ProduceBlock], which runs the
    transactions, the scheduled tasks, the economic loop and the block rewards.

    What the node takes from outside is explicit: the signature check is a
    parameter, the clock and the addresses Go prints for account pointers are a
    [BlockEnv].  Persistence is in [Store]; the event callback is not modelled. *)

From Stdlib Require Import ZArith Lia.
From S2P Require Import Prelude Sha256 GoFloat Collections StateDB Validators Types Consensus.
From S2P Require Import Staking Econo Scheduler Badges Registries Sway Ledger Frames Vm.
From stdpp Require Import gmap list.
Local Open Scope Z_scope.
Local Open Scope go_scope.

(** ** The pool *)

Record TxPool := mkPool {
  tp_Consensus : list Transaction;
  tp_Oracle : list Transaction;
  tp_Private : list Transaction;
}.

Definition NewTxPool : TxPool := mkPool [] [] [].

Definition Add (tx : Transaction) (p : TxPool) : TxPool :=
  match tx_Lane tx with
  | PrivateLane => mkPool (tp_Consensus p) (tp_Oracle p) (tp_Private p ++ [tx])
  | OracleLane => mkPool (tp_Consensus p) (tp_Oracle p ++ [tx]) (tp_Private p)
  | _ => mkPool (tp_Consensus p ++ [tx]) (tp_Oracle p) (tp_Private p)
  end.

(** Taking [count] from the front of a lane; [count] is not negative. *)
Definition PopConsensus (count : nat) (p : TxPool) : list Transaction * TxPool :=
  let count := Nat.min count (length (tp_Consensus p)) in
  if (count =? 0)%nat then ([], p)
  else (take count (tp_Consensus p),
        mkPool (drop count (tp_Consensus p)) (tp_Oracle p) (tp_Private p)).
Definition PopOracle (count : nat) (p : TxPool) : list Transaction * TxPool :=
  let count := Nat.min count (length (tp_Oracle p)) in
  if (count =? 0)%nat then ([], p)
  else (take count (tp_Oracle p),
        mkPool (tp_Consensus p) (drop count (tp_Oracle p)) (tp_Private p)).
Definition PopPrivate (count : nat) (p : TxPool) : list Transaction * TxPool :=
  let count := Nat.min count (length (tp_Private p)) in
  if (count =? 0)%nat then ([], p)
  else (take count (tp_Private p),
        mkPool (tp_Consensus p) (tp_Oracle p) (drop count (tp_Private p))).
Definition PoolLen (p : TxPool) : Z :=
  Z.of_nat (length (tp_Consensus p)) + Z.of_nat (length (tp_Oracle p)) +
  Z.of_nat (length (tp_Private p)).

(** ** The chain *)

Record Chain := mkChain {
  ch_State : World;
  ch_Pool : TxPool;
  ch_EVM : EVM;
  ch_Blocks : list BlockWithTx;
  ch_Height : Z;
  ch_Staking : option ProgressiveStaking;
}.

(** [copy(devAddr[:], []byte(developer))]. *)
Definition dev_addr (developer : bytes) : bytes := copy_at 0 developer (zeros 20).

(** [registerCurator] and [issueGenesisBadge], on the badge precompile's account. *)
Definition registerCurator (developer : bytes) (w : World) : World :=
  set_slot dox_addr (Sha256.sum256 (48 :: dev_addr developer)) (zeros 31 ++ [1]) w.

Definition genesis_badge (height level validityPeriod : Z) : bytes :=
  level :: (if 0 <? validityPeriod then be_enc 8 (u64 (height + validityPeriod)) else zeros 8) ++
  [0] ++ zeros 7 ++ be_enc 8 height ++ zeros 7.
Definition issueGenesisBadge (height : Z) (developer : bytes) (level validityPeriod : Z)
    (w : World) : World :=
  let n := u64 (big_u64 (be_dec (slot w dox_addr zero32)) + 1) in
  set_slot dox_addr (Sha256.sum256 (16 :: dev_addr developer))
    (genesis_badge height level validityPeriod)
    (set_slot dox_addr zero32 (be_enc 32 n) w).

(** [InitPrecompiles], without the SWAY seed it ends with. *)
Definition init_badges (height : Z) (w : World) : World :=
  let w := GetOrCreateAccount dox_addr w in
  let w := set_slot dox_addr (be_enc 32 1) (be_enc 32 3) w in
  let w := registerCurator (lit "treasury") (registerCurator (lit "bob")
             (registerCurator (lit "alice") w)) in
  issueGenesisBadge height (lit "treasury") 3 0 (issueGenesisBadge height (lit "bob") 2 0
    (issueGenesisBadge height (lit "alice") 3 0 w)).

Definition init_bijo (w : World) : World :=
  let w := GetOrCreateAccount bijo_addr w in
  let w := set_slot bijo_addr zero32 (be_enc 32 BijoSupply) w in
  let w := set_slot bijo_addr (be_enc 32 2) zero32 w in
  set_slot bijo_addr (Sha256.sum256 (16 :: dev_addr (lit "alice"))) (be_enc 32 (BijoSupply / 100)) w.

Definition init_rest (height : Z) (w : World) : World :=
  let w := GetOrCreateAccount BTC.btc_addr (GetOrCreateAccount DMS.dms_addr w) in
  let w := GetOrCreateAccount SE.se_addr w in
  let w := set_slot SE.se_addr (be_enc 32 2) (be_enc 32 height) w in
  GetOrCreateAccount (PrecompileAddrHex 33) w.

Definition InitPrecompiles (height : Z) : HM unit :=
  modify (init_badges height) ;;;
  modify init_bijo ;;;
  modify (init_rest height) ;;;
  SwayInit.

Definition DefaultBlockTimeSec : F64.t := F64.of_Z 3.

(** [NewChain]; [now] is the clock. *)
Definition NewChain (now : Z) : outcome Chain :=
  let w := set_bal (lit "funder") 1000000000 (GetOrCreateAccount (lit "funder") NewStateDB) in
  let '(ps, rate) := NewProgressiveStaking DefaultAnnualInflationPct DefaultBlockTimeSec EpochLength in
  match InitPrecompiles 0 (with_inflation rate w) with
  | (Ok _, w) =>
      Ok (mkChain w NewTxPool (NewEVM ConsensusLane 1 now 10008 30000000 []) [] 0 (Some ps))
  | (Err e, _) => Err e
  | (Panic, _) => Panic
  end.

Definition SeedQuestSupply : HM unit := QuestAddSupply WAYStartingSupply.

(** ** Transactions *)

(** The clock, and the address Go prints for the account of each name. *)
Record BlockEnv := mkEnv { env_now : Z; env_ptr : bytes -> Z }.

(** [ParsePubKey] (crypto.go). *)
Definition ParsePubKey (s : bytes) : option bytes :=
  match hex_decode s with
  | Some pub => if (length pub =? 32)%nat then Some pub else None
  | None => None
  end.

Definition gas_price (tx : Transaction) : Z := if tx_GasPrice tx =? 0 then 1 else tx_GasPrice tx.
Definition max_cost (tx : Transaction) : Z := u64 (tx_GasLimit tx * gas_price tx) + tx_Value tx.
Definition tx_cost (gasUsed : Z) (tx : Transaction) : Z := u64 (gasUsed * gas_price tx) + tx_Value tx.

(** [tx.GasUsed = ..; tx.Logs = ..]. *)
Definition executed_tx (gasUsed : Z) (l : list LogEntry) (tx : Transaction) : Transaction :=
  mkTx (tx_Nonce tx) (tx_From tx) (tx_To tx) (tx_Value tx) (tx_GasLimit tx) (tx_GasPrice tx)
    gasUsed (tx_Data tx) (tx_Hash tx) (tx_Signature tx) (tx_Lane tx) (tx_EncryptedData tx) l.

(** [fmt.Sprintf("%v", accounts)] of a map to pointers: sorted keys, each with
    the pointer in hexadecimal. *)
Definition fmt_accounts (ptr : bytes -> Z) (m : gmap bytes Account) : bytes :=
  let keys := insertion_sort bytes_ltb (map_to_list m).*1 in
  let entry k := k ++ colon ++ fmt_0x (ptr k) in
  lit "map[" ++ match keys with
                | [] => []
                | k :: ks => entry k ++ concat (map (fun k => 32 :: entry k) ks)
                end ++ lit "]".

Section Chain.
Context (verify : bytes -> bytes -> bytes -> bool) (keccak : bytes -> bytes).
Context {SS : SortSlice} {MR : MapRange} {RV : Revm}.

(** An absent signature is accepted. *)
Definition sig_ok (tx : Transaction) : bool :=
  match tx_Signature tx with
  | [] => true
  | sig => match ParsePubKey (tx_From tx) with
           | Some pub => verify pub (TxHash tx) sig
           | None => false
           end
  end.

Definition deploy_refused (tx : Transaction) (sender : Account) : bool :=
  bool_decide (tx_To tx = []) &&
  match CanDeployContract (DoxDevLevel sender) with Some _ => true | None => false end.

(** The checks a transaction passes before it executes. *)
Definition admissible (tx : Transaction) (sender : Account) : bool :=
  sig_ok tx && (tx_Nonce tx =? StateDB.Nonce sender) && negb (deploy_refused tx sender) &&
  (max_cost tx <=? Balance sender).

Definition call_of (tx : Transaction) : CallContext :=
  mkCtx (tx_From tx) (tx_To tx) (tx_Value tx) (tx_GasLimit tx) (tx_Data tx) false.

(** Execution and charge of an admissible transaction. *)
Definition run_admitted (env : BlockEnv) (height : Z) (tx : Transaction)
    : HM (option Transaction) :=
  let evm := NewEVM (tx_Lane tx) height (env_now env) 10008 (tx_GasLimit tx) [] in
  let* logsBefore := gets (fun w => length (logs w)) in
  let* result := Execute verify keccak evm (call_of tx) in
  let* txLogs := gets (fun w => drop logsBefore (logs w)) in
  modify (add_bal (tx_From tx) (- tx_cost (er_GasUsed result) tx)) ;;;
  modify (upd_acct (tx_From tx) (fun a => with_nonce (u64 (StateDB.Nonce a + 1)) a)) ;;;
  mret (match er_Error result with
        | Some _ => None
        | None => Some (executed_tx (er_GasUsed result) txLogs tx)
        end).

(** One iteration of the transaction loop: the transaction as included, if it
    is. *)
Definition run_tx (env : BlockEnv) (height : Z) (tx : Transaction) : HM (option Transaction) :=
  touch (tx_From tx) ;;;
  let* sender := gets (fun w => acct w (tx_From tx)) in
  if admissible tx sender then run_admitted env height tx else mret None.

Fixpoint run_txs (env : BlockEnv) (height : Z) (txs : list Transaction) : HM (list Transaction) :=
  match txs with
  | [] => mret []
  | tx :: txs =>
      let* r := run_tx env height tx in
      let* rest := run_txs env height txs in
      mret (match r with Some tx => tx :: rest | None => rest end)
  end.

(** ** The rest of the block *)

(** One log per executed task. *)
Definition emit_task_log (height : Z) (te : TimeExecution) (id : bytes) (w : World) : World :=
  match GetTask id te with
  | Some task => AddLog addr0D [st_FeedID task; id] [u8 (st_ExecutionCount task)] height w
  | None => w
  end.

(** The scheduler is created here, so its task table is empty. *)
Definition run_due_tasks (height : Z) : HM unit := fun w =>
  let '(r, te) := ExecuteDueTasks height (NewTimeExecution w) in
  match r with
  | Ok due => (Ok tt, fold_left (fun w id => emit_task_log height te id w) due (te_State te))
  | Err e => (Err e, te_State te)
  | Panic => (Panic, te_State te)
  end.

Definition seal (env : BlockEnv) (height : Z) (proposer : ValidatorID) (prevHash : bytes)
    (executed : list Transaction) (w : World) : BlockWithTx :=
  let root := Sha256.sum256 (fmt_accounts (env_ptr env) (accounts w)) in
  let b := mkBlock height proposer (env_now env) prevHash executed root zero32 (logs w) in
  mkBlock height proposer (env_now env) prevHash executed root (ComputeHash b) (logs w).

Definition epoch_ends (height : Z) (ps : ProgressiveStaking) : bool :=
  (0 <? ps_EpochLength ps) && (height mod ps_EpochLength ps =? 0).

Definition rollover (height : Z) (ps : ProgressiveStaking) : HM ProgressiveStaking :=
  if epoch_ends height ps then
    AccrueEcono ;;;
    modify ApplyEconoPolicy ;;;
    mret (RolloverEpoch ps)
  else mret ps.

(** The payout loop, over (minted, state). *)
Definition pay_validator (st : Z * World) (e : bytes * Z) : Z * World :=
  if 0 <? e.2 then
    (u64 (st.1 + e.2), add_bal (ValidatorID_String e.1) e.2
                         (GetOrCreateAccount (ValidatorID_String e.1) st.2))
  else st.

Definition pay_rewards (height : Z) (ps : ProgressiveStaking) : HM ProgressiveStaking :=
  let* pct := gets inflation in
  let '(dist, ps) := DistributeBlockReward pct height ps in
  let* minted := fun w => let '(m, w) := fold_left pay_validator (map_range dist) (0, w) in (Ok m, w) in
  (if 0 <? minted then
     (if 0 <? TreasuryShareOf minted
      then touch treasury_addr ;;; modify (add_bal treasury_addr (TreasuryShareOf minted))
      else mret tt) ;;;
     QuestAddSupply minted
   else mret tt) ;;;
  mret ps.

(** Everything [ProduceBlock] does to the state, the staking ledger apart. *)
Definition block_body (env : BlockEnv) (height : Z) (proposer : ValidatorID) (prevHash : bytes)
    (popped : list Transaction) : HM BlockWithTx :=
  let* executed := run_txs env height popped in
  run_due_tasks height ;;;
  gets (seal env height proposer prevHash executed).

Definition block_end (height : Z) (staking : option ProgressiveStaking)
    : HM (option ProgressiveStaking) :=
  match staking with
  | None => mret None
  | Some ps =>
      let* ps := rollover height ps in
      let* ps := pay_rewards height ps in
      mret (Some ps)
  end.

Definition last_hash (bs : list BlockWithTx) : bytes :=
  match last bs with Some b => blk_Hash b | None => zero32 end.

(** [ProduceBlock]. *)
Definition ProduceBlock (env : BlockEnv) (proposer : ValidatorID) : M Chain BlockWithTx := fun c =>
  let height := u64 (ch_Height c + 1) in
  let '(popped, pool) := PopConsensus 10 (ch_Pool c) in
  let stopped w := mkChain w pool (ch_EVM c) (ch_Blocks c) height (ch_Staking c) in
  match block_body env height proposer (last_hash (ch_Blocks c)) popped (ch_State c) with
  | (Err e, w) => (Err e, stopped w)
  | (Panic, w) => (Panic, stopped w)
  | (Ok block, w) =>
      let chain w ps := mkChain w pool (ch_EVM c) (ch_Blocks c ++ [block]) height ps in
      match block_end height (ch_Staking c) w with
      | (Ok ps, w) => (Ok block, chain w ps)
      | (Err e, w) => (Err e, chain w (ch_Staking c))
      | (Panic, w) => (Panic, chain w (ch_Staking c))
      end
  end.

(** [DeployTestContract], on the chain's own EVM. *)
Definition test_contract : bytes :=
  [0x60; 0x00; 0x35; 0x60; 0x00; 0x55; 0x60; 0x00; 0x54; 0x60; 0x00; 0x52; 0x60; 0x20; 0x60; 0x00; 0xF3].
Definition DeployTestContract (deployer : bytes) : HM bytes :=
  DeployContractFromCode deployer test_contract ClassA.

End Chain.

(** ** Lemmas: the pool *)

Definition consensus_lane (tx : Transaction) : bool :=
  match tx_Lane tx with OracleLane | PrivateLane => false | _ => true end.
Definition oracle_lane (tx : Transaction) : bool :=
  match tx_Lane tx with OracleLane => true | _ => false end.
Definition private_lane (tx : Transaction) : bool :=
  match tx_Lane tx with PrivateLane => true | _ => false end.

Definition add_all (txs : list Transaction) (p : TxPool) : TxPool := fold_left (fun p tx => Add tx p) txs p.

Lemma add_all_lanes txs p :
  add_all txs p = mkPool (tp_Consensus p ++ List.filter consensus_lane txs)
    (tp_Oracle p ++ List.filter oracle_lane txs) (tp_Private p ++ List.filter private_lane txs).
Proof.
  revert p. induction txs as [|tx txs IH]; intros p.
  { cbn. rewrite !app_nil_r. by destruct p. }
  unfold add_all in *. cbn [fold_left]. rewrite IH. unfold Add.
  cbn [List.filter]. unfold consensus_lane at 2, oracle_lane at 2, private_lane at 2.
  by destruct (tx_Lane tx); cbn; rewrite <- ?app_assoc.
Qed.

Lemma take_min {A} n (l : list A) : take (Nat.min n (length l)) l = take n l.
Proof.
  destruct (Nat.le_ge_cases n (length l)); [by rewrite Nat.min_l|].
  rewrite Nat.min_r by done. by rewrite !take_ge.
Qed.
Lemma drop_min {A} n (l : list A) : drop (Nat.min n (length l)) l = drop n l.
Proof.
  destruct (Nat.le_ge_cases n (length l)); [by rewrite Nat.min_l|].
  rewrite Nat.min_r by done. by rewrite !drop_ge.
Qed.
Lemma min_zero {A} n (l : list A) :
  (Nat.min n (length l) =? 0)%nat = true -> take n l = [] /\ drop n l = l.
Proof. intros H%Nat.eqb_eq. destruct l; [by destruct n|]. by destruct n. Qed.

Lemma PopConsensus_eq n p :
  PopConsensus n p = (take n (tp_Consensus p),
                      mkPool (drop n (tp_Consensus p)) (tp_Oracle p) (tp_Private p)).
Proof.
  unfold PopConsensus. case_match eqn:E.
  - apply min_zero in E as [-> ->]. by destruct p.
  - by rewrite take_min, drop_min.
Qed.
Lemma PopOracle_eq n p :
  PopOracle n p = (take n (tp_Oracle p),
                   mkPool (tp_Consensus p) (drop n (tp_Oracle p)) (tp_Private p)).
Proof.
  unfold PopOracle. case_match eqn:E.
  - apply min_zero in E as [-> ->]. by destruct p.
  - by rewrite take_min, drop_min.
Qed.
Lemma PopPrivate_eq n p :
  PopPrivate n p = (take n (tp_Private p),
                    mkPool (tp_Consensus p) (tp_Oracle p) (drop n (tp_Private p))).
Proof.
  unfold PopPrivate. case_match eqn:E.
  - apply min_zero in E as [-> ->]. by destruct p.
  - by rewrite take_min, drop_min.
Qed.

(** ** Lemmas: one transaction *)

Section ChainFacts.
Context (verify : bytes -> bytes -> bytes -> bool) (keccak : bytes -> bytes).
Context {SS : SortSlice} {MR : MapRange} {RV : Revm}.

Abbreviation runtx := (run_tx verify keccak).
Abbreviation runtxs := (run_txs verify keccak).
Abbreviation produce := (ProduceBlock verify keccak).
Abbreviation ok_tx := (admissible verify).

Definition nonce_of (w : World) (a : bytes) : Z := StateDB.Nonce (acct w a).

Lemma run_tx_refused env h tx w :
  ok_tx tx (acct w (tx_From tx)) = false ->
  runtx env h tx w = (Ok None, GetOrCreateAccount (tx_From tx) w).
Proof. intros Ha. unfold run_tx. run_go. by rewrite acct_touch, Ha. Qed.

(** The charge that follows an execution. *)
Definition charge (tx : Transaction) (gasUsed : Z) (w : World) : World :=
  upd_acct (tx_From tx) (fun a => with_nonce (u64 (StateDB.Nonce a + 1)) a)
    (add_bal (tx_From tx) (- tx_cost gasUsed tx) w).

Definition block_evm (env : BlockEnv) (h : Z) (tx : Transaction) : EVM :=
  NewEVM (tx_Lane tx) h (env_now env) 10008 (tx_GasLimit tx) [].

Lemma run_tx_admitted env h tx w :
  ok_tx tx (acct w (tx_From tx)) = true ->
  let w1 := GetOrCreateAccount (tx_From tx) w in
  runtx env h tx w =
    match Execute verify keccak (block_evm env h tx) (call_of tx) w1 with
    | (Ok r, w2) =>
        (Ok (match er_Error r with
             | Some _ => None
             | None => Some (executed_tx (er_GasUsed r) (drop (length (logs w1)) (logs w2)) tx)
             end), charge tx (er_GasUsed r) w2)
    | (Err e, w2) => (Err e, w2)
    | (Panic, w2) => (Panic, w2)
    end.
Proof.
  intros Ha w1. unfold run_tx, run_admitted. run_go. rewrite acct_touch, Ha. fold w1.
  fold (block_evm env h tx).
  destruct (Execute verify keccak (block_evm env h tx) (call_of tx) w1) as [[r|e|] w2]; done.
Qed.

Lemma charge_nonce tx g w a :
  nonce_of (charge tx g w) a =
  if decide (tx_From tx = a) then u64 (nonce_of w a + 1) else nonce_of w a.
Proof.
  unfold nonce_of, charge. rewrite acct_upd. case_decide as E; [rewrite <- E; cbn|];
    unfold add_bal, set_bal; rewrite acct_upd; [by rewrite decide_True|by rewrite decide_False].
Qed.
Lemma charge_bal tx g w a :
  bal (charge tx g w) a = bal w a - if decide (tx_From tx = a) then tx_cost g tx else 0.
Proof.
  assert (Hb : bal (charge tx g w) a = bal (add_bal (tx_From tx) (- tx_cost g tx) w) a).
  { unfold bal at 1, charge. rewrite acct_upd. case_decide as E; [by rewrite <- E|done]. }
  rewrite Hb. unfold add_bal. rewrite bal_set_bal. case_decide as E; [rewrite E|]; lia.
Qed.
Lemma charge_money tx g w : money (charge tx g w) = money w - tx_cost g tx.
Proof.
  unfold charge, money. rewrite total_upd by done. cbn. change (acct_total _ ?w) with (money w).
  rewrite money_add_bal. lia.
Qed.
Lemma charge_slot tx g w a k : slot (charge tx g w) a k = slot w a k.
Proof.
  unfold slot at 1, charge. rewrite acct_upd. case_decide as E; [rewrite <- E; cbn [Storage with_nonce]|];
    apply (slot_set_bal w (tx_From tx)).
Qed.

Lemma charge_logs tx g w : logs (charge tx g w) = logs w.
Proof. done. Qed.
Lemma charge_other tx g w a : a <> tx_From tx -> acct (charge tx g w) a = acct w a.
Proof.
  intros Hne. unfold charge, add_bal, set_bal. by rewrite !acct_upd, !decide_False by congruence.
Qed.

(** A transaction bumps its sender's nonce when admissible, and leaves alone the
    nonces of the other long names. *)
Lemma run_tx_nonce env h tx w r w' a :
  runtx env h tx w = (Ok r, w') -> (40 < length a)%nat ->
  nonce_of w' a =
    if decide (tx_From tx = a)
    then if ok_tx tx (acct w a) then u64 (nonce_of w a + 1) else nonce_of w a
    else nonce_of w a.
Proof.
  intros Hr Ha. destruct (ok_tx tx (acct w (tx_From tx))) eqn:Eo.
  - rewrite run_tx_admitted in Hr by done.
    pose proof (Execute_nonce verify keccak a (block_evm env h tx) (call_of tx) (or_intror Ha)
                  (GetOrCreateAccount (tx_From tx) w)) as Hn.
    destruct (Execute _ _ _ _ _) as [[res|e|] w2]; [|done..]. injection Hr as <- <-.
    rewrite charge_nonce. unfold same_nonce in Hn. cbn [snd] in Hn. rewrite acct_touch in Hn.
    unfold nonce_of. rewrite Hn. case_decide as E; [|done]. subst. by rewrite Eo.
  - rewrite run_tx_refused in Hr by done. injection Hr as <- <-.
    unfold nonce_of. rewrite acct_touch. case_decide as E; [|done]. subst. by rewrite Eo.
Qed.

(** An included transaction is the submitted one with its gas and logs, and was
    admissible. *)
Lemma run_tx_included env h tx w t w' :
  runtx env h tx w = (Ok (Some t), w') ->
  ok_tx tx (acct w (tx_From tx)) = true /\
  exists g l, t = executed_tx g l tx.
Proof.
  intros Hr. destruct (ok_tx tx (acct w (tx_From tx))) eqn:Eo.
  - split; [done|]. rewrite run_tx_admitted in Hr by done.
    destruct (Execute _ _ _ _ _) as [[res|e|] w2]; [|done..].
    destruct (er_Error res); [done|]. injection Hr as <- _. eauto.
  - by rewrite run_tx_refused in Hr.
Qed.

Lemma admissible_nonce tx acc : ok_tx tx acc = true -> tx_Nonce tx = StateDB.Nonce acc.
Proof. unfold admissible. rewrite !andb_true_iff. intros [[[_ Hn] _] _]. by apply Z.eqb_eq. Qed.

(** ** Lemmas: nonces over a block *)

(** The nonces of [a]'s transactions, in order. *)
Definition nonces (a : bytes) (txs : list Transaction) : list Z :=
  map tx_Nonce (List.filter (fun t => bool_decide (tx_From t = a)) txs).

(** Strictly increasing, from [lo] and below [hi]. *)
Fixpoint climbs (lo : Z) (l : list Z) (hi : Z) : Prop :=
  match l with
  | [] => lo <= hi
  | x :: l => lo <= x /\ climbs (x + 1) l hi
  end.

Lemma climbs_weaken lo lo' l hi : lo' <= lo -> climbs lo l hi -> climbs lo' l hi.
Proof. destruct l; cbn; [lia|]. intros ? [? ?]. split; [lia|done]. Qed.
Lemma climbs_app lo mid hi l1 l2 : climbs lo l1 mid -> climbs mid l2 hi -> climbs lo (l1 ++ l2) hi.
Proof.
  revert lo. induction l1 as [|x l1 IH]; intros lo; cbn.
  - intros Hm Hl. by eapply climbs_weaken.
  - intros [Hx Hl] Hr. split; [done|by apply IH].
Qed.
Lemma climbs_ge lo l hi : climbs lo l hi -> lo <= hi /\ forall x, x ∈ l -> lo <= x < hi.
Proof.
  revert lo. induction l as [|y l IH]; intros lo; cbn; [intros Hl; split; [done|intros x Hx; by apply elem_of_nil in Hx]|].
  intros [Hy Hl]. apply IH in Hl as [Hl Hx]. split; [lia|].
  intros x [-> |Hin]%elem_of_cons; [lia|]. specialize (Hx x Hin). lia.
Qed.
Lemma climbs_nodup lo l hi : climbs lo l hi -> NoDup l.
Proof.
  revert lo. induction l as [|y l IH]; intros lo; cbn; [constructor|].
  intros [_ Hl]. constructor; [|by eapply IH]. intros Hin.
  apply climbs_ge in Hl as [_ Hx]. specialize (Hx y Hin). lia.
Qed.

Lemma nonces_cons a t l :
  nonces a (t :: l) = if bool_decide (tx_From t = a) then tx_Nonce t :: nonces a l else nonces a l.
Proof. unfold nonces. cbn. by case_bool_decide. Qed.

Lemma run_txs_nonces env h a txs w ex w' :
  (40 < length a)%nat -> 0 <= nonce_of w a -> nonce_of w a + Z.of_nat (length txs) < 2 ^ 64 ->
  runtxs env h txs w = (Ok ex, w') ->
  climbs (nonce_of w a) (nonces a ex) (nonce_of w' a) /\
  nonce_of w' a <= nonce_of w a + Z.of_nat (length txs).
Proof.
  intros Ha. revert w ex. induction txs as [|tx txs IH]; intros w ex H0 Hn Hr.
  { injection Hr as <- <-. cbn. lia. }
  cbn [run_txs length] in *. revert Hr. run_go.
  destruct (runtx env h tx w) as [[r|e|] w1] eqn:E1; [|done..].
  destruct (runtxs env h txs w1) as [[rest|e|] w2] eqn:E2; [|done..].
  intros [= <- <-]. pose proof (run_tx_nonce _ _ _ _ _ _ a E1 Ha) as Hw1.
  assert (Hu : u64 (nonce_of w a + 1) = nonce_of w a + 1)
    by (apply u64_small; unfold is_u64; lia).
  rewrite Hu in Hw1.
  assert (Hstep : nonce_of w a <= nonce_of w1 a <= nonce_of w a + 1)
    by (rewrite Hw1; repeat case_match; lia).
  destruct (IH w1 rest ltac:(lia) ltac:(lia) E2) as [Hc Hle]. split; [|lia].
  destruct r as [t|]; [|eapply climbs_weaken; [|exact Hc]; lia].
  destruct (run_tx_included _ _ _ _ _ _ E1) as (Hok & g & l & ->).
  rewrite nonces_cons. cbn [tx_From executed_tx tx_Nonce].
  case_bool_decide as E; [|eapply climbs_weaken; [|exact Hc]; lia].
  apply admissible_nonce in Hok as Hnt. rewrite <- E in *. rewrite Hnt.
  rewrite decide_True in Hw1 by done. rewrite Hok in Hw1. cbn. fold (nonce_of w (tx_From tx)).
  split; [lia|]. by rewrite <- Hw1.
Qed.

(** ** Lemmas: the end of a block *)

Lemma run_due_tasks_idle h w : run_due_tasks h w = (Ok tt, w).
Proof. reflexivity. Qed.

Lemma pay_validator_code l st :
  same_code st.2 (fold_left pay_validator l st).2.
Proof.
  revert st. induction l as [|e l IH]; intros st; [done|]. cbn [fold_left].
  etrans; [|apply IH]. unfold pay_validator. case_match; [|done]. cbn [snd].
  etrans; [apply same_code_touch|apply same_code_add_bal].
Qed.

Lemma code_block_end h st : respects same_code (block_end h st).
Proof.
  unfold block_end. destruct st as [ps|]; [|apply respects_ret; apply _].
  apply respects_bind; [apply _| |intros ps'].
  - unfold rollover. apply respects_if; [|by intros w].
    apply respects_bind; [apply _|apply code_AccrueEcono|]. intros _.
    apply respects_bind; [apply _|intros w; apply code_ApplyEconoPolicy|]. by intros ? w.
  - apply respects_bind; [apply _| |by intros ? w].
    unfold pay_rewards. apply respects_bind; [apply _|by intros w|]. intros pct.
    destruct (DistributeBlockReward pct h ps') as [dist ps2].
    apply respects_bind; [apply _| |].
    + intros w. pose proof (pay_validator_code (map_range dist) (0, w)) as Hp.
      by destruct (fold_left _ _ _).
    + intros minted. code_auto.
Qed.

(** ** Lemmas: a block *)

Lemma produce_inv env p c b c' :
  produce env p c = (Ok b, c') ->
  exists ex w1 w2 ps,
    runtxs env (u64 (ch_Height c + 1)) (take 10 (tp_Consensus (ch_Pool c))) (ch_State c) = (Ok ex, w1) /\
    b = seal env (u64 (ch_Height c + 1)) p (last_hash (ch_Blocks c)) ex w1 /\
    block_end (u64 (ch_Height c + 1)) (ch_Staking c) w1 = (Ok ps, w2) /\
    c' = mkChain w2
           (mkPool (drop 10 (tp_Consensus (ch_Pool c))) (tp_Oracle (ch_Pool c)) (tp_Private (ch_Pool c)))
           (ch_EVM c) (ch_Blocks c ++ [b]) (u64 (ch_Height c + 1)) ps.
Proof.
  unfold ProduceBlock. rewrite PopConsensus_eq. unfold block_body. run_go. intros Hp.
  destruct (run_txs _ _ _ _ _ _) as [[ex|e|] w1]; [|done..].
  rewrite run_due_tasks_idle in Hp. cbv beta iota in Hp.
  destruct (block_end _ _ w1) as [[ps|e|] w2] eqn:Ee; [|done..].
  injection Hp as <- <-. by exists ex, w1, w2, ps.
Qed.

(** ** Reachable chains *)

Definition with_pool (p : TxPool) (c : Chain) : Chain :=
  mkChain (ch_State c) p (ch_EVM c) (ch_Blocks c) (ch_Height c) (ch_Staking c).
Definition with_state (w : World) (c : Chain) : Chain :=
  mkChain w (ch_Pool c) (ch_EVM c) (ch_Blocks c) (ch_Height c) (ch_Staking c).
Definition with_staking (ps : option ProgressiveStaking) (c : Chain) : Chain :=
  mkChain (ch_State c) (ch_Pool c) (ch_EVM c) (ch_Blocks c) (ch_Height c) ps.

(** A node's life: submissions, blocks, changes of the stake ledger, and direct
    edits of the state that keep nonces and code (the genesis seed, the supply
    seed, the faucet account set-up). *)
Inductive reachable : Chain -> Prop :=
| reach_new now c : NewChain now = Ok c -> reachable c
| reach_add tx c : reachable c -> reachable (with_pool (Add tx (ch_Pool c)) c)
| reach_stake ps c : reachable c -> reachable (with_staking ps c)
| reach_edit w c : reachable c -> same_code (ch_State c) w -> reachable (with_state w c)
| reach_block env p c b c' : reachable c -> produce env p c = (Ok b, c') -> reachable c'.

Lemma code_issue h d l v w : same_code w (issueGenesisBadge h d l v w).
Proof. unfold issueGenesisBadge. etrans; [apply same_code_set_slot|apply same_code_set_slot]. Qed.
Lemma code_register d w : same_code w (registerCurator d w).
Proof. apply same_code_set_slot. Qed.
Lemma code_init_badges h w : same_code w (init_badges h w).
Proof.
  unfold init_badges. do 3 (etrans; [|apply code_issue]). do 3 (etrans; [|apply code_register]).
  etrans; [apply same_code_touch|apply same_code_set_slot].
Qed.
Lemma code_init_bijo w : same_code w (init_bijo w).
Proof. unfold init_bijo. do 3 (etrans; [|apply same_code_set_slot]). apply same_code_touch. Qed.
Lemma code_init_rest h w : same_code w (init_rest h w).
Proof.
  unfold init_rest. etrans; [|apply same_code_touch]. etrans; [|apply same_code_set_slot].
  etrans; [apply same_code_touch|]. etrans; apply same_code_touch.
Qed.

Lemma NewChain_ok now :
  exists w ps, NewChain now =
    Ok (mkChain w NewTxPool (NewEVM ConsensusLane 1 now 10008 30000000 []) [] 0 ps) /\
    forall a, nonce_of w a = 0.
Proof.
  unfold NewChain, NewProgressiveStaking.
  set (w0 := with_inflation _ _).
  assert (Hn : forall a, nonce_of w0 a = 0).
  { intros a. change (nonce_of (set_bal (lit "funder") 1000000000
      (GetOrCreateAccount (lit "funder") NewStateDB)) a = 0).
    unfold nonce_of, set_bal. rewrite acct_upd, !acct_touch. by case_decide. }
  unfold InitPrecompiles. run_go.
  set (w1 := init_rest 0 _).
  assert (Hc : same_code w0 w1).
  { subst w1. etrans; [|apply code_init_rest]. etrans; [|apply code_init_bijo].
    apply code_init_badges. }
  assert (Hi : readBigInt (slot w1 sway_addr swayKeyInit) = 0) by (vm_compute; reflexivity).
  pose proof (code_sway_init w1) as Hs.
  assert (Hr : exists w2, SwayInit w1 = (Ok tt, w2)).
  { unfold SwayInit, sread. run_go. rewrite slot_touch, Hi. cbn [Z.eqb negb allocate allocations].
    cbv beta iota. run_go.
    repeat (edestruct sstore_big_run as (? & _ & ->); [vm_compute; split; [discriminate|reflexivity]|]; cbv beta iota).
    by eexists. }
  destruct Hr as [w2 Hr]. rewrite Hr in Hs |- *. eexists w2, _. split; [reflexivity|].
  intros a. destruct (Hs a) as [E1 _], (Hc a) as [E2 _]. cbn [snd] in E1.
  unfold nonce_of. rewrite E1, E2. apply Hn.
Qed.

(** ** Properties *)

(** C1 (replay protection).  On any reachable chain the transactions of a sender
    named by a public key (or by any name longer than an address), over all
    blocks and in order, have strictly increasing nonces below the account's
    nonce: no transaction is ever included twice. *)
Theorem no_replay c a :
  reachable c -> (40 < length a)%nat -> 10 * Z.of_nat (length (ch_Blocks c)) < 2 ^ 64 ->
  let included := nonces a (concat (map blk_Transactions (ch_Blocks c))) in
  climbs 0 included (nonce_of (ch_State c) a) /\ NoDup included.
Proof.
  intros Hr Ha Hlen included.
  enough (climbs 0 included (nonce_of (ch_State c) a) /\
          nonce_of (ch_State c) a <= 10 * Z.of_nat (length (ch_Blocks c))) as [H1 H2]
    by (split; [done|by eapply climbs_nodup]).
  subst included. revert Hlen. induction Hr as [now c Hnew|tx c Hr IH|ps c Hr IH|w c Hr IH Hw|env p c b c' Hr IH Hp]; intros Hlen.
  - destruct (NewChain_ok now) as (w & ps & E & Hn). rewrite E in Hnew. injection Hnew as <-.
    cbn [ch_State ch_Blocks map concat length]. rewrite Hn. cbn. lia.
  - by apply IH.
  - by apply IH.
  - cbn [ch_State ch_Blocks with_state] in *. unfold nonce_of in *. destruct (Hw a) as [-> _]. by apply IH.
  - destruct (produce_inv _ _ _ _ _ Hp) as (ex & w1 & w2 & ps & Etx & -> & Eend & ->).
    cbn [ch_State ch_Blocks] in *. rewrite length_app in Hlen |- *. cbn [length] in Hlen |- *.
    destruct IH as [Hc Hle]; [lia|].
    pose proof (climbs_ge _ _ _ Hc) as [H0 _].
    assert (Htake : (length (take 10 (tp_Consensus (ch_Pool c))) <= 10)%nat)
      by (rewrite length_take; lia).
    assert (Hsz : nonce_of (ch_State c) a +
      Z.of_nat (length (take 10 (tp_Consensus (ch_Pool c)))) < 2 ^ 64) by lia.
    destruct (run_txs_nonces env _ a _ _ _ _ Ha H0 Hsz Etx) as [Hc1 Hle1].
    pose proof (code_block_end (u64 (ch_Height c + 1)) (ch_Staking c) w1 a) as [Hn _].
    rewrite Eend in Hn. cbn [snd] in Hn. fold (nonce_of w2 a) (nonce_of w1 a) in Hn. rewrite Hn.
    split; [|lia]. rewrite map_app, concat_app. cbn [map concat seal blk_Transactions].
    rewrite app_nil_r. unfold nonces. rewrite List.filter_app, map_app. by eapply climbs_app.
Qed.

(** C2 (chain linkage).  On any reachable chain, as long as the height does not
    wrap, block number [i] has height [i + 1], carries the hash of its
    predecessor (zero for the first), its own hash is the hash of its contents,
    and it includes at most ten transactions. *)
Theorem chain_linked c :
  reachable c -> Z.of_nat (length (ch_Blocks c)) < 2 ^ 64 ->
  ch_Height c = Z.of_nat (length (ch_Blocks c)) /\
  forall i b, ch_Blocks c !! i = Some b ->
    blk_Height b = Z.of_nat i + 1 /\
    blk_PrevHash b = last_hash (take i (ch_Blocks c)) /\
    blk_Hash b = ComputeHash b /\
    (length (blk_Transactions b) <= 10)%nat.
Proof.
  assert (Hincl : forall env h txs w ex w', runtxs env h txs w = (Ok ex, w') -> (length ex <= length txs)%nat).
  { intros env h txs. induction txs as [|tx txs IH]; intros w ex w' Hr; [by injection Hr as <- _|].
    cbn [run_txs] in Hr. revert Hr. run_go.
    destruct (runtx env h tx w) as [[r|e|] w1]; [|done..].
    destruct (runtxs env h txs w1) as [[rest|e|] w2] eqn:E2; [|done..].
    intros [= <- _]. apply IH in E2. destruct r; cbn; lia. }
  intros Hr. induction Hr as [now c Hnew|tx c Hr IH|ps c Hr IH|w c Hr IH Hw|env p c b c' Hr IH Hp]; intros Hlen.
  - destruct (NewChain_ok now) as (w & ps & E & _). rewrite E in Hnew. injection Hnew as <-.
    cbn [ch_Height ch_Blocks length]. split; [reflexivity|]. intros i b Hi. rewrite lookup_nil in Hi. discriminate Hi.
  - by apply IH.
  - by apply IH.
  - by apply IH.
  - destruct (produce_inv _ _ _ _ _ Hp) as (ex & w1 & w2 & ps & Etx & Eb & _ & ->).
    cbn [ch_Blocks ch_Height] in *. rewrite length_app in Hlen |- *. cbn [length] in *.
    destruct IH as [Hh IH]; [lia|].
    assert (Hu : u64 (ch_Height c + 1) = ch_Height c + 1)
      by (rewrite Hh; apply u64_small; unfold is_u64; lia).
    split; [lia|]. intros i bl Hi.
    destruct (Nat.lt_ge_cases i (length (ch_Blocks c))) as [Hlt|Hge].
    + rewrite lookup_app_l in Hi by done. rewrite take_app_le by lia. by apply IH.
    + rewrite lookup_app_r in Hi by done.
      destruct (i - length (ch_Blocks c))%nat as [|k] eqn:Ek; [|by destruct k].
      injection Hi as <-. assert (i = length (ch_Blocks c)) as -> by lia.
      rewrite take_app_length. rewrite Eb. cbn [seal blk_Height blk_PrevHash blk_Hash blk_Transactions].
      split_and!; [lia|done|done|].
      apply Hincl in Etx. rewrite length_take in Etx. lia.
Qed.

(** C8 (transaction effects).  A transaction that fails a check is dropped and
    changes no account and no log.  One that passes is executed on the sender's
    touched account; whether or not the execution succeeds, the sender then pays the
    gas used at the gas price (a 64-bit product; a price of zero counts as one) and
    the value, its nonce is the one before plus one, and everything else is as the
    execution left it.  An execution that reports an error includes nothing; one that
    does not includes the transaction with the gas used and the logs of the
    execution.  A transaction is included only if it carried the account's nonce and
    either no signature or a valid one, could pay its maximal cost, and was allowed
    to create a contract if it did. *)
Theorem run_tx_effects env h tx w r w' :
  runtx env h tx w = (Ok r, w') ->
  (ok_tx tx (acct w (tx_From tx)) = false ->
     r = None /\ (forall a, acct w' a = acct w a) /\ logs w' = logs w) /\
  (ok_tx tx (acct w (tx_From tx)) = true ->
     exists res w2,
       Execute verify keccak (block_evm env h tx) (call_of tx)
         (GetOrCreateAccount (tx_From tx) w) = (Ok res, w2) /\
       bal w' (tx_From tx) = bal w2 (tx_From tx)
         - ((er_GasUsed res * (if tx_GasPrice tx =? 0 then 1 else tx_GasPrice tx)) mod 2 ^ 64
            + tx_Value tx) /\
       nonce_of w' (tx_From tx) = u64 (nonce_of w (tx_From tx) + 1) /\
       (forall a, a <> tx_From tx -> acct w' a = acct w2 a) /\
       (forall a k, slot w' a k = slot w2 a k) /\ logs w' = logs w2 /\
       (er_Error res <> None -> r = None) /\
       (er_Error res = None ->
          r = Some (executed_tx (er_GasUsed res) (drop (length (logs w)) (logs w')) tx))) /\
  (forall t, r = Some t ->
     tx_Nonce t = nonce_of w (tx_From tx) /\ sig_ok verify tx = true /\
     max_cost tx <= bal w (tx_From tx) /\
     (tx_To tx = [] -> 2 <= DoxDevLevel (acct w (tx_From tx)))).
Proof.
  intros Hr. split_and!.
  - intros Ho. rewrite run_tx_refused in Hr by done. injection Hr as <- <-.
    split; [done|]. split; [intros a; apply acct_touch|apply logs_touch].
  - intros Ho. rewrite run_tx_admitted in Hr by done.
    pose proof (Execute_nonce verify keccak (tx_From tx) (block_evm env h tx) (call_of tx)
                  (or_introl eq_refl) (GetOrCreateAccount (tx_From tx) w)) as Hn.
    destruct (Execute _ _ _ _ _) as [[res|e|] w2]; [|done..]. injection Hr as <- <-.
    exists res, w2. unfold same_nonce in Hn. cbn [snd] in Hn. rewrite acct_touch in Hn. split_and!.
    + done.
    + by rewrite charge_bal, decide_True.
    + rewrite charge_nonce, decide_True by done. unfold nonce_of. by rewrite Hn.
    + intros a Hne. by apply charge_other.
    + intros a k. apply charge_slot.
    + apply charge_logs.
    + by destruct (er_Error res).
    + intros ->. by rewrite charge_logs, logs_touch.
  - intros t ->. apply run_tx_included in Hr as (Ho & g & l & ->).
    apply admissible_nonce in Ho as Hn. unfold admissible in Ho. rewrite !andb_true_iff in Ho.
    destruct Ho as [[[Hs _] Hd] Hb]. split_and!; [done|done|by apply Z.leb_le in Hb|].
    intros Hto. apply negb_true_iff in Hd. unfold deploy_refused in Hd.
    rewrite bool_decide_eq_true_2 in Hd by done. cbn [andb] in Hd. unfold CanDeployContract in Hd.
    destruct (Z.ltb_spec (DoxDevLevel (acct w (tx_From tx))) 2); [done|lia].
Qed.

(** Plain transfer.  An admissible transfer without data, between distinct
    accounts and to an account without code that is not a precompile, moves its
    value, takes 21000 times the gas price from the sender, touches no other
    balance, and destroys exactly the gas. *)
Theorem transfer_spec env h tx w :
  let fee := u64 (21000 * gas_price tx) in
  ok_tx tx (acct w (tx_From tx)) = true ->
  tx_To tx <> [] -> tx_To tx <> tx_From tx -> precompile_of (tx_To tx) = None ->
  Code (acct w (tx_To tx)) = [] -> tx_Data tx = [] -> 0 <= tx_Value tx ->
  exists w', runtx env h tx w = (Ok (Some (executed_tx 21000 [] tx)), w') /\
    (forall a, bal w' a = bal w a
       - (if decide (a = tx_From tx) then tx_Value tx + fee else 0)
       + (if decide (a = tx_To tx) then tx_Value tx else 0)) /\
    nonce_of w' (tx_From tx) = u64 (nonce_of w (tx_From tx) + 1) /\
    (forall a k, slot w' a k = slot w a k) /\
    money w' = money w - fee.
Proof.
  intros fee Ho Hto Hne Hp Hc Hd Hv. rewrite run_tx_admitted by done.
  set (w1 := GetOrCreateAccount (tx_From tx) w). unfold Execute, call_of. cbn [cc_Address].
  rewrite Hp, (bool_decide_eq_false_2 _ Hto). unfold call_account. run_go. cbn [cc_Address cc_Calldata cc_Caller cc_Value].
  rewrite Hd. subst w1. rewrite !acct_touch, Hc. rewrite (bool_decide_eq_true_2 ([] = [])) by done.
  cbn [andb]. rewrite (bool_decide_eq_false_2 (tx_From tx = tx_To tx)) by congruence. cbn [negb andb].
  set (w2 := GetOrCreateAccount (tx_To tx) (GetOrCreateAccount (tx_From tx) w)).
  assert (Hb2 : forall a, bal w2 a = bal w a) by (intros a; subst w2; by world_simpl).
  assert (Hm2 : money w2 = money w) by (subst w2; by world_simpl).
  assert (Hn2 : forall a, nonce_of w2 a = nonce_of w a)
    by (intros a; subst w2; unfold nonce_of; by rewrite !acct_touch).
  assert (Hs2 : forall a k, slot w2 a k = slot w a k) by (intros a k; subst w2; by world_simpl).
  assert (Hl2 : logs w2 = logs (GetOrCreateAccount (tx_From tx) w)) by apply logs_touch.
  set (w3 := if 0 <? tx_Value tx then add_bal (tx_To tx) (tx_Value tx) w2 else w2).
  assert (Hb3 : forall a, bal w3 a = bal w a + if decide (a = tx_To tx) then tx_Value tx else 0).
  { intros a. subst w3. destruct (Z.ltb_spec 0 (tx_Value tx)).
    - unfold add_bal. rewrite bal_set_bal, !Hb2. repeat case_decide; subst; try done; lia.
    - rewrite Hb2. case_decide; lia. }
  assert (Hm3 : money w3 = money w + tx_Value tx).
  { subst w3. destruct (Z.ltb_spec 0 (tx_Value tx)); [rewrite money_add_bal|]; lia. }
  assert (Hn3 : forall a, nonce_of w3 a = nonce_of w a).
  { intros a. rewrite <- Hn2. subst w3. case_match; [|done]. apply same_code_add_bal. }
  assert (Hs3 : forall a k, slot w3 a k = slot w a k).
  { intros a k. rewrite <- Hs2. subst w3. case_match; [|done]. apply (slot_set_bal w2). }
  assert (Hl3 : logs w3 = logs w2) by (subst w3; by case_match).
  exists (charge tx 21000 w3). split.
  { subst w3. destruct (0 <? tx_Value tx); cbn [er_Error er_GasUsed]; do 4 f_equal.
    - change (logs (add_bal (tx_To tx) (tx_Value tx) w2)) with (logs w2). rewrite Hl2. by rewrite drop_all.
    - rewrite Hl2. by rewrite drop_all. }
  split_and!.
  - intros a. rewrite charge_bal, Hb3. unfold tx_cost. fold fee.
    destruct (decide (a = tx_From tx)) as [->|N1];
      [rewrite (decide_True (P := tx_From tx = tx_From tx)) by done|rewrite (decide_False (P := tx_From tx = a)) by congruence]; lia.
  - rewrite charge_nonce, decide_True by done. by rewrite Hn3.
  - intros a k. by rewrite charge_slot.
  - rewrite charge_money, Hm3. unfold tx_cost. fold fee. lia.
Qed.

(** Blocks produced, with submissions in between; the batches the blocks took. *)
Inductive life : Chain -> list (list Transaction) -> Chain -> Prop :=
| life_refl c : life c [] c
| life_add tx c bs c' : life (with_pool (Add tx (ch_Pool c)) c) bs c' -> life c bs c'
| life_block env p c b c1 bs c' :
    produce env p c = (Ok b, c1) -> life c1 bs c' ->
    life c (take 10 (tp_Consensus (ch_Pool c)) :: bs) c'.


(** *** Rewards *)

Lemma pay_validator_spec l m w :
  Forall (fun e => 0 <= e.2) l ->
  let st := fold_left pay_validator l (m, w) in
  u64 st.1 = u64 (m + sumZ (map snd l)) /\ money st.2 = money w + sumZ (map snd l) /\
  (forall a k, slot st.2 a k = slot w a k).
Proof.
  revert m w. induction l as [|e l IH]; intros m w Hl; [cbn; rewrite !Z.add_0_r; done|].
  apply Forall_cons in Hl as [He Hl]. cbn [fold_left map sumZ foldr].
  unfold pay_validator at 2 4 6. cbn [fst snd].
  destruct (Z.ltb_spec 0 e.2).
  - destruct (IH (u64 (m + e.2)) (add_bal (ValidatorID_String e.1) e.2
      (GetOrCreateAccount (ValidatorID_String e.1) w)) Hl) as (H1 & H2 & H3).
    rewrite H1, H2. split_and!.
    + unfold sumZ. u64_sum.
    + rewrite money_add_bal, money_touch. unfold sumZ. lia.
    + intros a k. rewrite H3. unfold add_bal. by world_simpl.
  - destruct (IH m w Hl) as (H1 & H2 & H3). unfold sumZ in *.
    split_and!; [rewrite H1|rewrite H2|done]; [f_equal|]; lia.
Qed.

Lemma dist_nonneg pct h ps :
  Forall (fun e => 0 <= e.2) (map_range (DistributeBlockReward pct h ps).1).
Proof.
  assert (Hl : forall av t l st, 0 <= t -> map_Forall (fun _ v => 0 <= v) st.1.1 ->
    map_Forall (fun _ v => 0 <= v) (fold_left (pay_one av t) l st).1.1).
  { intros av t l. induction l as [|e l IH]; intros [[d m] p] Ht Hd; [done|]. cbn [fold_left].
    apply IH; [done|]. unfold pay_one. case_match; [done|]. cbn [fst].
    apply map_Forall_insert_2; [|done]. apply Z_div_nonneg_nonneg; [apply u64_range|done]. }
  assert (Hm : map_Forall (fun _ v => 0 <= v) (DistributeBlockReward pct h ps).1).
  { unfold DistributeBlockReward. set (t := total_annual _).
    assert (0 <= t) by (subst t; unfold total_annual; rewrite (u64_sum_loop snd); apply u64_range).
    case_match; [apply map_Forall_empty|]. case_match; [apply map_Forall_empty|].
    match goal with |- context [fold_left (pay_one ?a ?b) ?l ?s] =>
      pose proof (Hl a b l s H (map_Forall_empty _)) as Hf; destruct (fold_left (pay_one a b) l s) as [[d m] paid] end.
    by destruct (paid =? 0). }
  apply Forall_forall. intros [k v] Hin. apply map_range_elem in Hin. by apply (Hm k).
Qed.

Lemma minted_range pct h ps :
  is_u64 (epochMinted ps) -> is_u64 (epochMinted (DistributeBlockReward pct h ps).2).
Proof.
  intros Hm. unfold DistributeBlockReward. case_match; [exact Hm|]. case_match; [exact Hm|].
  destruct (fold_left _ _ _) as [[d m] paid]. destruct (paid =? 0); [exact Hm|apply u64_range].
Qed.

Lemma pay_validator_range l st : is_u64 st.1 -> is_u64 (fold_left pay_validator l st).1.
Proof.
  revert st. induction l as [|e l IH]; intros st Hs; [done|]. cbn [fold_left]. apply IH.
  unfold pay_validator. destruct (0 <? e.2); [apply u64_range|exact Hs].
Qed.

Lemma QuestAddSupply_run n w w' :
  0 < n -> 0 <= supply_of w -> QuestAddSupply n w = (Ok tt, w') ->
  supply_of w' = supply_of w + n /\ money w' = money w.
Proof.
  intros Hn Hs. unfold QuestAddSupply. destruct (Z.leb_spec n 0); [lia|]. unfold QuestTotalSupply. run_go.
  assert (E : supply_of (GetOrCreateAccount addr23 w) = supply_of w) by (unfold supply_of; by rewrite slot_touch).
  rewrite E. unfold must, fill_bytes. rewrite Z.abs_eq by lia.
  destruct (Z.ltb_spec (supply_of w + n) (256 ^ Z.of_nat 32)) as [Hlt|]; [|discriminate].
  unfold mret, M_ret. intros Hq. apply (f_equal snd) in Hq. cbn [snd] in Hq. subst w'. split.
  - unfold supply_of at 1, readBigInt. rewrite slot_set_eq. apply be_dec_enc_small. lia.
  - by rewrite money_set_slot, money_touch.
Qed.

(** Block rewards.  The rewards of a block are new money: the supply counter
    and the epoch counter grow by exactly what the validators are paid, and the
    treasury's share is minted on top of it. *)
Theorem block_rewards h ps w ps' w' :
  fits (inflation w) ps -> 0 <= supply_of w -> pay_rewards h ps w = (Ok ps', w') ->
  let minted := epochMinted ps' - epochMinted ps in
  0 <= minted /\ supply_of w' = supply_of w + minted /\
  money w' = money w + minted + TreasuryShareOf minted.
Proof.
  intros Hf Hs. unfold pay_rewards. run_go.
  pose proof (dist_nonneg (inflation w) h ps) as Hnn.
  destruct (DistributeBlockReward (inflation w) h ps) as [dist ps1] eqn:Ed.
  destruct (DistributeBlockReward_step _ _ _ _ _ Hf Ed) as (Hd0 & Hd & _). cbn [fst] in Hnn.
  assert (Hsum : sumZ (map snd (map_range dist)) = map_sum id dist) by exact (map_sum_range id dist).
  destruct (pay_validator_spec (map_range dist) 0 w Hnn) as (P1 & P2 & P3). rewrite Hsum in P1, P2.
  destruct (fold_left pay_validator (map_range dist) (0, w)) as [m w1] eqn:Ef. cbn [fst snd] in *.
  assert (Hps1 : is_u64 (epochMinted ps1)).
  { pose proof (minted_range (inflation w) h ps (proj1 Hf)) as Hr. by rewrite Ed in Hr. }
  assert (Hm : m = map_sum id dist).
  { destruct Hf as (H0 & _). unfold is_u64 in *.
    rewrite <- (u64_small (map_sum id dist)) by (unfold is_u64; lia).
    rewrite <- (u64_small m); [exact P1|].
    pose proof (pay_validator_range (map_range dist) (0, w)) as Hr. rewrite Ef in Hr.
    apply Hr. unfold is_u64. cbn. lia. }
  assert (Hs1 : supply_of w1 = supply_of w) by (unfold supply_of; by rewrite P3).
  clear P1 Ef. subst m.
  assert (He : epochMinted ps1 - epochMinted ps = map_sum id dist) by lia.
  destruct (Z.ltb_spec 0 (map_sum id dist)) as [Hpos|Hz].
  2: { intros [= <- <-]. rewrite He, P2, Hs1. replace (map_sum id dist) with 0 by lia.
       change (TreasuryShareOf 0) with 0. lia. }
  assert (Hshare : 0 <= TreasuryShareOf (map_sum id dist))
    by (apply Z_div_nonneg_nonneg; [apply u64_range|lia]).
  set (w2 := if 0 <? TreasuryShareOf (map_sum id dist)
             then add_bal treasury_addr (TreasuryShareOf (map_sum id dist)) (GetOrCreateAccount treasury_addr w1)
             else w1).
  assert (M2 : money w2 = money w + map_sum id dist + TreasuryShareOf (map_sum id dist)).
  { subst w2. destruct (Z.ltb_spec 0 (TreasuryShareOf (map_sum id dist)));
      [rewrite money_add_bal, money_touch|]; lia. }
  assert (S2 : supply_of w2 = supply_of w).
  { rewrite <- Hs1. subst w2. unfold supply_of. case_match; [|done]. unfold add_bal. by world_simpl. }
  intros Hq.
  assert (Hq2 : exists w3, QuestAddSupply (map_sum id dist) w2 = (Ok tt, w3) /\ w3 = w' /\ ps1 = ps').
  { subst w2. destruct (0 <? TreasuryShareOf (map_sum id dist));
      destruct (QuestAddSupply _ _) as [[[]|e|] w3] eqn:Eq; try done;
      injection Hq as <- <-; by exists w3. }
  destruct Hq2 as (w3 & Eq & -> & ->).
  destruct (QuestAddSupply_run (map_sum id dist) w2 w' Hpos ltac:(lia) Eq) as [Q1 Q2].
  rewrite He, Q1, Q2, M2, S2. lia.
Qed.

End ChainFacts.

(** ** What the code does that its comments do not say *)

Definition no_verify (pub msg sig : bytes) : bool := false.
Definition example_env : BlockEnv := mkEnv 0 (fun _ => 0xc000).
Definition payer : bytes := replicate 40 97.
Definition payee : bytes := replicate 40 98.
Definition funded (z : Z) : World := set_bal payer z NewStateDB.
Definition example_tx (to : bytes) (value gasLimit gasPrice : Z) (data : bytes) : Transaction :=
  mkTx 0 payer to value gasLimit gasPrice 0 data [] [] ConsensusLane [] [].
Definition example_run (rv : Revm) (tx : Transaction) (w : World) :=
  run_tx (RV := rv) no_verify (fun b => b) example_env 1 tx w.

(** A transaction without a signature moves anyone's money. *)
Lemma unsigned_executes :
  let '(r, w) := example_run null_revm (example_tx payee 50000 21000 1 []) (funded 100000) in
  match r with Ok (Some tx) => tx_Signature tx = [] | _ => False end /\ bal w payee = 50000.
Proof. vm_compute. done. Qed.

(** A transfer to oneself destroys the value besides the gas. *)
Lemma self_transfer_burns :
  let w := (example_run null_revm (example_tx payer 50 21000 1 []) (funded 100000)).2 in
  money w = 100000 - 21000 - 50.
Proof. vm_compute. reflexivity. Qed.

(** A call that fails is charged its value, which nobody receives. *)
Lemma failed_call_burns_value :
  let '(r, w) := example_run null_revm (example_tx (lit "0d") 100 5000 1 []) (funded 100000) in
  r = Ok None /\ bal w payer = 99900 /\ money w = 99900.
Proof. vm_compute. done. Qed.

(** The balance check multiplies in 64 bits: a gas limit of 2^63 at price 2 costs
    nothing up front, and the charge makes the balance negative. *)
Lemma gas_check_wraps :
  let '(r, w) := example_run null_revm (example_tx payee 0 (2 ^ 63) 2 []) (funded 0) in
  is_ok r = true /\ bal w payer = -42000.
Proof. vm_compute. done. Qed.

(** Nothing compares the gas used with the gas limit. *)
Lemma gas_limit_ignored :
  let w := (example_run null_revm (example_tx payee 0 0 1 []) (funded 0)).2 in
  bal w payer = -21000.
Proof. vm_compute. reflexivity. Qed.

(** A library that charges the caller 21000 gas, as revm does. *)
Definition charging (rq : revmExecuteRequest) : revm_reply :=
  RevmReply (mkResponse true [] 21000 []
    (alter (fun a => mkRevmAccount (ra_Nonce a) (fmt_0x (parseHexBig (ra_Balance a) - 21000))
                       (ra_Code a) (ra_Storage a)) (rq_Caller rq)
      (filter (fun kv => (length (trim_0x kv.1) <= 40)%nat) (rq_State rq))) []).
Definition charging_revm : Revm.
Proof.
  refine {| revm_execute := charging |}.
  - intros rq rp k [= <-] [x Hx]. cbn in Hx. destruct (decide (rq_Caller rq = k)) as [<-|Hne].
    + rewrite lookup_alter_eq in Hx. destruct (filter _ _ !! _) eqn:E; [|done].
      by apply map_lookup_filter_Some in E as [_ E].
    + rewrite lookup_alter_ne in Hx by done. by apply map_lookup_filter_Some in Hx as [_ Hx].
  - intros rq rp [= <-]. cbn. unfold is_u64. lia.
Defined.

(** The bridge stores the balance revm has already charged, and block execution
    charges it again. *)
Lemma contract_call_charged_twice :
  let w0 := upd_acct payee (with_code [0]) (funded 100000) in
  let w := (example_run charging_revm (example_tx payee 0 50000 1 [1]) w0).2 in
  bal w payer = 100000 - 2 * 21000.
Proof. vm_compute. reflexivity. Qed.

(** "Hash of all account data": the text hashed for the state root does not depend
    on any account's contents, only on names and on where Go put the accounts. *)
Lemma state_root_ignores_contents ptr (f : Account -> Account) m :
  fmt_accounts ptr (f <$> m) = fmt_accounts ptr m.
Proof.
  unfold fmt_accounts.
  assert (Hk : insertion_sort bytes_ltb (map_to_list (f <$> m)).*1 =
               insertion_sort bytes_ltb (map_to_list m).*1).
  { assert (Hp : Permutation (map_to_list (f <$> m)).*1 (map_to_list m).*1).
    { rewrite map_to_list_fmap. rewrite <- list_fmap_compose. apply Permutation_refl'.
      apply list_fmap_ext. by intros _ [k x] _. }
    apply (sorted_by_unique bytes_ltb).
    - apply bytes_ltb_total.
    - apply insertion_sort_sorted, bytes_ltb_strict.
    - apply insertion_sort_sorted, bytes_ltb_strict.
    - etrans; [apply insertion_sort_perm|]. etrans; [exact Hp|]. symmetry. apply insertion_sort_perm. }
  by rewrite Hk.
Qed.

(** "All logs emitted during this block's execution": a block carries every log of
    the state, earlier blocks' included. *)
Lemma block_logs_accumulate env h p ph ex w a t d n :
  mkLog a t d n ∈ logs w -> mkLog a t d n ∈ blk_Logs (seal env h p ph ex w).
Proof. done. Qed.

(** Rewards go to an account named by two hexadecimal digits, shared by all
    validators with the same last byte. *)
Lemma rewards_go_to_short_names id : length (ValidatorID_String id) = 2%nat.
Proof. done. Qed.

(** ** Witnesses *)

Definition payer_key : bytes := replicate 64 97.
Definition demo_tx : Transaction := NewTransaction 0 payer_key payee 5 21000 [].
Definition demo_start : Chain := match NewChain 0 with Ok c => c | _ => mkChain NewStateDB NewTxPool example_evm [] 0 None end.
Definition demo_ready : Chain :=
  let c := with_state (set_bal payer_key 1000000 (ch_State demo_start)) demo_start in
  with_pool (Add demo_tx (ch_Pool c)) c.
Abbreviation demo_run := (ProduceBlock (RV := null_revm) no_verify (fun b : bytes => b)
  example_env (NewValidatorID 1) demo_ready).

Lemma demo_start_ok : NewChain 0 = Ok demo_start.
Proof. destruct (NewChain_ok 0) as (w & ps & E & _). unfold demo_start. by rewrite E. Qed.

Lemma demo_ready_reachable : reachable (RV := null_revm) no_verify (fun b => b) demo_ready.
Proof.
  unfold demo_ready. apply reach_add, reach_edit; [eapply reach_new, demo_start_ok|].
  by apply same_code_upd.
Qed.

Lemma is_ok_run {A B} (r : outcome A * B) : is_ok r.1 = true -> exists a, r = (Ok a, r.2).
Proof. destruct r as [[a|e|] b]; intros H; [by exists a|discriminate H..]. Qed.

Lemma demo_run_ok : exists b, demo_run = (Ok b, demo_run.2).
Proof. apply is_ok_run. vm_compute. reflexivity. Qed.

Lemma demo_run_reachable : reachable (RV := null_revm) no_verify (fun b => b) demo_run.2.
Proof. destruct demo_run_ok as [b Hb]. exact (reach_block _ _ _ _ _ _ _ demo_ready_reachable Hb). Qed.

Lemma no_replay_witness :
  nonces payer_key (concat (map blk_Transactions (ch_Blocks demo_run.2))) = [0] /\
  climbs 0 (nonces payer_key (concat (map blk_Transactions (ch_Blocks demo_run.2))))
    (nonce_of (ch_State demo_run.2) payer_key).
Proof.
  split; [vm_compute; reflexivity|].
  exact (proj1 (no_replay (RV := null_revm) no_verify (fun b => b) demo_run.2 payer_key
    demo_run_reachable ltac:(apply Nat.ltb_lt; vm_compute; reflexivity) ltac:(vm_compute; reflexivity))).
Defined.

Lemma chain_linked_witness : ch_Height demo_run.2 = 1.
Proof.
  rewrite (proj1 (chain_linked (RV := null_revm) no_verify (fun b => b) demo_run.2
    demo_run_reachable ltac:(vm_compute; reflexivity))).
  vm_compute. reflexivity.
Defined.

Lemma transfer_spec_witness :
  exists w', example_run null_revm (example_tx payee 50000 21000 1 []) (funded 100000) =
    (Ok (Some (executed_tx 21000 [] (example_tx payee 50000 21000 1 []))), w') /\ bal w' payee = 50000.
Proof.
  destruct (transfer_spec (RV := null_revm) no_verify (fun b => b) example_env 1
    (example_tx payee 50000 21000 1 []) (funded 100000)) as (w' & Hr & Hb & _);
    [vm_compute; reflexivity|discriminate|discriminate|vm_compute; reflexivity|vm_compute; reflexivity
    |reflexivity|vm_compute; discriminate|].
  exists w'. split; [exact Hr|]. rewrite Hb. vm_compute. reflexivity.
Defined.

(** A call to a precompile with no data fails: the sender pays its value and the gas,
    and the transaction is not included. *)
Definition demo_failing : Transaction := example_tx (lit "0d") 100 5000 1 [].
Definition demo_failed := example_run null_revm demo_failing (funded 100000).

Lemma run_tx_effects_witness :
  demo_failed.1 = Ok None /\ nonce_of demo_failed.2 payer = 1 /\
  exists res w2,
    Execute (RV := null_revm) no_verify (fun b => b) (block_evm example_env 1 demo_failing)
      (call_of demo_failing) (GetOrCreateAccount payer (funded 100000)) = (Ok res, w2) /\
    bal demo_failed.2 payer = bal w2 payer - (er_GasUsed res + 100) /\ bal demo_failed.2 payer = 99900.
Proof.
  assert (E : demo_failed = (Ok None, demo_failed.2)) by (vm_compute; reflexivity).
  destruct (run_tx_effects (RV := null_revm) no_verify (fun b => b) example_env 1
      demo_failing (funded 100000) None demo_failed.2 E) as (_ & Hok & _).
  destruct Hok as (res & w2 & Hx & Hb & Hn & _); [vm_compute; reflexivity|].
  split; [vm_compute; reflexivity|]. split; [etransitivity; [exact Hn|]; vm_compute; reflexivity|].
  exists res, w2. split; [exact Hx|]. split; [|vm_compute; reflexivity].
  etransitivity; [exact Hb|]. vm_compute in Hx. injection Hx as <- <-. vm_compute. reflexivity.
Defined.


(** A validator with ten thousand staked, and seven tokens accrued. *)
Definition demo_ps : ProgressiveStaking :=
  with_emission 0 (F64.of_Z 7) 0 (ValidatorRewards (RegisterStake (NewValidatorID 1) 10000
    (NewProgressiveStaking (F64.of_Z 7) (F64.of_Z 3) EpochLength).1))
    (RegisterStake (NewValidatorID 1) 10000 (NewProgressiveStaking (F64.of_Z 7) (F64.of_Z 3) EpochLength).1).

Lemma block_rewards_witness :
  let r := pay_rewards 1 demo_ps NewStateDB in
  money r.2 = 7 + TreasuryShareOf 7 /\ supply_of r.2 = 7.
Proof.
  cbv zeta. destruct (pay_rewards 1 demo_ps NewStateDB) as [[ps'|e|] w'] eqn:E.
  - destruct (block_rewards 1 demo_ps NewStateDB ps' w') as (_ & Hs & Hm).
    + split_and!; vm_compute; first [reflexivity | split; [discriminate|reflexivity]].
    + vm_compute. discriminate.
    + exact E.
    + assert (He : epochMinted ps' = 7).
      { apply (f_equal (fun r => match r.1 with Ok p => epochMinted p | _ => 0 end)) in E.
        cbn [fst] in E. rewrite <- E. vm_compute. reflexivity. }
      cbn [snd]. rewrite Hs, Hm, He. split; vm_compute; reflexivity.
  - vm_compute in E. discriminate E.
  - vm_compute in E. discriminate E.
Defined.
