(* ===== verification/Genesis.v ===== *)
(** Genesis (genesis.go): the default configuration, the state and the registry it
    is turned into, and the first block.  Reading and writing the configuration as
    JSON is not modelled. *)

From Stdlib Require Import ZArith Lia.
From S2P Require Import Prelude Sha256 GoFloat Collections StateDB Validators Types Staking.
From S2P Require Import Econo TaskRegistry Badges Sway Faucet Ledger Frames Vm Chain.
From stdpp Require Import gmap list.
Local Open Scope Z_scope.
Local Open Scope go_scope.

Record GenesisValidator := mkGenVal { gv_ID : bytes; gv_Stake : Z }.
Record GenesisAccount := mkGenAcc { ga_Address : bytes; ga_Balance : Z; ga_Level : Z }.
Record GenesisConfig := mkGenesis {
  gc_ChainID : bytes;
  gc_GenesisTime : bytes;
  gc_InitialHeight : Z;
  gc_Supply : Z;
  gc_Validators : list GenesisValidator;
  gc_Accounts : list GenesisAccount;
}.
Record GenesisState := mkGenState {
  gs_Config : GenesisConfig;
  gs_Validators : ValidatorSet;
  gs_Chain : Chain;
}.

Definition DefaultGenesis : GenesisConfig :=
  mkGenesis (lit "waychain-1") (lit "2026-06-22T00:00:00Z") 1 100000000
    [mkGenVal (lit "genesis-val-1") 10000; mkGenVal (lit "genesis-val-2") 10000;
     mkGenVal (lit "genesis-val-3") 10000; mkGenVal (lit "genesis-val-4") 10000;
     mkGenVal (lit "genesis-val-5") 10000]
    [mkGenAcc (PrecompileAddrHex 3) 10000000 3;
     mkGenAcc (lit "00000000000000000000000000000000000000ec") 13500000 3;
     mkGenAcc (lit "e5da0c28804c512ac7e0f4a53ad8d6fd13f81e76") 1000000 3].

(** [sha256Hash], which folds the bytes into 32 with exclusive or. *)
Fixpoint xor_fold (i : nat) (data acc : bytes) : bytes :=
  match data with
  | [] => acc
  | b :: data =>
      xor_fold (S i) data (<[(i mod 32)%nat := Z.lxor (byte_at acc (i mod 32)) b]> acc)
  end.
Definition sha256Hash (data : bytes) : bytes := xor_fold 0 data zero32.
Definition genesis_id (name : bytes) : ValidatorID := take 20 (sha256Hash name).

Definition founder : bytes := lit "e5da0c28804c512ac7e0f4a53ad8d6fd13f81e76".

(** The founder step: an error of [SetAutopilot] is only printed. *)
Definition bootstrap_founder : HM unit :=
  touch founder ;;;
  modify (upd_acct founder (with_level 3)) ;;;
  (fun w => match SetAutopilot founder w with
            | (Panic, w) => (Panic, w)
            | (_, w) => (Ok tt, w)
            end).

Section Genesis.
Context (verify : bytes -> bytes -> bytes -> bool) (keccak : bytes -> bytes).
Context {SS : SortSlice} {MR : MapRange} {RV : Revm}.

(** The errors of [Add] are dropped. *)
Definition genesis_validators (l : list GenesisValidator) (vs : ValidatorSet) : ValidatorSet :=
  fold_left (fun vs v => (Validators.Add (genesis_id (gv_ID v)) (gv_Stake v) vs).2) l vs.

Definition total_genesis (config : GenesisConfig) : Z :=
  fold_left (fun t acc => u64 (t + ga_Balance acc)) (gc_Accounts config) 0.

(** [InitGenesis]; [now] is the clock. *)
Definition InitGenesis (config : GenesisConfig) (now : Z) : outcome GenesisState :=
  match NewChain now with
  | Err e => Err e
  | Panic => Panic
  | Ok chain =>
      let vs := genesis_validators (gc_Validators config) NewValidatorSet in
      match bootstrap_founder (SeedAllGenesis (ch_State chain)) with
      | (Ok _, w) => Ok (mkGenState config vs (with_state w chain))
      | (Err e, _) => Err e
      | (Panic, _) => Panic
      end
  end.

(** [ProduceGenesisBlock]; [rnd] is the proposer lottery's generator. *)
Definition ProduceGenesisBlock (rnd : Z -> F64.t) (env : BlockEnv) (gs : GenesisState)
    : outcome BlockWithTx * GenesisState :=
  match SelectProposer rnd (gc_InitialHeight (gs_Config gs)) (gs_Validators gs) with
  | (Ok proposer, vs) =>
      let '(r, chain) := ProduceBlock verify keccak env proposer (gs_Chain gs) in
      (r, mkGenState (gs_Config gs) vs chain)
  | (Err e, vs) => (Err e, mkGenState (gs_Config gs) vs (gs_Chain gs))
  | (Panic, vs) => (Panic, mkGenState (gs_Config gs) vs (gs_Chain gs))
  end.

End Genesis.

(** ** Lemmas: identifiers *)

Lemma xor_fold_short data i acc :
  wf_bytes data -> (i + length data <= 32)%nat -> length acc = 32%nat -> drop i acc = zeros (32 - i) ->
  xor_fold i data acc = take i acc ++ data ++ zeros (32 - i - length data).
Proof.
  revert i acc. induction data as [|b data IH]; intros i acc Hw Hl Ha Hz.
  { cbn. rewrite Nat.sub_0_r, <- Hz. by rewrite take_drop. }
  apply Forall_cons in Hw as [Hb Hw]. cbn [xor_fold length] in *.
  rewrite Nat.mod_small by lia.
  assert (Hsplit : acc = take i acc ++ 0 :: zeros (31 - i)).
  { rewrite <- (take_drop i acc) at 1. rewrite Hz. f_equal.
    by replace (32 - i)%nat with (S (31 - i)) by lia. }
  assert (Ht : length (take i acc) = i) by (rewrite length_take; lia).
  set (hd := take i acc) in *.
  assert (Hr : byte_at acc i = 0).
  { unfold byte_at. rewrite Hsplit, app_nth2 by lia. by rewrite Ht, Nat.sub_diag. }
  rewrite Hr, Z.lxor_0_l.
  assert (Hi : <[i:=b]> acc = hd ++ b :: zeros (31 - i)).
  { rewrite Hsplit. rewrite <- Ht at 1. by rewrite insert_app_r_alt, Nat.sub_diag by lia. }
  rewrite Hi, IH.
  - rewrite take_app_ge by lia. rewrite Ht. replace (S i - i)%nat with 1%nat by lia.
    cbn [take]. rewrite take_0, <- app_assoc. cbn [app]. do 3 f_equal.
    replace (32 - S i - length data)%nat with (32 - i - S (length data))%nat by lia. done.
  - done.
  - lia.
  - rewrite length_app, Ht. cbn [length]. unfold zeros. rewrite length_replicate. lia.
  - rewrite drop_app_ge by lia. rewrite Ht. replace (S i - i)%nat with 1%nat by lia.
    cbn [drop]. rewrite drop_0. done.
Qed.

(** A name of at most twenty bytes is its own identifier, padded. *)
Lemma genesis_id_short name :
  wf_bytes name -> (length name <= 20)%nat -> genesis_id name = name ++ zeros (20 - length name).
Proof.
  intros Hw Hl. unfold genesis_id, sha256Hash. rewrite xor_fold_short by (try done; lia).
  rewrite take_0, app_nil_l, Nat.sub_0_r, take_app_ge by lia. f_equal.
  unfold zeros. rewrite take_replicate. f_equal. lia.
Qed.

(** A proper name: at most twenty bytes, the last one not zero. *)
Definition proper_name (name : bytes) : Prop :=
  wf_bytes name /\ (length name <= 20)%nat /\ exists pre b, name = pre ++ [b] /\ b <> 0.

Lemma padded_inj a b m n :
  (exists p x, a = p ++ [x] /\ x <> 0) -> (exists q y, b = q ++ [y] /\ y <> 0) ->
  a ++ zeros m = b ++ zeros n -> a = b.
Proof.
  revert b m n. assert (Hmain : forall p (x : Z) q y m n, x <> 0 -> y <> 0 -> (m <= n)%nat ->
    (p ++ [x]) ++ zeros m = (q ++ [y]) ++ zeros n -> p ++ [x] = q ++ [y]).
  { intros p x q y m n Hx Hy Hle He.
    assert (Hn : zeros n = zeros (n - m) ++ zeros m)
      by (unfold zeros; rewrite <- replicate_add; f_equal; lia).
    rewrite Hn, app_assoc in He. apply app_inv_tail in He.
    destruct (n - m)%nat as [|k] eqn:Ek; [by rewrite app_nil_r in He|].
    replace (zeros (S k)) with (zeros k ++ [0]) in He
      by (unfold zeros; rewrite <- replicate_cons_app; done).
    rewrite app_assoc in He. apply app_inj_tail in He as [_ He]. congruence. }
  intros b m n (p & x & -> & Hx) (q & y & -> & Hy) He.
  destruct (Nat.le_ge_cases m n); [by eapply Hmain|]. symmetry. by eapply (Hmain q y p x n m).
Qed.

Lemma genesis_id_inj a b :
  proper_name a -> proper_name b -> genesis_id a = genesis_id b -> a = b.
Proof.
  intros (Wa & La & Ea) (Wb & Lb & Eb). rewrite !genesis_id_short by done. by apply padded_inj.
Qed.

(** ** Lemmas: the registry *)

Section Registry.
Context {SS : SortSlice}.

Lemma genesis_validators_loop l vs :
  NoDup (map gv_ID l) -> Forall (fun v => proper_name (gv_ID v) /\ MinStake <= gv_Stake v) l ->
  (forall v, v ∈ l -> Stakes vs !! genesis_id (gv_ID v) = None) ->
  Z.of_nat (length (IDs vs) + length l) <= MaxValidators ->
  let vs' := genesis_validators l vs in
  Permutation (IDs vs') (IDs vs ++ map (fun v => genesis_id (gv_ID v)) l) /\
  (forall v, v ∈ l -> Stakes vs' !! genesis_id (gv_ID v) = Some (gv_Stake v)) /\
  (forall id, is_Some (Stakes vs !! id) -> Stakes vs' !! id = Stakes vs !! id).
Proof.
  revert vs. induction l as [|v l IH]; intros vs Hnd Hp Hfresh Hlen.
  { cbn. rewrite app_nil_r. split_and!; [done| |done]. intros v Hv. by apply elem_of_nil in Hv. }
  cbn [map length] in *. apply NoDup_cons in Hnd as [Hni Hnd].
  apply Forall_cons in Hp as [[Hpn Hst] Hp]. cbv zeta. unfold genesis_validators. cbn [fold_left].
  fold (genesis_validators l). unfold Validators.Add. rewrite Hfresh by left.
  destruct (Z.ltb_spec (gv_Stake v) MinStake); [lia|].
  destruct (Z.leb_spec MaxValidators (Z.of_nat (length (IDs vs)))); [lia|]. cbn [snd].
  set (vs1 := mkVS _ _ _ _ _).
  assert (Hperm : Permutation (IDs vs1) (IDs vs ++ [genesis_id (gv_ID v)])) by apply sort_slice_perm.
  destruct (IH vs1) as (H1 & H2 & H3).
  - done.
  - done.
  - intros u Hu. subst vs1. cbn. rewrite lookup_insert_ne; [apply Hfresh; by right|].
    intros He. apply genesis_id_inj in He; [|done|by rewrite Forall_forall in Hp; apply Hp].
    apply Hni. rewrite He. apply list_elem_of_In, in_map, list_elem_of_In. done.
  - apply Permutation_length in Hperm. rewrite length_app in Hperm. cbn [length] in Hperm. lia.
  - split_and!.
    + rewrite H1, Hperm, <- app_assoc. done.
    + intros u Hu. apply elem_of_cons in Hu as [->|Hu]; [|by apply H2].
      rewrite H3; subst vs1; cbn; rewrite lookup_insert_eq; [done|by eexists].
    + intros id Hid. rewrite H3; subst vs1; cbn.
      * rewrite lookup_insert_ne; [done|]. intros <-. rewrite Hfresh in Hid by left. by destruct Hid.
      * rewrite lookup_insert_ne; [done|]. intros <-. rewrite Hfresh in Hid by left. by destruct Hid.
Qed.

End Registry.

Lemma code_bootstrap : respects same_code bootstrap_founder.
Proof.
  unfold bootstrap_founder. apply respects_bind; [apply _|intros x; apply same_code_touch|]. intros _.
  apply respects_bind; [apply _|intros x; by apply same_code_upd|]. intros _ x.
  pose proof (code_SetAutopilot founder x) as Hs.
  by destruct (SetAutopilot founder x) as [[[]|e|] y].
Qed.

(** ** Properties *)

Section Properties.
Context {SS : SortSlice} {MR : MapRange}.

(** Genesis registry.  A configuration of at most two hundred validators
    with distinct names of at most twenty bytes and sufficient stakes is
    registered completely: every validator, once, with its stake. *)
Theorem genesis_registry config now gs :
  InitGenesis config now = Ok gs ->
  let l := gc_Validators config in
  NoDup (map gv_ID l) -> Forall (fun v => proper_name (gv_ID v) /\ MinStake <= gv_Stake v) l ->
  Z.of_nat (length l) <= MaxValidators ->
  Permutation (IDs (gs_Validators gs)) (map (fun v => genesis_id (gv_ID v)) l) /\
  Count (gs_Validators gs) = Z.of_nat (length l) /\
  forall v, v ∈ l -> stake_of (gs_Validators gs) (genesis_id (gv_ID v)) = gv_Stake v.
Proof.
  intros Hi l Hnd Hp Hlen.
  assert (Hvs : gs_Validators gs = genesis_validators l NewValidatorSet).
  { revert Hi. unfold InitGenesis. destruct (NewChain now) as [c|e|]; [|discriminate..].
    destruct (bootstrap_founder _) as [[[]|e|] w]; [|discriminate..]. by intros [= <-]. }
  rewrite Hvs.
  destruct (genesis_validators_loop l NewValidatorSet Hnd Hp) as (H1 & H2 & _);
    [intros v _; apply lookup_empty|done|].
  split_and!.
  - exact H1.
  - unfold Count. rewrite H1. cbn. by rewrite length_map.
  - intros v Hv. unfold stake_of. by rewrite H2.
Qed.

(** The state every configuration starts from. *)
Definition genesis_world : World :=
  match NewChain 0 with
  | Ok c => (bootstrap_founder (SeedAllGenesis (ch_State c))).2
  | _ => NewStateDB
  end.

Lemma NewChain_clock now now' c :
  NewChain now = Ok c -> exists c', NewChain now' = Ok c' /\ ch_State c' = ch_State c.
Proof.
  unfold NewChain. destruct (NewProgressiveStaking _ _ _) as [ps rate].
  destruct (InitPrecompiles 0 _) as [[[]|e|] w]; [|discriminate..].
  intros [= <-]. by eexists.
Qed.

Lemma InitGenesis_world config now gs :
  InitGenesis config now = Ok gs -> ch_State (gs_Chain gs) = genesis_world.
Proof.
  unfold InitGenesis, genesis_world. destruct (NewChain now) as [c|e|] eqn:E; [|discriminate..].
  destruct (NewChain_clock now 0 c E) as (c' & -> & ->).
  destruct (bootstrap_founder _) as [[[]|e|] w]; [|discriminate..]. by intros [= <-].
Qed.

Lemma InitGenesis_ok config now : exists gs, InitGenesis config now = Ok gs.
Proof.
  destruct (NewChain_ok 0) as (w0 & ps0 & E0 & _).
  destruct (NewChain_clock 0 now _ E0) as (c & Ec & Hc). unfold InitGenesis. rewrite Ec, Hc.
  assert (Hb : is_ok (bootstrap_founder (SeedAllGenesis
    match NewChain 0 with Ok c => ch_State c | _ => NewStateDB end)).1 = true) by (vm_compute; reflexivity).
  rewrite E0 in Hb. destruct (bootstrap_founder _) as [[[]|e|] w]; [by eexists|discriminate Hb..].
Qed.

(** Genesis state.  Initialisation always succeeds.  Whatever the
    configuration says, the state holds exactly the funder, the three bootstrap accounts and the faucet reserve; the founder
    is the autopilot at level 3; the token counters start at their declared
    supplies; and no account has signed anything. *)
Theorem genesis_state config now :
  exists gs, InitGenesis config now = Ok gs /\
  let w := ch_State (gs_Chain gs) in
  money w = 1000000000 + 10000000 + 13500000 + 1000000 + 10 ^ 24 /\
  bal w treasury_addr = 10000000 /\ bal w faucet_addr = 10 ^ 24 /\
  autopilotAddress w = founder /\ level_of w founder = 3 /\
  SwayCirculating w = SwayInitialSupply /\ sway_held w = 0 /\
  readBigInt (slot w bijo_addr zero32) = BijoSupply /\
  (forall a, nonce_of w a = 0).
Proof.
  destruct (InitGenesis_ok config now) as [gs Hi]. exists gs. split; [exact Hi|].
  cbv zeta. rewrite (InitGenesis_world _ _ _ Hi).
  assert (Hn : forall a, nonce_of genesis_world a = 0).
  { intros a. unfold genesis_world. destruct (NewChain_ok 0) as (w & ps & -> & Hn). cbn [ch_State].
    assert (Hc : same_code w (bootstrap_founder (SeedAllGenesis w)).2)
      by (etrans; [apply same_code_seed|apply code_bootstrap]).
    unfold nonce_of. destruct (Hc a) as [-> _]. apply Hn. }
  split_and!; [vm_compute; reflexivity..|exact Hn].
Qed.

End Properties.

(** ** What the code does that its comments do not say *)

(** The genesis curators are registered under padded names, but a call is checked
    under the caller's string: none of them can act. *)
Lemma genesis_curators_have_no_power :
  is_curator genesis_world (lit "alice") = false /\ is_curator genesis_world (lit "treasury") = false /\
  is_curator genesis_world (dev_addr (lit "alice")) = true.
Proof. vm_compute. done. Qed.

(** The bootstrap balances are in whole tokens and the faucet reserve in units of
    10^-18: the state holds more than the declared supply by sixteen orders of
    magnitude. *)
Lemma genesis_exceeds_supply : gc_Supply DefaultGenesis * 10 ^ 15 < money genesis_world.
Proof. vm_compute. reflexivity. Qed.

(** Every default validator prints as "00", the name that voting power and rewards
    are kept under. *)
Lemma genesis_validators_share_name :
  map (fun v => ValidatorID_String (genesis_id (gv_ID v))) (gc_Validators DefaultGenesis) =
  replicate 5 (lit "00").
Proof. vm_compute. reflexivity. Qed.

(** ** Witness *)

Lemma genesis_registry_witness :
  exists gs, InitGenesis DefaultGenesis 0 = Ok gs /\ Count (gs_Validators gs) = 5.
Proof.
  destruct (InitGenesis_ok DefaultGenesis 0) as [gs Hi]. exists gs. split; [exact Hi|].
  destruct (genesis_registry DefaultGenesis 0 gs Hi) as (_ & Hc & _).
  - apply (bool_decide_unpack _). vm_compute. exact I.
  - assert (Hp : forall n, 48 <= n < 256 -> proper_name (lit "genesis-val-" ++ [n])).
    { intros n Hn. split; [|split].
      - apply Forall_app. split; [|repeat constructor; unfold is_byte; lia].
        cbn. repeat constructor; unfold is_byte; lia.
      - cbn. lia.
      - exists (lit "genesis-val-"), n. split; [done|lia]. }
    repeat constructor; first [apply (Hp 49) | apply (Hp 50) | apply (Hp 51) | apply (Hp 52) | apply (Hp 53)
                              | vm_compute; discriminate]; lia.
  - vm_compute. discriminate.
  - exact Hc.
Defined.
