(* ===== verification/Store.v ===== *)
(** Persistence: the store (store/store.go) and the chain's use of it
    ([OpenStore], [Sync], [SyncTxs], [LoadTxFromStore] of chain.go).

    bbolt and gob are libraries: the class [Bolt] is the part of a bbolt database
    the store uses (buckets of key/value pairs listed in key order; a [Put] that
    fails on an empty or oversized key), and [Codec] is a gob encoding of one
    type, whose law is that decoding gives back what was encoded.  A commit that
    fails on I/O is not modelled: a transaction fails only when its body does. *)

From Stdlib Require Import ZArith Lia.
From stdpp Require Import countable sorting.
From S2P Require Import Prelude Sha256 GoFloat Collections StateDB Validators Types Consensus.
From S2P Require Import Staking Ledger Frames Vm Chain.
From stdpp Require Import gmap list.
Local Open Scope Z_scope.
Local Open Scope go_scope.

(** ** Libraries *)

Class Codec (A : Type) := {
  gob_encode : A -> option bytes;
  gob_decode : bytes -> option A;
  gob_roundtrip x b : gob_encode x = Some b -> gob_decode b = Some x;
}.

Definition max_key : Z := 32768.
Definition max_value : Z := 2 ^ 31 - 2.

Class Bolt := {
  DB : Type;
  bolt_get : DB -> bytes -> bytes -> option bytes;
  bolt_put : DB -> bytes -> bytes -> bytes -> option DB;
  bolt_list : DB -> bytes -> list (bytes * bytes);
  bolt_put_ok d b k v : k <> [] -> Z.of_nat (length k) <= max_key -> Z.of_nat (length v) <= max_value ->
    is_Some (bolt_put d b k v);
  bolt_put_empty d b v : bolt_put d b [] v = None;
  bolt_get_put d d' b k v b' k' : bolt_put d b k v = Some d' ->
    bolt_get d' b' k' = if decide (b' = b /\ k' = k) then Some v else bolt_get d b' k';
  bolt_list_elem d b k v : (k, v) ∈ bolt_list d b <-> bolt_get d b k = Some v;
  bolt_list_sorted d b : StronglySorted (fun x y => bytes_ltb x.1 y.1 = true) (bolt_list d b);
}.

(** ** Data *)

Record serializedAccount := mkSA {
  sa_Nonce : Z;
  sa_Balance : bytes;
  sa_CodeHash : bytes;
  sa_Code : bytes;
  sa_StorageKeys : list bytes;
  sa_StorageVals : list bytes;
  sa_ContractClass : Z;
  sa_DoxDevLevel : Z;
  sa_StateRentPaid : bytes;
  sa_LastRentPayment : Z;
}.

Record BlockData := mkBD {
  bd_Height : Z; bd_Proposer : bytes; bd_TxCount : Z;
  bd_Hash : bytes; bd_PrevHash : bytes; bd_StateRef : bytes;
}.

Record NodeInfo := mkNode { ni_ID : bytes; ni_ListenAddr : bytes; ni_RPCAddr : bytes; ni_NodeKey : bytes }.

Record TxData := mkTD {
  td_Nonce : Z; td_From : bytes; td_To : bytes; td_Value : bytes; td_GasLimit : Z;
  td_GasPrice : Z; td_GasUsed : Z; td_Data : bytes; td_Hash : bytes; td_Signature : bytes;
}.

(** [ContractClass] is a byte. *)
Definition class_byte (c : ContractClass) : Z :=
  match c with
  | ClassNone => 0 | ClassA => 1 | ClassB => 2 | ClassC => 3 | ClassD => 4 | ClassOther b => b
  end.
Definition class_of_byte (b : Z) : ContractClass :=
  if b =? 0 then ClassNone else if b =? 1 then ClassA else if b =? 2 then ClassB
  else if b =? 3 then ClassC else if b =? 4 then ClassD else ClassOther b.

Definition b_accounts : bytes := lit "accounts".
Definition b_blocks : bytes := lit "blocks".
Definition b_meta : bytes := lit "meta".
Definition b_node : bytes := lit "node".
Definition b_tx_index : bytes := lit "tx_index".
Definition b_txs : bytes := lit "txs".
Definition k_height : bytes := lit "height".
Definition k_info : bytes := lit "info".

Section Store.
Context {BT : Bolt} {MR : MapRange}.
Context {CA : Codec serializedAccount} {CB : Codec BlockData} {CT : Codec (list TxData)} {CN : Codec NodeInfo}.

Record Store := mkStore { st_db : DB; st_height : Z }.

(** [Open], on a database that could be opened. *)
Definition Open (d : DB) : Store :=
  mkStore d match bolt_get d b_meta k_height with
            | Some v => if (length v =? 8)%nat then be_dec v else 0
            | None => 0
            end.
Definition Height (s : Store) : Z := st_height s.

(** [db.Update]: the body's error rolls the database back. *)
Definition update (f : DB -> outcome DB) : M Store unit := fun s =>
  match f (st_db s) with
  | Ok d => (Ok tt, mkStore d (st_height s))
  | Err e => (Err e, s)
  | Panic => (Panic, s)
  end.

(** [b.Put], inside an update. *)
Definition put (b k v : bytes) (d : DB) : outcome DB :=
  match bolt_put d b k v with Some d => Ok d | None => Err "put" end.

(** ** Accounts *)

Definition to_serialized (acc : Account) : serializedAccount :=
  let l := map_range (Storage acc) in
  mkSA (StateDB.Nonce acc) (big_bytes (Balance acc)) (CodeHash acc) (Code acc) l.*1 l.*2
    (class_byte (Class acc)) (DoxDevLevel acc) (big_bytes (StateRentPaid acc)) (LastRentPayment acc).

(** The keys without a value are skipped. *)
Fixpoint load_storage (ks vs : list bytes) (st : gmap bytes bytes) : gmap bytes bytes :=
  match ks, vs with
  | k :: ks, v :: vs => load_storage ks vs (<[k := v]> st)
  | _, _ => st
  end.
Definition from_serialized (sa : serializedAccount) : Account :=
  mkAccount (sa_Nonce sa) (be_dec (sa_Balance sa)) (sa_CodeHash sa) (sa_Code sa)
    (load_storage (sa_StorageKeys sa) (sa_StorageVals sa) ∅) (class_of_byte (sa_ContractClass sa))
    (sa_DoxDevLevel sa) (be_dec (sa_StateRentPaid sa)) (sa_LastRentPayment sa).

Definition serializeAccount (acc : Account) : option bytes := gob_encode (to_serialized acc).
Definition deserializeAccount (data : bytes) : option Account := from_serialized <$> gob_decode data.

Definition SaveAccount (addr : bytes) (acc : Account) : M Store unit :=
  update (fun d => match serializeAccount acc with
                   | Some data => put b_accounts addr data d
                   | None => Err "gob"
                   end).

Definition LoadAccount (addr : bytes) (s : Store) : outcome (option Account) :=
  match bolt_get (st_db s) b_accounts addr with
  | None => Ok None
  | Some data => match deserializeAccount data with Some acc => Ok (Some acc) | None => Err "gob" end
  end.

Fixpoint put_accounts (l : list (bytes * Account)) (d : DB) : outcome DB :=
  match l with
  | [] => Ok d
  | (addr, acc) :: l =>
      match serializeAccount acc with
      | None => Err "store: serialize %s: %w"
      | Some data => match put b_accounts addr data d with
                     | Ok d => put_accounts l d
                     | r => r
                     end
      end
  end.
Definition SaveAllAccounts (w : World) : M Store unit := update (put_accounts (map_range (accounts w))).

Fixpoint load_accounts (l : list (bytes * bytes)) (m : gmap bytes Account) : outcome (gmap bytes Account) :=
  match l with
  | [] => Ok m
  | (k, v) :: l => match deserializeAccount v with
                   | Some acc => load_accounts l (<[k := acc]> m)
                   | None => Err "gob"
                   end
  end.
(** The account map of the loaded [StateDB]. *)
Definition LoadAllAccounts (s : Store) : outcome (gmap bytes Account) :=
  load_accounts (bolt_list (st_db s) b_accounts) ∅.

(** ** Blocks *)

Definition height_key (h : Z) : bytes := be_enc 8 h.

(** The cached height moves when the update succeeds; a failed [meta.Put] would go
    unnoticed. *)
Definition SaveBlock (height : Z) (proposer : bytes) (txCount : Z) (hash prevHash stateRef : bytes)
    : M Store unit :=
  update (fun d =>
    match gob_encode (mkBD height proposer txCount hash prevHash stateRef) with
    | None => Err "gob"
    | Some data =>
        match put b_blocks (height_key height) data d with
        | Ok d => Ok (default d (bolt_put d b_meta k_height (height_key height)))
        | r => r
        end
    end) ;;;
  modify (fun s => mkStore (st_db s) height).

Definition LoadBlock (height : Z) (s : Store) : outcome (option BlockData) :=
  match bolt_get (st_db s) b_blocks (height_key height) with
  | None => Ok None
  | Some data => match gob_decode data with Some bd => Ok (Some bd) | None => Err "gob" end
  end.

(** The cursor loop of [LatestBlocks], from the last key backwards; blocks read
    before an error are kept. *)
Fixpoint read_back (n : nat) (l : list (bytes * bytes)) : list BlockData * bool :=
  match n, l with
  | S n, (_, v) :: l =>
      match gob_decode v with
      | None => ([], false)
      | Some bd => let '(bs, ok) := read_back n l in (bd :: bs, ok)
      end
  | _, _ => ([], true)
  end.
Definition LatestBlocks (n : nat) (s : Store) : list BlockData * bool :=
  let '(bs, ok) := read_back n (reverse (bolt_list (st_db s) b_blocks)) in (reverse bs, ok).

(** ** Node identity *)

Definition SaveNodeInfo (info : NodeInfo) : M Store unit :=
  update (fun d => match gob_encode info with
                   | Some data => put b_node k_info data d
                   | None => Err "gob"
                   end).
Definition LoadNodeInfo (s : Store) : outcome (option NodeInfo) :=
  match bolt_get (st_db s) b_node k_info with
  | None => Ok None
  | Some data => match gob_decode data with Some i => Ok (Some i) | None => Err "gob" end
  end.

(** ** Transactions *)

Definition SaveTxIndex (txHash : bytes) (height txIndex : Z) : M Store unit :=
  update (put b_tx_index txHash (be_enc 8 height ++ be_enc 2 txIndex)).
(** Height and index, when the entry is found. *)
Definition LoadTxIndex (txHash : bytes) (s : Store) : option (Z * Z) :=
  match bolt_get (st_db s) b_tx_index txHash with
  | None => None
  | Some val => if (length val <? 10)%nat then None
                else Some (be_dec (take 8 val), be_dec (take 2 (drop 8 val)))
  end.

Definition SaveBlockTxs (height : Z) (txs : list TxData) : M Store unit :=
  match txs with
  | [] => mret tt
  | _ => update (fun d => match gob_encode txs with
                          | Some data => put b_txs (height_key height) data d
                          | None => Err "gob"
                          end)
  end.
Definition LoadBlockTxs (height : Z) (s : Store) : outcome (list TxData) :=
  match bolt_get (st_db s) b_txs (height_key height) with
  | None => Ok []
  | Some data => match gob_decode data with Some txs => Ok txs | None => Err "gob" end
  end.

(** ** The chain's store (chain.go) *)

(** A chain with its store; [None] is in-memory mode. *)
Abbreviation StoredChain := (Chain * option Store)%type.

(** What a restored block keeps: its height. *)
Definition restored_block (bd : BlockData) : BlockWithTx :=
  mkBlock (bd_Height bd) (zeros 20) 0 zero32 [] zero32 zero32 [].

(** [OpenStore]; [now] is the clock.  The package-level variables of the execution
    layer are not stored and keep their values. *)
Definition OpenStore (d : DB) (now : Z) : M StoredChain unit := fun '(c, _) =>
  let s := Open d in
  if 0 <? Height s then
    match LoadAllAccounts s with
    | Err e => (Err "chain: load state: %w", (c, Some s))
    | Panic => (Panic, (c, Some s))
    | Ok m =>
        let w := mkWorld m [] 0 (inflation (ch_State c)) (econo (ch_State c)) (policy (ch_State c)) in
        let evm := NewEVM ConsensusLane (u64 (Height s + 1)) now 10008 30000000 [] in
        let bs := map restored_block (LatestBlocks 5 s).1 in
        (Ok tt, (mkChain w (ch_Pool c) evm (ch_Blocks c ++ bs) (Height s) (ch_Staking c), Some s))
    end
  else (Ok tt, (c, Some s)).

Definition wrap_err {A} (msg : string) (r : outcome A) : outcome A :=
  match r with Err _ => Err msg | r => r end.

(** An operation of the store, inside the chain. *)
Definition on_store {A} (s : Store) (c : Chain) (msg : string) (m : M Store A)
    (k : A -> M StoredChain unit) : outcome unit * StoredChain :=
  match m s with
  | (Ok a, s) => k a (c, Some s)
  | (Err _, s) => (Err msg, (c, Some s))
  | (Panic, s) => (Panic, (c, Some s))
  end.

Definition Sync (proposer : bytes) (txCount : Z) (hash prevHash : bytes) : M StoredChain unit :=
  fun '(c, st) =>
  match st with
  | None => (Ok tt, (c, None))
  | Some s =>
      on_store s c "chain: sync accounts: %w" (SaveAllAccounts (ch_State c)) (fun _ '(c, st) =>
        match st with
        | None => (Ok tt, (c, None))
        | Some s =>
            on_store s c "chain: sync block: %w"
              (SaveBlock (ch_Height c) proposer txCount hash prevHash (fmt_x (take 4 hash)))
              (fun _ => mret tt)
        end)
  end.

Definition tx_data (tx : Transaction) : TxData :=
  mkTD (tx_Nonce tx) (tx_From tx) (tx_To tx) (big_bytes (tx_Value tx)) (tx_GasLimit tx)
    (tx_GasPrice tx) (tx_GasUsed tx) (tx_Data tx) (tx_Hash tx) (tx_Signature tx).

(** The index loop of [SyncTxs]. *)
Fixpoint index_txs (height : Z) (i : Z) (txs : list Transaction) : M Store unit :=
  match txs with
  | [] => mret tt
  | tx :: txs => SaveTxIndex (tx_Hash tx) height (u16 i) ;;; index_txs height (i + 1) txs
  end.

Definition SyncTxs (block : BlockWithTx) : M StoredChain unit := fun '(c, st) =>
  match st with
  | None => (Ok tt, (c, None))
  | Some s =>
      if (length (blk_Transactions block) =? 0)%nat then (Ok tt, (c, Some s)) else
      on_store s c "chain: tx index: %w" (index_txs (blk_Height block) 0 (blk_Transactions block))
        (fun _ '(c, st) =>
          match st with
          | None => (Ok tt, (c, None))
          | Some s =>
              on_store s c "chain: save txs: %w"
                (SaveBlockTxs (blk_Height block) (map tx_data (blk_Transactions block)))
                (fun _ => mret tt)
          end)
  end.

Definition tx_of_data (td : TxData) : Transaction :=
  mkTx (td_Nonce td) (td_From td) (td_To td) (be_dec (td_Value td)) (td_GasLimit td)
    (td_GasPrice td) (td_GasUsed td) (td_Data td) (td_Hash td) (td_Signature td) ConsensusLane [] [].

(** [LoadTxFromStore]: [None] when nothing is found. *)
Definition LoadTxFromStore (hash : bytes) (st : option Store) : outcome (option (Transaction * Z)) :=
  match st with
  | None => Ok None
  | Some s =>
      match LoadTxIndex hash s with
      | None => Ok None
      | Some (height, txIdx) =>
          match LoadBlockTxs height s with
          | Err e => Err e
          | Panic => Panic
          | Ok txs => match txs !! Z.to_nat txIdx with
                      | None => Ok None
                      | Some td => Ok (Some (tx_of_data td, height))
                      end
          end
      end
  end.

End Store.

(** ** The gob buffer *)

(** [bytesBuffer.Write] and [Read] of [n] bytes at an offset; a read at the end is
    an error. *)
Record bytesBuffer := mkBuf { buf_data : bytes; buf_off : nat }.
Definition buf_Write (p : bytes) (b : bytesBuffer) : nat * bytesBuffer :=
  (length p, mkBuf (buf_data b ++ p) (buf_off b)).
Definition buf_Read (n : nat) (b : bytesBuffer) : outcome bytes * bytesBuffer :=
  if (length (buf_data b) <=? buf_off b)%nat then (Err "eof", b)
  else
    let p := take n (drop (buf_off b) (buf_data b)) in
    (Ok p, mkBuf (buf_data b) (buf_off b + length p)).

(** ** Lemmas: accounts *)

(** An account the on-disk format represents: magnitudes lose signs, and the class
    byte is one. *)
Definition storable (acc : Account) : Prop :=
  0 <= Balance acc /\ 0 <= StateRentPaid acc /\ class_of_byte (class_byte (Class acc)) = Class acc.

#[export] Instance ContractClass_eq_dec : EqDecision ContractClass.
Proof. solve_decision. Defined.
Definition storable_b (acc : Account) : bool :=
  (0 <=? Balance acc) && (0 <=? StateRentPaid acc) &&
  bool_decide (class_of_byte (class_byte (Class acc)) = Class acc).

Section Facts.
Context {BT : Bolt} {MR : MapRange}.
Context {CA : Codec serializedAccount} {CB : Codec BlockData} {CT : Codec (list TxData)} {CN : Codec NodeInfo}.

Lemma load_storage_lookup (l : list (bytes * bytes)) st k :
  NoDup l.*1 ->
  load_storage l.*1 l.*2 st !! k = match list_to_map (M := gmap bytes bytes) l !! k with Some v => Some v | None => st !! k end.
Proof.
  revert st. induction l as [|[x v] l IH]; intros st Hnd; cbn [fmap list_fmap load_storage list_to_map fst snd foldr uncurry curry].
  { by rewrite lookup_empty. }
  apply NoDup_cons in Hnd as [Hni Hnd]. rewrite IH by done.
  destruct (decide (x = k)) as [->|Hne].
  - change (list_to_map ((k, v) :: l)) with (<[k:=v]> (list_to_map (M := gmap bytes bytes) l)).
    rewrite !lookup_insert_eq. by rewrite not_elem_of_list_to_map_1.
  - change (list_to_map ((x, v) :: l)) with (<[x:=v]> (list_to_map (M := gmap bytes bytes) l)).
    by rewrite !lookup_insert_ne.
Qed.

Lemma load_storage_range (m : gmap bytes bytes) :
  load_storage (map_range m).*1 (map_range m).*2 ∅ = m.
Proof.
  apply map_eq. intros k. rewrite load_storage_lookup by apply map_range_nodup.
  rewrite (list_to_map_proper (map_range m) (map_to_list m)), list_to_map_to_list.
  - by destruct (m !! k).
  - apply map_range_nodup.
  - apply map_range_perm.
Qed.

Lemma from_to_serialized acc : storable acc -> from_serialized (to_serialized acc) = acc.
Proof.
  intros (Hb & Hr & Hc). unfold from_serialized, to_serialized. cbn.
  rewrite !big_bytes_dec by done. rewrite load_storage_range, Hc. by destruct acc.
Qed.

Lemma account_roundtrip acc data :
  storable acc -> serializeAccount acc = Some data -> deserializeAccount data = Some acc.
Proof.
  intros Hs He. unfold deserializeAccount. rewrite (gob_roundtrip _ _ He). cbn.
  by rewrite from_to_serialized.
Qed.

(** What a save writes. *)
Lemma put_accounts_spec l d d' :
  NoDup l.*1 -> put_accounts l d = Ok d' ->
  (forall b k, b <> b_accounts \/ k ∉ l.*1 -> bolt_get d' b k = bolt_get d b k) /\
  (forall k acc, (k, acc) ∈ l ->
     exists data, serializeAccount acc = Some data /\ bolt_get d' b_accounts k = Some data).
Proof.
  revert d. induction l as [|[a acc] l IH]; intros d Hnd; cbn [put_accounts].
  { intros [= <-]. split; [done|]. intros k x Hin. by apply elem_of_nil in Hin. }
  cbn [fmap list_fmap fst] in Hnd. apply NoDup_cons in Hnd as [Hni Hnd].
  destruct (serializeAccount acc) as [data|] eqn:Es; [|discriminate].
  unfold put. destruct (bolt_put d b_accounts a data) as [d1|] eqn:Ep; [|discriminate].
  intros Hp. destruct (IH d1 Hnd Hp) as [H1 H2]. split.
  - intros b k Hbk. cbn [fmap list_fmap fst] in Hbk. rewrite H1 by (rewrite elem_of_cons in Hbk; tauto).
    rewrite (bolt_get_put _ _ _ _ _ b k Ep), decide_False; [done|].
    intros [-> ->]. destruct Hbk as [?|Hbk]; [done|]. apply Hbk. by left.
  - intros k x [[= -> ->]|Hin]%elem_of_cons; [|by apply H2].
    exists data. split; [done|]. rewrite H1 by (by right).
    rewrite (bolt_get_put _ _ _ _ _ _ _ Ep). by rewrite decide_True.
Qed.

(** A load reads each entry once. *)
Definition loads (d : DB) (m : gmap bytes Account) : Prop :=
  forall k, match bolt_get d b_accounts k with
            | None => m !! k = None
            | Some v => exists acc, deserializeAccount v = Some acc /\ m !! k = Some acc
            end.

Lemma load_accounts_spec l m0 m :
  NoDup l.*1 -> load_accounts l m0 = Ok m <->
    (forall k v, (k, v) ∈ l -> exists acc, deserializeAccount v = Some acc /\ m !! k = Some acc) /\
    (forall k, k ∉ l.*1 -> m !! k = m0 !! k).
Proof.
  revert m0. induction l as [|[a v] l IH]; intros m0 Hnd; cbn [load_accounts].
  { split.
    - intros [= <-]. split; [|done]. intros k v Hin. by apply elem_of_nil in Hin.
    - intros [_ H]. f_equal. apply map_eq. intros k. symmetry. apply H. cbn. intros Hin. by apply elem_of_nil in Hin. }
  cbn [fmap list_fmap fst] in *. apply NoDup_cons in Hnd as [Hni Hnd].
  destruct (deserializeAccount v) as [acc|] eqn:Ed.
  2: { split; [discriminate|]. intros [H _]. destruct (H a v) as (x & Hx & _); [by left|congruence]. }
  rewrite IH by done. split; intros [H1 H2]; split.
  - intros k u [[= -> ->]|Hin]%elem_of_cons; [|by apply H1].
    exists acc. split; [done|]. rewrite H2 by done. apply lookup_insert_eq.
  - intros k Hk. apply not_elem_of_cons in Hk as [Hne Hk]. rewrite H2 by done. by apply lookup_insert_ne.
  - intros k u Hin. apply H1. by right.
  - intros k Hk. destruct (decide (a = k)) as [<-|Hne].
    + destruct (H1 a v) as (x & Hx & Hm); [by left|]. rewrite lookup_insert_eq. congruence.
    + rewrite lookup_insert_ne by done. apply H2. by apply not_elem_of_cons.
Qed.

Lemma bolt_list_nodup d b : NoDup (bolt_list d b).*1.
Proof.
  pose proof (bolt_list_sorted d b) as Hs. induction (bolt_list d b) as [|[k v] l IH]; [constructor|].
  inversion Hs as [|? ? Hs' Hf]; subst. cbn. constructor; [|by apply IH].
  intros Hin. apply list_elem_of_fmap in Hin as ([k' v'] & Hk & Hin).
  rewrite Forall_forall in Hf. specialize (Hf _ Hin). cbn in Hf, Hk. subst k'.
  assert (Hirr : forall s, bytes_ltb s s = false) by (apply (@sw_irrefl _ _ bytes_ltb_strict)).
  congruence.
Qed.

Lemma LoadAllAccounts_loads s m : LoadAllAccounts s = Ok m <-> loads (st_db s) m.
Proof.
  unfold LoadAllAccounts, loads. rewrite load_accounts_spec by apply bolt_list_nodup. split.
  - intros [H1 H2] k. destruct (bolt_get (st_db s) b_accounts k) as [v|] eqn:E.
    + by apply H1, bolt_list_elem.
    + rewrite H2, lookup_empty; [done|]. intros Hin.
      apply list_elem_of_fmap in Hin as ([k' v] & Hk & Hin). cbn in Hk. subst k'.
      apply bolt_list_elem in Hin. congruence.
  - intros H. split.
    + intros k v Hin. apply bolt_list_elem in Hin. specialize (H k). by rewrite Hin in H.
    + intros k Hk. rewrite lookup_empty. specialize (H k).
      destruct (bolt_get (st_db s) b_accounts k) as [v|] eqn:E; [|done].
      apply bolt_list_elem in E. destruct Hk. apply list_elem_of_fmap. by exists (k, v).
Qed.

(** What the updates write, and where. *)
Lemma update_put b k v s u s' :
  update (put b k v) s = (Ok u, s') ->
  (forall b' k', bolt_get (st_db s') b' k' =
     if decide (b' = b /\ k' = k) then Some v else bolt_get (st_db s) b' k') /\
  st_height s' = st_height s.
Proof.
  unfold update, put. destruct (bolt_put (st_db s) b k v) as [d|] eqn:E; [|discriminate].
  intros [= _ <-]. split; [|done]. intros b' k'. apply (bolt_get_put _ _ _ _ _ b' k' E).
Qed.

Lemma SaveAllAccounts_spec w s u s' :
  SaveAllAccounts w s = (Ok u, s') ->
  (forall b k, b <> b_accounts \/ accounts w !! k = None -> bolt_get (st_db s') b k = bolt_get (st_db s) b k) /\
  (forall k acc, accounts w !! k = Some acc ->
     exists data, serializeAccount acc = Some data /\ bolt_get (st_db s') b_accounts k = Some data).
Proof.
  unfold SaveAllAccounts, update.
  destruct (put_accounts _ _) as [d|e|] eqn:E; [|discriminate..]. intros [= _ <-]. cbn [st_db].
  destruct (put_accounts_spec _ _ _ (map_range_nodup _) E) as [H1 H2]. split.
  - intros b k Hbk. apply H1. destruct Hbk as [Hbk|Hk]; [by left|right]. intros Hin.
    apply list_elem_of_fmap in Hin as ([k' acc] & -> & Hin). apply map_range_elem in Hin.
    cbn in Hk. congruence.
  - intros k acc Hk. apply H2. by apply map_range_elem.
Qed.

(** Saving and loading. *)
Lemma save_load w s u s' m0 :
  (forall k acc, accounts w !! k = Some acc -> storable acc) ->
  loads (st_db s) m0 -> SaveAllAccounts w s = (Ok u, s') -> loads (st_db s') (accounts w ∪ m0).
Proof.
  intros Hst H0 Hsave. destruct (SaveAllAccounts_spec _ _ _ _ Hsave) as [H1 H2]. intros k.
  destruct (accounts w !! k) as [acc|] eqn:E.
  - destruct (H2 k acc E) as (data & Hd & ->). exists acc. split.
    + apply account_roundtrip; [by eapply Hst|done].
    + by apply lookup_union_Some_l.
  - rewrite H1 by (by right). specialize (H0 k). destruct (bolt_get (st_db s) b_accounts k).
    + destruct H0 as (acc & Hd & Hm). exists acc. split; [done|]. by rewrite lookup_union_r.
    + by rewrite lookup_union_r.
Qed.

Lemma SaveBlock_spec h p n hash ph ref s u s' :
  SaveBlock h p n hash ph ref s = (Ok u, s') ->
  (exists data, gob_encode (mkBD h p n hash ph ref) = Some data /\
     forall b k, bolt_get (st_db s') b k =
       if decide (b = b_meta /\ k = k_height) then Some (height_key h)
       else if decide (b = b_blocks /\ k = height_key h) then Some data
       else bolt_get (st_db s) b k) /\
  st_height s' = h.
Proof.
  unfold SaveBlock, update. run_go.
  destruct (gob_encode (mkBD h p n hash ph ref)) as [data|] eqn:Eg; [|discriminate].
  unfold put. destruct (bolt_put (st_db s) b_blocks (height_key h) data) as [d1|] eqn:E1; [|discriminate].
  destruct (bolt_put_ok d1 b_meta k_height (height_key h)) as [d2 E2]; [discriminate|vm_compute; discriminate..|].
  rewrite E2. intros [= _ <-]. cbn [st_db st_height default]. split; [|done]. exists data. split; [done|].
  intros b k. rewrite (bolt_get_put _ _ _ _ _ b k E2). case_decide; [done|].
  apply (bolt_get_put _ _ _ _ _ b k E1).
Qed.

(** The entries of the transaction index. *)
Lemma index_txs_spec h i txs s u s' :
  0 <= i -> i + Z.of_nat (length txs) <= 65536 -> NoDup (map tx_Hash txs) ->
  index_txs h i txs s = (Ok u, s') ->
  (forall j tx, txs !! j = Some tx ->
     bolt_get (st_db s') b_tx_index (tx_Hash tx) = Some (be_enc 8 h ++ be_enc 2 (i + Z.of_nat j))) /\
  (forall b k, b <> b_tx_index \/ k ∉ map tx_Hash txs -> bolt_get (st_db s') b k = bolt_get (st_db s) b k).
Proof.
  revert i s. induction txs as [|tx txs IH]; intros i s Hi Hn Hnd; cbn [index_txs].
  { intros [= _ <-]. split; [|done]. intros [|j] x Hx; discriminate Hx. }
  cbn [map length] in *. apply NoDup_cons in Hnd as [Hni Hnd]. unfold SaveTxIndex. run_go.
  destruct (update _ s) as [[u1|e|] s1] eqn:E1; [|discriminate..]. cbv beta iota. intros Hr.
  destruct (update_put _ _ _ _ _ _ E1) as [G _].
  destruct (IH (i + 1) s1 ltac:(lia) ltac:(lia) Hnd Hr) as [H1 H2].
  assert (Hu : u16 i = i) by (apply Z.mod_small; lia). rewrite Hu in G. split.
  - intros [|j] x Hx; cbn in Hx.
    + injection Hx as <-. rewrite H2 by (by right). rewrite G, decide_True by done.
      by rewrite Z.add_0_r.
    + rewrite (H1 j x Hx). do 3 f_equal. lia.
  - intros b k Hbk. rewrite H2 by (rewrite elem_of_cons in Hbk; tauto).
    rewrite G, decide_False; [done|]. intros [-> ->]. destruct Hbk as [?|Hbk]; [done|].
    apply Hbk. by left.
Qed.

(** ** Properties *)

(** C11 (restart).  After a successful synchronisation, opening the database on a
    new chain restores the height and exactly the accounts: every balance, nonce,
    code, storage slot and level, provided the database held no account the state
    has dropped. *)
Theorem restart_restores c s p n hash ph c1 s1 c0 now m0 :
  Sync p n hash ph (c, Some s) = (Ok tt, (c1, Some s1)) ->
  (forall k acc, accounts (ch_State c) !! k = Some acc -> storable acc) ->
  0 < ch_Height c < 2 ^ 64 ->
  LoadAllAccounts s = Ok m0 -> dom m0 ⊆ dom (accounts (ch_State c)) ->
  exists c2, OpenStore (st_db s1) now (c0, None) = (Ok tt, (c2, Some (Open (st_db s1)))) /\
    ch_Height c2 = ch_Height c /\ accounts (ch_State c2) = accounts (ch_State c).
Proof.
  intros Hsync Hst Hh Hm0 Hdom. apply LoadAllAccounts_loads in Hm0.
  revert Hsync. unfold Sync, on_store.
  destruct (SaveAllAccounts (ch_State c) s) as [[u|e|] sa] eqn:Ea; [|discriminate..].
  destruct (SaveBlock _ _ _ _ _ _ sa) as [[u'|e|] sb] eqn:Eb; [|discriminate..].
  unfold mret, M_ret. intros [= _ <-].
  destruct (SaveBlock_spec _ _ _ _ _ _ _ _ _ Eb) as [(data & _ & Hget) _].
  assert (Hmeta : Height (Open (st_db sb)) = ch_Height c).
  { unfold Open, Height. cbn [st_height]. rewrite Hget, decide_True by done.
    unfold height_key. rewrite be_enc_length. cbn [Nat.eqb]. apply be_dec_enc_small.
    change (256 ^ Z.of_nat 8) with (2 ^ 64). lia. }
  assert (Hload : LoadAllAccounts (Open (st_db sb)) = Ok (accounts (ch_State c))).
  { apply LoadAllAccounts_loads. cbn [st_db Open].
    pose proof (save_load _ _ _ _ _ Hst Hm0 Ea) as Hl.
    assert (Hun : accounts (ch_State c) ∪ m0 = accounts (ch_State c)).
    { apply map_eq. intros k. destruct (accounts (ch_State c) !! k) as [acc|] eqn:E.
      - by apply lookup_union_Some_l.
      - rewrite lookup_union_r by done. apply not_elem_of_dom. intros Hin.
        apply Hdom, elem_of_dom in Hin. rewrite E in Hin. by destruct Hin. }
    rewrite Hun in Hl. intros k. specialize (Hl k). rewrite Hget.
    rewrite decide_False by (intros [? _]; discriminate).
    rewrite decide_False by (intros [? _]; discriminate). exact Hl. }
  unfold OpenStore. rewrite Hmeta. destruct (Z.ltb_spec 0 (ch_Height c)); [|lia].
  rewrite Hload. eexists. split; [reflexivity|]. done.
Qed.

(** C36 (transaction lookup).  After a block's transactions are stored, each of
    them is found by its hash, with the block's height and every field but its
    lane, its encrypted payload and its logs. *)
Theorem stored_tx_found block c s c' s' j tx :
  SyncTxs block (c, Some s) = (Ok tt, (c', Some s')) ->
  blk_Transactions block !! j = Some tx ->
  NoDup (map tx_Hash (blk_Transactions block)) -> is_u64 (blk_Height block) -> 0 <= tx_Value tx ->
  Z.of_nat (length (blk_Transactions block)) <= 65536 ->
  LoadTxFromStore (tx_Hash tx) (Some s') =
    Ok (Some (mkTx (tx_Nonce tx) (tx_From tx) (tx_To tx) (tx_Value tx) (tx_GasLimit tx) (tx_GasPrice tx)
                (tx_GasUsed tx) (tx_Data tx) (tx_Hash tx) (tx_Signature tx) ConsensusLane [] [],
              blk_Height block)).
Proof.
  intros Hsync Hj Hnd Hh Hv Hlen. revert Hsync. unfold SyncTxs.
  assert (Hl0 : (length (blk_Transactions block) =? 0)%nat = false)
    by (apply Nat.eqb_neq; apply lookup_lt_Some in Hj; lia).
  rewrite Hl0. unfold on_store.
  destruct (index_txs _ _ _ s) as [[u|e|] sa] eqn:Ea; [|discriminate..].
  destruct (SaveBlockTxs _ _ sa) as [[u'|e|] sb] eqn:Eb; [|discriminate..].
  unfold mret, M_ret. intros [= _ <-].
  destruct (index_txs_spec (blk_Height block) 0 _ _ _ _ (Z.le_refl 0) Hlen Hnd Ea) as [Hidx _].
  assert (Hb : exists data, gob_encode (map tx_data (blk_Transactions block)) = Some data /\
    forall b k, bolt_get (st_db sb) b k =
      if decide (b = b_txs /\ k = height_key (blk_Height block)) then Some data else bolt_get (st_db sa) b k).
  { revert Eb. unfold SaveBlockTxs.
    destruct (map tx_data (blk_Transactions block)) as [|t ts] eqn:Em.
    { destruct (blk_Transactions block); [discriminate Hl0|discriminate Em]. }
    rewrite <- Em. unfold update.
    destruct (gob_encode (map tx_data (blk_Transactions block))) as [data|] eqn:Eg; [|discriminate].
    unfold put. destruct (bolt_put (st_db sa) b_txs (height_key (blk_Height block)) data) as [d|] eqn:Ep;
      [|discriminate]. intros [= _ <-]. exists data. split; [done|].
    intros b k. apply (bolt_get_put _ _ _ _ _ b k Ep). }
  destruct Hb as (data & Hg & Hget).
  assert (Hjlt : (j < length (blk_Transactions block))%nat) by (by apply lookup_lt_Some in Hj).
  unfold LoadTxFromStore, LoadTxIndex. rewrite Hget, decide_False by (intros [? _]; discriminate).
  rewrite (Hidx j tx Hj), length_app, !be_enc_length. cbn [Nat.add Nat.ltb Nat.leb].
  rewrite take_app_length' by (by rewrite be_enc_length).
  rewrite drop_app_length' by (by rewrite be_enc_length).
  rewrite take_ge by (by rewrite be_enc_length).
  rewrite (be_dec_enc_small 8 (blk_Height block)) by exact Hh.
  rewrite (be_dec_enc_small 2) by (change (256 ^ Z.of_nat 2) with 65536; lia).
  unfold LoadBlockTxs. rewrite Hget, decide_True by done. rewrite (gob_roundtrip _ _ Hg).
  replace (Z.to_nat (0 + Z.of_nat j)) with j by lia. rewrite list_lookup_fmap, Hj.
  cbn [fmap option_fmap option_map]. unfold tx_of_data, tx_data. cbn. by rewrite big_bytes_dec.
Qed.

End Facts.

(** ** What the code does that its comments do not say *)

(** [big.Int.Bytes] drops the sign: a balance that block execution has driven
    below zero comes back as a credit. *)
Lemma stored_balance_loses_sign {MR : MapRange} acc :
  Balance (from_serialized (to_serialized acc)) = Z.abs (Balance acc).
Proof.
  cbn. unfold big_bytes. apply be_dec_enc_small. split; [lia|].
  assert (Hn : nbytes (Balance acc) = nbytes (Z.abs (Balance acc))).
  { unfold nbytes. rewrite Z.abs_idemp.
    destruct (Z.eqb_spec (Balance acc) 0), (Z.eqb_spec (Z.abs (Balance acc)) 0); try lia; done. }
  rewrite Hn. apply nbytes_bound. lia.
Qed.

(** A restored block carries no hash, so the first block after a restart links to
    zero instead of its predecessor. *)
Lemma restored_chain_is_unlinked bs : last_hash (map restored_block bs) = zero32.
Proof.
  unfold last_hash. destruct bs as [|b bs] using rev_ind; [done|]. rewrite map_app. cbn [map]. by rewrite last_snoc.
Qed.

(** A transaction with an empty sender is refused but leaves an account with an
    empty name, which bbolt cannot store: no later synchronisation succeeds. *)
Section EmptySender.
Context {BT : Bolt} {MR : MapRange} {CA : Codec serializedAccount}.

Lemma empty_name_is_not_stored w s u s' :
  is_Some (accounts w !! []) -> SaveAllAccounts w s <> (Ok u, s').
Proof.
  intros [acc Ha]. assert (Hin : ([] : bytes) ∈ (map_range (accounts w)).*1).
  { apply list_elem_of_fmap. exists ([], acc). split; [done|]. by apply map_range_elem. }
  assert (Hput : forall l d d', [] ∈ l.*1 -> put_accounts l d <> Ok d').
  { intros l. induction l as [|[a x] l IH]; intros d d' Hl; cbn [put_accounts].
    - by apply elem_of_nil in Hl.
    - destruct (serializeAccount x) as [data|]; [|discriminate]. unfold put.
      destruct (bolt_put d b_accounts a data) as [d1|] eqn:E; [|discriminate].
      apply elem_of_cons in Hl as [Hl|Hl]; [|by apply IH]. cbn in Hl. subst a.
      by rewrite bolt_put_empty in E. }
  unfold SaveAllAccounts, update.
  destruct (put_accounts _ _) as [d|e|] eqn:E; [|discriminate..].
  by apply Hput in E.
Qed.
End EmptySender.

(** ** Concrete libraries, for examples *)

Definition gmap_DB : Type := gmap bytes (gmap bytes bytes).
Definition key_less (x y : bytes * bytes) : bool := bytes_ltb x.1 y.1.
Definition gmap_put (d : gmap_DB) (b k v : bytes) : option gmap_DB :=
  if bool_decide (k = []) || (max_key <? Z.of_nat (length k)) then None
  else Some (<[b := <[k := v]> (default ∅ (d !! b))]> d).

#[export] Instance key_less_strict : StrictWeak key_less.
Proof.
  split; unfold key_less.
  - intros x. apply sw_irrefl.
  - intros x y z. apply sw_trans.
  - intros x y z. apply sw_cotrans.
Qed.

Lemma sorted_keys_strict (l : list (bytes * bytes)) :
  NoDup l.*1 -> sorted_by key_less l -> StronglySorted (fun x y => bytes_ltb x.1 y.1 = true) l.
Proof.
  intros Hnd Hs. induction Hs as [|x l Hs IH Hf]; [constructor|].
  cbn in Hnd. apply NoDup_cons in Hnd as [Hni Hnd]. constructor; [by apply IH|].
  rewrite Forall_forall in Hf |- *. intros y Hy. specialize (Hf y Hy). unfold key_less in Hf.
  destruct (bytes_ltb x.1 y.1) eqn:E; [done|]. destruct Hni.
  rewrite (bytes_ltb_total _ _ E Hf). apply list_elem_of_fmap. by exists y.
Qed.

Definition gmap_bolt : Bolt.
Proof.
  refine {| DB := gmap_DB;
            bolt_get d b k := default ∅ (d !! b) !! k;
            bolt_put := gmap_put;
            bolt_list d b := insertion_sort key_less (map_to_list (default ∅ (d !! b))) |}.
  - intros d b k v Hk Hl _. unfold gmap_put. rewrite bool_decide_eq_false_2 by done.
    destruct (Z.ltb_spec max_key (Z.of_nat (length k))); [lia|]. by eexists.
  - done.
  - intros d d' b k v b' k'. unfold gmap_put, gmap_DB. case_match; [discriminate|]. intros [= <-].
    cbv beta. set (m := default ∅ (d !! b)).
    destruct (decide (b' = b /\ k' = k)) as [[-> ->]|Hne].
    + rewrite lookup_insert_eq. cbn [default]. apply lookup_insert_eq.
    + destruct (decide (b' = b)) as [->|Hb]; [|by rewrite lookup_insert_ne].
      rewrite lookup_insert_eq. cbn [default]. apply lookup_insert_ne. naive_solver.
  - intros d b k v. rewrite insertion_sort_perm. apply elem_of_map_to_list.
  - intros d b. apply sorted_keys_strict; [|apply insertion_sort_sorted, _].
    rewrite insertion_sort_perm. apply NoDup_fst_map_to_list.
Defined.

(** A codec from a numbering of the type. *)
Definition count_codec (A : Type) `{Countable A} : Codec A.
Proof.
  refine {| gob_encode x := Some [Zpos (encode x)];
            gob_decode b := match b with [Zpos p] => decode p | _ => None end |}.
  intros x b [= <-]. apply decode_encode.
Defined.

#[export] Instance sa_eq_dec : EqDecision serializedAccount.
Proof. solve_decision. Defined.
#[export] Instance sa_countable : Countable serializedAccount.
Proof.
  refine (inj_countable' (fun s => (sa_Nonce s, sa_Balance s, sa_CodeHash s, sa_Code s, sa_StorageKeys s,
    sa_StorageVals s, sa_ContractClass s, sa_DoxDevLevel s, sa_StateRentPaid s, sa_LastRentPayment s))
    (fun '(a, b, c, d, e, f, g, h, i, j) => mkSA a b c d e f g h i j) _). by intros [].
Defined.
#[export] Instance bd_eq_dec : EqDecision BlockData.
Proof. solve_decision. Defined.
#[export] Instance bd_countable : Countable BlockData.
Proof.
  refine (inj_countable' (fun s => (bd_Height s, bd_Proposer s, bd_TxCount s, bd_Hash s, bd_PrevHash s, bd_StateRef s))
    (fun '(a, b, c, d, e, f) => mkBD a b c d e f) _). by intros [].
Defined.
#[export] Instance td_eq_dec : EqDecision TxData.
Proof. solve_decision. Defined.
#[export] Instance td_countable : Countable TxData.
Proof.
  refine (inj_countable' (fun s => (td_Nonce s, td_From s, td_To s, td_Value s, td_GasLimit s, td_GasPrice s,
    td_GasUsed s, td_Data s, td_Hash s, td_Signature s))
    (fun '(a, b, c, d, e, f, g, h, i, j) => mkTD a b c d e f g h i j) _). by intros [].
Defined.


Definition gmap_codec_sa : Codec serializedAccount := count_codec serializedAccount.
Definition gmap_codec_bd : Codec BlockData := count_codec BlockData.
Definition gmap_codec_txs : Codec (list TxData) := count_codec (list TxData).

(** A chain at height 5 whose state holds one account, and an empty database. *)
Definition shop : Chain := mkChain (set_bal payer 7 NewStateDB) NewTxPool example_evm [] 5 None.
Definition fresh : @Store gmap_bolt := Open (BT := gmap_bolt) (∅ : gmap_DB).
Definition tiny_tx : Transaction := mkTx 3 [97] [98] 5 6 7 8 [9] [10] [11] OracleLane [1] [].
Definition tiny_block : BlockWithTx := mkBlock 5 [1] 0 [] [tiny_tx] [] [] [].

Abbreviation sync_run := (Sync (BT := gmap_bolt) (CA := gmap_codec_sa) (CB := gmap_codec_bd)
  [1] 0 [2] [3] (shop, Some fresh)).
Abbreviation txs_run := (SyncTxs (BT := gmap_bolt) (CT := gmap_codec_txs) tiny_block (shop, Some fresh)).

Lemma storable_account acc : storable_b acc = true -> storable acc.
Proof.
  unfold storable_b, storable. rewrite !andb_true_iff, !Z.leb_le. intros [[H1 H2] H3].
  split; [done|]. split; [done|]. by apply bool_decide_eq_true_1 in H3.
Qed.

Lemma forall_accounts (m : gmap bytes Account) (f : Account -> bool) :
  forallb (fun p => f p.2) (map_to_list m) = true -> forall k acc, m !! k = Some acc -> f acc = true.
Proof.
  rewrite forallb_forall. intros H k acc Hk. apply elem_of_map_to_list in Hk.
  by apply (H (k, acc)), list_elem_of_In.
Qed.

(** A run that succeeded on a chain with a store. *)
Definition stored_ok {S} (r : outcome unit * (Chain * option S)) : bool :=
  match r with (Ok _, (_, Some _)) => true | _ => false end.
Lemma stored_ok_run {S} (d : S) (r : outcome unit * (Chain * option S)) :
  stored_ok r = true -> r = (Ok tt, (r.2.1, Some (default d r.2.2))).
Proof. destruct r as [[[]|e|] [c [s|]]]; done. Qed.

Definition saved : @Store gmap_bolt := default fresh (sync_run.2).2.
Lemma sync_ok : sync_run = (Ok tt, (sync_run.2.1, Some saved)).
Proof. apply stored_ok_run. vm_compute. reflexivity. Qed.

Definition indexed : @Store gmap_bolt := default fresh (txs_run.2).2.
Lemma txs_ok : txs_run = (Ok tt, (txs_run.2.1, Some indexed)).
Proof. apply stored_ok_run. vm_compute. reflexivity. Qed.

Lemma restart_restores_witness :
  exists c2, OpenStore (BT := gmap_bolt) (CA := gmap_codec_sa) (CB := gmap_codec_bd) (st_db saved) 0 (shop, None) =
      (Ok tt, (c2, Some (Open (BT := gmap_bolt) (st_db saved)))) /\
    ch_Height c2 = 5 /\ bal (ch_State c2) payer = 7.
Proof.
  destruct (restart_restores (BT := gmap_bolt) (CA := gmap_codec_sa) (CB := gmap_codec_bd)
    shop fresh [1] 0 [2] [3] sync_run.2.1 saved shop 0 ∅ sync_ok) as (c2 & H1 & H2 & H3).
  - intros k acc Hk. apply storable_account. revert k acc Hk. apply forall_accounts.
    vm_compute. reflexivity.
  - split; reflexivity.
  - reflexivity.
  - by rewrite dom_empty_L.
  - exists c2. split; [exact H1|]. split; [exact H2|]. unfold bal, acct. rewrite H3. vm_compute. reflexivity.
Defined.

Lemma stored_tx_found_witness :
  LoadTxFromStore (BT := gmap_bolt) (CT := gmap_codec_txs) [10] (Some indexed) =
    Ok (Some (mkTx 3 [97] [98] 5 6 7 8 [9] [10] [11] ConsensusLane [] [], 5)).
Proof.
  exact (stored_tx_found (BT := gmap_bolt) (CT := gmap_codec_txs) tiny_block shop fresh txs_run.2.1 indexed
    0 tiny_tx txs_ok eq_refl (NoDup_singleton _) ltac:(vm_compute; split; [discriminate|reflexivity])
    ltac:(vm_compute; discriminate) ltac:(vm_compute; discriminate)).
Defined.
