(* ===== verification/Rpc.v ===== *)
(** The JSON-RPC server (rpc.go), with the read views of evm/stats_read.go and
    the JSON shapes of serialize.go.

    A request is a method name and decoded parameters, a reply is a JSON value:
    the text of JSON and the HTTP transport are not modelled.  A number in a
    request is an integer of magnitude below 2^53, which Go's decoder holds exactly;
    the names of an object differ, without regard to case.  The handler of a request
    runs alone. *)

From Stdlib Require Import ZArith Lia.
From S2P Require Import Prelude Sha256 GoFloat Collections StateDB Validators Types P2P TxWire.
From S2P Require Import Econo WayStablecoin TwoWay StabilityPool Registries Governance TaskRegistry Sway.
From S2P Require Import Frames Vm Chain Store.
From stdpp Require Import gmap list.
Local Open Scope Z_scope.
Local Open Scope go_scope.

(** ** JSON *)

#[local] Set Warnings "-register-all".
Inductive json :=
| JNull | JBool (b : bool) | JNum (z : Z) | JStr (s : bytes)
| JArr (l : list json) | JObj (fields : list (string * json)).

(** [json.Unmarshal] into a slice; absent parameters are not JSON. *)
Definition as_array (p : option json) : option (list json) :=
  match p with Some (JArr l) => Some l | Some JNull => Some [] | _ => None end.
(** Into [[]string]: a null element leaves the empty string. *)
Definition as_string (j : json) : option bytes :=
  match j with JStr s => Some s | JNull => Some [] | _ => None end.
Definition as_strings (p : option json) : option (list bytes) :=
  l ← as_array p; mapM as_string l.
(** Into [[]map[string]interface{}]. *)
Definition as_object (j : json) : option (list (string * json)) :=
  match j with JObj f => Some f | JNull => Some [] | _ => None end.
Definition as_objects (p : option json) : option (list (list (string * json))) :=
  l ← as_array p; mapM as_object l.
Fixpoint obj_get (name : string) (f : list (string * json)) : option json :=
  match f with
  | [] => None
  | (k, v) :: f => if String.eqb k name then Some v else obj_get name f
  end.
(** [s, _ := call[name].(string)]. *)
Definition obj_string (name : string) (f : list (string * json)) : bytes :=
  match obj_get name f with Some (JStr s) => s | _ => [] end.

Definition jstr (s : string) : json := JStr (lit s).
Definition fld (name : string) (v : json) : string * json := (name, v).
Definition hexn (z : Z) : json := JStr (fmt_0x z).
Definition hexb (b : bytes) : json := JStr (lit "0x" ++ fmt_x b).

(** ** Text *)

(** [strings.ToLower(strings.TrimPrefix(s, "0x"))]. *)
Definition norm_addr (s : bytes) : bytes := to_lower (trim_0x s).
(** [strings.EqualFold] on ASCII text. *)
Definition EqualFold (a b : bytes) : bool := bool_decide (to_lower a = to_lower b).

(** [big.Int.SetString(s, 16)]. *)
Definition set_string16 (s : bytes) : option Z :=
  let '(sign, digits) := match s with
                         | 43 :: d => (1, d) | 45 :: d => (-1, d) | _ => (1, s)
                         end in
  match digits with [] => None | _ => Z.mul sign <$> hex_number 0 digits end.

(** [fmt.Sscanf] of one integer: spaces, a sign when the target is signed, and as
    many digits as there are. *)
Fixpoint skip_space (s : bytes) : bytes :=
  match s with
  | c :: s' => if (c =? 9) || (c =? 11) || (c =? 12) || (c =? 13) || (c =? 32) then skip_space s' else s
  | [] => []
  end.
Definition digit_val (base c : Z) : option Z :=
  match hex_val c with Some d => if d <? base then Some d else None | None => None end.
Fixpoint scan_digits (base acc : Z) (s : bytes) : Z :=
  match s with
  | c :: s => match digit_val base c with Some d => scan_digits base (acc * base + d) s | None => acc end
  | [] => acc
  end.
Definition scan_number (base : Z) (s : bytes) : option Z :=
  match s with
  | c :: _ => match digit_val base c with Some _ => Some (scan_digits base 0 s) | None => None end
  | [] => None
  end.
Definition scan_uint (base : Z) (s : bytes) : option Z :=
  match scan_number base (skip_space s) with
  | Some v => if v <? 2 ^ 64 then Some v else None
  | None => None
  end.
Definition scan_int (base : Z) (s : bytes) : option Z :=
  let '(sign, digits) := match skip_space s with
                         | 43 :: d => (1, d) | 45 :: d => (-1, d) | s => (1, s)
                         end in
  match scan_number base digits with
  | Some v => if (- 2 ^ 63 <=? sign * v) && (sign * v <? 2 ^ 63) then Some (sign * v) else None
  | None => None
  end.

Definition has_0x (s : bytes) : bool := bool_decide (take 2 s = lit "0x").

(** [fmt.Sprintf("%v", f)] of a float that is an integer: from a million on, its
    digits without trailing zeros and an exponent. *)
Fixpoint drop_trailing (c : Z) (s : bytes) : bytes :=
  match s with
  | [] => []
  | x :: s => match drop_trailing c s with
              | [] => if x =? c then [] else [x]
              | r => x :: r
              end
  end.
Definition float_text (z : Z) : bytes :=
  if Z.abs z <? 1000000 then fmt_int z else
  let digits := fmt_d (Z.abs z) in
  let exp := Z.of_nat (length digits) - 1 in
  (if z <? 0 then [45] else []) ++ take 1 digits ++
  match drop_trailing 48 (drop 1 digits) with [] => [] | r => 46 :: r end ++
  lit "e+" ++ (if exp <? 10 then [48] else []) ++ fmt_d exp.

(** The block number of a parameter, among [n] blocks: what does not parse is
    zero.  The remaining JSON values print as text that no number begins. *)
Definition block_number (decimal : bool) (n : Z) (v : json) : Z :=
  match v with
  | JStr s =>
      if has_0x s then default 0 (scan_int 16 (drop 2 s))
      else if bool_decide (s = lit "latest") || bool_decide (s = lit "pending") then n - 1
      else if decimal then default 0 (scan_int 10 s) else 0
  | JNum z => if decimal then default 0 (scan_int 10 (float_text z)) else 0
  | _ => 0
  end.

Definition parseHexBlock (s : bytes) : option Z :=
  let s := trim_0x s in
  if bool_decide (s = []) then None else
  match scan_uint 16 s with Some n => Some n | None => scan_uint 10 s end.

(** ** Shapes *)

Definition ToJSON (tx : Transaction) : json :=
  JObj ([fld "nonce" (hexn (tx_Nonce tx)); fld "from" (JStr (lit "0x" ++ tx_From tx)); fld "to" (JStr (lit "0x" ++ tx_To tx));
         fld "value" (hexn (tx_Value tx)); fld "gasLimit" (hexn (tx_GasLimit tx)); fld "gasPrice" (hexn (tx_GasPrice tx));
         fld "gasUsed" (hexn (tx_GasUsed tx)); fld "data" (hexb (tx_Data tx)); fld "hash" (hexb (tx_Hash tx));
         fld "signature" (hexb (tx_Signature tx)); fld "lane" (JStr (lit "0x" ++ fmt_d (lane_byte (tx_Lane tx))))] ++
        (if bool_decide (tx_EncryptedData tx = []) then [] else [fld "encryptedData" (JStr (fmt_x (tx_EncryptedData tx)))])).

Definition LogToRPC (log : LogEntry) (blockNum : Z) (txHash : bytes) (logIndex : Z) : json :=
  JObj [fld "address" (JStr (lit "0x" ++ log_address log)); fld "topics" (JArr (map hexb (log_topics log)));
        fld "data" (hexb (log_data log)); fld "blockNumber" (hexn blockNum); fld "transactionHash" (JStr txHash);
        fld "transactionIndex" (jstr "0x0"); fld "logIndex" (hexn logIndex); fld "blockHash" (jstr ""); fld "removed" (JBool false)].
Definition txLogsToRPC (l : list LogEntry) (blockNum : Z) (txHash : bytes) : list json :=
  imap (fun i log => LogToRPC log blockNum txHash (Z.of_nat i)) l.

Definition createAddress (deployer : bytes) (nonce : Z) : bytes :=
  take 20 (Sha256.sum256 (deployer ++ lit ":" ++ fmt_d nonce)).

(** [blockHash] is its text. *)
Definition buildReceipt (tx : Transaction) (blockIdx : Z) (blockHash : bytes) : json :=
  let txHash := lit "0x" ++ fmt_x (tx_Hash tx) in
  JObj ([fld "transactionHash" (JStr txHash); fld "blockHash" (JStr (lit "0x" ++ blockHash)); fld "blockNumber" (hexn blockIdx);
         fld "from" (JStr (lit "0x" ++ tx_From tx))] ++
        (if bool_decide (tx_To tx = [])
         then [fld "to" (JNull); fld "contractAddress" (hexb (createAddress (tx_From tx) (tx_Nonce tx)))]
         else [fld "to" (JStr (lit "0x" ++ tx_To tx))]) ++
        [fld "status" (jstr "0x1"); fld "gasUsed" (hexn (tx_GasUsed tx)); fld "cumulativeGasUsed" (hexn (tx_GasUsed tx));
         fld "logs" (JArr (txLogsToRPC (tx_Logs tx) (u64 blockIdx) txHash))]).

Definition block_json (block : BlockWithTx) (txs : list json) : json :=
  JObj [fld "number" (hexn (blk_Height block)); fld "hash" (hexb (blk_Hash block)); fld "parentHash" (hexb (blk_PrevHash block));
        fld "timestamp" (hexn (blk_Timestamp block)); fld "transactions" (JArr txs);
        fld "proposer" (JStr (ValidatorID_String (blk_Proposer block)))].

(** ** Log filters *)

Record LogFilter := mkFilter {
  f_FromBlock : bytes; f_ToBlock : bytes; f_Address : list bytes; f_Topics : list (list bytes);
}.

(** [json.Unmarshal] into the filter, its errors dropped: field names match
    without case, and a field of another type keeps its zero value. *)
Definition field (name : string) (f : list (string * json)) : option json :=
  snd <$> list_find (fun kv => bool_decide (to_lower (lit kv.1) = to_lower (lit name))) f ≫= fun kv => Some kv.2.
Definition elem_string (j : json) : bytes := match j with JStr s => s | _ => [] end.
Definition elem_strings (j : option json) : list bytes :=
  match j with Some (JArr l) => map elem_string l | _ => [] end.
Definition decode_filter (j : json) : LogFilter :=
  match j with
  | JObj f =>
      mkFilter (default [] (elem_string <$> field "fromBlock" f)) (default [] (elem_string <$> field "toBlock" f))
        (elem_strings (field "address" f))
        (match field "topics" f with
         | Some (JArr l) => map (fun j => elem_strings (Some j)) l
         | _ => []
         end)
  | _ => mkFilter [] [] [] []
  end.

(** The scan of [logMatchesFilter] over the topic positions, from position [i]. *)
Fixpoint topics_match (logTopics : list bytes) (topics : list (list bytes)) (i : nat) : bool :=
  match topics with
  | [] => true
  | [] :: topics => topics_match logTopics topics (S i)
  | set :: topics =>
      match logTopics !! i with
      | None => false
      | Some want =>
          existsb (fun t => EqualFold (fmt_x want) (trim_0x t)) set && topics_match logTopics topics (S i)
      end
  end.
Definition logMatchesFilter (log : LogEntry) (addrs : list bytes) (topics : list (list bytes)) : bool :=
  (bool_decide (addrs = []) || existsb (fun a => EqualFold (log_address log) (trim_0x a)) addrs) &&
  topics_match (log_topics log) topics 0.

(** ** The server *)

Section Rpc.
Context (verify : bytes -> bytes -> bytes -> bool) (keccak : bytes -> bytes).
Context {SS : SortSlice} {MR : MapRange} {RV : Revm} {BT : Bolt}.
Context {CA : Codec serializedAccount} {CB : Codec BlockData} {CT : Codec (list TxData)} {CN : Codec NodeInfo}.

(** Whether two log pointers are the same one; the entries do not carry their
    addresses. *)
Context (same_log : LogEntry -> LogEntry -> bool).

Record RPCServer := mkRpc {
  rpc_chain : Chain;
  rpc_store : option Store;
  rpc_validators : option ValidatorSet;
  rpc_p2pNode : option P2PNode;
}.
Abbreviation RPC := (M RPCServer).

Definition with_rpc_chain (c : Chain) (s : RPCServer) : RPCServer :=
  mkRpc c (rpc_store s) (rpc_validators s) (rpc_p2pNode s).
Definition with_rpc_state (w : World) (s : RPCServer) : RPCServer :=
  with_rpc_chain (with_state w (rpc_chain s)) s.

(** An operation on the chain's state. *)
Definition on_state {A} (m : HM A) : RPC A := fun s =>
  let '(r, w) := m (ch_State (rpc_chain s)) in (r, with_rpc_state w s).
Definition view {A} (f : World -> A) : RPC A := gets (fun s => f (ch_State (rpc_chain s))).
Definition blocks : RPC (list BlockWithTx) := gets (fun s => ch_Blocks (rpc_chain s)).

(** Parameters decoded as a non-empty array of strings. *)
Definition strings (n : nat) (p : option json) (msg : string) : RPC (list bytes) :=
  match as_strings p with
  | Some l => if (length l <? n)%nat then fail msg else mret l
  | None => fail msg
  end.
Definition arg (l : list bytes) (i : nat) : bytes := nth i l [].

(** *** Blocks *)

Definition eth_blockNumber : RPC json := let* bs := blocks in mret (hexn (Z.of_nat (length bs))).

Definition first_param (p : option json) : RPC (list json) :=
  match as_array p with
  | Some (v :: l) => mret (v :: l)
  | _ => fail "invalid params"
  end.
Definition block_at (bs : list BlockWithTx) (n : Z) : option BlockWithTx :=
  if (n <? 0) || (Z.of_nat (length bs) <=? n) then None else bs !! Z.to_nat n.

Definition eth_getBlockByNumber (p : option json) : RPC json :=
  let* p := first_param p in
  let* bs := blocks in
  let fullTx := match nth 1 p JNull with JBool b => b | _ => false end in
  match block_at bs (block_number true (Z.of_nat (length bs)) (nth 0 p JNull)) with
  | None => mret JNull
  | Some block =>
      mret (block_json block (map (if fullTx : bool then ToJSON else fun tx => hexb (tx_Hash tx)) (blk_Transactions block)))
  end.

(** A longer text than a hash is cut; a shorter one, or no text, matches none. *)
Definition eth_getBlockByHash (p : option json) : RPC json :=
  let* p := first_param p in
  let* bs := blocks in
  let hashStr := match nth 0 p JNull with JStr s => trim_0x s | _ => [] end in
  match List.find (fun b => EqualFold (fmt_x (blk_Hash b)) (take (length (fmt_x (blk_Hash b))) hashStr)) bs with
  | None => mret JNull
  | Some block => mret (block_json block (map ToJSON (blk_Transactions block)))
  end.

Definition eth_getBlockTransactionCountByNumber (p : option json) : RPC json :=
  let* p := first_param p in
  let* bs := blocks in
  match block_at bs (block_number false (Z.of_nat (length bs)) (nth 0 p JNull)) with
  | None => mret (jstr "0x0")
  | Some block => mret (hexn (Z.of_nat (length (blk_Transactions block))))
  end.

(** *** Accounts *)

Definition account_view (f : Account -> Z) (p : option json) : RPC json :=
  let* p := strings 1 p "invalid params" in
  let* acc := view (fun w => GetAccount w (norm_addr (arg p 0))) in
  mret (match acc with None => jstr "0x0" | Some acc => hexn (f acc) end).
Definition eth_getBalance : option json -> RPC json := account_view Balance.
Definition eth_getTransactionCount : option json -> RPC json := account_view StateDB.Nonce.
Definition way_getDoxLevel : option json -> RPC json := account_view DoxDevLevel.
Definition way_getBalance : option json -> RPC json := account_view Balance.

Definition way_debugAccountCount : RPC json :=
  let* n := view (fun w => size (accounts w)) in mret (JStr (fmt_d (Z.of_nat n))).
Definition way_debugAccounts : RPC json :=
  let* l := view (fun w => map_range (accounts w)) in
  mret (JArr (map (fun e => JObj [fld "address" (JStr e.1); fld "balance" (hexn (Balance e.2))]) l)).

(** *** Calls *)

(** The call runs on a copy of the state; the package-level variables of package
    evm are not part of the copy. *)
Definition after_call (w wc : World) : World :=
  mkWorld (accounts w) (logs w) (refunds w) (inflation wc) (econo wc) (policy wc).

Definition eth_call (now : Z) (p : option json) : RPC json :=
  match as_objects p with
  | Some (call :: _) =>
      match hex_decode (trim_0x (obj_string "data" call)) with
      | None => mret (jstr "0x")
      | Some data =>
          let ctx := mkCtx (norm_addr (obj_string "from" call)) (norm_addr (obj_string "to" call)) 0 30000000 data true in
          let* height := gets (fun s => ch_Height (rpc_chain s)) in
          let* result := on_state (fun w =>
            let '(r, wc) := Execute verify keccak (NewEVM ConsensusLane height now 10008 30000000 []) ctx (Clone w) in
            (r, after_call w wc)) in
          mret (match er_Error result with
                | Some _ => jstr "0x"
                | None => hexb (er_ReturnData result)
                end)
      end
  | _ => fail "invalid params"
  end.

(** *** Funding and deployment *)

Definition fund (amt : Z) (acc : Account) : Account :=
  let acc := with_balance (Balance acc + amt) acc in
  if DoxDevLevel acc <? 3 then with_level 3 acc else acc.

(** [Store.SaveAllAccounts], its error dropped. *)
Definition save_accounts : RPC unit := fun s =>
  match rpc_store s with
  | None => (Ok tt, s)
  | Some st =>
      match SaveAllAccounts (ch_State (rpc_chain s)) st with
      | (Panic, st) => (Panic, mkRpc (rpc_chain s) (Some st) (rpc_validators s) (rpc_p2pNode s))
      | (_, st) => (Ok tt, mkRpc (rpc_chain s) (Some st) (rpc_validators s) (rpc_p2pNode s))
      end
  end.

Definition way_fundGenesis (p : option json) : RPC json :=
  let* p := strings 2 p "invalid params: expected [addr, amount]" in
  let addr := norm_addr (arg p 0) in
  match set_string16 (trim_0x (arg p 1)) with
  | None => fail "invalid amount: %s"
  | Some amt =>
      on_state (touch addr) ;;;
      on_state (modify (upd_acct addr (fund amt))) ;;;
      save_accounts ;;;
      let* b := view (fun w => bal w addr) in
      mret (hexn b)
  end.

Definition way_deployCode (p : option json) : RPC json :=
  let* p := strings 2 p "invalid params: expected [deployer_hex, bytecode_hex]" in
  match hex_decode (trim_0x (arg p 1)) with
  | None => fail "invalid bytecode: %v"
  | Some bytecode =>
      let* addr := on_state (DeployContractFromCode (norm_addr (arg p 0)) bytecode ClassA) in
      mret (JStr (lit "0x" ++ addr))
  end.

(** *** Transactions *)

(** [ed25519.Verify] of a signed transaction, under the hash it carries. *)
Definition signature_error (tx : Transaction) : option string :=
  match tx_Signature tx with
  | [] => None
  | sig => match ParsePubKey (tx_From tx) with
           | None => Some "invalid from address: %v"%string
           | Some pub => if verify pub (tx_Hash tx) sig then None else Some "invalid signature"%string
           end
  end.
Definition with_gas_price (p : Z) (tx : Transaction) : Transaction :=
  mkTx (tx_Nonce tx) (tx_From tx) (tx_To tx) (tx_Value tx) (tx_GasLimit tx) p (tx_GasUsed tx) (tx_Data tx)
    (tx_Hash tx) (tx_Signature tx) (tx_Lane tx) (tx_EncryptedData tx) (tx_Logs tx).
Definition or_fail (e : option string) : RPC unit := match e with Some e => fail e | None => mret tt end.

(** The price a transaction gets when it names none. *)
Definition accepted_tx (tx : Transaction) : Transaction :=
  if tx_GasPrice tx =? 0 then with_gas_price 1 tx else tx.
Definition submit (tx : Transaction) : RPC json :=
  on_state (touch (tx_From tx)) ;;;
  let* sender := view (fun w => acct w (tx_From tx)) in
  or_fail (signature_error tx) ;;;
  guard_err (negb (tx_Nonce tx =? StateDB.Nonce sender)) "invalid nonce: got %d, expected %d" ;;;
  let tx := accepted_tx tx in
  guard_err (Balance sender <? u64 (tx_GasLimit tx * tx_GasPrice tx) + tx_Value tx)
    "insufficient balance: have %d, need %d" ;;;
  (if bool_decide (tx_To tx = []) then or_fail (CanDeployContract (DoxDevLevel sender)) else mret tt) ;;;
  modify (fun s => with_rpc_chain (with_pool (Chain.Add tx (ch_Pool (rpc_chain s))) (rpc_chain s)) s) ;;;
  modify (fun s => mkRpc (rpc_chain s) (rpc_store s) (rpc_validators s) (BroadcastTransaction (rpc_p2pNode s) tx)) ;;;
  mret (hexb (tx_Hash tx)).

Definition eth_sendRawTransaction (p : option json) : RPC json :=
  let* p := strings 1 p "invalid params: expected [0xhex_encoded_tx]" in
  match DeserializeTxHex (trim_0x (arg p 0)) with
  | Panic => panic
  | Err _ => fail "invalid tx encoding: %v"
  | Ok tx => submit tx
  end.

Definition pooled (s : RPCServer) : list Transaction :=
  let p := ch_Pool (rpc_chain s) in tp_Consensus p ++ tp_Oracle p ++ tp_Private p.
Definition has_hash (searchHash : bytes) (tx : Transaction) : bool := EqualFold (fmt_x (tx_Hash tx)) searchHash.
Definition search_bytes (searchHash : bytes) : bytes :=
  match hex_decode searchHash with Some h => if (length h =? 32)%nat then h else zero32 | None => zero32 end.
Definition load_tx (searchHash : bytes) : RPC (option (Transaction * Z)) := fun s =>
  match LoadTxFromStore (search_bytes searchHash) (rpc_store s) with
  | Ok r => (Ok r, s)
  | Err _ => (Ok None, s)
  | Panic => (Panic, s)
  end.

Definition eth_getTransactionByHash (p : option json) : RPC json :=
  let* p := strings 1 p "invalid params: expected [0xtxhash]" in
  let searchHash := trim_0x (arg p 0) in
  let* pool := gets pooled in
  let* bs := blocks in
  match List.find (has_hash searchHash) (pool ++ concat (map blk_Transactions bs)) with
  | Some tx => mret (ToJSON tx)
  | None =>
      let* r := load_tx searchHash in
      mret (match r with Some (tx, _) => ToJSON tx | None => JNull end)
  end.

(** The transactions of the blocks, each with the index of its block. *)
Definition indexed_txs (bs : list BlockWithTx) : list (Z * BlockWithTx * Transaction) :=
  concat (imap (fun i b => map (fun tx => (Z.of_nat i, b, tx)) (blk_Transactions b)) bs).

Definition eth_getTransactionReceipt (p : option json) : RPC json :=
  let* p := strings 1 p "invalid params: expected [0xtxhash]" in
  let searchHash := trim_0x (arg p 0) in
  let* bs := blocks in
  match List.find (fun e => has_hash searchHash e.2) (indexed_txs bs) with
  | Some (idx, b, tx) => mret (buildReceipt tx idx (fmt_x (blk_Hash b)))
  | None =>
      let* r := load_tx searchHash in
      mret (match r with
            | Some (tx, height) => if 0 <? height then buildReceipt tx (i64 height) (fmt_x (tx_Hash tx)) else JNull
            | None => JNull
            end)
  end.

(** *** Logs *)

Definition in_block_range (f : LogFilter) (bIdx : Z) : bool :=
  (if bool_decide (f_FromBlock f = []) || bool_decide (f_FromBlock f = lit "latest") then true
   else match parseHexBlock (f_FromBlock f) with Some bn => bn <=? bIdx | None => true end) &&
  (if bool_decide (f_ToBlock f = []) || bool_decide (f_ToBlock f = lit "latest") then true
   else match parseHexBlock (f_ToBlock f) with Some bn => bIdx <=? bn | None => true end).
Definition logAttributed (block : BlockWithTx) (log : LogEntry) : bool :=
  existsb (fun tx => existsb (fun l => same_log l log) (tx_Logs tx)) (blk_Transactions block).

(** The logs of one list that match, with their positions in it. *)
Definition matching_logs (f : LogFilter) (l : list LogEntry) : list (Z * LogEntry) :=
  List.filter (fun e => logMatchesFilter e.2 (f_Address f) (f_Topics f)) (imap (fun i log => (Z.of_nat i, log)) l).
Definition block_logs (f : LogFilter) (bIdx : Z) (block : BlockWithTx) : list json :=
  concat (map (fun tx => map (fun e => LogToRPC e.2 bIdx (lit "0x" ++ fmt_x (tx_Hash tx)) e.1) (matching_logs f (tx_Logs tx)))
            (blk_Transactions block)) ++
  map (fun e => LogToRPC e.2 bIdx [] e.1)
    (List.filter (fun e => negb (logAttributed block e.2)) (matching_logs f (blk_Logs block))).

Definition log_filter_param (p : option json) : LogFilter :=
  match as_array p with Some (j :: _) => decode_filter j | _ => mkFilter [] [] [] [] end.
Definition eth_getLogs (p : option json) : RPC json :=
  let f := log_filter_param p in
  let* bs := blocks in
  mret (JArr (concat (imap (fun i b => if in_block_range f (Z.of_nat i) then block_logs f (Z.of_nat i) b else []) bs))).

(** *** Counters and views *)

Definition decimal (n : nat) : json := JStr (fmt_d (Z.of_nat n)).
Definition way_getBlockCount : RPC json := let* bs := blocks in mret (decimal (length bs)).
Definition way_validatorCount : RPC json :=
  let* v := gets rpc_validators in
  mret (match v with Some vs => JStr (fmt_d (Count vs)) | None => jstr "0" end).
Definition funded_or_code (e : bytes * Account) : bool := (0 <? Balance e.2) || negb (bool_decide (Code e.2 = [])).
Definition way_accountCount : RPC json :=
  let* l := view (fun w => map_range (accounts w)) in mret (decimal (length (List.filter funded_or_code l))).
Definition way_totalTxCount : RPC json :=
  let* bs := blocks in
  mret (decimal (fold_left (fun total b => (total + length (blk_Transactions b))%nat) bs 0%nat)).
Definition way_pendingTxCount : RPC json :=
  let* n := gets (fun s => PoolLen (ch_Pool (rpc_chain s))) in mret (JStr (fmt_d n)).

(** The views of evm/stats_read.go. *)
Definition GetTwoWayStats : HM (Z * Z) :=
  touch vault_addr ;;;
  let* vaultCount := sread vault_addr vaultCountKey in
  let* totalDebt := sread vault_addr totalDebtKey in
  mret (vaultCount, totalDebt).
Definition GetBridgeStats : HM (Z * Z) :=
  touch BTC.btc_addr ;;;
  let* committed := sread BTC.btc_addr BTC.committed_key in
  let* withdrawn := sread BTC.btc_addr BTC.withdrawn_key in
  mret (committed, withdrawn).
Definition Get1WayTotalSupply : HM Z := touch way_addr ;;; gets way_supply.
Definition proposal_view (w : World) (i : nat) : option json :=
  let idSlot := slot w addr1D (pidKey (Z.of_nat i)) in
  if bool_decide (idSlot = zero32) then None else
  let propSlot := slot w addr1D (govProposalKey idSlot) in
  if bool_decide (propSlot = zero32) then None else
  Some (JObj [fld "id" (hexb idSlot); fld "voteType" (JNum (byte_at propSlot 0)); fld "status" (JNum (byte_at propSlot 1));
              fld "titleHash" (hexb (drop 2 propSlot))]).
Definition GovernanceListProposals : HM (list json) :=
  touch addr1D ;;;
  let* count := sread addr1D proposalCountKey in
  gets (fun w => omap (proposal_view w) (seq 0 (Z.to_nat (i64 (big_u64 count))))).

Definition way_govProposals : RPC json := let* l := on_state GovernanceListProposals in mret (JArr l).
Definition way_twoWayStats : RPC json :=
  let* r := on_state GetTwoWayStats in mret (JObj [fld "vaults" (hexn r.1); fld "totalDebt" (hexn r.2)]).
Definition way_bridgeStats : RPC json :=
  let* r := on_state GetBridgeStats in mret (JObj [fld "committed" (hexn r.1); fld "withdrawn" (hexn r.2)]).
Definition way_taskStatus (p : option json) : RPC json :=
  let* p := strings 2 p "invalid params: expected [taskId_hex, claimant_hex]" in
  match hex_decode (norm_addr (arg p 0)) with
  | None => mret (jstr "none")
  | Some _ => let* r := view (TaskStatusOf (norm_addr (arg p 1))) in mret (JStr r)
  end.
Definition number_view (m : HM Z) : RPC json := let* z := on_state m in mret (hexn z).

Definition GetEconoIndicators : HM json :=
  let* w := gets (fun w => w) in
  let e := econo w in
  let* velocity := EconoVelocityBps in
  mret (JObj [fld "grossBlockchainProduct" (JNum (GBP e)); fld "gdpEquivalent" (JNum (EconoGBPEquiv e));
              fld "mrtPaidWeighted" (JNum (MRTPaid e)); fld "mrtClaimsVerified" (JNum (MRTClaims e));
              fld "rentPaid" (JNum (RentPaid e)); fld "storageStaked" (JNum (StorageStaked e));
              fld "employmentBps" (JNum (EconoEmploymentBps w)); fld "velocityBps" (JNum velocity);
              fld "yieldSpreadBps" (JNum (EconoYieldSpreadBps e)); fld "phase" (JNum (Phase e));
              fld "phaseLabel" (JStr (phaseName (Phase e))); fld "windowBlocks" (JNum EconoWindowBlocks);
              fld "windowStart" (JNum (WindowStart e))]).
Definition way_econoPolicy : RPC json :=
  let* p := view policy in
  mret (JObj [fld "phase" (JNum (pol_Phase p)); fld "phaseLabel" (JStr (phaseName (pol_Phase p)));
              fld "burnBps" (JNum (BurnBps p)); fld "grantBps" (JNum (GrantBps p))]).
Definition way_swayEmissionProjection : RPC json :=
  let* w := view (fun w => w) in
  mret (JObj [fld "gdpEquivalentThisEpoch" (JNum (EconoGBPEquiv (econo w))); fld "proposedPctBps" (JNum 300);
              fld "projectedSwayPerYear" (JStr (fmt_int (SwayProjectedEmissionFromGBP w 300)));
              fld "hardCeiling" (JNum SwayHardCeiling);
              fld "note" (jstr "READ-ONLY projection. 3% is a proposed figure, not yet hardcoded or minted.")]).

(** *** Dispatch *)

Definition handleMethod (now : Z) (method : string) (p : option json) : RPC json :=
  let named name := String.eqb method name in
  if named "eth_chainId" then mret (hexn 10008)
  else if named "net_version" then mret (jstr "10008")
  else if named "eth_blockNumber" then eth_blockNumber
  else if named "eth_getBlockByNumber" then eth_getBlockByNumber p
  else if named "eth_getBlockByHash" then eth_getBlockByHash p
  else if named "eth_getBalance" then eth_getBalance p
  else if named "eth_getTransactionCount" then eth_getTransactionCount p
  else if named "way_debugAccountCount" then way_debugAccountCount
  else if named "way_debugAccounts" then way_debugAccounts
  else if named "eth_call" then eth_call now p
  else if named "eth_estimateGas" then mret (jstr "0x5208")
  else if named "eth_gasPrice" then mret (jstr "0x9502f900")
  else if named "way_getDoxLevel" then way_getDoxLevel p
  else if named "way_getBalance" then way_getBalance p
  else if named "way_fundGenesis" then way_fundGenesis p
  else if named "way_getBlockCount" then way_getBlockCount
  else if named "way_validatorCount" then way_validatorCount
  else if named "way_accountCount" then way_accountCount
  else if named "way_totalTxCount" then way_totalTxCount
  else if named "way_pendingTxCount" then way_pendingTxCount
  else if named "way_govProposals" then way_govProposals
  else if named "way_twoWayStats" then way_twoWayStats
  else if named "way_bridgeStats" then way_bridgeStats
  else if named "way_taskStatus" then way_taskStatus p
  else if named "way_questPoolRemaining" then number_view QuestPoolRemaining
  else if named "way_questGetAutopilot" then let* a := view QuestGetAutopilot in mret (JStr a)
  else if named "way_wayTotalSupply" then number_view QuestTotalSupply
  else if named "way_1wayTotalSupply" then number_view Get1WayTotalSupply
  else if named "way_questCap" then number_view QuestCap
  else if named "way_econoIndicators" then on_state GetEconoIndicators
  else if named "way_econoPolicy" then way_econoPolicy
  else if named "way_swayEmissionProjection" then way_swayEmissionProjection
  else if named "way_deployCode" then way_deployCode p
  else if named "eth_sendRawTransaction" then eth_sendRawTransaction p
  else if named "eth_getTransactionByHash" then eth_getTransactionByHash p
  else if named "eth_getTransactionReceipt" then eth_getTransactionReceipt p
  else if named "eth_getLogs" then eth_getLogs p
  else if named "eth_getBlockTransactionCountByNumber" then eth_getBlockTransactionCountByNumber p
  else if named "eth_subscribe" then fail "eth_subscribe requires a WebSocket connection"
  else if named "eth_unsubscribe" then fail "eth_unsubscribe requires a WebSocket connection"
  else fail "method not found: %s".
End Rpc.

(** ** Numbers survive the request *)

Lemma digit_val_hex c d : hex_val c = Some d -> digit_val 16 c = Some d.
Proof.
  unfold digit_val. intros H. rewrite H. unfold hex_val in H.
  assert (Hd : d < 16) by (repeat case_match; try discriminate; zbool; injection H as <-; lia).
  apply Z.ltb_lt in Hd. by rewrite Hd.
Qed.

Lemma scan_digits_hex s a v : hex_number a s = Some v -> scan_digits 16 a s = v.
Proof.
  revert a. induction s as [|c s IH]; intros a H; cbn [hex_number scan_digits] in *; [by injection H|].
  destruct (hex_val c) as [d|] eqn:E; [|discriminate]. by rewrite (digit_val_hex _ _ E), (IH _ H).
Qed.

Lemma fmt_hex_scan x : 0 <= x -> exists c r, fmt_hex x = c :: r /\ 48 <= c /\ scan_number 16 (c :: r) = Some x.
Proof.
  intros Hx. destruct (fmt_hex_read x Hx) as (c & r & E & Hc & Hr). exists c, r. split_and!; [done..|].
  unfold scan_number. pose proof Hr as Hr'. cbn [hex_number] in Hr'.
  destruct (hex_val c) as [d|] eqn:Ed; [|discriminate]. rewrite (digit_val_hex _ _ Ed). f_equal. by apply scan_digits_hex.
Qed.

(** A block number asked for as [eth_blockNumber] prints it is read back. *)
Lemma block_number_hexn d n k : 0 <= k < 2 ^ 63 -> block_number d n (hexn k) = k.
Proof.
  intros Hk. unfold block_number, hexn, fmt_0x, has_0x. rewrite (proj2 (Z.ltb_ge k 0)) by lia.
  destruct (fmt_hex_scan k ltac:(lia)) as (c & r & E & Hc & Hs). rewrite E.
  change (lit "0x") with [48; 120]. cbn [app take drop]. rewrite bool_decide_eq_true_2 by done.
  unfold scan_int. cbn [skip_space].
  replace ((c =? 9) || (c =? 11) || (c =? 12) || (c =? 13) || (c =? 32)) with false
    by (symmetry; rewrite !orb_false_iff, !Z.eqb_neq; lia).
  assert (Hm : match c :: r with 43 :: d => (1, d) | 45 :: d => (-1, d) | s => (1, s) end = (1, c :: r)).
  { clear -Hc. destruct c as [|c|c]; try lia. do 6 (destruct c as [c|c|]; try reflexivity; try lia). }
  rewrite Hm, Hs, Z.mul_1_l. rewrite (proj2 (Z.leb_le _ _)), (proj2 (Z.ltb_lt _ _)) by lia. done.
Qed.

(** ** What a request may change *)

(** The accounts read the same, and nothing else of the state differs. *)
Definition quiet (w w' : World) : Prop :=
  same_world w w' /\ logs w' = logs w /\ refunds w' = refunds w.
Definition same_globals (w w' : World) : Prop :=
  inflation w' = inflation w /\ econo w' = econo w /\ policy w' = policy w.
Definition idle (w w' : World) : Prop := quiet w w' /\ same_globals w w'.

#[export] Instance idle_preorder : PreOrder idle.
Proof.
  split; [by intros w|]. intros x y z [[H1 [H2 H3]] (H4 & H5 & H6)] [[G1 [G2 G3]] (G4 & G5 & G6)].
  unfold idle, quiet, same_globals, same_world in *. split_and!; congruence.
Qed.

Lemma idle_touch a : respects idle (touch a).
Proof.
  intros w. cbn [touch modify snd]. unfold GetOrCreateAccount.
  split; [split|]; [intros b|by case_match..]. change (acct (GetOrCreateAccount a w) b = acct w b). apply acct_touch.
Qed.
#[export] Hint Resolve idle_touch : frames.
Ltac idle_auto := repeat first [solve [eauto 1 with frames nocore] | frame_step].

Section Effects.
Context (verify : bytes -> bytes -> bytes -> bool) (keccak : bytes -> bytes).
Context {SS : SortSlice} {MR : MapRange} {RV : Revm} {BT : Bolt}.
Context {CA : Codec serializedAccount} {CB : Codec BlockData} {CT : Codec (list TxData)} {CN : Codec NodeInfo}.
Context (same_log : LogEntry -> LogEntry -> bool).

Definition state_of (s : RPCServer) : World := ch_State (rpc_chain s).
(** Only the state differs, by [R]. *)
Definition only_state (R : World -> World -> Prop) (s s' : RPCServer) : Prop :=
  R (state_of s) (state_of s') /\ rpc_chain s' = with_state (state_of s') (rpc_chain s) /\
  rpc_store s' = rpc_store s /\ rpc_validators s' = rpc_validators s /\ rpc_p2pNode s' = rpc_p2pNode s.
Definition keeps {A} (R : World -> World -> Prop) (m : M RPCServer A) : Prop := forall s, only_state R s (m s).2.

Section Keeps.
Context (R : World -> World -> Prop) `{!PreOrder R}.

#[local] Instance only_state_preorder : PreOrder (only_state R).
Proof.
  split.
  - intros s. unfold only_state. destruct s as [[] st v n]. split_and!; reflexivity.
  - intros x y z (H1 & H2 & H3 & H4 & H5) (G1 & G2 & G3 & G4 & G5). unfold only_state. split_and!; try congruence.
    + by etransitivity.
    + rewrite G2, H2. done.
Qed.

Lemma keeps_refl {A} (f : RPCServer -> outcome A) : keeps R (fun s => (f s, s)).
Proof. intros s. reflexivity. Qed.
Lemma keeps_bind {A B} (m : M RPCServer A) (k : A -> M RPCServer B) :
  keeps R m -> (forall a, keeps R (k a)) -> keeps R (mbind k m).
Proof.
  intros Hm Hk s. unfold mbind, M_bind. specialize (Hm s). destruct (m s) as [[a|e|] s1]; cbn [snd] in *; try done.
  etransitivity; [exact Hm|apply Hk].
Qed.
Lemma keeps_on_state {A} (m : HM A) : respects R m -> keeps R (on_state m).
Proof.
  intros H s. specialize (H (state_of s)). unfold on_state, state_of in *.
  destruct (m (ch_State (rpc_chain s))) as [r w]. unfold only_state. cbn. split_and!; done.
Qed.
Lemma keeps_weaken {A} (R' : World -> World -> Prop) (m : M RPCServer A) :
  (forall w w', R' w w' -> R w w') -> keeps R' m -> keeps R m.
Proof. intros H Hm s. destruct (Hm s) as (H1 & H2). split; [by apply H|done]. Qed.
Lemma keeps_load h : keeps R (load_tx h).
Proof. intros s. unfold load_tx. case_match; reflexivity. Qed.
End Keeps.

(** [keeps_auto]: through the structure of a handler. *)
Ltac keeps_step :=
  match goal with
  | |- keeps _ (mbind _ _) => apply keeps_bind; [apply _| |intros ?]
  | |- keeps _ (mret _) => apply (keeps_refl _ (fun _ => Ok _))
  | |- keeps _ (fail _) => apply (keeps_refl _ (fun _ => Err _))
  | |- keeps _ panic => apply (keeps_refl _ (fun _ => Panic))
  | |- keeps _ (gets ?f) => apply (keeps_refl _ (fun s => Ok (f s)))
  | |- keeps _ (view ?f) => apply (keeps_refl _ (fun s => Ok (f (state_of s))))
  | |- keeps _ blocks => apply (keeps_refl _ (fun s => Ok (ch_Blocks (rpc_chain s))))
  | |- keeps _ (load_tx _) => apply keeps_load; apply _
  | |- keeps _ (on_state _) => apply keeps_on_state
  | |- keeps _ (guard_err ?b _) => unfold guard_err; destruct b
  | |- keeps _ (or_fail ?e) => unfold or_fail; destruct e
  | |- keeps _ (let _ := _ in _) => cbv zeta
  | |- keeps _ (if ?b then _ else _) => destruct b
  | |- keeps _ (match ?x with _ => _ end) => destruct x
  end.
Ltac keeps_auto := repeat keeps_step.

Lemma strings_keeps n p msg : keeps idle (strings n p msg).
Proof. unfold strings. keeps_auto. Qed.
Lemma first_param_keeps p : keeps idle (first_param p).
Proof. unfold first_param. keeps_auto. Qed.

Definition writers : list string :=
  ["eth_call"; "way_fundGenesis"; "way_deployCode"; "eth_sendRawTransaction"]%string.

Lemma reads_keep now method p :
  method ∉ writers -> keeps idle (handleMethod verify keccak same_log now method p).
Proof.
  intros Hm. unfold handleMethod.
  assert (Hw : forall x, x ∈ writers -> String.eqb method x = false).
  { intros x Hx. apply String.eqb_neq. intros ->. by apply Hm. }
  rewrite (Hw "eth_call"%string), (Hw "way_fundGenesis"%string), (Hw "way_deployCode"%string),
    (Hw "eth_sendRawTransaction"%string) by (unfold writers; set_solver).
  clear Hm Hw. cbv zeta.
  repeat match goal with |- keeps _ (if String.eqb method ?x then _ else _) => destruct (String.eqb method x); [|] end;
  unfold eth_blockNumber, eth_getBlockByNumber, eth_getBlockByHash, eth_getBalance, eth_getTransactionCount,
    way_getDoxLevel, way_getBalance, account_view, way_debugAccountCount, way_debugAccounts,
    way_getBlockCount, way_validatorCount, way_accountCount, way_totalTxCount, way_pendingTxCount,
    way_govProposals, way_twoWayStats, way_bridgeStats, way_taskStatus, number_view, way_econoPolicy,
    way_swayEmissionProjection, eth_getTransactionByHash, eth_getTransactionReceipt, eth_getLogs,
    eth_getBlockTransactionCountByNumber, GovernanceListProposals, GetTwoWayStats, GetBridgeStats,
    Get1WayTotalSupply, GetEconoIndicators, EconoVelocityBps, QuestPoolRemaining, QuestCap, QuestTotalSupply;
  repeat first [apply strings_keeps | apply first_param_keeps | keeps_step];
  idle_auto.
Qed.

#[local] Instance quiet_preorder : PreOrder quiet.
Proof.
  split; [by intros w|]. intros x y z [H1 [H2 H3]] [G1 [G2 G3]].
  unfold quiet, same_world in *. split_and!; congruence.
Qed.

Lemma call_keeps now p : keeps quiet (eth_call verify keccak now p).
Proof.
  unfold eth_call. keeps_auto. intros w. unfold after_call. by case_match.
Qed.

(** A transaction that was decoded carries its signing hash. *)
Lemma DeserializeTxHex_hash h :
  match DeserializeTxHex h with Ok tx => tx_Hash tx = TxHash tx | Err _ => True | Panic => False end.
Proof.
  assert (Hh : forall tx, DeserializeTxHex h = Ok tx -> tx_Hash tx = TxHash tx).
  2: { destruct (DeserializeTxHex h) eqn:E; [by apply Hh|done|]. unfold DeserializeTxHex, DeserializeTx in E.
       destruct (hex_decode h) as [d|]; [|discriminate]. pose proof (parseTx_local (mkReader d 0 [])) as Hl.
       destruct (parseTx _) as [[|e|] r]; try discriminate. exact Hl. }
  intros tx. unfold DeserializeTxHex. destruct (hex_decode h) as [d|]; [|discriminate]. unfold DeserializeTx.
  destruct (parseTx _) as [r s] eqn:E. cbn [fst]. intros ->. unfold parseTx in E.
  repeat (apply bind_inv in E as (? & ? & _ & E)). cbv [mret M_ret] in E. injection E as <- _. done.
Qed.

Lemma accepted_tx_same tx :
  let tx' := accepted_tx tx in
  tx_GasPrice tx' = gas_price tx /\ tx_Hash tx' = tx_Hash tx /\ tx_From tx' = tx_From tx /\ tx_To tx' = tx_To tx /\
  u64 (tx_GasLimit tx' * tx_GasPrice tx') + tx_Value tx' = max_cost tx /\
  forall acc, admissible verify tx' acc = admissible verify tx acc.
Proof.
  unfold accepted_tx, max_cost, gas_price. destruct (tx_GasPrice tx =? 0) eqn:E; cbv zeta; [|done].
  unfold admissible, max_cost, gas_price, sig_ok, deploy_refused. cbn. rewrite E. done.
Qed.

Lemma signature_error_ok tx :
  tx_Hash tx = TxHash tx -> sig_ok verify tx = match signature_error verify tx with None => true | Some _ => false end.
Proof.
  unfold sig_ok, signature_error. intros ->. destruct (tx_Signature tx); [done|].
  destruct (ParsePubKey _); [|done]. by destruct (verify _ _ _).
Qed.

Lemma admissible_split tx sender :
  admissible verify tx sender =
  sig_ok verify tx && (tx_Nonce tx =? StateDB.Nonce sender) && (max_cost tx <=? Balance sender) &&
  negb (deploy_refused tx sender).
Proof. unfold admissible. by destruct (sig_ok _ _), (_ =? _), (deploy_refused _ _), (_ <=? _). Qed.

(** What follows an accepted submission: only the sender's account may be new, the
    transaction enters its lane, and peers are told. *)
Definition submitted (tx : Transaction) (s s' : RPCServer) : Prop :=
  let tx' := accepted_tx tx in
  idle (state_of s) (state_of s') /\
  s' = mkRpc (with_pool (Chain.Add tx' (ch_Pool (rpc_chain s))) (with_state (state_of s') (rpc_chain s)))
         (rpc_store s) (rpc_validators s) (BroadcastTransaction (rpc_p2pNode s) tx').

Lemma submit_run tx s :
  tx_Hash tx = TxHash tx ->
  let '(r, s') := submit verify tx s in
  if admissible verify tx (acct (state_of s) (tx_From tx))
  then r = Ok (hexb (TxHash tx)) /\ submitted tx s s'
  else (exists e, r = Err e) /\ only_state idle s s'.
Proof.
  intros Hh. destruct (accepted_tx_same tx) as (_ & Eh & _ & Et & Ec & _).
  rewrite admissible_split, (signature_error_ok _ Hh). unfold deploy_refused, submit, submitted.
  set (tx' := accepted_tx tx) in *. cbv zeta. rewrite Ec, Et.
  set (w1 := GetOrCreateAccount (tx_From tx) (state_of s)).
  assert (Hi : idle (state_of s) w1) by apply (idle_touch (tx_From tx)).
  assert (Hs1 : only_state idle s (with_rpc_state w1 s)) by (unfold only_state; split_and!; done).
  assert (Ha : acct w1 (tx_From tx) = acct (state_of s) (tx_From tx)) by apply acct_touch.
  cbv [mbind M_bind on_state touch modify view gets]. change (ch_State (rpc_chain s)) with (state_of s). fold w1.
  cbn [with_rpc_state with_rpc_chain with_state rpc_chain ch_State]. rewrite Ha.
  set (sender := acct (state_of s) (tx_From tx)).
  destruct (signature_error verify tx); cbn [or_fail]; [split; [by eexists|done]|].
  unfold guard_err. destruct (tx_Nonce tx =? Nonce sender); cbn [negb andb]; [|split; [by eexists|done]].
  rewrite Z.leb_antisym. destruct (Balance sender <? max_cost tx); cbn [negb andb]; [split; [by eexists|done]|].
  destruct (bool_decide (tx_To tx = [])); cbn [andb];
    [destruct (CanDeployContract _); cbn [negb or_fail]; [split; [by eexists|done]|]|];
    (split; [by rewrite <- Hh, <- Eh|split; [exact Hi|reflexivity]]).
Qed.

(** The transaction of a submission, when there is one. *)
Definition submission (p : option json) : option Transaction :=
  match as_strings p with
  | Some (h :: _) => match DeserializeTxHex (trim_0x h) with Ok tx => Some tx | _ => None end
  | _ => None
  end.

Lemma send_run p s :
  let '(r, s') := eth_sendRawTransaction verify p s in
  match submission p with
  | Some tx => (r, s') = submit verify tx s /\ tx_Hash tx = TxHash tx
  | None => (exists e, r = Err e) /\ s' = s
  end.
Proof.
  unfold eth_sendRawTransaction, submission, strings, arg.
  destruct (as_strings p) as [[|h l]|]; cbv [mbind M_bind mret M_ret]; cbn [length Nat.ltb Nat.leb fail nth];
    [split; [by eexists|done]| |split; [by eexists|done]].
  pose proof (DeserializeTxHex_hash (trim_0x h)) as Hh.
  destruct (DeserializeTxHex (trim_0x h)) as [tx|e|]; [|split; [by eexists|done]|done].
  by destruct (submit verify tx s).
Qed.

(** C3.  A decoded transaction is accepted exactly when block production would execute
    it on the same state; the reply is then its hash and it is waiting as it would
    be executed.  Anything else is an error that changes at most empty accounts. *)
Theorem submission_spec p s :
  let '(r, s') := eth_sendRawTransaction verify p s in
  match submission p with
  | Some tx =>
      if admissible verify tx (acct (state_of s) (tx_From tx))
      then r = Ok (hexb (TxHash tx)) /\ submitted tx s s'
      else (exists e, r = Err e) /\ only_state idle s s'
  | None => (exists e, r = Err e) /\ s' = s
  end.
Proof.
  pose proof (send_run p s) as H. destruct (eth_sendRawTransaction verify p s) as [r s'].
  destruct (submission p) as [tx|]; [|done]. destruct H as [H Hh].
  pose proof (submit_run tx s Hh) as G. by rewrite <- H in G.
Qed.

(** C15.  Every method but the four writers leaves the server as it was, up to empty
    accounts; a call may also change the package variables of the economic loop. *)
Theorem queries_change_nothing now method p s :
  (method ∉ writers -> only_state idle s (handleMethod verify keccak same_log now method p s).2) /\
  only_state quiet s (handleMethod verify keccak same_log now "eth_call" p s).2.
Proof. split; [intros H; by apply reads_keep|apply call_keeps]. Qed.

Lemma pooled_add tx c st v n : tx ∈ pooled (mkRpc (with_pool (Chain.Add tx (ch_Pool c)) c) st v n).
Proof. unfold pooled, Chain.Add. destruct (tx_Lane tx); cbn; set_solver. Qed.

Lemma pending_found s h tx :
  tx ∈ pooled s -> has_hash (fmt_x h) tx = true ->
  exists t, has_hash (fmt_x h) t = true /\ eth_getTransactionByHash (Some (JArr [hexb h])) s = (Ok (ToJSON t), s).
Proof.
  intros Htx Hh.
  set (r := List.find (has_hash (fmt_x h)) (pooled s ++ concat (map blk_Transactions (ch_Blocks (rpc_chain s))))).
  assert (Er : eth_getTransactionByHash (Some (JArr [hexb h])) s =
    match r with
    | Some t => mret (ToJSON t)
    | None => let* r := load_tx (fmt_x h) in mret (match r with Some (t, _) => ToJSON t | None => JNull end)
    end s) by reflexivity.
  rewrite Er. destruct r as [t|] eqn:E; subst r.
  - exists t. split; [|done]. by apply find_some in E as [_ E].
  - exfalso. apply find_none with (x := tx) in E; [congruence|].
    apply in_or_app. left. by apply list_elem_of_In.
Qed.

(** C14.  A transaction a client serialised and submitted is found by its hash. *)
Theorem submitted_found tx s :
  wire_ok tx -> wf_bytes (SerializeTx tx) ->
  admissible verify (received tx) (acct (state_of s) (tx_From tx)) = true ->
  let '(r, s') := eth_sendRawTransaction verify (Some (JArr [JStr (lit "0x" ++ SerializeTxHex tx)])) s in
  r = Ok (hexb (TxHash tx)) /\
  exists t, has_hash (fmt_x (TxHash tx)) t = true /\
    eth_getTransactionByHash (Some (JArr [hexb (TxHash tx)])) s' = (Ok (ToJSON t), s').
Proof.
  intros Hok Hwf Ha. set (p := Some _).
  assert (Hp : submission p = Some (received tx)).
  { unfold submission, p. cbn [as_strings as_array mapM as_string option_bind option_ret mbind mret].
    change (trim_0x (lit "0x" ++ SerializeTxHex tx)) with (SerializeTxHex tx). unfold DeserializeTxHex, SerializeTxHex.
    by rewrite hex_decode_fmt_x, <- (app_nil_r (SerializeTx tx)), DeserializeTx_own. }
  pose proof (send_run p s) as H. rewrite Hp in H. destruct (eth_sendRawTransaction verify p s) as [r s'].
  destruct H as [H Hh]. pose proof (submit_run (received tx) s Hh) as G. rewrite <- H in G.
  change (tx_From (received tx)) with (tx_From tx) in G. rewrite Ha in G. destruct G as [-> [Hi Hs]].
  split; [done|]. rewrite Hs. apply pending_found with (accepted_tx (received tx)).
  - apply (pooled_add _ (with_state (state_of s') (rpc_chain s))).
  - unfold has_hash. destruct (accepted_tx_same (received tx)) as (_ & -> & _). by apply bool_decide_eq_true_2.
Qed.
End Effects.

(** ** Log filters *)

Definition bound (s : bytes) : option Z :=
  if bool_decide (s = []) || bool_decide (s = lit "latest") then None else parseHexBlock s.
(** What a filter asks for: a block in its range, one of its addresses, and at
    every position with topics, one of them. *)
Definition in_bounds (f : LogFilter) (i : nat) : Prop :=
  (forall n, bound (f_FromBlock f) = Some n -> n <= Z.of_nat i) /\ (forall n, bound (f_ToBlock f) = Some n -> Z.of_nat i <= n).
Definition wanted (f : LogFilter) (log : LogEntry) : Prop :=
  (f_Address f = [] \/ exists a, a ∈ f_Address f /\ EqualFold (log_address log) (trim_0x a) = true) /\
  forall k set, f_Topics f !! k = Some set -> set <> [] ->
    exists topic t, log_topics log !! k = Some topic /\ t ∈ set /\ EqualFold (fmt_x topic) (trim_0x t) = true.

Lemma existsb_elem {A} (P : A -> bool) l : existsb P l = true <-> exists x, x ∈ l /\ P x = true.
Proof. rewrite existsb_exists. by setoid_rewrite list_elem_of_In. Qed.

Lemma topics_match_spec lt ts i :
  topics_match lt ts i = true <->
  forall k set, ts !! k = Some set -> set <> [] ->
    exists topic t, lt !! (i + k)%nat = Some topic /\ t ∈ set /\ EqualFold (fmt_x topic) (trim_0x t) = true.
Proof.
  revert i. induction ts as [|set ts IH]; intros i; cbn [topics_match]; [split; [by intros _ []|done]|].
  assert (Htail : topics_match lt ts (S i) = true <->
    forall k set0, ts !! k = Some set0 -> set0 <> [] ->
      exists topic t, lt !! (i + S k)%nat = Some topic /\ t ∈ set0 /\ EqualFold (fmt_x topic) (trim_0x t) = true).
  { rewrite IH. by setoid_rewrite Nat.add_succ_r. }
  assert (Hhead : match set with
                  | [] => topics_match lt ts (S i)
                  | _ => match lt !! i with
                         | None => false
                         | Some want => existsb (fun t => EqualFold (fmt_x want) (trim_0x t)) set && topics_match lt ts (S i)
                         end
                  end = true <->
    (set <> [] -> exists topic t, lt !! i = Some topic /\ t ∈ set /\ EqualFold (fmt_x topic) (trim_0x t) = true) /\
    topics_match lt ts (S i) = true).
  { destruct set as [|x set]; [naive_solver|]. destruct (lt !! i) as [want|]; [|naive_solver].
    rewrite andb_true_iff, existsb_elem. naive_solver. }
  rewrite Hhead, Htail. split.
  - intros [H1 H2] [|k] set0 Hk; [|by apply H2]. injection Hk as <-. by rewrite Nat.add_0_r.
  - intros H. split; [|by intros k; apply (H (S k))]. specialize (H 0%nat set eq_refl). by rewrite Nat.add_0_r in H.
Qed.

Lemma logMatchesFilter_spec f log :
  logMatchesFilter log (f_Address f) (f_Topics f) = true <-> wanted f log.
Proof.
  unfold logMatchesFilter, wanted. rewrite andb_true_iff, orb_true_iff, bool_decide_eq_true, existsb_elem, topics_match_spec.
  done.
Qed.

Lemma in_block_range_spec f i : in_block_range f (Z.of_nat i) = true <-> in_bounds f i.
Proof.
  unfold in_block_range, in_bounds, bound. rewrite andb_true_iff.
  assert (Hside : forall (c : bool) (b : option Z) (P : Z -> bool),
    (if c then true else match b with Some n => P n | None => true end) = true <->
    forall n, (if c then None else b) = Some n -> P n = true) by (intros [] [] P; naive_solver).
  rewrite !Hside. by setoid_rewrite Z.leb_le.
Qed.

Section Logs.
Context {BT : Bolt} (same_log : LogEntry -> LogEntry -> bool).

Lemma elem_matching f l i log :
  (i, log) ∈ matching_logs f l <-> exists li, i = Z.of_nat li /\ l !! li = Some log /\ wanted f log.
Proof.
  unfold matching_logs. rewrite list_elem_of_In, filter_In, <- list_elem_of_In, list_elem_of_lookup.
  cbn [snd]. rewrite logMatchesFilter_spec. setoid_rewrite list_lookup_imap_Some. naive_solver.
Qed.

Lemma elem_concat {A} (e : A) l : e ∈ concat l <-> exists x, x ∈ l /\ e ∈ x.
Proof. rewrite list_elem_of_In, in_concat. by setoid_rewrite list_elem_of_In. Qed.

Lemma elem_block_logs f i b e :
  e ∈ block_logs same_log f i b <-> exists li log, wanted f log /\
    ((exists tx, tx ∈ blk_Transactions b /\ tx_Logs tx !! li = Some log /\
        e = LogToRPC log i (lit "0x" ++ fmt_x (tx_Hash tx)) (Z.of_nat li)) \/
     (blk_Logs b !! li = Some log /\ logAttributed same_log b log = false /\ e = LogToRPC log i [] (Z.of_nat li))).
Proof.
  unfold block_logs. rewrite elem_of_app, elem_concat. setoid_rewrite list_elem_of_fmap. split.
  - intros [(x & (tx & -> & Htx) & He)|((n & log) & -> & He)].
    + apply list_elem_of_fmap in He as ([n log] & -> & He). apply elem_matching in He as (li & -> & Hl & Hw). eauto 10.
    + apply list_elem_of_In, filter_In in He as [He Hn]. apply list_elem_of_In, elem_matching in He as (li & -> & Hl & Hw).
      apply negb_true_iff in Hn. eauto 10.
  - intros (li & log & Hw & [(tx & Htx & Hl & ->)|(Hl & Ha & ->)]).
    + left. eexists. split; [by exists tx|]. apply list_elem_of_fmap. exists (Z.of_nat li, log).
      rewrite elem_matching. eauto 10.
    + right. exists (Z.of_nat li, log). split; [done|]. rewrite list_elem_of_In, filter_In, <- list_elem_of_In, elem_matching.
      cbn [snd]. rewrite Ha. eauto 10.
Qed.

End Logs.

(** ** What the code does that its comments do not say *)

(** A block asked for by the number [eth_blockNumber] gives does not exist. *)
Lemma newest_number_is_missing {BT : Bolt} s reply s1 :
  Z.of_nat (length (ch_Blocks (rpc_chain s))) < 2 ^ 63 ->
  eth_blockNumber s = (Ok reply, s1) -> eth_getBlockByNumber (Some (JArr [reply])) s1 = (Ok JNull, s1).
Proof.
  intros Hn [= <- <-]. unfold eth_getBlockByNumber. cbv [mbind M_bind first_param as_array mret M_ret blocks gets nth].
  rewrite block_number_hexn by lia. unfold block_at. by rewrite (proj2 (Z.leb_le _ _)), orb_true_r by lia.
Qed.

(** "parses a hex or decimal block number": digits are read as hexadecimal, and
    "earliest" by its first two letters. *)
Lemma decimal_block_is_hex : parseHexBlock (lit "100") = Some 256 /\ parseHexBlock (lit "earliest") = Some 0xea.
Proof. split; reflexivity. Qed.

(** A number of seven digits asks for the block of its first digit. *)
Lemma millionth_block_is_first n : block_number true n (JNum 1234567) = 1 /\ block_number true n (JNum 123456) = 123456.
Proof. split; reflexivity. Qed.

(** The transaction count of a block named in decimal is that of the first block. *)
Lemma decimal_count_is_of_first_block n : block_number false n (jstr "7") = 0 /\ block_number false n (JNum 7) = 0.
Proof. split; reflexivity. Qed.

(** A filter by one address, which is not in a list, is no filter. *)
Lemma single_address_is_no_filter addr log :
  let f := decode_filter (JObj [fld "address" (JStr addr)]) in
  logMatchesFilter log (f_Address f) (f_Topics f) = true.
Proof. reflexivity. Qed.

(** So is a topic that is not in a list of alternatives. *)
Lemma single_topic_is_no_filter topic log :
  let f := decode_filter (JObj [fld "topics" (JArr [JStr topic])]) in
  logMatchesFilter log (f_Address f) (f_Topics f) = true.
Proof. reflexivity. Qed.

(** *** A server, for examples *)

Definition desk_chain : Chain := mkChain (set_bal payer_key 1000000 NewStateDB) NewTxPool example_evm [] 5 None.
Definition desk : RPCServer (BT := gmap_bolt) := mkRpc desk_chain None None (Some (mkP2P [1] 0 [])).
Definition no_same_log (l1 l2 : LogEntry) : bool := false.
Abbreviation ask method p s :=
  (handleMethod (RV := null_revm) (BT := gmap_bolt) (CA := gmap_codec_sa) (CT := gmap_codec_txs)
    no_verify (fun b : bytes => b) no_same_log 0 method (Some (JArr p)) s).

(** Anybody adds to any balance, takes away from it, and gets the highest level. *)
Lemma anyone_mints :
  let s := (ask "way_fundGenesis" [jstr "0xbb"; jstr "0x64"] desk).2 in
  bal (state_of s) (lit "bb") = 100 /\ DoxDevLevel (acct (state_of s) (lit "bb")) = 3.
Proof. vm_compute. split; reflexivity. Qed.
Lemma anyone_confiscates :
  bal (state_of (ask "way_fundGenesis" [JStr payer_key; jstr "-f4240"] desk).2) payer_key = 0.
Proof. vm_compute. reflexivity. Qed.

(** A call pays no rent and still counts as rent paid. *)
Definition rent_call : json :=
  JObj [fld "to" (JStr (PrecompileAddrHex 0x1e)); fld "data" (JStr (fmt_x (be_enc 4 0xE1F2A3B4 ++ be_enc 32 1000)))].
Lemma call_moves_economy :
  RentPaid (econo (state_of desk)) = 0 /\ RentPaid (econo (state_of (ask "eth_call" [rent_call] desk).2)) = 1000.
Proof. split; [reflexivity|]. vm_compute. reflexivity. Qed.

(** A refused transaction leaves an account for whatever it names as its sender. *)
Definition stranger_tx : Transaction := NewTransaction 9 (lit "nobody") payee 5 21000 [].
Lemma refused_sender_is_created :
  let '(r, s) := ask "eth_sendRawTransaction" [JStr (SerializeTxHex stranger_tx)] desk in
  (match r with Err _ => true | _ => false end) = true /\
  is_Some (accounts (state_of s) !! lit "nobody") /\ accounts (state_of desk) !! lit "nobody" = None.
Proof. vm_compute. split_and!; [reflexivity|by eexists|reflexivity]. Qed.

(** ** Witnesses *)

Lemma desk_tx_ok : wire_ok demo_tx.
Proof. split; vm_compute; first [reflexivity | discriminate | split; [discriminate|reflexivity]]. Qed.

Lemma queries_change_nothing_witness :
  only_state idle desk (ask "eth_getLogs" [JNull] desk).2.
Proof.
  apply (queries_change_nothing (RV := null_revm) (BT := gmap_bolt) (CA := gmap_codec_sa) (CT := gmap_codec_txs)
    no_verify (fun b : bytes => b) no_same_log 0 "eth_getLogs" (Some (JArr [JNull])) desk).
  apply (bool_decide_unpack ("eth_getLogs"%string ∉ writers)). vm_compute. exact I.
Defined.

Lemma submitted_found_witness :
  exists t, has_hash (fmt_x (TxHash demo_tx)) t = true /\
    (ask "eth_getTransactionByHash" [hexb (TxHash demo_tx)]
       (ask "eth_sendRawTransaction" [JStr (lit "0x" ++ SerializeTxHex demo_tx)] desk).2).1 = Ok (ToJSON t).
Proof.
  pose proof (submitted_found (BT := gmap_bolt) (CT := gmap_codec_txs) no_verify demo_tx desk desk_tx_ok) as H.
  destruct (eth_sendRawTransaction no_verify _ desk) as [r s'] eqn:E.
  destruct H as (_ & t & Ht & Hr).
  - apply (bool_decide_unpack (Forall (fun b => 0 <= b < 256) (SerializeTx demo_tx))). vm_compute. exact I.
  - vm_compute. reflexivity.
  - exists t. split; [exact Ht|].
    change (ask "eth_sendRawTransaction" [JStr (lit "0x" ++ SerializeTxHex demo_tx)] desk)
      with (eth_sendRawTransaction (BT := gmap_bolt) no_verify (Some (JArr [JStr (lit "0x" ++ SerializeTxHex demo_tx)])) desk).
    rewrite E. cbn [snd]. exact (f_equal fst Hr).
Defined.
