(* ===== verification/Keys.v ===== *)
(** Keys and signatures (crypto.go): key pairs, their hexadecimal forms, and the
    signature of a transaction, against the checks of the RPC server and of block
    production.

    crypto/ed25519 is an interface: the key of a seed, the signature of a message
    and its verification, with the documented laws.  Its functions panic on a key
    or a seed of another length, which is written out here. *)

From Stdlib Require Import ZArith Lia.
From S2P Require Import Prelude Sha256 GoFloat Collections StateDB Validators Types P2P TxWire Vm Chain Rpc.
From stdpp Require Import gmap list.
Local Open Scope Z_scope.

(** ** The library *)

Class Ed25519 := {
  ed_key : bytes -> bytes;                        (* of a seed *)
  ed_public : bytes -> bytes;
  ed_sign : bytes -> bytes -> bytes;              (* key, message *)
  ed_verify : bytes -> bytes -> bytes -> bool;    (* public key, message, signature *)
  ed_key_wf seed : length seed = 32%nat -> wf_bytes seed -> length (ed_key seed) = 64%nat /\ wf_bytes (ed_key seed);
  ed_public_wf k : length k = 64%nat -> wf_bytes k -> length (ed_public k) = 32%nat /\ wf_bytes (ed_public k);
  ed_sign_length k m : length (ed_sign k m) = 64%nat;
  ed_sign_verifies seed m : length seed = 32%nat -> wf_bytes seed ->
    ed_verify (ed_public (ed_key seed)) m (ed_sign (ed_key seed) m) = true;
}.

(** ** crypto.go *)

Section Keys.
Context {ED : Ed25519}.

(** [GenerateKey]; [random] is what the system's source gives, if it does. *)
Definition GenerateKey (random : option bytes) : outcome (bytes * bytes) :=
  match random with
  | Some seed => Ok (ed_key seed, ed_public (ed_key seed))
  | None => Err "keygen: %w"
  end.
Definition KeyFromSeed (seed : bytes) : outcome bytes :=
  if (length seed =? 32)%nat then Ok (ed_key seed) else Panic.
Definition PubKeyHex (pub : bytes) : bytes := fmt_x pub.
(** The error of the decoder, or of the length. *)
Definition ParsePrivKey (hexStr : bytes) : outcome bytes :=
  match hex_decode hexStr with
  | None => Err "parse privkey: %w"
  | Some data => if (length data =? 64)%nat then Ok data else Err "parse privkey: invalid length %d"
  end.
Definition SignTransaction (tx : Transaction) (priv : bytes) : outcome bytes :=
  if (length priv =? 64)%nat then Ok (ed_sign priv (tx_Hash tx)) else Panic.
Definition VerifyTransaction (tx : Transaction) (pub : bytes) : outcome bool :=
  if (length pub =? 32)%nat then Ok (ed_verify pub (tx_Hash tx) (tx_Signature tx)) else Panic.

Definition with_signature (sig : bytes) (tx : Transaction) : Transaction :=
  mkTx (tx_Nonce tx) (tx_From tx) (tx_To tx) (tx_Value tx) (tx_GasLimit tx) (tx_GasPrice tx) (tx_GasUsed tx)
    (tx_Data tx) (tx_Hash tx) sig (tx_Lane tx) (tx_EncryptedData tx) (tx_Logs tx).

(** ** Lemmas *)

Lemma generated seed priv pub :
  length seed = 32%nat -> wf_bytes seed -> GenerateKey (Some seed) = Ok (priv, pub) ->
  KeyFromSeed seed = Ok priv /\ priv = ed_key seed /\ pub = ed_public priv /\
  length priv = 64%nat /\ wf_bytes priv /\ length pub = 32%nat /\ wf_bytes pub.
Proof.
  intros Hl Hw [= <- <-]. destruct (ed_key_wf seed Hl Hw) as [L W]. destruct (ed_public_wf _ L W) as [L' W'].
  unfold KeyFromSeed. by rewrite Hl.
Qed.

Lemma ParsePubKey_PubKeyHex pub : length pub = 32%nat -> wf_bytes pub -> ParsePubKey (PubKeyHex pub) = Some pub.
Proof. intros Hl Hw. unfold ParsePubKey, PubKeyHex. by rewrite hex_decode_fmt_x, Hl by done. Qed.

Lemma ParsePrivKey_hex priv : length priv = 64%nat -> wf_bytes priv -> ParsePrivKey (fmt_x priv) = Ok priv.
Proof. intros Hl Hw. unfold ParsePrivKey. by rewrite hex_decode_fmt_x, Hl by done. Qed.

(** ** Properties *)

(** C26.  A key pair works from one end of the program to the other.  Its hexadecimal
    forms parse back; a transaction sent by its address can be signed; the
    signature verifies, the RPC server and the block producer both accept it, under
    any gas price, which it does not cover; and a signed transaction whose sender
    does not parse as a public key is refused by both. *)
Theorem signatures_agree seed priv pub tx :
  length seed = 32%nat -> wf_bytes seed -> GenerateKey (Some seed) = Ok (priv, pub) ->
  tx_Hash tx = TxHash tx ->
  ParsePubKey (PubKeyHex pub) = Some pub /\ ParsePrivKey (fmt_x priv) = Ok priv /\
  exists sig, SignTransaction tx priv = Ok sig /\ length sig = 64%nat /\
    VerifyTransaction (with_signature sig tx) pub = Ok true /\
    (tx_From tx = PubKeyHex pub -> forall price,
       let signed := with_gas_price price (with_signature sig tx) in
       signature_error ed_verify signed = None /\ sig_ok ed_verify signed = true) /\
    (ParsePubKey (tx_From tx) = None ->
       signature_error ed_verify (with_signature sig tx) = Some "invalid from address: %v"%string /\
       sig_ok ed_verify (with_signature sig tx) = false).
Proof.
  intros Hl Hw Hg Hh. destruct (generated _ _ _ Hl Hw Hg) as (_ & -> & -> & Lk & Wk & Lp & Wp).
  split; [by apply ParsePubKey_PubKeyHex|]. split; [by apply ParsePrivKey_hex|].
  exists (ed_sign (ed_key seed) (tx_Hash tx)). unfold SignTransaction, VerifyTransaction. rewrite Lk, Lp.
  split; [done|]. split; [apply ed_sign_length|]. split; [f_equal; apply (ed_sign_verifies seed (tx_Hash tx) Hl Hw)|].
  pose proof (ed_sign_length (ed_key seed) (tx_Hash tx)) as Ls. pose proof (ed_sign_verifies seed (tx_Hash tx) Hl Hw) as Hv.
  revert Hv. destruct (ed_sign (ed_key seed) (tx_Hash tx)) as [|c sig]; [discriminate Ls|]. intros Hv.
  assert (Hs : forall s p, TxHash (with_gas_price p (with_signature s tx)) = tx_Hash tx /\ TxHash (with_signature s tx) = tx_Hash tx)
    by (intros; by rewrite Hh).
  split.
  - intros Hf price. cbv zeta. unfold signature_error, sig_ok. rewrite (proj1 (Hs _ _)). cbn [with_gas_price with_signature tx_Signature tx_From tx_Hash].
    rewrite Hf, ParsePubKey_PubKeyHex by done. by rewrite Hv.
  - intros Hf. unfold signature_error, sig_ok. cbn [with_signature tx_Signature tx_From]. by rewrite Hf.
Qed.
End Keys.

(** ** A scheme, for witnesses

    A key is its seed twice, the public half of it the seed; a signature is the
    hash of the seed and the message. *)

Definition toy_sig (pub m : bytes) : bytes := take 64 (Sha256.sum256 (pub ++ m) ++ zeros 64).
Lemma toy_sig_length pub m : length (toy_sig pub m) = 64%nat.
Proof. unfold toy_sig. rewrite length_take, length_app. unfold zeros. rewrite length_replicate. lia. Qed.
#[export] Program Instance toy_ed25519 : Ed25519 := {
  ed_key seed := seed ++ seed;
  ed_public k := drop 32 k;
  ed_sign k m := toy_sig (drop 32 k) m;
  ed_verify pub m sig := bool_decide (sig = toy_sig pub m);
}.
Next Obligation. intros seed Hl Hw. cbn. rewrite length_app, Hl. split; [done|by apply Forall_app]. Qed.
Next Obligation. intros k Hl Hw. cbn. rewrite length_drop, Hl. split; [done|by apply Forall_drop]. Qed.
Next Obligation. intros k m. apply toy_sig_length. Qed.
Next Obligation. intros seed m Hl Hw. cbn. by apply bool_decide_eq_true. Qed.

Definition toy_seed : bytes := be_enc 32 42.
Lemma signatures_agree_witness :
  let tx := NewTransaction 0 (PubKeyHex toy_seed) (lit "bob") 5 21000 [1; 2] in
  exists sig, SignTransaction tx (toy_seed ++ toy_seed) = Ok sig /\
    signature_error ed_verify (with_gas_price 7 (with_signature sig tx)) = None.
Proof.
  intros tx.
  destruct (signatures_agree toy_seed (toy_seed ++ toy_seed) toy_seed tx eq_refl ltac:(apply be_enc_wf) eq_refl eq_refl)
    as (_ & _ & sig & Hs & _ & _ & Hok & _).
  exists sig. exact (conj Hs (proj1 (Hok eq_refl 7))).
Defined.
