(* ===== verification/Subscriptions.v ===== *)
(** The WebSocket subscriptions (rpc_ws.go): the manager's two tables, the channel
    that marks a subscription as ended, and the notifications.

    A connection is a number, the pointer in the code.  A write on a connection in
    [broken] fails, any other succeeds and is recorded.  The operations run alone,
    as the manager's lock has it, but for the broadcasts, whose writes happen
    outside the lock; here nothing runs between them. *)

From Stdlib Require Import ZArith Lia.
From S2P Require Import Prelude Sha256 GoFloat Collections StateDB Validators Types P2P Vm Rpc.
From stdpp Require Import gmap list.
Local Open Scope Z_scope.
Local Open Scope go_scope.

Definition SubNewHeads : bytes := lit "newHeads".
Definition SubNewPendingTransactions : bytes := lit "newPendingTransactions".
Definition SubLogs : bytes := lit "logs".

Record Subscription := mkSub {
  sub_ID : bytes; sub_Type : bytes; sub_params : json; sub_conn : Z; sub_done : Z;
}.

(** Channels are numbered as they are made. *)
Record SubscriptionManager := mkSM {
  sm_subs : gmap bytes Subscription;
  sm_nextID : Z;
  sm_connSubs : gmap Z (gmap bytes bool);
  sm_chans : Z;
  sm_closed : gset Z;
  sm_sent : list (Z * json);
}.
Abbreviation SM := (M SubscriptionManager).

Definition NewSubscriptionManager : SubscriptionManager := mkSM ∅ 0 ∅ 0 ∅ [].

Definition with_tables (s : gmap bytes Subscription) (c : gmap Z (gmap bytes bool)) (m : SubscriptionManager) :=
  mkSM s (sm_nextID m) c (sm_chans m) (sm_closed m) (sm_sent m).

(** [close(ch)]: closing twice panics. *)
Definition close_chan (ch : Z) : SM unit := fun m =>
  if decide (ch ∈ sm_closed m) then (Panic, m)
  else (Ok tt, mkSM (sm_subs m) (sm_nextID m) (sm_connSubs m) (sm_chans m) ({[ch]} ∪ sm_closed m) (sm_sent m)).

Section Manager.
Context {MR : MapRange}.

Definition Subscribe (subType : bytes) (params : json) (conn : Z) : SM bytes := fun m =>
  let n := u64 (sm_nextID m + 1) in
  let id := fmt_0x n in
  (Ok id,
   mkSM (<[id := mkSub id subType params conn (sm_chans m)]> (sm_subs m)) n
     (<[conn := <[id := true]> (default ∅ (sm_connSubs m !! conn))]> (sm_connSubs m))
     (sm_chans m + 1) (sm_closed m) (sm_sent m)).

(** The subscription out of its connection's set, and an empty set out of the
    table. *)
Definition drop_index (id : bytes) (conn : Z) (c : gmap Z (gmap bytes bool)) : gmap Z (gmap bytes bool) :=
  match c !! conn with
  | None => c
  | Some ids =>
      let ids := delete id ids in
      if decide (ids = ∅) then delete conn c else <[conn := ids]> c
  end.

Definition Unsubscribe (subID : bytes) : SM bool :=
  let* m := gets (fun m => m) in
  match sm_subs m !! subID with
  | None => mret false
  | Some sub =>
      modify (fun m => with_tables (sm_subs m) (drop_index subID (sub_conn sub) (sm_connSubs m)) m) ;;;
      close_chan (sub_done sub) ;;;
      modify (fun m => with_tables (delete subID (sm_subs m)) (sm_connSubs m) m) ;;;
      mret true
  end.

Fixpoint end_subs (ids : list bytes) : SM unit :=
  match ids with
  | [] => mret tt
  | id :: ids =>
      let* sub := gets (fun m => sm_subs m !! id) in
      match sub with Some sub => close_chan (sub_done sub) | None => mret tt end ;;;
      modify (fun m => with_tables (delete id (sm_subs m)) (sm_connSubs m) m) ;;;
      end_subs ids
  end.
Definition CleanupConn (conn : Z) : SM unit :=
  let* ids := gets (fun m => sm_connSubs m !! conn) in
  match ids with
  | None => mret tt
  | Some ids =>
      end_subs (map_range ids).*1 ;;;
      modify (fun m => with_tables (sm_subs m) (delete conn (sm_connSubs m)) m)
  end.

Definition notification (subID : bytes) (data : json) : json :=
  JObj [fld "jsonrpc" (jstr "2.0"); fld "method" (jstr "eth_subscription");
        fld "params" (JObj [fld "subscription" (JStr subID); fld "result" data])].
Definition sendNotification (broken : gset Z) (conn : Z) (subID : bytes) (data : json) : SM unit :=
  if decide (conn ∈ broken) then CleanupConn conn
  else modify (fun m => mkSM (sm_subs m) (sm_nextID m) (sm_connSubs m) (sm_chans m) (sm_closed m)
                          (sm_sent m ++ [(conn, notification subID data)])).

(** The subscribers of a type, in the order of the range over the table. *)
Definition subscribers (ty : bytes) (m : SubscriptionManager) : list Subscription :=
  List.filter (fun s => bool_decide (sub_Type s = ty)) (map_range (sm_subs m)).*2.
Fixpoint notify_all (broken : gset Z) (data : json) (subs : list Subscription) : SM unit :=
  match subs with
  | [] => mret tt
  | sub :: subs =>
      let* ended := gets (fun m => bool_decide (sub_done sub ∈ sm_closed m)) in
      (if ended : bool then mret tt else sendNotification broken (sub_conn sub) (sub_ID sub) data) ;;;
      notify_all broken data subs
  end.
Definition broadcast (ty : bytes) (broken : gset Z) (data : json) : SM unit :=
  let* subs := gets (subscribers ty) in notify_all broken data subs.

Definition head_json (block : BlockWithTx) : json :=
  JObj [fld "number" (hexn (blk_Height block)); fld "hash" (hexb (blk_Hash block)); fld "parentHash" (hexb (blk_PrevHash block));
        fld "timestamp" (hexn (blk_Timestamp block)); fld "transactions" (JNum (Z.of_nat (length (blk_Transactions block))));
        fld "proposer" (JStr (ValidatorID_String (blk_Proposer block)))].
Definition BroadcastNewHead (broken : gset Z) (block : BlockWithTx) : SM unit :=
  broadcast SubNewHeads broken (head_json block).
Definition BroadcastPendingTx (broken : gset Z) (tx : Transaction) : SM unit :=
  broadcast SubNewPendingTransactions broken (hexb (tx_Hash tx)).

(** *** Operations as data *)

Inductive sm_op :=
| OpSubscribe (ty : bytes) (params : json) (conn : Z)
| OpUnsubscribe (id : bytes)
| OpClose (conn : Z)
| OpNewHead (broken : gset Z) (block : BlockWithTx)
| OpPendingTx (broken : gset Z) (tx : Transaction).

Definition run_op (o : sm_op) : SM unit :=
  match o with
  | OpSubscribe ty params conn => Subscribe ty params conn ;;; mret tt
  | OpUnsubscribe id => Unsubscribe id ;;; mret tt
  | OpClose conn => CleanupConn conn
  | OpNewHead broken block => BroadcastNewHead broken block
  | OpPendingTx broken tx => BroadcastPendingTx broken tx
  end.
Fixpoint run_ops (l : list sm_op) : SM unit :=
  match l with [] => mret tt | o :: l => run_op o ;;; run_ops l end.
End Manager.

(** *** What the manager promises *)

(** A table of live subscriptions, with their kinds and connections. *)
Abbreviation table := (gmap bytes (bytes * Z)).
Record spec_state := mkSpec { sp_count : Z; sp_live : table; sp_sent : list (Z * json) }.

(** The connections a broadcast finds broken. *)
Definition hit (ty : bytes) (broken : gset Z) (t : table) (c : Z) : Prop :=
  c ∈ broken /\ map_Exists (fun _ e => e = (ty, c)) t.
(** One message to each subscriber whose connection works. *)
Definition messages (ty : bytes) (broken : gset Z) (data : json) (t : table) : list (Z * json) :=
  omap (fun '(id, (ty', c)) =>
          if decide (ty' = ty /\ c ∉ broken) then Some (c, notification id data) else None) (map_to_list t).

(** What an operation does to the table: a broadcast sends its messages in some
    order and forgets the connections it found broken. *)
Inductive spec_step : sm_op -> spec_state -> spec_state -> Prop :=
| spec_subscribe ty params c n t l : t !! fmt_0x (n + 1) = None ->
    spec_step (OpSubscribe ty params c) (mkSpec n t l) (mkSpec (n + 1) (<[fmt_0x (n + 1) := (ty, c)]> t) l)
| spec_unsubscribe id n t l : spec_step (OpUnsubscribe id) (mkSpec n t l) (mkSpec n (delete id t) l)
| spec_close c n t l : spec_step (OpClose c) (mkSpec n t l) (mkSpec n (filter (fun e => e.2.2 <> c) t) l)
| spec_head broken block n t l msgs : Permutation msgs (messages SubNewHeads broken (head_json block) t) ->
    spec_step (OpNewHead broken block) (mkSpec n t l)
      (mkSpec n (filter (fun e => ~ hit SubNewHeads broken t e.2.2) t) (l ++ msgs))
| spec_pending broken tx n t l msgs :
    Permutation msgs (messages SubNewPendingTransactions broken (hexb (tx_Hash tx)) t) ->
    spec_step (OpPendingTx broken tx) (mkSpec n t l)
      (mkSpec n (filter (fun e => ~ hit SubNewPendingTransactions broken t e.2.2) t) (l ++ msgs)).
Inductive spec_run : list sm_op -> spec_state -> spec_state -> Prop :=
| spec_done sp : spec_run [] sp sp
| spec_more o l sp1 sp2 sp3 : spec_step o sp1 sp2 -> spec_run l sp2 sp3 -> spec_run (o :: l) sp1 sp3.

(** The manager agrees with the table: the numbers given out, the live
    subscriptions, and an index by connection without empty sets. *)
Record agrees (m : SubscriptionManager) (n : Z) (t : table) : Prop := {
  ag_count : sm_nextID m = n /\ 0 <= n;
  ag_live : (fun s => (sub_Type s, sub_conn s)) <$> sm_subs m = t;
  ag_key id s : sm_subs m !! id = Some s -> sub_ID s = id /\ exists k, id = fmt_0x k /\ 1 <= k <= n;
  ag_open id s : sm_subs m !! id = Some s -> (sub_done s ∉ sm_closed m) /\ sub_done s < sm_chans m;
  ag_closed ch : ch ∈ sm_closed m -> ch < sm_chans m;
  ag_chan id1 id2 s1 s2 : sm_subs m !! id1 = Some s1 -> sm_subs m !! id2 = Some s2 ->
    sub_done s1 = sub_done s2 -> id1 = id2;
  ag_index c id : is_Some (sm_connSubs m !! c ≫= (.!! id)) <-> exists s, sm_subs m !! id = Some s /\ sub_conn s = c;
  ag_nonempty c : sm_connSubs m !! c <> Some ∅;
}.

Lemma fmt_0x_inj x y : fmt_0x x = fmt_0x y -> x = y.
Proof. intros E. by rewrite <- (parseHexBig_fmt_0x x), E, parseHexBig_fmt_0x. Qed.

(** The channels of the live subscriptions are open, and theirs alone. *)
Record chans_ok (m : SubscriptionManager) : Prop := {
  co_open id s : sm_subs m !! id = Some s -> (sub_done s ∉ sm_closed m) /\ sub_done s < sm_chans m;
  co_closed ch : ch ∈ sm_closed m -> ch < sm_chans m;
  co_chan id1 id2 s1 s2 : sm_subs m !! id1 = Some s1 -> sm_subs m !! id2 = Some s2 ->
    sub_done s1 = sub_done s2 -> id1 = id2;
}.
Lemma agrees_chans m n t : agrees m n t -> chans_ok m.
Proof. intros []; by split. Qed.

Lemma live_lookup m n t id : agrees m n t -> t !! id = (fun s => (sub_Type s, sub_conn s)) <$> sm_subs m !! id.
Proof. intros Ha. rewrite <- (ag_live _ _ _ Ha). by rewrite lookup_fmap. Qed.

(** [m'] is [m] after the subscriptions of [l] ended. *)
Record ended (l : list bytes) (m m' : SubscriptionManager) : Prop := {
  en_subs : sm_subs m' = filter (fun e => e.1 ∉ l) (sm_subs m);
  en_same : sm_nextID m' = sm_nextID m /\ sm_chans m' = sm_chans m /\ sm_sent m' = sm_sent m;
  en_closed ch : ch ∈ sm_closed m' <->
    ch ∈ sm_closed m \/ exists id s, id ∈ l /\ sm_subs m !! id = Some s /\ sub_done s = ch;
}.
Lemma ended_subs l m m' id s :
  ended l m m' -> sm_subs m' !! id = Some s <-> sm_subs m !! id = Some s /\ id ∉ l.
Proof. intros [-> _ _]. by rewrite map_lookup_filter_Some. Qed.

Lemma ended_chans l m m' : chans_ok m -> ended l m m' -> chans_ok m'.
Proof.
  intros [Ho Hc Hd] He. pose proof (ended_subs l m m') as Hs. pose proof (en_same _ _ _ He) as (_ & Hch & _).
  split.
  - intros id s [H Hl]%Hs; [|done]. destruct (Ho _ _ H) as [H1 H2]. rewrite Hch. split; [|done].
    rewrite (en_closed _ _ _ He). intros [?|(id' & s' & Hin & H' & E)]; [done|]. by rewrite (Hd _ _ _ _ H H') in Hl.
  - intros ch. rewrite (en_closed _ _ _ He), Hch. intros [?|(id & s & _ & H & <-)]; [by apply Hc|by eapply Ho].
  - intros id1 id2 s1 s2 [H1 _]%Hs [H2 _]%Hs; [|done..]. by apply Hd.
Qed.

(** Removing subscriptions from both tables keeps the agreement. *)
Lemma agrees_ended m n t l m' :
  agrees m n t -> ended l m m' ->
  (forall c id, is_Some (sm_connSubs m' !! c ≫= (.!! id)) <-> is_Some (sm_connSubs m !! c ≫= (.!! id)) /\ id ∉ l) ->
  (forall c, sm_connSubs m' !! c <> Some ∅) ->
  agrees m' n (filter (fun e => e.1 ∉ l) t).
Proof.
  intros Ha He Hi Hn. pose proof (ended_subs l m m') as Hs. pose proof (en_same _ _ _ He) as (Hid & _ & _).
  destruct (ended_chans _ _ _ (agrees_chans _ _ _ Ha) He) as [Ho Hc Hd]. destruct Ha as [[H1 H2] <- Hk _ _ _ Hx _].
  split; try done.
  - by rewrite Hid.
  - rewrite (en_subs _ _ _ He). apply map_eq. intros id. rewrite lookup_fmap. apply option_eq. intros e.
    rewrite fmap_Some, map_lookup_filter_Some, lookup_fmap, fmap_Some. setoid_rewrite map_lookup_filter_Some. naive_solver.
  - intros id s [H _]%Hs; [|done]. by apply Hk.
  - intros c id. rewrite Hi, Hx. setoid_rewrite Hs; [|done]. naive_solver.
Qed.

Section Facts.
Context {MR : MapRange}.

Lemma agrees_new : agrees NewSubscriptionManager 0 ∅.
Proof.
  split; cbn; try done.
  - intros c id. split; [intros []|intros (? & [=] & _)]. done.
Qed.

Lemma subscribe_agrees m n t ty params c :
  agrees m n t -> n + 1 < 2 ^ 64 ->
  exists m', Subscribe ty params c m = (Ok (fmt_0x (n + 1)), m') /\ t !! fmt_0x (n + 1) = None /\
    agrees m' (n + 1) (<[fmt_0x (n + 1) := (ty, c)]> t) /\ sm_sent m' = sm_sent m.
Proof.
  intros [[Hn H0] Ht Hk Ho Hc Hd Hx He] Hlt. unfold Subscribe. rewrite Hn, u64_small by (unfold is_u64; lia).
  assert (Hfresh : forall k, fmt_0x (n + 1) = fmt_0x k -> k = n + 1) by (intros k E; symmetry; by apply fmt_0x_inj).
  assert (Hown : exists k, fmt_0x (n + 1) = fmt_0x k /\ 1 <= k <= n + 1) by (exists (n + 1); split; [done|lia]).
  revert Hfresh Hown. generalize (fmt_0x (n + 1)) as id. intros id Hfresh Hown.
  assert (Hnew : sm_subs m !! id = None).
  { apply eq_None_not_Some. intros [s Hs]. destruct (Hk _ _ Hs) as (_ & k & E & Hlek). apply Hfresh in E. lia. }
  eexists. split; [done|]. split; [rewrite <- Ht; by rewrite lookup_fmap, Hnew|]. split; [|done]. split; cbn.
  - lia.
  - by rewrite fmap_insert, Ht.
  - intros id' s. rewrite lookup_insert_Some. intros [[<- <-]|[_ H]]; [done|].
    destruct (Hk _ _ H) as (? & k & ? & ?). split; [done|]. exists k. split; [done|lia].
  - intros id' s. rewrite lookup_insert_Some. intros [[<- <-]|[_ H]]; cbn.
    + split; [|lia]. intros Hin%Hc. lia.
    + destruct (Ho _ _ H). split; [done|lia].
  - intros ch Hch%Hc. lia.
  - intros id1 id2 s1 s2. rewrite !lookup_insert_Some. intros [[<- <-]|[_ G1]] [[<- <-]|[_ G2]]; cbn; try done.
    + apply Ho in G2. lia.
    + apply Ho in G1. lia.
    + by apply Hd.
  - intros c' id'. destruct (decide (c' = c)) as [->|Hcc].
    + rewrite lookup_insert_eq. cbn. destruct (decide (id' = id)) as [->|Hid].
      * rewrite lookup_insert_eq. split; [|done]. intros _. eexists. by rewrite lookup_insert_eq.
      * rewrite lookup_insert_ne by done. setoid_rewrite lookup_insert_ne; [|done..].
        rewrite <- Hx. destruct (sm_connSubs m !! c); cbn; [done|]. by rewrite lookup_empty.
    + rewrite lookup_insert_ne, Hx by done. setoid_rewrite lookup_insert_Some. split.
      * intros (s & Hs & Hsc). exists s. split; [|done]. right. split; [|done]. intros <-. congruence.
      * intros (s & [[<- <-]|[_ Hs]] & Hsc); [done|by exists s].
  - intros c' E. apply lookup_insert_Some in E as [[_ E]|[_ E]]; [|by apply He in E]. by apply insert_non_empty in E.
Qed.

Lemma drop_index_spec (id : bytes) (c : Z) (t : gmap Z (gmap bytes bool)) :
  (forall c', t !! c' <> Some ∅) ->
  (forall (c' : Z) (id' : bytes), is_Some (drop_index id c t !! c' ≫= (.!! id')) <->
     is_Some (t !! c' ≫= (.!! id')) /\ ~ (c' = c /\ id' = id)) /\
  (forall c' : Z, drop_index id c t !! c' <> Some ∅).
Proof.
  intros Hn. unfold drop_index. destruct (t !! c) as [ids|] eqn:E.
  - assert (Hdel : forall (c' : Z) (id' : bytes), is_Some (<[c := delete id ids]> t !! c' ≫= (.!! id')) <->
      is_Some (t !! c' ≫= (.!! id')) /\ ~ (c' = c /\ id' = id)).
    { intros c' id'. destruct (decide (c' = c)) as [->|Hc].
      - rewrite lookup_insert_eq, E. cbn. destruct (decide (id' = id)) as [->|Hi].
        + rewrite lookup_delete_eq. split; [intros []; done|naive_solver].
        + rewrite lookup_delete_ne by done. naive_solver.
      - rewrite lookup_insert_ne by done. naive_solver. }
    destruct (decide (delete id ids = ∅)) as [Ee|Ee].
    + split.
      * intros c' id'. rewrite <- Hdel, Ee. destruct (decide (c' = c)) as [->|Hc].
        -- rewrite lookup_delete_eq, lookup_insert_eq. cbn. by rewrite lookup_empty.
        -- by rewrite lookup_delete_ne, lookup_insert_ne.
      * intros c' Hc. apply lookup_delete_Some in Hc as [_ Hc]. by apply Hn in Hc.
    + split; [exact Hdel|]. intros c' Hc. apply lookup_insert_Some in Hc as [[_ ?]|[_ ?]]; [done|by eapply Hn].
  - split; [|done]. intros c' id'. split; [|naive_solver]. intros H. split; [done|]. intros [-> _]. rewrite E in H. by destruct H.
Qed.

Lemma unsubscribe_agrees m n t id :
  agrees m n t ->
  exists m', Unsubscribe id m = (Ok (bool_decide (is_Some (t !! id))), m') /\
    agrees m' n (filter (fun e => e.1 ∉ [id]) t) /\ sm_sent m' = sm_sent m.
Proof.
  intros Ha. pose proof Ha as [_ Ht _ Ho _ _ Hx Hn]. unfold Unsubscribe. cbv [mbind M_bind gets].
  pose proof (live_lookup m n t id Ha) as Etid.
  rewrite Etid. destruct (sm_subs m !! id) as [sub|] eqn:E; cbn [fmap option_fmap option_map].
  - destruct (Ho _ _ E) as [Hopen _]. cbn [modify]. unfold close_chan. cbn [with_tables sm_closed].
    rewrite decide_False by done. eexists. split; [by rewrite bool_decide_eq_true_2|]. split; [|done].
    destruct (drop_index_spec id (sub_conn sub) _ Hn) as [Hd He].
    apply (agrees_ended m); [done| |cbn; intros c id'; rewrite Hd|done].
    + split; cbn; [|done|].
      * apply map_eq. intros k. destruct (decide (k = id)) as [->|Hk].
        -- rewrite lookup_delete_eq. symmetry. apply map_lookup_filter_None. right. set_solver.
        -- rewrite lookup_delete_ne by done. apply option_eq. intros x. rewrite map_lookup_filter_Some. set_solver.
      * intros ch. rewrite elem_of_union, elem_of_singleton. setoid_rewrite list_elem_of_singleton. naive_solver.
    + rewrite list_elem_of_singleton. split; [|naive_solver]. intros [H Hne]. split; [done|]. intros ->.
      apply Hne. split; [|done]. apply Hx in H as (s & Hs & <-). congruence.
  - eexists. split; [done|]. split; [|done]. replace (filter _ t) with t; [done|].
    symmetry. apply map_filter_id. intros k x Hk. cbn. rewrite list_elem_of_singleton. intros ->.
    discriminate (eq_trans (eq_sym Hk) Etid).
Qed.

Lemma end_subs_run l : forall m, chans_ok m -> exists m', end_subs l m = (Ok tt, m') /\ ended l m m' /\ sm_connSubs m' = sm_connSubs m.
Proof.
  induction l as [|id l IH]; intros m Hm; cbn [end_subs].
  { eexists. split; [done|]. split; [|done]. split; [|done|].
    - symmetry. apply map_filter_id. set_solver.
    - set_solver. }
  set (m1 := mkSM (delete id (sm_subs m)) (sm_nextID m) (sm_connSubs m) (sm_chans m)
    (match sm_subs m !! id with Some s => {[sub_done s]} ∪ sm_closed m | None => sm_closed m end) (sm_sent m)).
  assert (He1 : ended [id] m m1).
  { split; cbn; [|done|].
    - apply map_eq. intros k. apply option_eq. intros x. rewrite lookup_delete_Some, map_lookup_filter_Some. set_solver.
    - intros ch. setoid_rewrite list_elem_of_singleton. destruct (sm_subs m !! id) as [s|] eqn:E; [|naive_solver].
      rewrite elem_of_union, elem_of_singleton. naive_solver. }
  destruct (IH m1 (ended_chans _ _ _ Hm He1)) as (m' & Hr & He & Hc). exists m'. split_and!; [|clear Hr|by rewrite Hc].
  - rewrite <- Hr. cbv [mbind M_bind gets modify]. unfold m1. destruct (sm_subs m !! id) as [s|] eqn:E; [|done].
    unfold close_chan. rewrite decide_False by (by eapply co_open). done.
  - split.
    + rewrite (en_subs _ _ _ He), (en_subs _ _ _ He1). apply map_eq. intros k. apply option_eq. intros x.
      rewrite !map_lookup_filter_Some. cbn. set_solver.
    + destruct (en_same _ _ _ He) as (-> & -> & ->). done.
    + intros ch. rewrite (en_closed _ _ _ He), (en_closed _ _ _ He1).
      setoid_rewrite (ended_subs _ _ _ _ _ He1). setoid_rewrite list_elem_of_singleton.
      setoid_rewrite elem_of_cons. split; [naive_solver|].
      intros [?|(id' & s & Hin & Hs & Hch)]; [naive_solver|]. destruct (decide (id' = id)) as [->|Hne]; naive_solver.
Qed.

(** The subscriptions of the connections of [D] have ended. *)
Record without (D : gset Z) (m m' : SubscriptionManager) : Prop := {
  wo_subs : sm_subs m' = filter (fun e => sub_conn e.2 ∉ D) (sm_subs m);
  wo_closed ch : ch ∈ sm_closed m' <->
    ch ∈ sm_closed m \/ exists id s, sm_subs m !! id = Some s /\ sub_conn s ∈ D /\ sub_done s = ch;
}.
Lemma without_nothing m : without ∅ m m.
Proof. split; [symmetry; apply map_filter_id; set_solver|set_solver]. Qed.
Lemma without_sent D m m' l : without D m m' ->
  without D m (mkSM (sm_subs m') (sm_nextID m') (sm_connSubs m') (sm_chans m') (sm_closed m') l).
Proof. by intros []. Qed.
Lemma without_trans D E m m1 m2 : without D m m1 -> without E m1 m2 -> without (D ∪ E) m m2.
Proof.
  intros [H1 H2] [G1 G2]. split.
  - rewrite G1, H1. apply map_eq. intros k. apply option_eq. intros x. rewrite !map_lookup_filter_Some. cbn. set_solver.
  - intros ch. rewrite G2, H2, H1. setoid_rewrite map_lookup_filter_Some. setoid_rewrite elem_of_union. cbn. split; [naive_solver|].
    intros [?|(id & s & Hs & Hin & Hch)]; [naive_solver|]. destruct (decide (sub_conn s ∈ D)); naive_solver.
Qed.

Lemma without_live D m m' n t : agrees m n t -> without D m m' ->
  (fun s => (sub_Type s, sub_conn s)) <$> sm_subs m' = filter (fun e => e.2.2 ∉ D) t.
Proof.
  intros Ha [-> _]. rewrite <- (ag_live _ _ _ Ha). apply map_eq. intros k. rewrite lookup_fmap. apply option_eq. intros e.
  rewrite fmap_Some, map_lookup_filter_Some, lookup_fmap, fmap_Some. setoid_rewrite map_lookup_filter_Some. naive_solver.
Qed.

Lemma cleanup_agrees m n t c :
  agrees m n t ->
  exists m', CleanupConn c m = (Ok tt, m') /\ without {[c]} m m' /\
    agrees m' n (filter (fun e => e.2.2 ∉ ({[c]} : gset Z)) t) /\ sm_sent m' = sm_sent m.
Proof.
  intros Ha. pose proof (ag_index _ _ _ Ha) as Hx. unfold CleanupConn. cbv [mbind M_bind gets].
  destruct (sm_connSubs m !! c) as [ids|] eqn:E.
  - destruct (end_subs_run (map_range ids).*1 m (agrees_chans _ _ _ Ha)) as (m1 & Hr & He & Hc). rewrite Hr. cbn [modify].
    assert (Hl : forall id, id ∈ (map_range ids).*1 <-> exists s, sm_subs m !! id = Some s /\ sub_conn s = c).
    { intros id. rewrite <- Hx, E. cbn. rewrite list_elem_of_fmap. split.
      - intros ([k v] & -> & Hin). apply map_range_elem in Hin. by exists v.
      - intros [v Hv]. exists (id, v). split; [done|]. by apply map_range_elem. }
    eexists. split; [done|].
    match goal with |- without _ _ ?x /\ _ => set (m' := x) end.
    assert (He' : ended (map_range ids).*1 m m') by (destruct He; by split).
    assert (Hw : without {[c]} m m').
    { split.
      - rewrite (en_subs _ _ _ He'). apply map_filter_ext. intros id s Hs. cbn. rewrite Hl, elem_of_singleton. naive_solver.
      - intros ch. rewrite (en_closed _ _ _ He'). setoid_rewrite Hl. setoid_rewrite elem_of_singleton. naive_solver. }
    split; [exact Hw|]. split; [|apply (en_same _ _ _ He)].
    rewrite <- (without_live _ _ _ _ _ Ha Hw).
    assert (Hg : agrees m' n (filter (fun e => e.1 ∉ (map_range ids).*1) t)).
    { apply (agrees_ended m); [done|done|..].
      - intros c' id. cbn. rewrite Hc, Hl. destruct (decide (c' = c)) as [->|Hcc].
        + rewrite lookup_delete_eq, E. cbn. split; [intros []; done|]. intros [H1 H2]. destruct H2. apply Hx. by rewrite E.
        + rewrite lookup_delete_ne by done. rewrite Hx. naive_solver.
      - intros c'. cbn. rewrite Hc. intros H. apply lookup_delete_Some in H as [_ H]. by apply (ag_nonempty _ _ _ Ha) in H. }
    by rewrite (ag_live _ _ _ Hg).
  - eexists. split; [done|].
    assert (Hw : without {[c]} m m).
    { assert (Hno : forall id s, sm_subs m !! id = Some s -> sub_conn s <> c).
      { intros id s Hs Hsc. assert (H : is_Some (sm_connSubs m !! c ≫= (.!! id))) by (apply Hx; eauto).
        rewrite E in H. by destruct H. }
      split; [symmetry; apply map_filter_id; intros id s Hs; rewrite elem_of_singleton; by eapply Hno|].
      intros ch. setoid_rewrite elem_of_singleton. naive_solver. }
    split; [exact Hw|]. split; [|done]. rewrite <- (without_live _ _ _ _ _ Ha Hw). by rewrite (ag_live _ _ _ Ha).
Qed.

(** The connections a list of subscriptions finds broken. *)
Definition hits (broken : gset Z) (l : list Subscription) : gset Z := list_to_set (map sub_conn l) ∩ broken.

Lemma notify_run broken data m0 n t0 l : agrees m0 n t0 ->
  (forall s, s ∈ l -> sm_subs m0 !! sub_ID s = Some s) ->
  forall D m t, agrees m n t -> without D m0 m -> D ⊆ broken ->
  exists m', notify_all broken data l m = (Ok tt, m') /\ (exists t', agrees m' n t') /\ without (D ∪ hits broken l) m0 m' /\
    sm_sent m' = sm_sent m ++
      map (fun s => (sub_conn s, notification (sub_ID s) data)) (List.filter (fun s => bool_decide (sub_conn s ∉ broken)) l).
Proof.
  intros H0. induction l as [|s l IH]; intros Hl D m t Ha Hw HD; cbn [notify_all].
  { exists m. split_and!; [done|by exists t| |by rewrite app_nil_r]. unfold hits. cbn.
    replace (D ∪ ∅ ∩ broken) with D by set_solver. done. }
  specialize (IH ltac:(intros s' Hs'; apply Hl; by right)).
  pose proof (Hl s ltac:(left)) as Hs.
  assert (Hclosed : sub_done s ∈ sm_closed m <-> sub_conn s ∈ D).
  { rewrite (wo_closed _ _ _ Hw). split; [|naive_solver]. intros [H|(id & s' & Hs' & Hin & Hd)].
    - by destruct (ag_open _ _ _ H0 _ _ Hs).
    - rewrite (ag_chan _ _ _ H0 _ _ _ _ Hs' Hs Hd) in Hs'. congruence. }
  cbv [mbind M_bind gets].
  destruct (decide (sub_conn s ∈ D)) as [HsD|HsD].
  - rewrite bool_decide_eq_true_2 by tauto. cbn [mret M_ret].
    destruct (IH D m t Ha Hw HD) as (m' & Hr & Ht' & Hw' & Hsent). exists m'. split_and!; [done|done| |].
    + replace (D ∪ hits broken (s :: l)) with (D ∪ hits broken l); [done|]. unfold hits. cbn. set_solver.
    + cbn [List.filter]. rewrite bool_decide_eq_false_2 by set_solver. done.
  - rewrite bool_decide_eq_false_2 by tauto. unfold sendNotification.
    destruct (decide (sub_conn s ∈ broken)) as [Hb|Hb].
    + destruct (cleanup_agrees m n t (sub_conn s) Ha) as (m1 & Hr1 & Hw1 & Ha1 & Hs1). rewrite Hr1.
      destruct (IH (D ∪ {[sub_conn s]}) m1 _ Ha1 (without_trans _ _ _ _ _ Hw Hw1)) as (m' & Hr & Ht' & Hw' & Hsent); [set_solver|].
      exists m'. split_and!; [done|done| |].
      * replace (D ∪ hits broken (s :: l)) with (D ∪ {[sub_conn s]} ∪ hits broken l); [done|]. unfold hits. cbn. set_solver.
      * cbn [List.filter]. rewrite bool_decide_eq_false_2 by tauto. by rewrite Hsent, Hs1.
    + cbn [modify].
      match goal with |- context [notify_all _ _ _ ?x] => set (m1 := x) end.
      destruct (IH D m1 t) as (m' & Hr & Ht' & Hw' & Hsent); [by destruct Ha|by apply without_sent|done|].
      exists m'. split_and!; [done|done| |].
      * replace (D ∪ hits broken (s :: l)) with (D ∪ hits broken l); [done|]. unfold hits. cbn. set_solver.
      * cbn [List.filter]. rewrite bool_decide_eq_true_2 by done. rewrite Hsent. cbn. by rewrite <- app_assoc.
Qed.

Lemma elem_subscribers ty m n t s : agrees m n t ->
  s ∈ subscribers ty m <-> sm_subs m !! sub_ID s = Some s /\ sub_Type s = ty.
Proof.
  intros Ha. unfold subscribers. rewrite list_elem_of_In, filter_In, <- list_elem_of_In, bool_decide_eq_true, list_elem_of_fmap.
  split; intros [H1 H2]; split; try done.
  - destruct H1 as ([k v] & -> & H1). apply map_range_elem in H1. cbn. by destruct (ag_key _ _ _ Ha _ _ H1) as [-> _].
  - exists (sub_ID s, s). split; [done|]. by apply map_range_elem.
Qed.

Lemma elem_hits ty broken m n t c : agrees m n t -> c ∈ hits broken (subscribers ty m) <-> hit ty broken t c.
Proof.
  intros Ha.
  assert (Hc : c ∈ (list_to_set (map sub_conn (subscribers ty m)) : gset Z) <-> map_Exists (fun _ e => e = (ty, c)) t).
  { rewrite elem_of_list_to_set, list_elem_of_fmap. setoid_rewrite (elem_subscribers ty m n t _ Ha). unfold map_Exists. split.
    - intros (s & -> & Hs & <-). exists (sub_ID s), (sub_Type s, sub_conn s). split; [|done].
      rewrite (live_lookup m n t _ Ha). by rewrite Hs.
    - intros (id & e & Hid & ->). rewrite (live_lookup m n t _ Ha) in Hid.
      apply fmap_Some in Hid as (s & Hs & [= -> ->]). exists s. by destruct (ag_key _ _ _ Ha _ _ Hs) as [-> _]. }
  unfold hits, hit. rewrite elem_of_intersection, Hc. tauto.
Qed.

Lemma messages_perm ty broken data m n t : agrees m n t ->
  Permutation (map (fun s => (sub_conn s, notification (sub_ID s) data))
                (List.filter (fun s => bool_decide (sub_conn s ∉ broken)) (subscribers ty m)))
    (messages ty broken data t).
Proof.
  intros Ha. unfold messages, subscribers.
  assert (E : Permutation (map_to_list t) (map (fun e => (e.1, (sub_Type e.2, sub_conn e.2))) (map_range (sm_subs m)))).
  { rewrite <- (ag_live _ _ _ Ha), (map_range_perm (sm_subs m)). 
    refine (reflexive_eq (R := Permutation) _ _ _). exact (map_to_list_fmap (fun s => (sub_Type s, sub_conn s)) (sm_subs m)). }
  rewrite E. clear E.
  assert (Hk : Forall (fun e => sub_ID e.2 = e.1) (map_range (sm_subs m))).
  { apply Forall_forall. intros [k s] Hs%map_range_elem. by apply (ag_key _ _ _ Ha). }
  induction Hk as [|[k s] l Hks _ IH]; [done|]. cbn in *. subst k.
  destruct (decide (sub_Type s = ty)) as [Et|Et].
  - rewrite bool_decide_eq_true_2 by done. cbn. destruct (decide (sub_conn s ∈ broken)) as [Hb|Hb].
    + rewrite bool_decide_eq_false_2, decide_False by tauto. done.
    + rewrite bool_decide_eq_true_2, decide_True by tauto. cbn. by constructor.
  - rewrite bool_decide_eq_false_2, decide_False by tauto. done.
Qed.

Lemma broadcast_agrees ty broken data m n t :
  agrees m n t ->
  exists m' msgs, broadcast ty broken data m = (Ok tt, m') /\
    agrees m' n (filter (fun e => ~ hit ty broken t e.2.2) t) /\
    sm_sent m' = sm_sent m ++ msgs /\ Permutation msgs (messages ty broken data t).
Proof.
  intros Ha. unfold broadcast. cbv [mbind M_bind gets].
  destruct (notify_run broken data m n t (subscribers ty m) Ha) with (D := ∅ : gset Z) (m := m) (t := t)
    as (m' & Hr & [t' Ha'] & Hw & Hs).
  - intros s Hs. by apply (elem_subscribers ty m n t s Ha) in Hs as [Hs _].
  - done.
  - apply without_nothing.
  - set_solver.
  - exists m'. eexists. split_and!; [exact Hr| |exact Hs|by eapply messages_perm].
    replace (filter _ t) with t'; [done|]. rewrite <- (ag_live _ _ _ Ha'), (without_live _ _ _ _ _ Ha Hw).
    apply map_filter_ext. intros k [ty' c] _. cbn. rewrite union_empty_l_L, (elem_hits ty broken m n t c Ha). done.
Qed.

Lemma op_refines o m n t : agrees m n t -> n + 1 < 2 ^ 64 ->
  exists m' sp, run_op o m = (Ok tt, m') /\ spec_step o (mkSpec n t (sm_sent m)) sp /\
    agrees m' (sp_count sp) (sp_live sp) /\ sm_sent m' = sp_sent sp /\ sp_count sp <= n + 1.
Proof.
  intros Ha Hn. destruct o as [ty params c|id|c|broken block|broken tx]; cbn [run_op].
  - destruct (subscribe_agrees m n t ty params c Ha Hn) as (m' & Hr & Hf & Ha' & Hs). exists m'. eexists.
    split_and!; [cbv [mbind M_bind]; by rewrite Hr|by constructor|done|done|cbn; lia].
  - destruct (unsubscribe_agrees m n t id Ha) as (m' & Hr & Ha' & Hs). exists m'. eexists.
    split_and!; [cbv [mbind M_bind]; by rewrite Hr|constructor| |done|cbn; lia]. cbn.
    replace (delete id t) with (filter (fun e => e.1 ∉ [id]) t); [done|]. apply map_eq. intros k. apply option_eq. intros x.
    rewrite lookup_delete_Some, map_lookup_filter_Some. set_solver.
  - destruct (cleanup_agrees m n t c Ha) as (m' & Hr & _ & Ha' & Hs). exists m'. eexists.
    split_and!; [done|constructor| |done|cbn; lia]. cbn.
    replace (filter (fun e => e.2.2 <> c) t) with (filter (fun e => e.2.2 ∉ ({[c]} : gset Z)) t); [done|].
    apply map_filter_ext. intros k x _. by rewrite elem_of_singleton.
  - destruct (broadcast_agrees SubNewHeads broken (head_json block) m n t Ha) as (m' & msgs & Hr & Ha' & Hs & Hp).
    exists m'. eexists. split_and!; [done|by econstructor|done|done|cbn; lia].
  - destruct (broadcast_agrees SubNewPendingTransactions broken (hexb (tx_Hash tx)) m n t Ha) as (m' & msgs & Hr & Ha' & Hs & Hp).
    exists m'. eexists. split_and!; [done|by econstructor|done|done|cbn; lia].
Qed.

(** C10.  Whatever the clients do, the manager never closes a channel twice, its two
    tables agree, and it is the table of live subscriptions: each broadcast sends
    one message to every live subscriber whose connection works, and nothing to
    others.  The bound is the width of the identifier counter. *)
Theorem subscriptions_refine (l : list sm_op) :
  Z.of_nat (length l) < 2 ^ 64 ->
  exists m sp, run_ops l NewSubscriptionManager = (Ok tt, m) /\ spec_run l (mkSpec 0 ∅ []) sp /\
    agrees m (sp_count sp) (sp_live sp) /\ sm_sent m = sp_sent sp.
Proof.
  intros Hl. assert (H : forall m n t, agrees m n t -> n + Z.of_nat (length l) < 2 ^ 64 ->
    exists m' sp, run_ops l m = (Ok tt, m') /\ spec_run l (mkSpec n t (sm_sent m)) sp /\
      agrees m' (sp_count sp) (sp_live sp) /\ sm_sent m' = sp_sent sp).
  { clear Hl. induction l as [|o l IH]; intros m n t Ha Hl; cbn [run_ops length] in *.
    - exists m. eexists. split_and!; [done|constructor|done..].
    - destruct (op_refines o m n t Ha ltac:(lia)) as (m1 & [n1 t1 l1] & Hr & Hst & Ha1 & Hs & Hle). cbn in Ha1, Hs, Hle.
      destruct (IH m1 n1 t1 Ha1 ltac:(lia)) as (m' & sp & Hr' & Hst' & Ha' & Hs'). rewrite Hs in Hst'.
      exists m', sp. split_and!; [cbv [mbind M_bind]; by rewrite Hr|by econstructor|done..]. }
  by apply (H NewSubscriptionManager 0 ∅ agrees_new).
Qed.
End Facts.

(** ** What the code does that its comments do not say *)

(** A client ends the subscription of another: identifiers count up from one, and
    nothing compares connections. *)
Lemma anyone_unsubscribes :
  let m := (run_ops [OpSubscribe SubNewHeads JNull 1] NewSubscriptionManager).2 in
  is_Some (sm_subs m !! lit "0x1") /\ (Unsubscribe (lit "0x1") m).1 = Ok true /\
  sm_subs (Unsubscribe (lit "0x1") m).2 = ∅.
Proof. vm_compute. split_and!; [by eexists|done|done]. Qed.

(** Any kind is accepted; no broadcast serves the logs. *)
Lemma logs_are_never_sent broken data ty m :
  ty <> SubLogs -> (forall id s, sm_subs m !! id = Some s -> sub_Type s = SubLogs) ->
  broadcast ty broken data m = (Ok tt, m).
Proof.
  intros Hty Hm. unfold broadcast. cbv [mbind M_bind gets]. replace (subscribers ty m) with (@nil Subscription); [done|].
  symmetry. unfold subscribers.
  assert (H : forall s, s ∈ (map_range (sm_subs m)).*2 -> sub_Type s = SubLogs).
  { intros s Hs. apply list_elem_of_fmap in Hs as ([k v] & -> & Hs). apply map_range_elem in Hs. by eapply Hm. }
  induction (map_range (sm_subs m)).*2 as [|s l IH]; [done|]. cbn.
  rewrite bool_decide_eq_false_2, IH; [done|intros ? ?; apply H; by right|]. rewrite H by left. done.
Qed.

(** ** Witnesses *)

Definition sample_ops : list sm_op :=
  [OpSubscribe SubNewHeads JNull 1; OpSubscribe SubNewHeads JNull 2; OpSubscribe SubNewPendingTransactions JNull 1;
   OpNewHead {[2]} (mkBlock 5 [1] 0 [] [] [] [] []); OpUnsubscribe (lit "0x1"); OpClose 1].
Lemma subscriptions_refine_witness :
  exists m sp, run_ops sample_ops NewSubscriptionManager = (Ok tt, m) /\ agrees m (sp_count sp) (sp_live sp) /\
    sm_sent m = sp_sent sp.
Proof.
  destruct (subscriptions_refine sample_ops) as (m & sp & H1 & _ & H2 & H3); [cbn; lia|].
  exists m, sp. exact (conj H1 (conj H2 H3)).
Defined.
Lemma sample_run :
  let m := (run_ops sample_ops NewSubscriptionManager).2 in
  sm_subs m = ∅ /\ map fst (sm_sent m) = [1] /\ size (sm_closed m) = 3%nat.
Proof. vm_compute. done. Qed.
