(* ===== verification/Server.v ===== *)
(** The front of the JSON-RPC server (rpc.go): the rate limiter in front of HTTP
    ([Middleware] of rate_limit.go), the request and reply envelopes, and the
    WebSocket handler, over the method table of Rpc.v and the subscription manager.

    A request body is a JSON value or not JSON.  Error messages keep their format
    string.  A panic in a handler is recovered by net/http, which closes the
    connection; deferred calls have run. *)

From Stdlib Require Import ZArith Lia.
From S2P Require Import Prelude Sha256 GoFloat Collections StateDB Validators Types P2P.
From S2P Require Import RateLimit Vm Chain Store Rpc Subscriptions.
From stdpp Require Import gmap list.
Local Open Scope Z_scope.
Local Open Scope go_scope.

(** ** Envelopes *)

Record JSONRPCRequest := mkRequest { rq_Method : bytes; rq_Params : option json; rq_ID : json }.

(** A string field: absent and null leave it empty, another type is an error. *)
Definition string_field (name : string) (f : list (string * json)) : option bytes :=
  match field name f with
  | None | Some JNull => Some []
  | Some (JStr s) => Some s
  | _ => None
  end.
Definition decode_request (body : option json) : option JSONRPCRequest :=
  match body with
  | Some (JObj f) =>
      _ ← string_field "jsonrpc" f;
      m ← string_field "method" f;
      Some (mkRequest m (field "params" f) (default JNull (field "id" f)))
  | Some JNull => Some (mkRequest [] None JNull)
  | _ => None
  end.

(** The method name as the dispatch compares it. *)
Definition method_name (m : bytes) : string :=
  fold_right (fun c s => String (Ascii.ascii_of_nat (Z.to_nat c)) s) EmptyString m.

Definition rpc_error (code : Z) (msg : string) : json := JObj [fld "code" (JNum code); fld "message" (jstr msg)].
(** [writeResult]: a result that is nil is omitted. *)
Definition result_reply (id result : json) : json :=
  JObj ([fld "jsonrpc" (jstr "2.0")] ++ match result with JNull => [] | r => [fld "result" r] end ++ [fld "id" id]).
Definition error_reply (id : json) (code : Z) (msg : string) : json :=
  JObj [fld "jsonrpc" (jstr "2.0"); fld "error" (rpc_error code msg); fld "id" id].
(** [writeWSResult], [writeWSError] and [writeWSSubscribeError]. *)
Definition ws_result (id result : json) : json :=
  JObj [fld "jsonrpc" (jstr "2.0"); fld "id" id; fld "result" result].
Definition ws_error (id : json) (code : Z) (msg : string) : json :=
  JObj [fld "jsonrpc" (jstr "2.0"); fld "id" id; fld "error" (rpc_error code msg)].

Record http_request := mkHttp {
  hr_forwarded : bytes; hr_remote : bytes; hr_path : bytes; hr_options : bool; hr_upgrade : bytes; hr_body : option json;
}.
Inductive http_reply :=
| HTooMany                  (* 429, before any handler *)
| HEmpty                    (* 200 without a body *)
| HJson (j : json)
| HWebSocket                (* the connection is taken over by [handleWS] *)
| HDropped.                 (* a panic: the connection is closed *)

Section Server.
Context (verify : bytes -> bytes -> bytes -> bool) (keccak : bytes -> bytes).
Context {SS : SortSlice} {MR : MapRange} {RV : Revm} {BT : Bolt}.
Context {CA : Codec serializedAccount} {CB : Codec BlockData} {CT : Codec (list TxData)} {CN : Codec NodeInfo}.
Context (same_log : LogEntry -> LogEntry -> bool).

(** The fields of [RPCServer] the methods do not use are kept beside it. *)
Record Server := mkServer { sv_rpc : RPCServer; sv_subs : SubscriptionManager; sv_limiter : RateLimiter }.

Definition NewRPCServer (c : Chain) (st : option Store) : Server :=
  mkServer (mkRpc c st None None) NewSubscriptionManager (NewRateLimiter 100 1000000000).
Definition SetValidators (vs : ValidatorSet) (s : Server) : Server :=
  mkServer (mkRpc (rpc_chain (sv_rpc s)) (rpc_store (sv_rpc s)) (Some vs) (rpc_p2pNode (sv_rpc s))) (sv_subs s) (sv_limiter s).
Definition SetP2PNode (node : option P2PNode) (s : Server) : Server :=
  mkServer (mkRpc (rpc_chain (sv_rpc s)) (rpc_store (sv_rpc s)) (rpc_validators (sv_rpc s)) node) (sv_subs s) (sv_limiter s).

Definition on_rpc {A} (m : M RPCServer A) : M Server A := fun s =>
  let '(r, x) := m (sv_rpc s) in (r, mkServer x (sv_subs s) (sv_limiter s)).
Definition on_subs {A} (m : M SubscriptionManager A) : M Server A := fun s =>
  let '(r, x) := m (sv_subs s) in (r, mkServer (sv_rpc s) x (sv_limiter s)).
Definition on_limiter {A} (m : M RateLimiter A) : M Server A := fun s =>
  let '(r, x) := m (sv_limiter s) in (r, mkServer (sv_rpc s) (sv_subs s) x).

(** A method call, its error caught. *)
Definition call_method (now : Z) (r : JSONRPCRequest) : M Server (string + json) := fun s =>
  match on_rpc (handleMethod verify keccak same_log (now / 1000000000) (method_name (rq_Method r)) (rq_Params r)) s with
  | (Ok v, s) => (Ok (inr v), s)
  | (Err e, s) => (Ok (inl e), s)
  | (Panic, s) => (Panic, s)
  end.

(** ** HTTP *)

Definition handleHealth : M Server http_reply :=
  let* n := gets (fun s => length (ch_Blocks (rpc_chain (sv_rpc s)))) in
  mret (HJson (JObj [fld "status" (jstr "ok"); fld "blocks" (JNum (Z.of_nat n))])).

Definition handleRequest (now : Z) (rq : http_request) : M Server http_reply :=
  if bool_decide (hr_upgrade rq = lit "websocket") || bool_decide (hr_upgrade rq = lit "WebSocket") then mret HWebSocket
  else if hr_options rq then mret HEmpty
  else match decode_request (hr_body rq) with
       | None => mret (HJson (error_reply JNull (-32700) "Parse error"))
       | Some r =>
           let* v := call_method now r in
           mret (HJson (match v with
                        | inl e => error_reply (rq_ID r) (-32000) e
                        | inr v => result_reply (rq_ID r) v
                        end))
       end.

(** [Middleware] over the mux of [Start]. *)
Definition serve_http (now : Z) (rq : http_request) : M Server http_reply :=
  let* ok := on_limiter (Allow (extractIP (hr_forwarded rq) (hr_remote rq)) now) in
  if negb ok then mret HTooMany
  else if bool_decide (hr_path rq = lit "/health") then handleHealth
  else handleRequest now rq.
Definition serve (now : Z) (rq : http_request) (s : Server) : http_reply * Server :=
  match serve_http now rq s with
  | (Ok r, s) => (r, s)
  | (_, s) => (HDropped, s)
  end.

(** ** WebSocket *)

Definition ws_subscribe (conn : Z) (r : JSONRPCRequest) : M Server json :=
  match as_array (rq_Params r) with
  | Some (JStr ty :: l) =>
      let* id := on_subs (Subscribe ty (nth 0 l JNull) conn) in mret (ws_result (rq_ID r) (JStr id))
  | Some (_ :: _) => mret (ws_error (rq_ID r) (-32602) "invalid subscription type")
  | _ => mret (ws_error (rq_ID r) (-32602) "invalid params")
  end.
Definition ws_unsubscribe (r : JSONRPCRequest) : M Server json :=
  match as_strings (rq_Params r) with
  | Some (id :: _) => let* ok := on_subs (Unsubscribe id) in mret (ws_result (rq_ID r) (JBool ok))
  | _ => mret (ws_error (rq_ID r) (-32602) "invalid params")
  end.
(** One message of a connection: what is written back. *)
Definition ws_message (now conn : Z) (msg : option json) : M Server (list json) :=
  match decode_request msg with
  | None => mret []
  | Some r =>
      let* reply :=
        (if bool_decide (rq_Method r = lit "eth_subscribe") then ws_subscribe conn r
         else if bool_decide (rq_Method r = lit "eth_unsubscribe") then ws_unsubscribe r
         else let* v := call_method now r in
              mret (match v with inl e => ws_error (rq_ID r) (-32000) e | inr v => ws_result (rq_ID r) v end)) in
      mret [reply]
  end.
(** [handleWS] of a connection whose messages arrive at the given times, until it
    closes or a handler panics; the subscriptions of the connection end with it. *)
Fixpoint ws_messages (conn : Z) (msgs : list (Z * option json)) : M Server (list json) :=
  match msgs with
  | [] => mret []
  | (now, msg) :: msgs =>
      let* out := ws_message now conn msg in
      let* rest := ws_messages conn msgs in
      mret (out ++ rest)
  end.
Definition handleWS (conn : Z) (msgs : list (Z * option json)) : M Server (list json) := fun s =>
  let '(r, s) := ws_messages conn msgs s in
  match on_subs (CleanupConn conn) s with
  | (Ok _, s) => (r, s)
  | (_, s) => (Panic, s)
  end.
End Server.

(** ** Sessions *)

Section Sessions.
Context (verify : bytes -> bytes -> bytes -> bool) (keccak : bytes -> bytes).
Context {SS : SortSlice} {MR : MapRange} {RV : Revm} {BT : Bolt}.
Context {CA : Codec serializedAccount} {CB : Codec BlockData} {CT : Codec (list TxData)} {CN : Codec NodeInfo}.
Context (same_log : LogEntry -> LogEntry -> bool).

(** A method call reaches neither the subscriptions nor the limiter. *)
Lemma call_method_rest now r s :
  let s' := (call_method verify keccak same_log now r s).2 in
  sv_subs s' = sv_subs s /\ sv_limiter s' = sv_limiter s.
Proof. unfold call_method, on_rpc. destruct (handleMethod _ _ _ _ _ _ (sv_rpc s)) as [[] x]; done. Qed.

(** The subscription a message asks to end, whoever it belongs to. *)
Definition asks_end (msg : option json) : option bytes :=
  r ← decode_request msg;
  if bool_decide (rq_Method r = lit "eth_unsubscribe")
  then ids ← as_strings (rq_Params r); head ids
  else None.
Definition ended_by (msgs : list (Z * option json)) : list bytes := omap (fun m => asks_end m.2) msgs.

(** During a session of connection [c] that has asked to end the subscriptions
    [l]: the manager agrees with a table whose entries of other connections are those
    of [t0] without [l]. *)
Definition in_session (c n : Z) (t0 : table) (lim : RateLimiter) (l : list bytes) (s : Server) : Prop :=
  sv_limiter s = lim /\ exists n' t, agrees (sv_subs s) n' t /\ n' <= n /\
  forall id e, e.2 <> c -> (t !! id = Some e <-> t0 !! id = Some e /\ id ∉ l).

Lemma bind_ret_state {S A B} (m : M S A) (f : A -> B) s : (mbind (M := M S) (fun a => mret (f a)) m s).2 = (m s).2.
Proof. unfold mbind, M_bind. by destruct (m s) as [[] ?]. Qed.

Lemma bind_state {S A B} (m : M S A) (k : A -> M S B) s :
  (mbind (M := M S) k m s).2 = match m s with (Ok a, s') => (k a s').2 | (_, s') => s' end.
Proof. unfold mbind, M_bind. by destruct (m s) as [[] ?]. Qed.

Lemma session_weaken c n n2 t0 lim l s : n <= n2 -> in_session c n t0 lim l s -> in_session c n2 t0 lim l s.
Proof. intros Hle (Hl & n' & t & Ha & Hn & Ht). split; [done|]. exists n', t. split_and!; [done|lia|done]. Qed.

Lemma ws_message_session c n t0 lim l now msg s :
  in_session c n t0 lim l s -> n + 1 < 2 ^ 64 ->
  in_session c (n + 1) t0 lim (l ++ option_list (asks_end msg))
    (ws_message verify keccak same_log now c msg s).2.
Proof.
  intros Hs Hlt. pose proof (session_weaken c n (n + 1) t0 lim l s ltac:(lia) Hs) as Hw.
  destruct Hs as (Hl & n' & t & Ha & Hn & Ht).
  unfold ws_message, asks_end. destruct (decode_request msg) as [r|]; cbn [mbind option_bind option_list]; [|by rewrite app_nil_r].
  rewrite bind_ret_state.
  destruct (bool_decide_reflect (rq_Method r = lit "eth_subscribe")) as [E|_].
  - rewrite bool_decide_eq_false_2 by (rewrite E; by vm_compute). cbn [option_list]. rewrite app_nil_r.
    unfold ws_subscribe. destruct (as_array _) as [[|[| | |ty| |] l']|]; try exact Hw. rewrite bind_ret_state.
    destruct (subscribe_agrees (sv_subs s) n' t ty (nth 0 l' JNull) c Ha ltac:(lia)) as (m' & Hr & Hf & Ha' & _).
    unfold on_subs. rewrite Hr. split; [done|]. eexists _, _. split_and!; [exact Ha'|lia|].
    intros id e He. rewrite <- Ht by done. rewrite lookup_insert_Some. split.
    + intros [[_ <-]|[_ ?]]; done.
    + intros Hid. right. split; [|done]. intros <-. by rewrite Hf in Hid.
  - destruct (bool_decide_reflect (rq_Method r = lit "eth_unsubscribe")) as [_|_].
    + unfold ws_unsubscribe. destruct (as_strings _) as [[|id l']|]; cbn; rewrite ?app_nil_r; try exact Hw.
      rewrite bind_ret_state. destruct (unsubscribe_agrees (sv_subs s) n' t id Ha) as (m' & Hr & Ha' & _).
      unfold on_subs. rewrite Hr. split; [done|]. eexists _, _. split_and!; [exact Ha'|lia|].
      intros id' e He. rewrite map_lookup_filter_Some, Ht by done. cbn [fst]. rewrite elem_of_app. tauto.
    + cbn [option_list]. rewrite app_nil_r, bind_ret_state. pose proof (call_method_rest now r s) as [E1 E2].
      split; [by rewrite E2|]. rewrite E1. exists n', t. split_and!; [done|lia|done].
Qed.

(** A session handles its messages up to the first handler that panics. *)
Lemma ws_messages_session c t0 lim msgs : forall n l s,
  in_session c n t0 lim l s -> n + Z.of_nat (length msgs) < 2 ^ 64 ->
  let '(r, s') := ws_messages verify keccak same_log c msgs s in
  exists k, (k <= length msgs)%nat /\ (is_ok r = true -> k = length msgs) /\
    in_session c (n + Z.of_nat (length msgs)) t0 lim (l ++ ended_by (take k msgs)) s'.
Proof.
  induction msgs as [|[now msg] msgs IH]; intros n l s Hs Hn; cbn [ws_messages length] in *.
  { exists 0%nat. cbn. by rewrite Z.add_0_r, app_nil_r. }
  pose proof (ws_message_session c n t0 lim l now msg s Hs ltac:(lia)) as H1.
  unfold mbind, M_bind. destruct (ws_message _ _ _ _ _ _ s) as [[out|e|] s1]; cbn [snd] in H1.
  - specialize (IH (n + 1) _ s1 H1 ltac:(lia)). destruct (ws_messages _ _ _ c msgs s1) as [r s2].
    destruct IH as (k & Hk & Hall & Hin).
    assert (Hend : l ++ ended_by (take (S k) ((now, msg) :: msgs)) =
                   (l ++ option_list (asks_end msg)) ++ ended_by (take k msgs)).
    { rewrite <- app_assoc. f_equal. cbn. by destruct (asks_end msg). }
    assert (Hs2 : in_session c (n + Z.of_nat (S (length msgs))) t0 lim (l ++ ended_by (take (S k) ((now, msg) :: msgs))) s2).
    { rewrite Hend. by replace (n + Z.of_nat (S (length msgs))) with (n + 1 + Z.of_nat (length msgs)) by lia. }
    destruct r; exists (S k); (split_and!; [lia|intros Ho|exact Hs2]); try done; by rewrite Hall.
  - exists 1%nat. split_and!; [lia|done|]. replace (ended_by (take 1 ((now, msg) :: msgs))) with (option_list (asks_end msg));
      [|cbn; by destruct (asks_end msg)]. apply (session_weaken c (n + 1)); [lia|done].
  - exists 1%nat. split_and!; [lia|done|]. replace (ended_by (take 1 ((now, msg) :: msgs))) with (option_list (asks_end msg));
      [|cbn; by destruct (asks_end msg)]. apply (session_weaken c (n + 1)); [lia|done].
Qed.

(** C22.  However a WebSocket session goes, the live subscriptions after it are those
    before it of other connections, except the ones that the messages handled named in
    an eth_unsubscribe, whoever they belonged to; the messages handled are all of them
    unless a handler panics.  So a session leaves none of its own subscriptions, adds
    none to another connection, and ends another's only by naming it.  The rate
    limiter is not asked.  The session runs with no other in between. *)
Theorem ws_session_clean c msgs s n t r s' :
  agrees (sv_subs s) n t -> n + Z.of_nat (length msgs) < 2 ^ 64 ->
  handleWS verify keccak same_log c msgs s = (r, s') ->
  sv_limiter s' = sv_limiter s /\
  exists k n', (k <= length msgs)%nat /\ (is_ok r = true -> k = length msgs) /\
    agrees (sv_subs s') n' (filter (fun e => e.2.2 <> c /\ e.1 ∉ ended_by (take k msgs)) t).
Proof.
  intros Ha Hn. unfold handleWS.
  pose proof (ws_messages_session c t (sv_limiter s) msgs n [] s) as H.
  destruct (ws_messages _ _ _ c msgs s) as [r1 s1].
  destruct H as (k & Hk & Hall & Hl & n' & t' & Ha' & _ & Ht); [|done|].
  { split; [done|]. exists n, t. split_and!; [done|lia|]. intros id e _. rewrite elem_of_nil. tauto. }
  destruct (cleanup_agrees (sv_subs s1) n' t' c Ha') as (m' & Hr & _ & Ha2 & _).
  unfold on_subs. rewrite Hr. intros [= <- <-]. split; [done|]. exists k, n'. split_and!; [done|done|].
  enough (E : filter (fun e => e.2.2 ∉ ({[c]} : gset Z)) t' =
              filter (fun e => e.2.2 <> c /\ e.1 ∉ ended_by (take k msgs)) t) by by rewrite <- E.
  apply map_eq. intros id. apply option_eq. intros e. rewrite !map_lookup_filter_Some. cbn [fst snd].
  rewrite elem_of_singleton. split.
  - intros [Hid Hc]. apply Ht in Hid; tauto.
  - intros [Hid [Hc Hnot]]. split; [|done]. by apply Ht.
Qed.
End Sessions.

(** ** What the code does that its comments do not say *)

(** A result that is null is left out of an HTTP reply, which then has neither a
    result nor an error; over a WebSocket it is there. *)
Lemma null_result_is_missing id :
  result_reply id JNull = JObj [fld "jsonrpc" (jstr "2.0"); fld "id" id] /\
  ws_result id JNull = JObj [fld "jsonrpc" (jstr "2.0"); fld "id" id; fld "result" JNull].
Proof. done. Qed.

(** The limiter believes the X-Forwarded-For header, so a client that changes it
    is never refused. *)
Lemma forwarded_evades_limit forwarded remote now rl :
  forwarded <> [] -> buckets rl !! forwarded = None -> (Allow (extractIP forwarded remote) now rl).1 = Ok true.
Proof. intros Hf Hb. unfold extractIP. rewrite bool_decide_eq_true_2 by done. unfold Allow. by rewrite Hb. Qed.

(** ** Witnesses *)

Definition desk_server : Server (BT := gmap_bolt) := mkServer desk NewSubscriptionManager (NewRateLimiter 100 1000000000).
Definition ws_call (method : string) (params : list json) : Z * option json :=
  (0, Some (JObj [fld "jsonrpc" (jstr "2.0"); fld "method" (jstr method); fld "params" (JArr params); fld "id" (JNum 1)])).
(** Connection 5 has two subscriptions. *)
Definition desk_subs : SubscriptionManager :=
  (Subscribe (lit "newHeads") JNull 5 (Subscribe (lit "newHeads") JNull 5 NewSubscriptionManager).2).2.
Definition desk_live : table := <[lit "0x2" := (lit "newHeads", 5)]> {[lit "0x1" := (lit "newHeads", 5)]}.
Lemma desk_agrees : agrees desk_subs 2 desk_live.
Proof.
  destruct (subscribe_agrees _ 0 ∅ (lit "newHeads") JNull 5 agrees_new eq_refl) as (m1 & E1 & _ & H1 & _).
  destruct (subscribe_agrees m1 _ _ (lit "newHeads") JNull 5 H1 eq_refl) as (m2 & E2 & _ & H2 & _).
  unfold desk_subs. rewrite E1. cbn [snd]. rewrite E2. exact H2.
Qed.
Definition busy_server : Server (BT := gmap_bolt) := mkServer desk desk_subs (NewRateLimiter 100 1000000000).
Definition desk_session : list (Z * option json) :=
  [ws_call "eth_subscribe" [jstr "newHeads"]; (0, None); ws_call "eth_unsubscribe" [jstr "0x2"]; ws_call "eth_chainId" []].
Abbreviation desk_ws := (handleWS (RV := null_revm) (BT := gmap_bolt) (CA := gmap_codec_sa) (CT := gmap_codec_txs)
    no_verify (fun b : bytes => b) no_same_log 3 desk_session busy_server).
Lemma desk_session_replies :
  desk_ws.1 = Ok [ws_result (JNum 1) (jstr "0x3"); ws_result (JNum 1) (JBool true); ws_result (JNum 1) (jstr "0x2718")].
Proof. vm_compute. reflexivity. Qed.

(** A session of connection 3 ends its own subscription and the one of connection 5
    that it names; the other one stays. *)
Lemma ws_session_clean_witness :
  exists n, agrees (sv_subs desk_ws.2) n {[lit "0x1" := (lit "newHeads", 5)]}.
Proof.
  destruct (ws_session_clean (RV := null_revm) (BT := gmap_bolt) (CA := gmap_codec_sa) (CT := gmap_codec_txs)
    no_verify (fun b : bytes => b) no_same_log 3 desk_session busy_server 2 desk_live desk_ws.1 desk_ws.2
    desk_agrees eq_refl (surjective_pairing _)) as (_ & k & n & _ & Hk & Ha).
  exists n. rewrite Hk in Ha by (rewrite desk_session_replies; reflexivity).
  vm_compute (filter _ desk_live) in Ha. exact Ha.
Defined.
