(* ===== verification/Daemon.v ===== *)
(** The node process (cli.go): start-up on a database, the block loop, shutdown,
    and the peer list of node.go.

    The process is the server of Server.v, which holds the chain, the database,
    the validator registry and the peer-to-peer node by reference, and the count of
    ticks.  Nothing recovers a panic of the block loop: the process stops.  Flags,
    paths, printing and the clock of the ticker are not modelled; the clock, the
    lottery's generator and the printed addresses are those of Chain.v and
    Validators.v.  Key generation and the public half of a key are ed25519's. *)

From Stdlib Require Import ZArith Lia.
From S2P Require Import Prelude Sha256 GoFloat Collections StateDB Validators Types P2P TxWire Econo.
From S2P Require Import RateLimit Vm Chain Genesis Store Rpc Subscriptions Server.
From stdpp Require Import gmap list.
Local Open Scope Z_scope.
Local Open Scope go_scope.

Section Daemon.
Context (verify : bytes -> bytes -> bytes -> bool) (keccak : bytes -> bytes).
Context {SS : SortSlice} {MR : MapRange} {RV : Revm} {BT : Bolt}.
Context {CA : Codec serializedAccount} {CB : Codec BlockData} {CT : Codec (list TxData)} {CN : Codec NodeInfo}.
Context (rnd : Z -> F64.t) (public_key : bytes -> bytes).

(** ** Start-up *)

(** An account that has nothing gets a balance and the highest level. *)
Definition fund_if_empty (addr : bytes) (amount : Z) : HM unit :=
  touch addr ;;;
  let* b := gets (fun w => bal w addr) in
  if b =? 0 then modify (upd_acct addr (fun acc => with_level 3 (with_balance amount acc))) else mret tt.

(** The chain on a database: restored, or the genesis chain, written to it; a
    failure is [os.Exit]. *)
Definition boot_chain (now : Z) (env : BlockEnv) (genesis : option GenesisConfig) (d : DB) : outcome (Chain * option Store) :=
  match NewChain now with
  | Err e => Err e
  | Panic => Panic
  | Ok c =>
      match OpenStore d now (c, None) with
      | (Err e, _) => Err e
      | (Panic, _) => Panic
      | (Ok _, (c, st)) =>
          if negb (ch_Height c =? 0) then Ok (c, st) else
          match InitGenesis (default DefaultGenesis genesis) now with
          | Err e => Err e
          | Panic => Panic
          | Ok gs =>
              match ProduceGenesisBlock verify keccak rnd env gs with
              | (Err e, _) => Err e
              | (Panic, _) => Panic
              | (Ok _, gs) =>
                  match SeedQuestSupply (ch_State (gs_Chain gs)) with
                  | (Err e, _) => Err e
                  | (Panic, _) => Panic
                  | (Ok _, w) =>
                      match Sync (lit "genesis") 0 zero32 zero32 (with_state w (gs_Chain gs), st) with
                      | (Ok _, cs) => Ok cs
                      | (Err e, _) => Err e
                      | (Panic, _) => Panic
                      end
                  end
              end
          end
      end
  end.

Definition validator_name : bytes := lit "validator-1".

(** The development key of the database, or [newkey], which is saved. *)
Definition boot_key (newkey : bytes) (st : option Store) : bytes * option Store :=
  match st with
  | None => (newkey, None)
  | Some s =>
      match LoadNodeInfo s with
      | Ok (Some info) => if (length (ni_NodeKey info) =? 64)%nat then (ni_NodeKey info, Some s)
                          else (newkey, Some (SaveNodeInfo (mkNode validator_name [] [] newkey) s).2)
      | _ => (newkey, Some (SaveNodeInfo (mkNode validator_name [] [] newkey) s).2)
      end
  end.

Definition boot_validators : ValidatorSet :=
  fold_left (fun vs n => (Validators.Add (NewValidatorID n) 10000 vs).2) [1; 2; 3] NewValidatorSet.

(** A running node. *)
Record Node := mkDaemon { dm_server : Server; dm_count : Z }.

(** [runNode] up to its loop; [p2p] is whether the port could be opened. *)
Definition boot (now : Z) (env : BlockEnv) (genesis : option GenesisConfig) (newkey : bytes) (p2p : bool) (d : DB)
    : outcome Node :=
  match boot_chain now env genesis d with
  | Err e => Err e
  | Panic => Panic
  | Ok (c, st) =>
      let '(key, st) := boot_key newkey st in
      match (fund_if_empty validator_name 1000000 ;;;
             fund_if_empty (fmt_x (public_key key)) 10000000) (ch_State c) with
      | (Err e, _) => Err e
      | (Panic, _) => Panic
      | (Ok _, w) =>
          let node := if p2p then Some (mkP2P validator_name 0 []) else None in
          Ok (mkDaemon (SetP2PNode node (SetValidators boot_validators (NewRPCServer (with_state w c) st))) 0)
      end
  end.

(** ** The block loop *)

Definition on_server {A} (m : M Server A) : M Node A := fun n =>
  let '(r, s) := m (dm_server n) in (r, mkDaemon s (dm_count n)).
Definition on_chain {A} (m : M Chain A) : M Server A :=
  on_rpc (fun s => let '(r, c) := m (rpc_chain s) in (r, with_rpc_chain c s)).
Definition on_stored (m : M (Chain * option Store) unit) : M Server unit :=
  on_rpc (fun s => let '(r, (c, st)) := m (rpc_chain s, rpc_store s) in
                   (r, mkRpc c st (rpc_validators s) (rpc_p2pNode s))).

(** [vs.SelectProposer]; the registry is the one the server reports. *)
Definition select_proposer (height : Z) : M Server ValidatorID := on_rpc (fun s =>
  match rpc_validators s with
  | None => (Panic, s)
  | Some vs => let '(r, vs) := SelectProposer rnd height vs in
               (r, mkRpc (rpc_chain s) (rpc_store s) (Some vs) (rpc_p2pNode s))
  end).

(** An error of the store is logged. *)
Definition logged {S} (m : M S unit) : M S unit := fun s =>
  match m s with (Err _, s) => (Ok tt, s) | r => r end.

Definition prev_hash (bs : list BlockWithTx) : bytes :=
  if (1 <? length bs)%nat then match bs !! (length bs - 2)%nat with Some b => blk_Hash b | None => zero32 end else zero32.

(** One tick: [ProduceBlock] calls the subscription manager at its end; the writes
    to the connections in [broken] fail. *)
Definition tick (env : BlockEnv) (broken : gset Z) : M Node unit :=
  modify (fun n => mkDaemon (dm_server n) (dm_count n + 1)) ;;;
  let* count := gets dm_count in
  on_server (
    let* proposer := select_proposer (u64 count) in
    let* block := on_chain (ProduceBlock verify keccak env proposer) in
    on_subs (BroadcastNewHead broken block) ;;;
    let* bs := gets (fun s => ch_Blocks (rpc_chain (sv_rpc s))) in
    logged (on_stored (Sync (ValidatorID_String proposer) (Z.of_nat (length (blk_Transactions block))) (blk_Hash block)
                         (prev_hash bs))) ;;;
    logged (on_stored (SyncTxs block)) ;;;
    on_rpc (modify (fun s => mkRpc (rpc_chain s) (rpc_store s) (rpc_validators s) (BroadcastBlock (rpc_p2pNode s) block)))).
Fixpoint ticks (envs : list (BlockEnv * gset Z)) : M Node unit :=
  match envs with [] => mret tt | (env, broken) :: envs => tick env broken ;;; ticks envs end.

(** The signal handler. *)
Definition shutdown : M Node unit := on_server (logged (on_stored (Sync (lit "shutdown") 0 zero32 zero32))).
End Daemon.

(** ** The peer list of node.go *)

(** The scan for the end of the next address: the first comma, else the position
    after the last character.  The loop goes over characters, which are bytes in
    ASCII text. *)
Fixpoint scan_end (s : bytes) (i end_ : nat) : nat :=
  match s with
  | [] => end_
  | c :: s => if c =? 44 then i else scan_end s (S i) (S i)
  end.
(** The addresses [Connect] is called with, in order; [fuel] bounds the rounds. *)
Fixpoint peer_list (fuel : nat) (peers : bytes) : list bytes :=
  match fuel with
  | O => []
  | S fuel =>
      if (length peers =? 0)%nat then [] else
      let e := scan_end peers 0 0 in
      let addr := take e peers in
      (if bool_decide (addr = []) then [] else [addr]) ++
      (if (length peers <=? e)%nat then [] else peer_list fuel (drop (S e) peers))
  end.

(** Splitting at the commas. *)
Fixpoint split_commas (cur s : bytes) : list bytes :=
  match s with
  | [] => [cur]
  | c :: s => if c =? 44 then cur :: split_commas [] s else split_commas (cur ++ [c]) s
  end.

(** ** Lemmas *)

Section Facts.
Context (verify : bytes -> bytes -> bytes -> bool) (keccak : bytes -> bytes).
Context {SS : SortSlice} {MR : MapRange} {RV : Revm} {BT : Bolt}.
Context {CA : Codec serializedAccount} {CB : Codec BlockData} {CT : Codec (list TxData)} {CN : Codec NodeInfo}.
Context (rnd : Z -> F64.t).

Lemma Sync_chain p n h ph c st : (Sync p n h ph (c, st)).2.1 = c.
Proof.
  unfold Sync, on_store. destruct st as [s|]; [|done]. destruct (SaveAllAccounts _ s) as [[] s1]; [|done..].
  by destruct (SaveBlock _ _ _ _ _ _ s1) as [[] s2].
Qed.
Lemma SyncTxs_chain b c st : (SyncTxs b (c, st)).2.1 = c.
Proof.
  unfold SyncTxs, on_store. destruct st as [s|]; [|done]. case_match; [done|]. destruct (index_txs _ _ _ s) as [[] s1]; [|done..].
  by destruct (SaveBlockTxs _ _ s1) as [[] s2].
Qed.

(** A store operation leaves everything but the store. *)
Lemma stored_run m s u s' :
  (forall c st, (m (c, st)).2.1 = c) -> logged (on_stored m) s = (Ok u, s') ->
  sv_subs s' = sv_subs s /\ sv_limiter s' = sv_limiter s /\ rpc_chain (sv_rpc s') = rpc_chain (sv_rpc s) /\
  rpc_validators (sv_rpc s') = rpc_validators (sv_rpc s) /\ rpc_p2pNode (sv_rpc s') = rpc_p2pNode (sv_rpc s).
Proof.
  intros Hm. unfold logged, on_stored, on_rpc. specialize (Hm (rpc_chain (sv_rpc s)) (rpc_store (sv_rpc s))).
  destruct (m _) as [r [c st]]. cbn in Hm. subst c. destruct r as [x|e|]; intros [= _ <-]; done.
Qed.

Lemma tick_run env broken n n' :
  tick verify keccak rnd env broken n = (Ok tt, n') ->
  let s := dm_server n in let s' := dm_server n' in
  dm_count n' = dm_count n + 1 /\
  exists proposer b, ProduceBlock verify keccak env proposer (rpc_chain (sv_rpc s)) = (Ok b, rpc_chain (sv_rpc s')) /\
    BroadcastNewHead broken b (sv_subs s) = (Ok tt, sv_subs s') /\
    rpc_p2pNode (sv_rpc s') = BroadcastBlock (rpc_p2pNode (sv_rpc s)) b.
Proof.
  unfold tick. intros H. cbv zeta. inv_go H. unfold on_server in H. cbn [dm_server dm_count] in H.
  match type of H with (let '(_, _) := ?x in _) = _ => destruct x as [r s'] eqn:E end. injection H as -> <-. cbn [dm_server dm_count]. split; [done|].
  inv_go E. unfold select_proposer, on_rpc in Hm. destruct (rpc_validators _) as [vs|]; [|discriminate Hm].
  destruct (SelectProposer rnd _ vs) as [rp vs']. injection Hm as -> <-.
  unfold on_chain, on_rpc in Hm0. cbn [sv_rpc rpc_chain sv_subs sv_limiter] in Hm0.
  destruct (ProduceBlock _ _ env a (rpc_chain (sv_rpc (dm_server n)))) as [rb c'] eqn:Ep. injection Hm0 as -> <-.
  unfold on_subs in Hm1. cbn [sv_subs] in Hm1. destruct (BroadcastNewHead broken _ _) as [rn subs'] eqn:En. injection Hm1 as -> <-.
  apply stored_run in Hm2 as (A1 & _ & A2 & _ & A3); [|apply Sync_chain].
  apply stored_run in Hm3 as (B1 & _ & B2 & _ & B3); [|apply SyncTxs_chain].
  unfold on_rpc in E. injection E as <-. cbn in *.
  exists a, a0. rewrite B1, B2, B3, A1, A2, A3. by destruct a1.
Qed.

(** The messages a node broadcasts for blocks. *)
Definition announce (node : option P2PNode) (bs : list BlockWithTx) : option P2PNode := fold_left BroadcastBlock bs node.

(** C13.  However long a node runs, its loop is block production: each tick adds one
    block, one higher, takes up to ten transactions from the public lane, and
    announces the block to the subscribers and to the peers, in order. *)
Theorem ticks_progress envs n n' :
  ticks verify keccak rnd envs n = (Ok tt, n') ->
  let s := sv_rpc (dm_server n) in let s' := sv_rpc (dm_server n') in
  dm_count n' = dm_count n + Z.of_nat (length envs) /\
  exists bs, length bs = length envs /\ ch_Blocks (rpc_chain s') = ch_Blocks (rpc_chain s) ++ bs /\
    (forall i b, bs !! i = Some b -> blk_Height b = u64 (ch_Height (rpc_chain s) + 1 + Z.of_nat i)) /\
    tp_Consensus (ch_Pool (rpc_chain s')) = drop (10 * length envs) (tp_Consensus (ch_Pool (rpc_chain s))) /\
    rpc_p2pNode s' = announce (rpc_p2pNode s) bs /\
    run_ops (zip_with (fun e b => OpNewHead e.2 b) envs bs) (sv_subs (dm_server n)) = (Ok tt, sv_subs (dm_server n')).
Proof.
  revert n. induction envs as [|[env broken] envs IH]; intros n H; cbn [ticks] in H; cbv zeta.
  - injection H as <-. split; [cbn; lia|]. exists []. split_and!; try done. by rewrite app_nil_r.
  - apply bind_inv in H as ([] & n1 & H1 & H). apply tick_run in H1 as (C1 & proposer & b & Hp & Hb & Hn).
    destruct (IH _ H) as (C2 & bs & Hl & Hbs & Hh & Hpool & Hnode & Hops). split; [cbn [length]; lia|].
    destruct (produce_inv _ _ _ _ _ _ _ Hp) as (ex & w1 & w2 & ps & _ & Eb & _ & Ec).
    exists (b :: bs). rewrite Ec in Hbs, Hh, Hpool. cbn [ch_Blocks ch_Height ch_Pool tp_Consensus] in Hbs, Hh, Hpool.
    split_and!.
    + cbn. by rewrite Hl.
    + by rewrite Hbs, <- app_assoc.
    + intros [|i] x Hx; cbn in Hx.
      * injection Hx as <-. rewrite Eb. cbn. f_equal. lia.
      * rewrite (Hh i x Hx). rewrite <- Z.add_assoc, u64_add_l. f_equal. lia.
    + rewrite Hpool, drop_drop. f_equal. cbn. lia.
    + rewrite Hnode, Hn. done.
    + cbn [zip_with run_ops]. cbn [snd run_op]. rewrite <- Hops. exact (bind_ok (BroadcastNewHead broken b) _ _ tt _ Hb).
Qed.
End Facts.

Lemma scan_spec s i cur :
  (scan_end s i i = (i + length s)%nat /\ split_commas cur s = [cur ++ s]) \/
  exists p r, s = p ++ 44 :: r /\ scan_end s i i = (i + length p)%nat /\ split_commas cur s = (cur ++ p) :: split_commas [] r.
Proof.
  revert i cur. induction s as [|c s IH]; intros i cur; cbn [scan_end split_commas length].
  { left. split; [lia|by rewrite app_nil_r]. }
  destruct (Z.eqb_spec c 44) as [->|Hc].
  { right. exists [], s. cbn. rewrite app_nil_r. split_and!; [done|lia|done]. }
  destruct (IH (S i) (cur ++ [c])) as [[-> ->]|(p & r & -> & -> & ->)].
  - left. split; [lia|by rewrite <- app_assoc].
  - right. exists (c :: p), r. cbn. rewrite <- app_assoc. split_and!; [done|lia|done].
Qed.

(** The loop of node.go ends, and dials the nonempty addresses between the commas,
    in order. *)
Theorem peer_list_split peers fuel :
  (length peers < fuel)%nat -> peer_list fuel peers = filter (fun a => a <> []) (split_commas [] peers).
Proof.
  revert peers. induction fuel as [|fuel IH]; intros s Hf; [lia|]. cbn [peer_list].
  destruct (Nat.eqb_spec (length s) 0) as [H0|H0]; [by apply nil_length_inv in H0 as ->|].
  destruct (scan_spec s 0 []) as [[-> ->]|(p & r & -> & -> & ->)]; cbn [Nat.add app].
  - rewrite take_ge, Nat.leb_refl, app_nil_r by lia. rewrite filter_cons, filter_nil.
    destruct s as [|c s]; [done|]. by rewrite bool_decide_eq_false_2, decide_True by done.
  - rewrite length_app in *. cbn [length] in *. rewrite (proj2 (Nat.leb_gt _ _)) by lia.
    rewrite take_app_length, <- Nat.add_1_r, <- drop_drop, drop_app_length. cbn [drop].
    rewrite drop_0, (IH r) by lia. rewrite filter_cons. destruct p as [|c p].
    + by rewrite bool_decide_eq_true_2, decide_False by naive_solver.
    + by rewrite bool_decide_eq_false_2, decide_True by done.
Qed.

(** ** What the code does that its comments do not say *)

(** A shutdown writes the last block again, without its proposer and its hash. *)
Lemma shutdown_erases_last_block {BT : Bolt} {MR : MapRange} {CA : Codec serializedAccount} {CB : Codec BlockData} c s c' s' :
  is_u64 (ch_Height c) ->
  Sync (lit "shutdown") 0 zero32 zero32 (c, Some s) = (Ok tt, (c', Some s')) ->
  LoadBlock (ch_Height c) s' = Ok (Some (mkBD (ch_Height c) (lit "shutdown") 0 zero32 zero32 (fmt_x (take 4 zero32)))).
Proof.
  intros Hh. unfold Sync, on_store. destruct (SaveAllAccounts _ s) as [[u|e|] sa]; [|discriminate..].
  destruct (SaveBlock _ _ _ _ _ _ sa) as [[u'|e|] sb] eqn:Eb; [|discriminate..]. unfold mret, M_ret. intros [= _ <-].
  destruct (SaveBlock_spec _ _ _ _ _ _ _ _ _ Eb) as [(data & Hg & Hget) _].
  unfold LoadBlock. rewrite Hget, decide_False by (intros [? _]; discriminate). rewrite decide_True by done.
  by rewrite (gob_roundtrip _ _ Hg).
Qed.

(** *** A node, for examples *)

Definition half (_ : Z) : F64.t := F64.of_Z 0.
Definition small_node : Node (BT := gmap_bolt) :=
  mkDaemon (mkServer (mkRpc (with_pool NewTxPool desk_chain) (Some Store.fresh) (Some boot_validators) (Some (mkP2P validator_name 0 [])))
              NewSubscriptionManager (NewRateLimiter 100 1000000000)) 0.
Abbreviation small_ticks := (ticks (RV := null_revm) (BT := gmap_bolt) (CA := gmap_codec_sa) (CB := gmap_codec_bd)
  (CT := gmap_codec_txs) no_verify (fun b : bytes => b) half).
Abbreviation post := (eth_sendRawTransaction (BT := gmap_bolt) no_verify).

(** One transaction that anybody can submit stops the node: a precompile reads past
    the end of its input, and nothing recovers. *)
Definition fatal_tx : Transaction :=
  NewTransaction 0 payer_key (PrecompileAddrHex 0x1b) 0 100000 (be_enc 4 0xF5A6B7C8 ++ zeros 68).
Lemma one_transaction_stops_the_node :
  let '(r, rpc) := post (Some (JArr [JStr (SerializeTxHex fatal_tx)])) (sv_rpc (dm_server small_node)) in
  is_ok r = true /\
  (small_ticks [(example_env, ∅)] (mkDaemon (mkServer rpc NewSubscriptionManager (NewRateLimiter 100 1000000000)) 0)).1 = Panic.
Proof. vm_compute. done. Qed.

(** ** Witnesses *)

Abbreviation small_run := (small_ticks [(example_env, ∅); (example_env, ∅)] small_node).
Lemma ticks_progress_witness :
  exists bs, length bs = 2%nat /\ ch_Blocks (rpc_chain (sv_rpc (dm_server small_run.2))) = [] ++ bs.
Proof.
  assert (H : small_run = (Ok tt, small_run.2)) by (apply ok_run; vm_compute; reflexivity).
  destruct (ticks_progress (RV := null_revm) (BT := gmap_bolt) (CA := gmap_codec_sa) (CB := gmap_codec_bd)
    (CT := gmap_codec_txs) no_verify (fun b : bytes => b) half [(example_env, ∅); (example_env, ∅)] small_node small_run.2 H)
    as (_ & bs & Hl & Hb & _).
  exists bs. exact (conj Hl Hb).
Defined.

Lemma peer_list_split_witness :
  peer_list 10 (lit ",a:1,,b:2") = [lit "a:1"; lit "b:2"].
Proof. exact (eq_trans (peer_list_split (lit ",a:1,,b:2") 10 ltac:(vm_compute; lia)) eq_refl). Defined.
