(* ===== verification/OracleClient.v ===== *)
(** The oracle client (oracle/client.go): its price feeds, the events it watches,
    its attestations, and the three loops that [Start] runs in the background.

    An operation is one atomic step on the client, the chain state the attestations
    are logged to, and the number of running loops of each kind; a tick of a loop is
    one pass of its body.  The clock is an argument, in seconds.  Printing is modelled
    only where it panics. *)

From Stdlib Require Import ZArith Lia SpecFloat.
From S2P Require Import Prelude Sha256 GoFloat StateDB.
From stdpp Require Import gmap list.
Local Open Scope Z_scope.
Local Open Scope go_scope.

(** ** Data *)

Inductive OracleStatus := StatusIdle | StatusWatching | StatusAttesting | StatusError.
Inductive AttestationType := AttestPrice | AttestTx | AttestTruth | AttestStorage.
Definition attestation_byte (t : AttestationType) : Z :=
  match t with AttestPrice => 1 | AttestTx => 2 | AttestTruth => 3 | AttestStorage => 4 end.

Record Attestation := mkAtt {
  att_Type : AttestationType; att_Data : bytes; att_Timestamp : Z; att_OracleID : bytes; att_Signature : bytes }.
Record PriceFeed := mkFeed { pf_Pair : bytes; pf_Price : F64.t; pf_Timestamp : Z; pf_Sources : Z }.
Record WitnessedEvent := mkEvent {
  we_SourceChain : bytes; we_TxHash : bytes; we_BlockHeight : Z; we_EventType : bytes; we_Data : bytes;
  we_Confirmed : bool }.

Record OracleClient := mkOracle {
  oc_ID : bytes;
  oc_DoxDevLevel : Z;
  oc_Status : OracleStatus;
  oc_PriceFeeds : gmap bytes PriceFeed;
  oc_PendingEvents : gmap bytes WitnessedEvent;
  oc_MonitoredChains : list bytes;
  oc_BadgeContract : bytes;
  oc_TotalAttestations : Z;
  oc_TotalErrors : Z;
  oc_UptimeSeconds : Z;
  oc_startTime : Z;
}.
Definition NewOracleClient (id : bytes) (doxLevel now : Z) : OracleClient :=
  mkOracle id doxLevel StatusIdle ∅ ∅ [] (lit "doxdev.waychain") 0 0 0 now.

Definition with_Status (s : OracleStatus) (c : OracleClient) : OracleClient :=
  mkOracle (oc_ID c) (oc_DoxDevLevel c) s (oc_PriceFeeds c) (oc_PendingEvents c) (oc_MonitoredChains c)
    (oc_BadgeContract c) (oc_TotalAttestations c) (oc_TotalErrors c) (oc_UptimeSeconds c) (oc_startTime c).
Definition with_PriceFeeds (m : gmap bytes PriceFeed) (c : OracleClient) : OracleClient :=
  mkOracle (oc_ID c) (oc_DoxDevLevel c) (oc_Status c) m (oc_PendingEvents c) (oc_MonitoredChains c)
    (oc_BadgeContract c) (oc_TotalAttestations c) (oc_TotalErrors c) (oc_UptimeSeconds c) (oc_startTime c).
Definition with_PendingEvents (m : gmap bytes WitnessedEvent) (c : OracleClient) : OracleClient :=
  mkOracle (oc_ID c) (oc_DoxDevLevel c) (oc_Status c) (oc_PriceFeeds c) m (oc_MonitoredChains c)
    (oc_BadgeContract c) (oc_TotalAttestations c) (oc_TotalErrors c) (oc_UptimeSeconds c) (oc_startTime c).
Definition with_MonitoredChains (l : list bytes) (c : OracleClient) : OracleClient :=
  mkOracle (oc_ID c) (oc_DoxDevLevel c) (oc_Status c) (oc_PriceFeeds c) (oc_PendingEvents c) l
    (oc_BadgeContract c) (oc_TotalAttestations c) (oc_TotalErrors c) (oc_UptimeSeconds c) (oc_startTime c).
Definition with_TotalAttestations (n : Z) (c : OracleClient) : OracleClient :=
  mkOracle (oc_ID c) (oc_DoxDevLevel c) (oc_Status c) (oc_PriceFeeds c) (oc_PendingEvents c) (oc_MonitoredChains c)
    (oc_BadgeContract c) n (oc_TotalErrors c) (oc_UptimeSeconds c) (oc_startTime c).
Definition with_UptimeSeconds (n : Z) (c : OracleClient) : OracleClient :=
  mkOracle (oc_ID c) (oc_DoxDevLevel c) (oc_Status c) (oc_PriceFeeds c) (oc_PendingEvents c) (oc_MonitoredChains c)
    (oc_BadgeContract c) (oc_TotalAttestations c) (oc_TotalErrors c) n (oc_startTime c).

(** A client at work: with the state it logs to, and its running loops. *)
Record Oracle := mkRunning {
  or_client : OracleClient; or_state : World; or_price : nat; or_witness : nat; or_health : nat }.
Definition on_client (f : OracleClient -> OracleClient) : M Oracle unit :=
  modify (fun o => mkRunning (f (or_client o)) (or_state o) (or_price o) (or_witness o) (or_health o)).
Definition client {A} (f : OracleClient -> A) : M Oracle A := gets (fun o => f (or_client o)).

(** ** Operations *)

(** [Start]: the loops are started anew each time. *)
Definition Start : M Oracle unit :=
  on_client (fun c => with_UptimeSeconds 0 (with_Status StatusWatching c)) ;;;
  modify (fun o => mkRunning (or_client o) (or_state o) (S (or_price o)) (S (or_witness o)) (S (or_health o))).
Definition Stop : M Oracle unit := on_client (with_Status StatusIdle).

(** The hash [Attest] uses as a signature. *)
Definition attestation_sig (t : AttestationType) (data : bytes) (time : Z) (id : bytes) : bytes :=
  Sha256.sum256 (fmt_d (attestation_byte t) ++ lit ":" ++ fmt_x data ++ lit ":" ++ fmt_int time ++ lit ":" ++ id).
(** [Attest]; the clock is read twice. *)
Definition Attest (t : AttestationType) (data : bytes) (time later : Z) : M Oracle Attestation :=
  on_client (with_Status StatusAttesting) ;;;
  let* id := client oc_ID in
  let att := mkAtt t data time id (attestation_sig t data time id) in
  modify (fun o => mkRunning (or_client o) (AddLog id [copy_at 0 data zero32] data (u64 later) (or_state o))
                     (or_price o) (or_witness o) (or_health o)) ;;;
  on_client (fun c => with_TotalAttestations (u64 (oc_TotalAttestations c + 1)) c) ;;;
  on_client (with_Status StatusWatching) ;;;
  mret att.

(** [hash[:8]] of a printed hash. *)
Definition short_hash (h : bytes) : M Oracle unit := if (length h <? 8)%nat then panic else mret tt.

(** [WatchEvent]; the event is recorded before it is printed. *)
Definition WatchEvent (sourceChain txHash : bytes) (blockHeight : Z) (eventType data : bytes) : M Oracle unit :=
  let event := mkEvent sourceChain txHash blockHeight eventType data false in
  on_client (fun c => with_PendingEvents (<[txHash := event]> (oc_PendingEvents c)) c) ;;;
  short_hash txHash.

Definition confirmed (e : WitnessedEvent) : WitnessedEvent :=
  mkEvent (we_SourceChain e) (we_TxHash e) (we_BlockHeight e) (we_EventType e) (we_Data e) true.
Definition ConfirmEvent (txHash : bytes) : M Oracle unit :=
  on_client (fun c => match oc_PendingEvents c !! txHash with
                      | Some event => with_PendingEvents (<[txHash := confirmed event]> (oc_PendingEvents c)) c
                      | None => c
                      end).
Definition GetPriceFeed (pair : bytes) : M Oracle (option PriceFeed) := client (fun c => oc_PriceFeeds c !! pair).
Definition UpdatePriceFeed (pair : bytes) (price : F64.t) (sources now : Z) : M Oracle unit :=
  on_client (fun c => with_PriceFeeds (<[pair := mkFeed pair price now sources]> (oc_PriceFeeds c)) c).
Definition AddChain (chain : bytes) : M Oracle unit :=
  on_client (fun c => with_MonitoredChains (oc_MonitoredChains c ++ [chain]) c).

(** ** The loops *)

(** The price of [priceFeedLoop]. *)
Definition simulated_price (now : Z) : F64.t :=
  let basePrice := F64.lit 50 100 in
  let drift := F64.mul (F64.sub (F64.of_Z (Z.rem now 100)) (F64.of_Z 50)) (F64.lit 1 1000) in
  let price := F64.add basePrice drift in
  if F64.ltb price (F64.lit 1 100) then F64.lit 1 100 else price.

Definition idle (s : OracleStatus) : bool := match s with StatusIdle => true | _ => false end.
(** A tick of a loop: nothing when none runs, the end of the loop when the client
    is idle, else its body. *)
Definition loop_tick (running : Oracle -> nat) (leave : Oracle -> Oracle) (body : M Oracle unit) : M Oracle unit :=
  let* n := gets running in
  if (n =? 0)%nat then mret tt else
  let* s := client oc_Status in
  if idle s then modify leave else body.

Definition priceFeedLoop (now : Z) : M Oracle unit :=
  loop_tick or_price (fun o => mkRunning (or_client o) (or_state o) (pred (or_price o)) (or_witness o) (or_health o))
    (UpdatePriceFeed (lit "WAY/USD") (simulated_price now) 3 now).

(** The pass over the pending events prints each hash it confirms. *)
Definition unprintable (m : gmap bytes WitnessedEvent) : bool :=
  existsb (fun p => negb (we_Confirmed p.2) && (length p.1 <? 8)%nat) (map_to_list m).
Definition witnessLoop : M Oracle unit :=
  loop_tick or_witness (fun o => mkRunning (or_client o) (or_state o) (or_price o) (pred (or_witness o)) (or_health o))
    (let* events := client oc_PendingEvents in
     if unprintable events then panic else on_client (with_PendingEvents (confirmed <$> events))).

Definition healthLoop (elapsed : Z) : M Oracle unit :=
  loop_tick or_health (fun o => mkRunning (or_client o) (or_state o) (or_price o) (or_witness o) (pred (or_health o)))
    (on_client (with_UptimeSeconds elapsed)).

(** ** Runs *)

Inductive op :=
| OpStart | OpStop
| OpAttest (t : AttestationType) (data : bytes) (time later : Z)
| OpWatch (sourceChain txHash : bytes) (blockHeight : Z) (eventType data : bytes)
| OpConfirm (txHash : bytes)
| OpPrice (pair : bytes) (price : F64.t) (sources now : Z)
| OpAddChain (chain : bytes)
| TickPrice (now : Z) | TickWitness | TickHealth (elapsed : Z).
Definition do_op (x : op) : M Oracle unit :=
  match x with
  | OpStart => Start
  | OpStop => Stop
  | OpAttest t data time later => Attest t data time later ;;; mret tt
  | OpWatch s h b e d => WatchEvent s h b e d
  | OpConfirm h => ConfirmEvent h
  | OpPrice p v s now => UpdatePriceFeed p v s now
  | OpAddChain c => AddChain c
  | TickPrice now => priceFeedLoop now
  | TickWitness => witnessLoop
  | TickHealth e => healthLoop e
  end.
Fixpoint do_ops (l : list op) : M Oracle unit :=
  match l with [] => mret tt | x :: l => do_op x ;;; do_ops l end.
Definition launch (id : bytes) (level now : Z) (w : World) : Oracle := mkRunning (NewOracleClient id level now) w 0 0 0.

(** ** What a run leaves *)

Definition attested_log (id : bytes) (x : op) : option LogEntry :=
  match x with OpAttest _ data _ later => Some (mkLog id [copy_at 0 data zero32] data (u64 later)) | _ => None end.
Definition attested_logs (id : bytes) (l : list op) : list LogEntry := omap (attested_log id) l.

(** An event is pending because it was watched, confirmed because of a later
    confirmation or pass. *)
Definition watched (l : list op) (h : bytes) (e : WitnessedEvent) : Prop :=
  exists pre post, l = pre ++ OpWatch (we_SourceChain e) h (we_BlockHeight e) (we_EventType e) (we_Data e) :: post /\
    we_TxHash e = h /\ (we_Confirmed e = true -> OpConfirm h ∈ post \/ TickWitness ∈ post).
(** A feed holds what a caller gave, or a simulated price between 35 and 55 cents. *)
Definition fed (l : list op) (pair : bytes) (f : PriceFeed) : Prop :=
  pf_Pair f = pair /\
  (OpPrice pair (pf_Price f) (pf_Sources f) (pf_Timestamp f) ∈ l \/
   pair = lit "WAY/USD" /\ pf_Sources f = 3 /\ TickPrice (pf_Timestamp f) ∈ l /\
   F64.leb (F64.lit 35 100) (pf_Price f) = true /\ F64.leb (pf_Price f) (F64.lit 55 100) = true).

Record accounted (id : bytes) (w : World) (l : list op) (o : Oracle) : Prop := {
  acc_id : oc_ID (or_client o) = id;
  acc_logs : or_state o = with_logs (logs w ++ attested_logs id l) w;
  acc_count : oc_TotalAttestations (or_client o) = u64 (Z.of_nat (length (attested_logs id l)));
  acc_events : forall h e, oc_PendingEvents (or_client o) !! h = Some e -> watched l h e;
  acc_feeds : forall p f, oc_PriceFeeds (or_client o) !! p = Some f -> fed l p f;
}.

(** ** Lemmas *)

(** The simulated prices of all clocks. *)
Lemma prices_bounded :
  forallb (fun r => let p := simulated_price (r - 99) in
    F64.leb (F64.lit 35 100) p && F64.leb p (F64.lit 55 100)) (map Z.of_nat (seq 0 199)) = true.
Proof. vm_compute. reflexivity. Qed.
Lemma price_rem now : simulated_price now = simulated_price (Z.rem now 100).
Proof. unfold simulated_price. rewrite Z.rem_rem by lia. done. Qed.
Lemma simulated_price_bounds now :
  F64.leb (F64.lit 35 100) (simulated_price now) = true /\ F64.leb (simulated_price now) (F64.lit 55 100) = true.
Proof.
  rewrite price_rem. assert (Hr : -99 <= Z.rem now 100 <= 99) by (pose proof (Z.rem_bound_abs now 100); lia).
  pose proof prices_bounded as H. rewrite forallb_forall in H.
  specialize (H (Z.rem now 100 + 99)). cbv beta zeta in H. rewrite Z.add_simpl_r in H. apply andb_prop, H.
  apply in_map_iff. exists (Z.to_nat (Z.rem now 100 + 99)). split; [lia|]. apply in_seq. lia.
Qed.

Lemma watched_snoc l x h e : watched l h e -> watched (l ++ [x]) h e.
Proof.
  intros (pre & post & -> & Hh & Hc). exists pre, (post ++ [x]). split_and!; [by rewrite <- app_assoc|done|].
  intros H. destruct (Hc H); [left|right]; apply elem_of_app; by left.
Qed.
Lemma watched_confirm l x h e :
  (x = OpConfirm h \/ x = TickWitness) -> watched l h e -> watched (l ++ [x]) h (confirmed e).
Proof.
  intros Hx (pre & post & -> & Hh & _). exists pre, (post ++ [x]). split_and!; [by rewrite <- app_assoc|done|].
  intros _. destruct Hx as [<-|<-]; [left|right]; apply elem_of_app; right; by apply list_elem_of_singleton.
Qed.
Lemma fed_snoc l x p f : fed l p f -> fed (l ++ [x]) p f.
Proof.
  intros [Hp H]. split; [done|]. destruct H as [H|(A & B & H & C)].
  - left. apply elem_of_app. by left.
  - right. split_and!; [done|done|apply elem_of_app; by left|apply C..].
Qed.
Lemma attested_snoc id l x :
  attested_logs id (l ++ [x]) = attested_logs id l ++ match attested_log id x with Some e => [e] | None => [] end.
Proof. unfold attested_logs. rewrite omap_app. cbn. by destruct (attested_log id x). Qed.

(** A step that changes neither the log nor the table of events or feeds, except
    by entries that are accounted for. *)
Lemma accounted_step id w l x o o' :
  accounted id w l o ->
  oc_ID (or_client o') = oc_ID (or_client o) ->
  or_state o' = match attested_log id x with Some e => with_logs (logs (or_state o) ++ [e]) (or_state o) | None => or_state o end ->
  oc_TotalAttestations (or_client o') =
    match attested_log id x with Some _ => u64 (oc_TotalAttestations (or_client o) + 1) | None => oc_TotalAttestations (or_client o) end ->
  (forall h e, oc_PendingEvents (or_client o') !! h = Some e ->
     oc_PendingEvents (or_client o) !! h = Some e \/ watched (l ++ [x]) h e) ->
  (forall p f, oc_PriceFeeds (or_client o') !! p = Some f -> oc_PriceFeeds (or_client o) !! p = Some f \/ fed (l ++ [x]) p f) ->
  accounted id w (l ++ [x]) o'.
Proof.
  intros [H1 H2 H3 H4 H5] E1 E2 E3 E4 E5. constructor.
  - congruence.
  - rewrite E2, attested_snoc, H2. destruct (attested_log id x); [by rewrite app_assoc|by rewrite app_nil_r].
  - rewrite E3, attested_snoc, H3, length_app. destruct (attested_log id x); cbn [length]; [|by rewrite Nat.add_0_r].
    rewrite u64_add_l. f_equal. lia.
  - intros h e He. destruct (E4 _ _ He) as [He'|He']; [|done]. apply watched_snoc; auto.
  - intros p f Hf. destruct (E5 _ _ Hf) as [Hf'|Hf']; [|done]. apply fed_snoc; auto.
Qed.

(** A tick does nothing to the tables, ends the loop, or is its body. *)
Lemma loop_tick_inv running leave body o o' :
  loop_tick running leave body o = (Ok tt, o') -> o' = o \/ o' = leave o \/ body o = (Ok tt, o').
Proof.
  cbv [loop_tick client gets modify mbind M_bind mret M_ret]. destruct (running o =? 0)%nat; [intros H; left; congruence|].
  destruct (idle _); [intros H; right; left; congruence|]. intros H. right; right; done.
Qed.

Ltac same_entry := by left.
Ltac unfold_run H := cbv [client on_client gets modify mbind M_bind mret M_ret panic] in H; cbn beta iota zeta in H.
Lemma do_op_accounted id w l x o o' :
  accounted id w l o -> do_op x o = (Ok tt, o') -> accounted id w (l ++ [x]) o'.
Proof.
  intros Ha Hx. pose proof Ha as [Hid Hlog Hcount Hev Hfd]. destruct x as [| |t d t1 t2|s h b e d|h|p v s now|c|now| |el]; cbn [do_op] in Hx.
  1,2,7: injection Hx as <-; eapply accounted_step; [exact Ha|done..|same_entry|same_entry].
  - injection Hx as <-. eapply accounted_step; [exact Ha|done| | |same_entry|same_entry]; cbn; [by rewrite <- Hid|done].
  - unfold WatchEvent, short_hash in Hx. unfold_run Hx. destruct (length h <? 8)%nat; [discriminate|injection Hx as <-].
    eapply accounted_step; [exact Ha|done..| |same_entry]. cbn. intros h' e' H. apply lookup_insert_Some in H as [[<- <-]|[_ H]]; [right|by left].
    exists l, []. by split_and!.
  - unfold ConfirmEvent in Hx. unfold_run Hx. injection Hx as <-. eapply accounted_step; [exact Ha|cbn; by destruct (oc_PendingEvents (or_client o) !! h)|cbn; done|cbn; by destruct (oc_PendingEvents (or_client o) !! h)| |]; cbn.
    + intros h' e'. destruct (oc_PendingEvents (or_client o) !! h) as [e|] eqn:Eh; cbn; [|by left].
      intros H. apply lookup_insert_Some in H as [[<- <-]|[_ H]]; [right|by left]. apply watched_confirm; auto.
    + destruct (oc_PendingEvents (or_client o) !! h); same_entry.
  - injection Hx as <-. eapply accounted_step; [exact Ha|done..|same_entry|]. cbn. intros p' f H.
    apply lookup_insert_Some in H as [[<- <-]|[_ H]]; [right|by left]. split; [done|left]. apply elem_of_app. right. by apply list_elem_of_singleton.
  - apply loop_tick_inv in Hx as [->|[->|Hx]]; [eapply accounted_step; [exact Ha|done..|same_entry|same_entry] ..|].
    injection Hx as <-. eapply accounted_step; [exact Ha|done..|same_entry|]. cbn. intros p' f H.
    apply lookup_insert_Some in H as [[<- <-]|[_ H]]; [right|by left]. split; [done|right]. split_and!; [done|done| |apply simulated_price_bounds..].
    apply elem_of_app. right. by apply list_elem_of_singleton.
  - apply loop_tick_inv in Hx as [->|[->|Hx]]; [eapply accounted_step; [exact Ha|done..|same_entry|same_entry] ..|].
    unfold_run Hx. destruct (unprintable _); [discriminate|]. injection Hx as <-. eapply accounted_step; [exact Ha|done..| |same_entry].
    cbn. intros h' e' H. apply lookup_fmap_Some in H as (e & <- & H). right. apply watched_confirm; auto.
  - apply loop_tick_inv in Hx as [->|[->|Hx]]; [eapply accounted_step; [exact Ha|done..|same_entry|same_entry] ..|].
    injection Hx as <-. eapply accounted_step; [exact Ha|done..|same_entry|same_entry].
Qed.

Lemma do_ops_accounted id w l ops o o' :
  accounted id w l o -> do_ops ops o = (Ok tt, o') -> accounted id w (l ++ ops) o'.
Proof.
  revert l o. induction ops as [|x ops IH]; intros l o Ha H; cbn [do_ops] in H.
  - injection H as <-. by rewrite app_nil_r.
  - apply bind_inv in H as ([] & o1 & H1 & H). rewrite cons_middle, app_assoc. eapply IH; [|exact H]. by eapply do_op_accounted.
Qed.

(** ** Properties *)

(** Whatever a client does, its books hold.  It writes exactly one log entry for
    each attestation, in order, under its own name, and touches nothing else of the
    chain state; the counter counts them; a pending event was watched with these
    fields, and is confirmed only after a confirmation or a pass; a feed holds a
    price a caller gave, or a simulated one, which lies between 35 and 55 cents at
    any time of any clock. *)
Theorem oracle_accounts id level now w ops o :
  do_ops ops (launch id level now w) = (Ok tt, o) -> accounted id w ops o.
Proof.
  intros H. apply (do_ops_accounted id w [] ops (launch id level now w) o); [|exact H]. constructor; cbn; try done.
  by rewrite app_nil_r; destruct w.
Qed.

(** ** What the code does that its comments do not say *)

Lemma price_floor_is_dead now :
  simulated_price now = F64.add (F64.lit 50 100) (F64.mul (F64.sub (F64.of_Z (Z.rem now 100)) (F64.of_Z 50)) (F64.lit 1 1000)).
Proof.
  pose proof (simulated_price_bounds now) as [H _]. unfold simulated_price in *. destruct (F64.ltb _ _); [|done].
  exfalso. revert H. vm_compute. discriminate.
Qed.

(** An attestation puts a stopped client back to work: its loops go on. *)
Lemma attesting_undoes_stop o t d t1 t2 :
  oc_Status (or_client ((Stop ;;; Attest t d t1 t2) o).2) = StatusWatching.
Proof. done. Qed.

(** A restart adds loops to those that have not ticked since the stop. *)
Lemma restart_doubles_loops o : or_price o = 1%nat -> or_price ((Stop ;;; Start) o).2 = 2%nat.
Proof. intros H. change (S (or_price o) = 2%nat). by rewrite H. Qed.

(** A hash of less than eight characters stops the process after it is recorded. *)
Lemma short_hash_panics o s h b e d : (length h < 8)%nat -> (WatchEvent s h b e d o).1 = Panic.
Proof. intros H. unfold WatchEvent, short_hash. by rewrite (proj2 (Nat.ltb_lt _ _) H). Qed.

(** One pass confirms an event, whatever its height. *)
Lemma one_pass_confirms o h e :
  or_witness o <> 0%nat -> idle (oc_Status (or_client o)) = false -> unprintable (oc_PendingEvents (or_client o)) = false ->
  oc_PendingEvents (or_client o) !! h = Some e ->
  oc_PendingEvents (or_client (witnessLoop o).2) !! h = Some (confirmed e).
Proof.
  intros Hn Hi Hu He. unfold witnessLoop, loop_tick. cbv [client gets mbind M_bind]. rewrite (proj2 (Nat.eqb_neq _ _) Hn), Hi. cbv beta iota.
  rewrite Hu. cbn. by rewrite lookup_fmap, He.
Qed.

(** The level of a client restricts nothing. *)
Lemma level_one_attests t d t1 t2 w :
  is_ok (Attest t d t1 t2 (launch (lit "oracle-backup") 1 0 w)).1 = true.
Proof. done. Qed.

(** ** Witnesses *)

Abbreviation oracle_session :=
  [OpAddChain (lit "bitcoin"); OpStart; OpWatch (lit "bitcoin") (lit "abc123def456") 840000 (lit "Transfer(1.5 BTC)") (lit "btc_tx_data");
   OpAttest AttestTx (lit "btc:tx") 1700000000 1700000000; TickPrice 1700000017; TickWitness; TickHealth 17; OpStop].
Abbreviation oracle_run := (do_ops oracle_session (launch (lit "oracle-primary") 3 1700000000 NewStateDB)).
Lemma oracle_accounts_witness :
  is_ok oracle_run.1 = true /\ accounted (lit "oracle-primary") NewStateDB oracle_session oracle_run.2.
Proof.
  assert (H : oracle_run = (Ok tt, oracle_run.2)) by (vm_compute; reflexivity).
  split; [vm_compute; reflexivity|]. exact (oracle_accounts _ _ _ _ _ _ H).
Defined.
